(** * ROS2 recording dashboard: a shallow embedding of the core logic

    The development follows the Python sources module by module:
    - [PerformanceModes]  : core/performance_modes.py
    - [RecordingTriggers] : core/recording_triggers.py
    - [IsolationTest]     : test_recording_isolation.py
    - [NetworkDiscovery]  : core/network_discovery.py
    - [MetricsCollector]  : core/metrics_collector.py
    - [UploadServer]      : upload_server.py
    with [PyStr] for the string methods the sources call, [MD5] for the
    digest of [hashlib] and [PyFloat] for the double arithmetic of the
    upload progress.

    Python dictionaries are finite maps ([gmap]) unless their order is
    observable, Python sets are [gset]s, and Python floats that only ever
    hold exactly representable values are rationals ([Q]); comparisons of
    a float with an integer literal are exact, so they are comparisons in
    [Q]. Where the rounding of a float is observable (the progress that the
    upload server reports) the float is an IEEE 754 binary64 value
    ([PyFloat]). Calls that leave the process (psutil, subprocess, the
    clock, the file system) are explicit inputs or explicit state. *)

From Stdlib Require Import ZArith QArith Qround List Ascii String Bool Lia.
From Stdlib Require Import Init.Byte.
From Stdlib Require Import Floats.SpecFloat.
From stdpp Require Import base gmap strings list fin_maps pretty sorting.
Import ListNotations.

Local Open Scope Z_scope.
Local Open Scope string_scope.

(** ** Python values that appear in the dictionaries of the sources *)

(** The values stored in the settings and metrics dictionaries. *)
Inductive pyval : Type :=
| PyInt (z : Z)
| PyFloat (q : Q)
| PyBool (b : bool)
| PyStr (s : string).

(** [x < y] on floats, as a boolean. *)
Definition Qlt_bool (x y : Q) : bool := negb (Qle_bool y x).

(** ** core/performance_modes.py *)
Module PerformanceModes.

Inductive PerformanceMode : Type := HIGH | BALANCED | LOW | CUSTOM.

(** The dictionary returned by [_detect_system_specs]; its seven keys are
    fixed, so it is a record. *)
Record SystemInfo : Type := {
  memory_gb : Q;
  cpu_count : Z;
  cpu_freq_mhz : Q;
  disk_gb : Q;
  is_ssd : bool;
  platform : string;
  architecture : string
}.

Record PerformanceModeManager : Type := {
  _current_mode : option PerformanceMode;
  _custom_settings : option (gmap string pyval);
  system_info : SystemInfo
}.

(** The record returned when a probe raises. *)
Definition fallback_system_info : SystemInfo :=
  {| memory_gb := 8; cpu_count := 4; cpu_freq_mhz := 2000; disk_gb := 256;
     is_ssd := false; platform := "Unknown"; architecture := "Unknown" |}.

Definition _auto_detect_mode (self : PerformanceModeManager) : PerformanceMode :=
  let memory_gb := memory_gb (system_info self) in
  let cpu_count := cpu_count (system_info self) in
  if Qle_bool 16 memory_gb && (8 <=? cpu_count)%Z then HIGH
  else if Qlt_bool memory_gb 8 || (cpu_count <? 4)%Z then LOW
  else BALANCED.

(** Python truthiness of a dictionary: non-empty. *)
Definition dict_truthy (o : option (gmap string pyval)) : bool :=
  match o with
  | Some d => negb (bool_decide (d = ∅))
  | None => false
  end.

Definition high_settings : gmap string pyval :=
  <["ros2_update_interval" := PyInt 1000]> (
  <["metrics_update_interval" := PyInt 250]> (
  <["history_update_interval" := PyInt 5000]> (
  <["chart_update_interval" := PyInt 500]> (
  <["max_threads" := PyInt 6]> (
  <["max_concurrent_threads" := PyInt 4]> (
  <["cache_timeout" := PyInt 1]> (
  <["system_metrics_cache" := PyFloat (1 # 2)]> (
  <["topic_check_interval" := PyInt 1]> (
  <["chart_buffer_size" := PyInt 120]> (
  <["chart_auto_pause" := PyBool false]> (
  <["history_max_entries" := PyInt 1000]> (
  <["enable_profiler" := PyBool true]> (
  <["enable_advanced_features" := PyBool true]> (
  <["lazy_load_widgets" := PyBool false]> (
  <["process_priority" := PyStr "normal"]> ∅))))))))))))))).

Definition balanced_settings : gmap string pyval :=
  <["ros2_update_interval" := PyInt 3000]> (
  <["metrics_update_interval" := PyInt 500]> (
  <["history_update_interval" := PyInt 15000]> (
  <["chart_update_interval" := PyInt 1000]> (
  <["max_threads" := PyInt 3]> (
  <["max_concurrent_threads" := PyInt 2]> (
  <["cache_timeout" := PyInt 3]> (
  <["system_metrics_cache" := PyInt 1]> (
  <["topic_check_interval" := PyInt 3]> (
  <["chart_buffer_size" := PyInt 60]> (
  <["chart_auto_pause" := PyBool true]> (
  <["history_max_entries" := PyInt 500]> (
  <["enable_profiler" := PyBool true]> (
  <["enable_advanced_features" := PyBool true]> (
  <["lazy_load_widgets" := PyBool true]> (
  <["process_priority" := PyStr "normal"]> ∅))))))))))))))).

Definition low_settings : gmap string pyval :=
  <["ros2_update_interval" := PyInt 5000]> (
  <["metrics_update_interval" := PyInt 1000]> (
  <["history_update_interval" := PyInt 30000]> (
  <["chart_update_interval" := PyInt 2000]> (
  <["max_threads" := PyInt 2]> (
  <["max_concurrent_threads" := PyInt 1]> (
  <["cache_timeout" := PyInt 5]> (
  <["system_metrics_cache" := PyInt 2]> (
  <["topic_check_interval" := PyInt 5]> (
  <["chart_buffer_size" := PyInt 30]> (
  <["chart_auto_pause" := PyBool true]> (
  <["history_max_entries" := PyInt 200]> (
  <["enable_profiler" := PyBool false]> (
  <["enable_advanced_features" := PyBool true]> (
  <["lazy_load_widgets" := PyBool true]> (
  <["process_priority" := PyStr "below_normal"]> ∅))))))))))))))).

(** [get_mode_settings(mode=None)]. A manager under construction has no
    current mode yet; the comparison chain then ends in the final [else]. *)
Definition get_mode_settings (self : PerformanceModeManager)
    (mode : option PerformanceMode) : gmap string pyval :=
  let mode := match mode with None => _current_mode self | Some _ => mode end in
  match mode with
  | Some CUSTOM =>
      if dict_truthy (_custom_settings self)
      then default ∅ (_custom_settings self)
      else low_settings
  | Some HIGH => high_settings
  | Some BALANCED => balanced_settings
  | _ => low_settings
  end.

(** The table of section 4.2 of the specification, row by row:
    key, HIGH, BALANCED, LOW. *)
Definition spec_table : list (string * (pyval * pyval * pyval)) :=
  [ ("ros2_update_interval",     (PyInt 1000, PyInt 3000, PyInt 5000));
    ("metrics_update_interval",  (PyInt 250, PyInt 500, PyInt 1000));
    ("history_update_interval",  (PyInt 5000, PyInt 15000, PyInt 30000));
    ("chart_update_interval",    (PyInt 500, PyInt 1000, PyInt 2000));
    ("max_threads",              (PyInt 6, PyInt 3, PyInt 2));
    ("max_concurrent_threads",   (PyInt 4, PyInt 2, PyInt 1));
    ("cache_timeout",            (PyInt 1, PyInt 3, PyInt 5));
    ("system_metrics_cache",     (PyFloat (1 # 2), PyInt 1, PyInt 2));
    ("topic_check_interval",     (PyInt 1, PyInt 3, PyInt 5));
    ("chart_buffer_size",        (PyInt 120, PyInt 60, PyInt 30));
    ("chart_auto_pause",         (PyBool false, PyBool true, PyBool true));
    ("history_max_entries",      (PyInt 1000, PyInt 500, PyInt 200));
    ("enable_profiler",          (PyBool true, PyBool true, PyBool false));
    ("enable_advanced_features", (PyBool true, PyBool true, PyBool true));
    ("lazy_load_widgets",        (PyBool false, PyBool true, PyBool true));
    ("process_priority",         (PyStr "normal", PyStr "normal", PyStr "below_normal")) ].

(** The column of [spec_table] for one of the three fixed modes. *)
Definition spec_column (mode : PerformanceMode) : list (string * pyval) :=
  map (fun row =>
         let '(k, (h, b, l)) := row in
         (k, match mode with HIGH => h | BALANCED => b | _ => l end))
      spec_table.

(** A manager under construction, once the specification is detected. *)
Definition detected (info : SystemInfo) : PerformanceModeManager :=
  {| _current_mode := None; _custom_settings := None; system_info := info |}.

(** A manager whose detected specification has the given memory and cores. *)
Definition specs (mem : Q) (cpu : Z) : PerformanceModeManager :=
  detected {| memory_gb := mem; cpu_count := cpu;
              cpu_freq_mhz := 2000; disk_gb := 256; is_ssd := false;
              platform := "Linux"; architecture := "x86_64" |}.

(** [PerformanceMode.value]. *)
Definition value (mode : PerformanceMode) : string :=
  match mode with
  | HIGH => "high"
  | BALANCED => "balanced"
  | LOW => "low"
  | CUSTOM => "custom"
  end.

#[global] Instance PerformanceMode_eq_dec : EqDecision PerformanceMode.
Proof. solve_decision. Defined.

(** [PerformanceModeManager()], given what [_detect_system_specs] returned. *)
Definition new_manager (info : SystemInfo) : PerformanceModeManager :=
  let self := detected info in
  {| _current_mode := Some (_auto_detect_mode self);
     _custom_settings := _custom_settings self;
     system_info := system_info self |}.

(** [set_mode(mode)]: the manager afterwards and the texts emitted on
    [mode_changed]. *)
Definition set_mode (self : PerformanceModeManager) (mode : PerformanceMode)
  : PerformanceModeManager * list string :=
  if bool_decide (Some mode <> _current_mode self)
  then ({| _current_mode := Some mode;
           _custom_settings := _custom_settings self;
           system_info := system_info self |},
        [value mode])
  else (self, []).

(** [set_custom_settings(settings)]. *)
Definition set_custom_settings (self : PerformanceModeManager)
    (settings : gmap string pyval) : PerformanceModeManager * list string :=
  ({| _current_mode := Some CUSTOM;
      _custom_settings := Some settings;
      system_info := system_info self |},
   ["custom"]).

(** [get_current_mode()]. *)
Definition get_current_mode (self : PerformanceModeManager)
  : option PerformanceMode :=
  _current_mode self.

(** [settings.get(key, True)]. *)
Definition get_or_true (settings : gmap string pyval) (key : string) : pyval :=
  default (PyBool true) (settings !! key).

(** [should_use_feature(feature_name)]. *)
Definition should_use_feature (self : PerformanceModeManager)
    (feature_name : string) : pyval :=
  let settings := get_mode_settings self None in
  let low_end_optional_features : gmap string pyval :=
    <["performance_profiler" := get_or_true settings "enable_profiler"]> (
    <["live_charts" := PyBool true]> (
    <["recording_triggers" := get_or_true settings "enable_advanced_features"]> (
    <["export_functionality" := PyBool true]> ∅))) in
  get_or_true low_end_optional_features feature_name.

End PerformanceModes.

(** ** core/recording_triggers.py *)
Module RecordingTriggers.

(** What a signal carries. The sources render it as text
    ("Message rate 6.0 >= 5"); the numbers are kept instead of the
    rendering. *)
Inductive reason : Type :=
| RateReached (current_rate threshold : Q)
| RateDropped (threshold : Q).

(** The two signals of [RecordingTrigger]. *)
Inductive signal : Type :=
| trigger_activated (r : reason)
| trigger_deactivated (r : reason).

(** [MessageRateTrigger], with the attributes of its base class. *)
Record MessageRateTrigger : Type := {
  name : string;
  enabled : bool;
  activated : bool;
  threshold : Q
}.

(** [MessageRateTrigger(threshold_msg_per_sec, name)]. *)
Definition new_trigger (threshold_msg_per_sec : Q) (name : string) : MessageRateTrigger :=
  {| name := name; enabled := true; activated := false;
     threshold := threshold_msg_per_sec |}.

Definition set_activated (self : MessageRateTrigger) (b : bool) : MessageRateTrigger :=
  {| name := name self; enabled := enabled self; activated := b;
     threshold := threshold self |}.

(** [RecordingTrigger.reset]. *)
Definition reset (self : MessageRateTrigger) : MessageRateTrigger :=
  set_activated self false.

(** [metrics.get(key, fallback)]. *)
Definition metrics_get (metrics : gmap string Q) (key : string) (fallback : Q) : Q :=
  default fallback (metrics !! key).

(** The rate a call reads from a snapshot. *)
Definition rate_of (metrics : gmap string Q) : Q :=
  metrics_get metrics "message_rate" 0.

(** [MessageRateTrigger.check]; the facade argument is unused by the
    source. Returns the result, the signals emitted by the call in order,
    and the trigger afterwards. *)
Definition check (self : MessageRateTrigger) (metrics : gmap string Q)
  : bool * list signal * MessageRateTrigger :=
  if negb (enabled self) then (false, [], self)
  else
    let current_rate := metrics_get metrics "message_rate" 0 in
    if Qle_bool (threshold self) current_rate then
      if negb (activated self)
      then (true,
            [trigger_activated (RateReached current_rate (threshold self))],
            set_activated self true)
      else (true, [], self)
    else
      if activated self
      then (false,
            [trigger_deactivated (RateDropped (threshold self))],
            set_activated self false)
      else (false, [], self).

(** Successive [check] calls on one trigger, one per metrics snapshot. *)
Fixpoint check_stream (self : MessageRateTrigger) (stream : list (gmap string Q))
  : list (bool * list signal) :=
  match stream with
  | [] => []
  | metrics :: rest =>
      let '(result, signals, self') := check self metrics in
      (result, signals) :: check_stream self' rest
  end.

(** A metrics snapshot that carries only a message rate. *)
Definition rate_snapshot (rate : Q) : gmap string Q := {[ "message_rate" := rate ]}.

Inductive edge : Type := Activation | Deactivation.

Definition edge_of (s : signal) : edge :=
  match s with
  | trigger_activated _ => Activation
  | trigger_deactivated _ => Deactivation
  end.

(** The specification's reading of one call: the result is
    [rate >= t]; an activation is due on a transition from below [t] to
    [>= t], a deactivation on a transition from [>= t] to below. Before the
    first call nothing was observed, which counts as below. *)
Definition was_at_least (t : Q) (previous : option Q) : bool :=
  match previous with
  | Some p => Qle_bool t p
  | None => false
  end.

Definition expected_call (t : Q) (previous : option Q) (rate : Q) : bool * list edge :=
  let now_at_least := Qle_bool t rate in
  (now_at_least,
   if now_at_least && negb (was_at_least t previous) then [Activation]
   else if negb now_at_least && was_at_least t previous then [Deactivation]
   else []).

Fixpoint expected_stream (t : Q) (previous : option Q) (rates : list Q)
  : list (bool * list edge) :=
  match rates with
  | [] => []
  | rate :: rest => expected_call t previous rate :: expected_stream t (Some rate) rest
  end.

(** The same reading as propositions: the previous observation was
    [>= t]; the rate passes upwards; the rate passes downwards. *)
Definition previously_at_least (t : Q) (previous : option Q) : Prop :=
  exists p, previous = Some p /\ (t <= p)%Q.

Definition rises (t : Q) (previous : option Q) (rate : Q) : Prop :=
  (t <= rate)%Q /\ ~ previously_at_least t previous.

Definition falls (t : Q) (previous : option Q) (rate : Q) : Prop :=
  (rate < t)%Q /\ previously_at_least t previous.

(** The edges of a run, call by call. *)
Definition edges_of_run (run : list (bool * list signal)) : list (bool * list edge) :=
  map (fun call => (fst call, map edge_of (snd call))) run.

Definition is_activation (e : edge) : bool :=
  match e with Activation => true | Deactivation => false end.

Definition count_edges (p : edge -> bool) (run : list (bool * list edge)) : nat :=
  length (filter (fun e => p e = true) (concat (map snd run))).

End RecordingTriggers.

(** ** Python floats: IEEE 754 binary64 *)
Module PyFloat.

(** A [float] is a double. The operations are those of the specification
    of IEEE 754 arithmetic in the library, at precision 53 with exponents
    up to 1024, rounding to nearest, ties to even. *)
Definition float : Type := spec_float.

Definition prec : Z := 53.
Definition emax : Z := 1024.

(** The integer [z] as an exact, not yet rounded, binary number. *)
Definition exact (z : Z) : spec_float :=
  match z with
  | Z0 => S754_zero false
  | Zpos m => S754_finite false m 0
  | Zneg m => S754_finite true m 0
  end.

Definition is_infinite (x : float) : bool :=
  match x with S754_infinity _ => true | _ => false end.

Definition is_zero (x : float) : bool :=
  match x with S754_zero _ => true | _ => false end.

(** [float(z)] for an integer: the nearest double, [None] when [z] is too
    large for one ([OverflowError]). *)
Definition of_int (z : Z) : option float :=
  let x := binary_normalize prec emax z 0 false in
  if is_infinite x then None else Some x.

(** [a / b] for two integers with [b] not zero: the double nearest to the
    quotient, [None] when that is too large ([OverflowError]). *)
Definition int_truediv (a b : Z) : option float :=
  let x := SFdiv prec emax (exact a) (exact b) in
  if is_infinite x then None else Some x.

(** [x / y] for two floats with [y] not zero, and [x * y]. *)
Definition div (x y : float) : float := SFdiv prec emax x y.
Definition mul (x y : float) : float := SFmul prec emax x y.

(** The float [100.0]. *)
Definition hundred : float := binary_normalize prec emax 100 0 false.

(** The integer a float is equal to, if it is equal to one. *)
Definition to_int (x : float) : option Z :=
  match x with
  | S754_zero _ => Some 0%Z
  | S754_finite s m e =>
      let magnitude :=
        match e with
        | Z0 => Some (Zpos m)
        | Zpos _ => Some (Z.shiftl (Zpos m) e)
        | Zneg p =>
            if (Z.land (Zpos m) (Z.ones (Zpos p)) =? 0)%Z
            then Some (Z.shiftr (Zpos m) (Zpos p)) else None
        end in
      match magnitude with
      | Some v => Some (if s then (- v)%Z else v)
      | None => None
      end
  | _ => None
  end.

(** [z == x] for an integer and a float: Python compares the two values
    exactly. *)
Definition int_eqb (z : Z) (x : float) : bool :=
  match to_int x with
  | Some v => (z =? v)%Z
  | None => false
  end.

End PyFloat.

(** ** test_recording_isolation.py *)
Module IsolationTest.

(** A value of a health reading. *)
Inductive value : Type :=
| VNone
| VBool (b : bool)
| VInt (z : Z)
| VFloat (q : Q)
| VStr (s : string)
| VList (items : list string).

(** The dictionary that [get_recording_health] returns. The facade is
    outside the sources at hand: what it returns is an input, and nothing
    is assumed of the keys a reading holds. *)
Abbreviation reading := (gmap string value).

(** What a statement raises, as far as the handlers of the script tell
    it apart: [psutil.NoSuchProcess], [KeyboardInterrupt], and the other
    subclasses of [Exception]. *)
Inductive exception : Type :=
| NoSuchProcess
| KeyboardInterrupt
| KeyError
| TypeError
| ValueError
| OverflowError
| OtherException.

(** A statement returns or raises. *)
Inductive result (A : Type) : Type :=
| Ok (a : A)
| Raise (e : exception).
Arguments Ok {A} a.
Arguments Raise {A} e.

Definition bind {A B : Type} (m : result A) (k : A -> result B) : result B :=
  match m with
  | Ok a => k a
  | Raise e => Raise e
  end.

Notation "'do' x <- m ; k" := (bind m (fun x => k))
  (at level 10, x name, m at level 100, k at level 200).

(** [d[key]]. *)
Definition item (d : reading) (key : string) : result value :=
  match d !! key with
  | Some v => Ok v
  | None => Raise KeyError
  end.

(** [f"{v:.1f}"]: a number is formatted, an integer too large for a float
    and anything that is no number raise. *)
Definition format_1f (v : value) : result unit :=
  match v with
  | VBool _ | VFloat _ => Ok tt
  | VInt z =>
      match PyFloat.of_int z with
      | Some _ => Ok tt
      | None => Raise OverflowError
      end
  | VNone | VList _ => Raise TypeError
  | VStr _ => Raise ValueError
  end.

(** Truthiness of a value, and of what [get_recording_health] returned:
    [None] and the empty dictionary are false. *)
Definition truthy (v : value) : bool :=
  match v with
  | VNone => false
  | VBool b => b
  | VInt z => negb (z =? 0)%Z
  | VFloat q => negb (Qeq_bool q 0)
  | VStr s => negb (String.eqb s "")
  | VList items => match items with [] => false | _ :: _ => true end
  end.

Definition present (health : option reading) : option reading :=
  match health with
  | Some d => if bool_decide (d = ∅) then None else Some d
  | None => None
  end.

(** A process object of [psutil]: what its three queries do. *)
Record process : Type := {
  is_running : result bool;
  name : result string;
  status : result string
}.

(** Everything the harness meets during one run, in program order: the
    calls on the facade, the two sleeps, and [psutil.Process] as a function
    of the value it is given. [start_recording] is the truthiness of what
    the facade returns. *)
Record Observations : Type := {
  new_manager : result unit;
  start_recording : result bool;
  stabilize : result unit;
  health_before : result (option reading);
  freeze : result unit;
  health_after : result (option reading);
  Process : value -> result process;
  stop_recording : result unit
}.

(** The four lines printed for the first reading. *)
Definition print_before (d : reading) : result unit :=
  do _ <- item d "pid";
  do cpu <- item d "cpu_percent";
  do _ <- format_1f cpu;
  do memory <- item d "memory_mb";
  do _ <- format_1f memory;
  do _ <- item d "status";
  Ok tt.

(** The lines printed for the second reading, and the test of its
    warnings. *)
Definition print_after (d : reading) : result unit :=
  do _ <- item d "pid";
  do _ <- item d "elapsed_seconds";
  do cpu <- item d "cpu_percent";
  do _ <- format_1f cpu;
  do memory <- item d "memory_mb";
  do _ <- format_1f memory;
  do _ <- item d "health_checks";
  do _ <- item d "status";
  do warnings <- item d "warnings";
  if truthy warnings then do _ <- item d "warnings"; Ok tt else Ok tt.

(** The body of the [try] statement: [Some false] when it returns [False],
    [None] when control leaves it at its end. *)
Definition inspect (o : Observations) (d : reading) : result (option bool) :=
  do pid <- item d "pid";
  do process <- Process o pid;
  do running <- is_running process;
  if running then
    do _ <- name process;
    do _ <- status process;
    Ok None
  else Ok (Some false).

(** [try: ... except psutil.NoSuchProcess: return False]. *)
Definition guarded (body : result (option bool)) : result (option bool) :=
  match body with
  | Raise NoSuchProcess => Ok (Some false)
  | other => other
  end.

(** [test_recording_isolation()]: the flag it returns, or what it raises.
    Printing a text and reading the clock do not raise. *)
Definition test_recording_isolation (o : Observations) : result bool :=
  do _ <- new_manager o;
  do success <- start_recording o;
  if negb success then Ok false
  else
    do _ <- stabilize o;
    do before <- health_before o;
    do _ <- match present before with
            | Some d => print_before d
            | None => Ok tt
            end;
    do _ <- freeze o;
    do after <- health_after o;
    match present after with
    | None => Ok false
    | Some d =>
        do _ <- print_after d;
        do verdict <- guarded (inspect o d);
        match verdict with
        | Some flag => Ok flag
        | None =>
            do _ <- stop_recording o;
            Ok true
        end
    end.

(** The last lines of the script: [sys.exit(0 if success else 1)], and
    [sys.exit(1)] in both handlers. *)
Definition exit_code (o : Observations) : Z :=
  match test_recording_isolation o with
  | Ok true => 0
  | Ok false => 1
  | Raise _ => 1
  end.

(** The three checks the specification attributes to the harness. *)
Definition process_running (o : Observations) : Prop :=
  exists after pid process,
    health_after o = Ok (Some after) /\ after !! "pid" = Some pid /\
    Process o pid = Ok process /\ is_running process = Ok true.

Definition pid_unchanged (o : Observations) : Prop :=
  exists before after pid,
    health_before o = Ok (Some before) /\ health_after o = Ok (Some after) /\
    before !! "pid" = Some pid /\ after !! "pid" = Some pid.

Definition health_checks_increased (o : Observations) : Prop :=
  exists before after a b,
    health_before o = Ok (Some before) /\ health_after o = Ok (Some after) /\
    before !! "health_checks" = Some (VInt a) /\
    after !! "health_checks" = Some (VInt b) /\ (a < b)%Z.

(** The reading [d] with other values under two of its keys, where it
    holds them. *)
Definition retold (pid checks : option value) (d : reading) : reading :=
  let d := match pid with
           | Some v => alter (fun _ => v) "pid" d
           | None => d
           end in
  match checks with
  | Some v => alter (fun _ => v) "health_checks" d
  | None => d
  end.

(** The run [o] with another process id in its first reading and other
    counters in both readings. *)
Definition with_other_values (o : Observations)
    (pid_before checks_before checks_after : value) : Observations :=
  {| new_manager := new_manager o;
     start_recording := start_recording o;
     stabilize := stabilize o;
     health_before :=
       match health_before o with
       | Ok before =>
           Ok (retold (Some pid_before) (Some checks_before) <$> before)
       | Raise e => Raise e
       end;
     freeze := freeze o;
     health_after :=
       match health_after o with
       | Ok after => Ok (retold None (Some checks_after) <$> after)
       | Raise e => Raise e
       end;
     Process := Process o;
     stop_recording := stop_recording o |}.

Definition sample_health (p checks : Z) : reading :=
  {[ "pid" := VInt p; "elapsed_seconds" := VFloat 12;
     "cpu_percent" := VFloat 3; "memory_mb" := VFloat 40;
     "health_checks" := VInt checks; "status" := VStr "healthy";
     "warnings" := VList [] ]}.

(** A run in which the second reading names another process and the
    counter did not move, while that other process is running. *)
Definition other_process_run : Observations :=
  {| new_manager := Ok tt;
     start_recording := Ok true;
     stabilize := Ok tt;
     health_before := Ok (Some (sample_health 4100 5));
     freeze := Ok tt;
     health_after := Ok (Some (sample_health 4200 5));
     Process := fun pid =>
       match pid with
       | VInt 4200 => Ok {| is_running := Ok true; name := Ok "ros2";
                            status := Ok "running" |}
       | _ => Raise NoSuchProcess
       end;
     stop_recording := Ok tt |}.

(** A run in which everything the specification asks for holds, but the
    facade fails to stop the recording. *)
Definition failing_stop_run : Observations :=
  {| new_manager := Ok tt;
     start_recording := Ok true;
     stabilize := Ok tt;
     health_before := Ok (Some (sample_health 4100 5));
     freeze := Ok tt;
     health_after := Ok (Some (sample_health 4100 9));
     Process := fun pid =>
       match pid with
       | VInt 4100 => Ok {| is_running := Ok true; name := Ok "ros2";
                            status := Ok "running" |}
       | _ => Raise NoSuchProcess
       end;
     stop_recording := Raise OtherException |}.

End IsolationTest.

(** ** Python string operations used by the sources (ASCII text) *)
Module PyStr.

(** [c.lower()] on one character. *)
Definition lower_ascii (c : ascii) : ascii :=
  let n := nat_of_ascii c in
  if (65 <=? n)%nat && (n <=? 90)%nat then ascii_of_nat (n + 32) else c.

(** [s.lower()]. *)
Fixpoint lower (s : string) : string :=
  match s with
  | EmptyString => EmptyString
  | String c rest => String (lower_ascii c) (lower rest)
  end.

(** [s.startswith(p)]. *)
Fixpoint starts_with (p s : string) : bool :=
  match p, s with
  | EmptyString, _ => true
  | String a p', String b s' => Ascii.eqb a b && starts_with p' s'
  | String _ _, EmptyString => false
  end.

(** [needle in haystack]. *)
Fixpoint contains (needle haystack : string) : bool :=
  starts_with needle haystack ||
  match haystack with
  | EmptyString => false
  | String _ rest => contains needle rest
  end.

(** [s.split(sep)] for a one-character separator. *)
Fixpoint split (sep : ascii) (s : string) : list string :=
  match s with
  | EmptyString => [EmptyString]
  | String c rest =>
      if Ascii.eqb c sep then EmptyString :: split sep rest
      else match split sep rest with
           | [] => [String c EmptyString]
           | line :: lines => String c line :: lines
           end
  end.

(** [c.isspace()] on ASCII: tab, newline, vertical tab, form feed,
    carriage return, the four separators 28..31 and the space. *)
Definition is_space (c : ascii) : bool :=
  let n := nat_of_ascii c in
  ((9 <=? n)%nat && (n <=? 13)%nat) || ((28 <=? n)%nat && (n <=? 32)%nat).

Fixpoint lstrip (s : string) : string :=
  match s with
  | EmptyString => EmptyString
  | String c rest => if is_space c then lstrip rest else s
  end.

Fixpoint rstrip (s : string) : string :=
  match s with
  | EmptyString => EmptyString
  | String c rest =>
      match rstrip rest with
      | EmptyString => if is_space c then EmptyString else String c EmptyString
      | kept => String c kept
      end
  end.

(** [s.strip()]. *)
Definition strip (s : string) : string := rstrip (lstrip s).

(** Truthiness of a string: non-empty. *)
Definition truthy (s : string) : bool :=
  match s with EmptyString => false | String _ _ => true end.

Definition newline : ascii := "010"%char.

(** The blanks [int] skips at both ends of an ASCII text: tab, newline,
    vertical tab, form feed, carriage return and the space. *)
Definition is_blank (c : ascii) : bool :=
  let n := nat_of_ascii c in
  ((9 <=? n)%nat && (n <=? 13)%nat) || (n =? 32)%nat.

Fixpoint skip_blanks (s : string) : string :=
  match s with
  | EmptyString => EmptyString
  | String c rest => if is_blank c then skip_blanks rest else s
  end.

Fixpoint drop_trailing_blanks (s : string) : string :=
  match s with
  | EmptyString => EmptyString
  | String c rest =>
      match drop_trailing_blanks rest with
      | EmptyString => if is_blank c then EmptyString else String c EmptyString
      | kept => String c kept
      end
  end.

(** The value of a decimal digit. *)
Definition digit_value (c : ascii) : option Z :=
  let n := nat_of_ascii c in
  if (48 <=? n)%nat && (n <=? 57)%nat then Some (Z.of_nat (n - 48)) else None.

(** The digits of a decimal literal, read from the left: the value so far,
    the number of digits so far, and whether the previous character was a
    digit. Single underscores may stand between digits. *)
Fixpoint digits_value (acc : Z) (count : nat) (after_digit : bool) (s : string)
  : option (Z * nat) :=
  match s with
  | EmptyString => if after_digit then Some (acc, count) else None
  | String c rest =>
      if Ascii.eqb c "_"
      then if after_digit then digits_value acc count false rest else None
      else match digit_value c with
           | Some d => digits_value (acc * 10 + d) (S count) true rest
           | None => None
           end
  end.

(** [sys.get_int_max_str_digits()], at its default. *)
Definition max_str_digits : nat := Z.to_nat 4300.

(** [int(s)] for an ASCII text: [None] stands for [ValueError]. *)
Definition int_of_string (s : string) : option Z :=
  let s := drop_trailing_blanks (skip_blanks s) in
  let '(sign, literal) :=
    match s with
    | String "-" rest => ((-1)%Z, rest)
    | String "+" rest => (1%Z, rest)
    | _ => (1%Z, s)
    end in
  match digits_value 0 0 false literal with
  | Some (value, count) =>
      if (count <=? max_str_digits)%nat then Some (sign * value)%Z else None
  | None => None
  end.

(** No character of a text is a blank. *)
Fixpoint blank_free (s : string) : bool :=
  match s with
  | EmptyString => true
  | String c rest => negb (is_blank c) && blank_free rest
  end.

(** The longest prefix without white space, [\S*] of a regular
    expression, and what follows it. *)
Fixpoint span_text (s : string) : string * string :=
  match s with
  | EmptyString => (EmptyString, EmptyString)
  | String c rest =>
      if is_space c then (EmptyString, s)
      else let '(word, after) := span_text rest in (String c word, after)
  end.

(** What follows the prefix [p] in [s], when [s.startswith(p)]. *)
Fixpoint after_prefix (p s : string) : option string :=
  match p, s with
  | EmptyString, _ => Some s
  | String a p', String b s' =>
      if Ascii.eqb a b then after_prefix p' s' else None
  | String _ _, EmptyString => None
  end.

(** [r[:r.rfind(':')]], when [r] has a colon. *)
Fixpoint before_last_colon (r : string) : option string :=
  match r with
  | EmptyString => None
  | String c rest =>
      match before_last_colon rest with
      | Some kept => Some (String c kept)
      | None => if Ascii.eqb c ":" then Some EmptyString else None
      end
  end.

(** No character of the string is white space. *)
Fixpoint spaceless (s : string) : bool :=
  match s with
  | EmptyString => true
  | String c rest => negb (is_space c) && spaceless rest
  end.

(** Every character of the string is white space. *)
Fixpoint all_space (s : string) : bool :=
  match s with
  | EmptyString => true
  | String c rest => is_space c && all_space rest
  end.

(** The order of [str]: by code point, a proper prefix first. *)
Definition str_le (a b : string) : Prop := String.leb a b = true.
Definition str_lt (a b : string) : Prop := String.ltb a b = true.

#[global] Instance str_le_dec (a b : string) : Decision (str_le a b) :=
  decide (String.leb a b = true).

(** [sorted(l)] for a list of strings. *)
Definition sorted (l : list string) : list string := merge_sort str_le l.

End PyStr.

(** ** core/network_discovery.py *)
Module NetworkDiscovery.
Import PyStr.

Record ROS2Robot : Type := {
  hostname : string;
  domain_id : Z;
  nodes : list string;
  topics : list string;
  services : list string;
  last_seen : Z
}.

(** The discovery service together with the process environment
    ([os.environ]) that [set_domain] writes to. *)
Record NetworkRobotDiscovery : Type := {
  discovered_robots : gmap string ROS2Robot;
  current_domain : Z;
  environ : gmap string string
}.

(** [str(domain_id)] is the decimal rendering of the integer. *)
Definition set_domain (self : NetworkRobotDiscovery) (domain_id : Z)
  : NetworkRobotDiscovery :=
  {| discovered_robots := discovered_robots self;
     current_domain := domain_id;
     environ := <["ROS_DOMAIN_ID" := pretty domain_id]> (environ self) |}.

(** The [if]/[elif] chain of [get_robot_sensors] for one topic. All tests
    read [topic_lower] except the one for "/tf", which reads [topic]. *)
Definition category (topic : string) : string :=
  let topic_lower := lower topic in
  if contains "camera" topic_lower || contains "image" topic_lower
     || contains "/rgb" topic_lower then "cameras"
  else if contains "lidar" topic_lower || contains "scan" topic_lower
          || contains "pointcloud" topic_lower || contains "laser" topic_lower
       then "lidars"
  else if contains "imu" topic_lower then "imu"
  else if contains "gps" topic_lower || contains "navsat" topic_lower then "gps"
  else if contains "odom" topic_lower then "odometry"
  else if contains "joint_state" topic_lower then "joint_states"
  else if contains "/tf" topic || contains "transform" topic_lower then "tf"
  else "other".

(** The dictionary [sensors], in the order its keys are written. *)
Definition empty_sensors : list (string * list string) :=
  [ ("cameras", []); ("lidars", []); ("imu", []); ("gps", []);
    ("odometry", []); ("joint_states", []); ("tf", []); ("other", []) ].

(** [sensors[key].append(topic)]. *)
Fixpoint append_to (key topic : string) (sensors : list (string * list string))
  : list (string * list string) :=
  match sensors with
  | [] => []
  | (k, v) :: rest =>
      if String.eqb k key then (k, (v ++ [topic])%list) :: rest
      else (k, v) :: append_to key topic rest
  end.

Definition non_empty (entry : string * list string) : bool :=
  match snd entry with [] => false | _ :: _ => true end.

(** The classification loop and the final comprehension, for a given
    per-topic rule. *)
Definition classify_with (rule : string -> string) (robot_topics : list string)
  : list (string * list string) :=
  List.filter non_empty
    (fold_left (fun sensors topic => append_to (rule topic) topic sensors)
               robot_topics empty_sensors).

Definition get_robot_sensors (self : NetworkRobotDiscovery) (hostname : string)
  : list (string * list string) :=
  match discovered_robots self !! hostname with
  | None => []
  | Some robot => classify_with category (topics robot)
  end.

(** The rule as the specification words it: every test, the one for "/tf"
    included, is a substring test on the lower-cased topic name. *)
Definition spec_category (topic : string) : string :=
  let topic_lower := lower topic in
  if contains "camera" topic_lower || contains "image" topic_lower
     || contains "/rgb" topic_lower then "cameras"
  else if contains "lidar" topic_lower || contains "scan" topic_lower
          || contains "pointcloud" topic_lower || contains "laser" topic_lower
       then "lidars"
  else if contains "imu" topic_lower then "imu"
  else if contains "gps" topic_lower || contains "navsat" topic_lower then "gps"
  else if contains "odom" topic_lower then "odometry"
  else if contains "joint_state" topic_lower then "joint_states"
  else if contains "/tf" topic_lower || contains "transform" topic_lower then "tf"
  else "other".

Definition spec_get_robot_sensors (self : NetworkRobotDiscovery) (hostname : string)
  : list (string * list string) :=
  match discovered_robots self !! hostname with
  | None => []
  | Some robot => classify_with spec_category (topics robot)
  end.

(** A service that has discovered one robot with the given topics. *)
Definition one_robot (host : string) (robot_topics : list string)
  : NetworkRobotDiscovery :=
  {| discovered_robots :=
       {[ host := {| hostname := host; domain_id := 0; nodes := [];
                     topics := robot_topics; services := [];
                     last_seen := 0 |} ]};
     current_domain := 0;
     environ := ∅ |}.

(** [len([n for n in result.stdout.split('\n') if n.strip()])]. *)
Definition node_count (stdout : string) : nat :=
  length (List.filter (fun n => truthy (strip n)) (split newline stdout)).

(** The loop of [scan_domains]. [ros2_node_list] stands for the external
    command run under the given environment: [Some stdout] when it
    returns, [None] when the call raises (time-out, missing binary). *)
Fixpoint scan_loop (ros2_node_list : gmap string string -> option string)
    (domain_ids : list Z) (self : NetworkRobotDiscovery)
    (domain_results : gmap Z nat) : NetworkRobotDiscovery * gmap Z nat :=
  match domain_ids with
  | [] => (self, domain_results)
  | domain_id :: rest =>
      let self := set_domain self domain_id in
      let found :=
        match ros2_node_list (environ self) with
        | Some stdout => node_count stdout
        | None => 0%nat
        end in
      scan_loop ros2_node_list rest self (<[domain_id := found]> domain_results)
  end.

(** [range(start_domain, end_domain + 1)]. *)
Definition domain_range (start_domain end_domain : Z) : list Z :=
  seqZ start_domain (end_domain + 1 - start_domain).

Definition scan_domains (ros2_node_list : gmap string string -> option string)
    (self : NetworkRobotDiscovery) (start_domain end_domain : Z)
  : NetworkRobotDiscovery * gmap Z nat :=
  let original_domain := current_domain self in
  let '(self, domain_results) :=
    scan_loop ros2_node_list (domain_range start_domain end_domain) self ∅ in
  (set_domain self original_domain, domain_results).

(** The node count the scan records for a domain: the command is run with
    ROS_DOMAIN_ID set to that domain. *)
Definition probe (ros2_node_list : gmap string string -> option string)
    (env : gmap string string) (domain_id : Z) : nat :=
  match ros2_node_list (<["ROS_DOMAIN_ID" := pretty domain_id]> env) with
  | Some stdout => node_count stdout
  | None => 0%nat
  end.

(** The node count as the specification words it, the number of nodes
    the command shows: the lines of its output that hold a character other
    than white space, counted character by character. [seen] tells whether
    the line being read has shown one. *)
Fixpoint visible_lines (seen : bool) (text : string) : nat :=
  match text with
  | EmptyString => if seen then 1%nat else 0%nat
  | String c rest =>
      if Ascii.eqb c newline
      then ((if seen then 1 else 0) + visible_lines false rest)%nat
      else visible_lines (seen || negb (is_space c)) rest
  end.

(** The keys of [sensors], in the order of the dictionary literal. *)
Definition sensor_categories : list string := map fst empty_sensors.

(** The topics the [if]/[elif] chain sends to one category, in the order
    of the robot's topic list. *)
Definition topics_of_category (robot_topics : list string) (key : string)
  : list string :=
  List.filter (fun topic => String.eqb (category topic) key) robot_topics.

(** [_get_current_domain()], reading the given process environment. *)
Definition _get_current_domain (environ : gmap string string) : Z :=
  let domain := default "0" (environ !! "ROS_DOMAIN_ID") in
  default 0%Z (int_of_string domain).

(** [NetworkRobotDiscovery()] in a process with the given environment. *)
Definition new_discovery (environ : gmap string string) : NetworkRobotDiscovery :=
  {| discovered_robots := ∅;
     current_domain := _get_current_domain environ;
     environ := environ |}.

(** *** Discovery of the robots on the network *)

(** What [subprocess.run(..., capture_output=True, text=True)] returns.
    The text is ASCII, as the names of ROS are: there [\s] of a regular
    expression is [is_space] and [lower] is [str.lower]. *)
Record CompletedProcess : Type := {
  returncode : Z;
  stdout : string
}.

(** The machine the service runs on. [run k environ argv] is the answer
    to the [k]-th [subprocess.run] of the process, made with the given
    environment and command line: [None] when the call raises (time-out,
    missing binary). [clock k] is [datetime.now()] once [k] commands have
    been run. Nothing is assumed about the answers: the same command may
    answer differently each time it is run. *)
Record Machine : Type := {
  run : nat -> gmap string string -> list string -> option CompletedProcess;
  clock : nat -> Z
}.

(** A match of [(?:host|name):\s*(\S+)] that starts at the first
    character: the group. *)
Definition match_hostname_at (s : string) : option string :=
  let label :=
    match after_prefix "host:" s with
    | Some rest => Some rest
    | None => after_prefix "name:" s
    end in
  match label with
  | Some rest =>
      let group := fst (span_text (lstrip rest)) in
      if truthy group then Some group else None
  | None => None
  end.

(** [re.search(r'(?:host|name):\s*(\S+)', s)]: the group of the leftmost
    match. *)
Fixpoint search_hostname (s : string) : option string :=
  match match_hostname_at s with
  | Some group => Some group
  | None =>
      match s with
      | EmptyString => None
      | String _ rest => search_hostname rest
      end
  end.

(** [re.match(r'\s+(/\S+):', line)]: the group. The white space is the
    whole indentation, the group runs up to the last colon of the word
    that starts at the slash, and holds at least one character after the
    slash. *)
Definition match_entry (line : string) : option string :=
  let rest := lstrip line in
  if (String.length rest <? String.length line)%nat then
    match rest with
    | String "/" word =>
        match before_last_colon (fst (span_text word)) with
        | Some kept => if truthy kept then Some (String "/" kept) else None
        | None => None
        end
    | _ => None
    end
  else None.

(** A name the pattern of an entry can yield: a slash and at least one
    more character, none of them white space. *)
Definition entry_name (name : string) : bool :=
  match name with
  | String "/" (String c rest) => spaceless (String c rest)
  | _ => false
  end.

(** The line shows the name as an entry: indentation, the name, a colon. *)
Definition shows (line name : string) : Prop :=
  exists indent rest,
    line = indent ++ name ++ ":" ++ rest /\
    all_space indent = true /\ truthy indent = true.

Section Discovery.
Variable machine : Machine.

(** The functions below take the number of commands run so far and return
    it with their result. *)

Definition _get_local_hostname (self : NetworkRobotDiscovery) (calls : nat)
  : string * nat :=
  match run machine calls (environ self) ["hostname"] with
  | Some result => (strip (stdout result), S calls)
  | None => ("localhost", S calls)
  end.

Definition _get_node_hostname (self : NetworkRobotDiscovery)
    (node_name : string) (calls : nat) : string * nat :=
  match run machine calls (environ self) ["ros2"; "node"; "info"; node_name] with
  | Some result =>
      let output := lower (stdout result) in
      match search_hostname output with
      | Some group => (group, S calls)
      | None =>
          if (returncode result =? 0)%Z then _get_local_hostname self (S calls)
          else _get_local_hostname self (S calls)
      end
  | None => _get_local_hostname self (S calls)
  end.

(** [nodes_by_host[hostname].append(node)], after the entry is created
    when it is missing. The dictionary is kept in insertion order. *)
Fixpoint append_node (hostname node : string)
    (nodes_by_host : list (string * list string)) : list (string * list string) :=
  match nodes_by_host with
  | [] => [(hostname, [node])]
  | (h, listed) :: rest =>
      if String.eqb h hostname then (h, (listed ++ [node])%list) :: rest
      else (h, listed) :: append_node hostname node rest
  end.

(** The loop of [_get_nodes_by_hostname]. *)
Fixpoint group_nodes (self : NetworkRobotDiscovery) (nodes : list string)
    (nodes_by_host : list (string * list string)) (calls : nat)
  : list (string * list string) * nat :=
  match nodes with
  | [] => (nodes_by_host, calls)
  | node :: rest =>
      let '(hostname, calls) := _get_node_hostname self node calls in
      group_nodes self rest (append_node hostname node nodes_by_host) calls
  end.

(** [[n.strip() for n in stdout.split('\n') if n.strip()]]. *)
Definition listed_nodes (stdout : string) : list string :=
  map strip (List.filter (fun n => truthy (strip n)) (split newline stdout)).

Definition _get_nodes_by_hostname (self : NetworkRobotDiscovery) (calls : nat)
  : list (string * list string) * nat :=
  match run machine calls (environ self) ["ros2"; "node"; "list"] with
  | Some result =>
      if negb (returncode result =? 0)%Z then ([], S calls)
      else group_nodes self (listed_nodes (stdout result)) [] (S calls)
  | None => ([], S calls)
  end.

(** The headers that open and close the section read by
    [_get_topics_for_nodes] and by [_get_services_for_nodes]. *)
Definition topics_open (line : string) : bool :=
  contains "Subscribers:" line || contains "Publishers:" line.
Definition topics_close (line : string) : bool :=
  contains "Service Servers:" line || contains "Service Clients:" line.
Definition services_open (line : string) : bool :=
  contains "Service Servers:" line.
Definition services_close (line : string) : bool :=
  contains "Service Clients:" line || contains "Action Servers:" line.

(** The loop over the lines of one node's description, which both
    functions share up to their headers. *)
Fixpoint scan_lines (opens closes : string -> bool) (lines : list string)
    (in_section : bool) (found : gset string) : gset string :=
  match lines with
  | [] => found
  | line :: rest =>
      if opens line then scan_lines opens closes rest true found
      else if closes line then scan_lines opens closes rest false found
      else if in_section && truthy (strip line) then
        match match_entry line with
        | Some name => scan_lines opens closes rest in_section ({[ name ]} ∪ found)
        | None => scan_lines opens closes rest in_section found
        end
      else scan_lines opens closes rest in_section found
  end.

(** Line [k] of [lines] lies in the section: a line before it opens the
    section and no line between the two closes it. A line closes the
    section when it holds a closing header and no opening one. *)
Definition in_section (opens closes : string -> bool) (lines : list string)
    (k : nat) : Prop :=
  exists j header,
    (j < k)%nat /\ lines !! j = Some header /\ opens header = true /\
    forall m between, (j < m < k)%nat -> lines !! m = Some between ->
      opens between = true \/ closes between = false.

(** The loop over the nodes: a node whose command raises is skipped. *)
Fixpoint scan_nodes (opens closes : string -> bool)
    (self : NetworkRobotDiscovery) (nodes : list string)
    (found : gset string) (calls : nat) : gset string * nat :=
  match nodes with
  | [] => (found, calls)
  | node :: rest =>
      match run machine calls (environ self) ["ros2"; "node"; "info"; node] with
      | Some result =>
          scan_nodes opens closes self rest
            (scan_lines opens closes (split newline (stdout result)) false found)
            (S calls)
      | None => scan_nodes opens closes self rest found (S calls)
      end
  end.

(** The description of one of the nodes, as the scan that starts after
    [calls] commands obtains it, shows the name as an entry of the
    section. *)
Definition printed (opens closes : string -> bool)
    (self : NetworkRobotDiscovery) (nodes : list string) (calls : nat)
    (name : string) : Prop :=
  exists i node result k line,
    nodes !! i = Some node /\
    run machine (calls + i) (environ self) ["ros2"; "node"; "info"; node]
      = Some result /\
    split newline (stdout result) !! k = Some line /\
    shows line name /\
    in_section opens closes (split newline (stdout result)) k.

Definition _get_topics_for_nodes (self : NetworkRobotDiscovery)
    (nodes : list string) (calls : nat) : list string * nat :=
  let '(topics, calls) := scan_nodes topics_open topics_close self nodes ∅ calls in
  (sorted (elements topics), calls).

Definition _get_services_for_nodes (self : NetworkRobotDiscovery)
    (nodes : list string) (calls : nat) : list string * nat :=
  let '(services, calls) :=
    scan_nodes services_open services_close self nodes ∅ calls in
  (sorted (elements services), calls).

(** The body of the loop of [discover_network_robots]: the robot built for
    one host and its nodes. *)
Definition build_robot (self : NetworkRobotDiscovery) (host_name : string)
    (listed : list string) (calls : nat) : ROS2Robot * nat :=
  let '(found_topics, calls) := _get_topics_for_nodes self listed calls in
  let '(found_services, calls) := _get_services_for_nodes self listed calls in
  ({| hostname := host_name;
      domain_id := current_domain self;
      nodes := listed;
      topics := found_topics;
      services := found_services;
      last_seen := clock machine calls |}, calls).

(** The loop of [discover_network_robots] over [nodes_by_host.items()]. *)
Fixpoint record_robots (groups : list (string * list string))
    (self : NetworkRobotDiscovery) (calls : nat) : NetworkRobotDiscovery * nat :=
  match groups with
  | [] => (self, calls)
  | (host_name, listed) :: rest =>
      let '(robot, calls) := build_robot self host_name listed calls in
      record_robots rest
        {| discovered_robots := <[host_name := robot]> (discovered_robots self);
           current_domain := current_domain self;
           environ := environ self |}
        calls
  end.

(** [discover_network_robots()]: the dictionary it returns, the service
    and the number of commands run. No statement of its [try] block
    raises, the functions it calls catch what their commands raise. *)
Definition discover_network_robots (self : NetworkRobotDiscovery) (calls : nat)
  : gmap string ROS2Robot * NetworkRobotDiscovery * nat :=
  let '(nodes_by_host, calls) := _get_nodes_by_hostname self calls in
  let '(self, calls) := record_robots nodes_by_host self calls in
  (discovered_robots self, self, calls).

End Discovery.

(** ['\n'.join(lines)], to write down what a command prints. *)
Fixpoint join_lines (lines : list string) : string :=
  match lines with
  | [] => ""
  | [line] => line
  | line :: rest => line ++ String newline (join_lines rest)
  end.

(** What [ros2 node list] prints in four domains: two nodes in domain 0, a
    time-out in domain 1, blank lines only in domain 2, one node without a
    final line break in domain 3, and nothing elsewhere. *)
Definition sample_domains (env : gmap string string) : option string :=
  match env !! "ROS_DOMAIN_ID" with
  | Some "0" => Some (join_lines ["/talker"; "/listener"; ""])
  | Some "1" => None
  | Some "2" => Some (join_lines [""; "   "; ""])
  | Some "3" => Some "  /camera_driver"
  | _ => Some ""
  end.

(** A machine on a network with three nodes: one names its host, one does
    not, and the description of the third cannot be had. *)
Definition talker_info : string :=
  join_lines
    [ "/talker";
      "  Host: Robot1";
      "  Subscribers:";
      "    /parameter_events: rcl_interfaces/msg/ParameterEvent";
      "  Publishers:";
      "    /chatter: std_msgs/msg/String";
      "    /camera/image_raw: sensor_msgs/msg/Image";
      "    /chatter: std_msgs/msg/String";
      "  Service Servers:";
      "    /talker/get_parameters: rcl_interfaces/srv/GetParameters";
      "  Service Clients:";
      "";
      "  Action Servers:";
      "" ].

Definition listener_info : string :=
  join_lines
    [ "/listener";
      "  Subscribers:";
      "    /chatter: std_msgs/msg/String";
      "  Publishers:";
      "  Service Servers:";
      "    /listener/set_parameters: rcl_interfaces/srv/SetParameters";
      "  Service Clients:";
      "" ].

Definition sample_machine : Machine :=
  {| run := fun k _ argv =>
       if bool_decide (argv = ["ros2"; "node"; "list"]) then
         Some {| returncode := 0;
                 stdout := join_lines ["/talker"; "/listener"; "  /lost  "; ""; ""] |}
       else if bool_decide (argv = ["ros2"; "node"; "info"; "/talker"]) then
         Some {| returncode := 0; stdout := talker_info |}
       else if bool_decide (argv = ["ros2"; "node"; "info"; "/listener"]) then
         Some {| returncode := 0; stdout := listener_info |}
       else if bool_decide (argv = ["hostname"]) then
         Some {| returncode := 0; stdout := join_lines ["desk"; ""] |}
       else None;
     clock := fun k => 1000 + Z.of_nat k |}.

End NetworkDiscovery.

(** ** core/metrics_collector.py *)
Module MetricsCollector.
Import PyStr.

(** The part of [psutil.disk_io_counters()] that is read. *)
Record DiskIO : Type := { write_bytes : Z }.

(** The collector. Clock readings and metric values are Python floats,
    modelled as rationals; an attribute that may be absent or [None] is an
    option. [_last_disk_check] and [_last_topic_check] do not exist until
    first used ([hasattr]). *)
Record MetricsCollector : Type := {
  start_time : option Q;
  last_update_time : option Q;
  last_size : Q;
  last_disk_io : option DiskIO;
  system_metrics_cache_timeout : Q;
  _system_metrics_cache : option (gmap string Q);
  _system_metrics_cache_time : Q;
  _last_disk_check : option Q;
  _last_topic_check : option Q;
  metrics : gmap string Q
}.

(** The dictionary literal of [__init__] and [reset]. *)
Definition zero_metrics : gmap string Q :=
  <["duration" := 0%Q]> (
  <["size_mb" := 0%Q]> (
  <["write_speed_mb_s" := 0%Q]> (
  <["message_count" := 0%Q]> (
  <["topic_count" := 0%Q]> (
  <["message_rate" := 0%Q]> (
  <["disk_usage_percent" := 0%Q]> (
  <["cpu_percent" := 0%Q]> (
  <["memory_percent" := 0%Q]> (
  <["disk_write_speed" := 0%Q]> ∅))))))))).

(** The ten keys of the snapshot, as the specification lists them. *)
Definition snapshot_keys : gset string :=
  {[ "duration"; "size_mb"; "write_speed_mb_s"; "message_count";
     "topic_count"; "message_rate"; "disk_usage_percent"; "cpu_percent";
     "memory_percent"; "disk_write_speed" ]}.

(** The keys of the cached system metrics. *)
Definition system_keys : gset string :=
  {[ "cpu_percent"; "memory_percent"; "disk_write_speed" ]}.

(** [MetricsCollector()]. *)
Definition init : MetricsCollector :=
  {| start_time := None; last_update_time := None; last_size := 0;
     last_disk_io := None; system_metrics_cache_timeout := 1;
     _system_metrics_cache := None; _system_metrics_cache_time := 0;
     _last_disk_check := None; _last_topic_check := None;
     metrics := zero_metrics |}.

(** [reset()], with the reading of [time.time()]. *)
Definition reset (self : MetricsCollector) (now : Q) : MetricsCollector :=
  {| start_time := Some now; last_update_time := Some now; last_size := 0;
     last_disk_io := None;
     system_metrics_cache_timeout := system_metrics_cache_timeout self;
     _system_metrics_cache := _system_metrics_cache self;
     _system_metrics_cache_time := _system_metrics_cache_time self;
     _last_disk_check := _last_disk_check self;
     _last_topic_check := _last_topic_check self;
     metrics := zero_metrics |}.

(** Assignment to [system_metrics_cache_timeout] by the application. *)
Definition set_cache_timeout (self : MetricsCollector) (timeout : Q) : MetricsCollector :=
  {| start_time := start_time self; last_update_time := last_update_time self;
     last_size := last_size self; last_disk_io := last_disk_io self;
     system_metrics_cache_timeout := timeout;
     _system_metrics_cache := _system_metrics_cache self;
     _system_metrics_cache_time := _system_metrics_cache_time self;
     _last_disk_check := _last_disk_check self;
     _last_topic_check := _last_topic_check self;
     metrics := metrics self |}.

(** Truthiness of a clock reading that may be [None]. *)
Definition time_truthy (t : option Q) : bool :=
  match t with
  | Some q => negb (Qeq_bool q 0)
  | None => false
  end.

(** [a != b] on two such readings. *)
Definition time_differs (a b : option Q) : bool :=
  match a, b with
  | Some x, Some y => negb (Qeq_bool x y)
  | None, None => false
  | _, _ => true
  end.

(** [int(x)] on a float: truncation towards zero. *)
Definition int_of_float (x : Q) : Z := Z.quot (Qnum x) (Zpos (Qden x)).

(** [self.metrics[key]] for a key of the snapshot. *)
Definition metric (m : gmap string Q) (key : string) : Q := default 0%Q (m !! key).

(** What the facade answers during one [update]: the bag path, whether it
    exists, the sum of the sizes of the files under it that could be read,
    the number of live topics ([None] when the query raises), the bag's own
    topic count ([None] when that query raises) and the disk usage
    ([None] when it raises). *)
Record Facade : Type := {
  get_current_bag_path : option string;
  path_exists : bool;
  walk_size : Z;
  get_topics_info : option nat;
  get_bag_info_topic_count : option Q;
  get_disk_usage : option Q
}.

(** What psutil answers during one [update_system_metrics]; [None] is a
    raised exception, and [disk_io_counters] may also return [None]. *)
Record Host : Type := {
  cpu_percent : option Q;
  virtual_memory_percent : option Q;
  disk_io_counters : option (option DiskIO)
}.

Definition bytes_per_mb : Q := inject_Z (1024 * 1024).

(** [update_system_metrics()], with its reading of [time.time()]. *)
Definition update_system_metrics (self : MetricsCollector) (current_time : Q)
    (host : Host) : MetricsCollector :=
  let fresh :=
    match _system_metrics_cache self with
    | Some cache =>
        if Qlt_bool (current_time - _system_metrics_cache_time self)
                    (system_metrics_cache_timeout self)
        then Some cache else None
    | None => None
    end in
  match fresh with
  | Some cache =>
      {| start_time := start_time self; last_update_time := last_update_time self;
         last_size := last_size self; last_disk_io := last_disk_io self;
         system_metrics_cache_timeout := system_metrics_cache_timeout self;
         _system_metrics_cache := _system_metrics_cache self;
         _system_metrics_cache_time := _system_metrics_cache_time self;
         _last_disk_check := _last_disk_check self;
         _last_topic_check := _last_topic_check self;
         metrics := cache ∪ metrics self |}
  | None =>
      let cpu := default 0%Q (cpu_percent host) in
      let memory_percent := default 0%Q (virtual_memory_percent host) in
      let last_check := default 0%Q (_last_disk_check self) in
      let '(disk_write_speed, last_io, last_check) :=
        if Qlt_bool (system_metrics_cache_timeout self * 2)
                    (current_time - last_check)
        then
          match disk_io_counters host with
          | None => (0%Q, last_disk_io self, last_check)
          | Some disk_io =>
              let speed :=
                match disk_io, last_disk_io self with
                | Some io, Some last_io =>
                    if time_truthy (last_update_time self) then
                      let write_bytes_delta := (write_bytes io - write_bytes last_io)%Z in
                      let time_delta :=
                        (current_time - default 0 (last_update_time self))%Q in
                      if Qlt_bool 0 time_delta
                      then ((inject_Z write_bytes_delta / time_delta) / bytes_per_mb)%Q
                      else 0%Q
                    else 0%Q
                | _, _ => 0%Q
                end in
              (speed, disk_io, current_time)
          end
        else (default 0%Q (metrics self !! "disk_write_speed"), last_disk_io self, last_check) in
      {| start_time := start_time self; last_update_time := last_update_time self;
         last_size := last_size self; last_disk_io := last_io;
         system_metrics_cache_timeout := system_metrics_cache_timeout self;
         _system_metrics_cache :=
           Some (<["cpu_percent" := cpu]> (
                 <["memory_percent" := memory_percent]> (
                 <["disk_write_speed" := disk_write_speed]> ∅)));
         _system_metrics_cache_time := current_time;
         _last_disk_check := Some last_check;
         _last_topic_check := _last_topic_check self;
         metrics :=
           <["disk_write_speed" := disk_write_speed]> (
           <["memory_percent" := memory_percent]> (
           <["cpu_percent" := cpu]> (metrics self))) |}
  end.


(** The steps of [update], one per commented block of the source, each
    acting on the snapshot. "Update duration": *)
Definition duration_step (self : MetricsCollector) (current_time : Q)
    (m : gmap string Q) : gmap string Q :=
  if time_truthy (start_time self)
  then <["duration" := (current_time - default 0%Q (start_time self))%Q]> m
  else m.

(** "Calculate write speed". *)
Definition write_speed_step (self : MetricsCollector) (current_time : Q)
    (current_size_mb : Q) (m : gmap string Q) : gmap string Q :=
  if time_truthy (last_update_time self)
     && time_differs (last_update_time self) (start_time self)
  then
    let time_delta := (current_time - default 0%Q (last_update_time self))%Q in
    if Qlt_bool 0 time_delta
    then
      let size_delta_mb := (current_size_mb - last_size self)%Q in
      <["write_speed_mb_s" := (size_delta_mb / time_delta)%Q]> m
    else m
  else m.

(** "Get topic count from currently active topics", with its fallback. *)
Definition topic_count_step (ros2_manager : Facade) (m : gmap string Q)
  : gmap string Q :=
  match get_topics_info ros2_manager with
  | Some n => <["topic_count" := inject_Z (Z.of_nat n)]> m
  | None =>
      match get_bag_info_topic_count ros2_manager with
      | Some n => <["topic_count" := n]> m
      | None => m
      end
  end.

(** "Estimate message count" and "Calculate message rate". *)
Definition message_step (current_size_mb : Q) (m : gmap string Q)
  : gmap string Q :=
  let avg_msg_size_kb := 1%Q in
  let m :=
    <["message_count" :=
        inject_Z (int_of_float (current_size_mb * 1024 / avg_msg_size_kb))]> m in
  if Qlt_bool 0 (metric m "duration")
  then <["message_rate" := (metric m "message_count" / metric m "duration")%Q]> m
  else m.

(** "Get disk usage". *)
Definition disk_usage_step (ros2_manager : Facade) (m : gmap string Q)
  : gmap string Q :=
  match get_disk_usage ros2_manager with
  | Some usage => <["disk_usage_percent" := usage]> m
  | None => m
  end.

(** The block of [update] that runs under the lock; [current_time] is the
    reading taken on entry. *)
Definition update_locked (self : MetricsCollector) (current_time : Q)
    (ros2_manager : Facade) : MetricsCollector :=
  let m := duration_step self current_time (metrics self) in
  let bag_path := get_current_bag_path ros2_manager in
  let '(m, size, updated) :=
    if truthy (default "" bag_path) && path_exists ros2_manager then
      let current_size := walk_size ros2_manager in
      let current_size_mb := (inject_Z current_size / bytes_per_mb)%Q in
      let m := <["size_mb" := current_size_mb]> m in
      let m := write_speed_step self current_time current_size_mb m in
      let m := topic_count_step ros2_manager m in
      let m := message_step current_size_mb m in
      (m, current_size_mb, Some current_time)
    else (m, last_size self, last_update_time self) in
  let m := disk_usage_step ros2_manager m in
  {| start_time := start_time self; last_update_time := updated;
     last_size := size; last_disk_io := last_disk_io self;
     system_metrics_cache_timeout := system_metrics_cache_timeout self;
     _system_metrics_cache := _system_metrics_cache self;
     _system_metrics_cache_time := _system_metrics_cache_time self;
     _last_disk_check := _last_disk_check self;
     _last_topic_check := _last_topic_check self;
     metrics := m |}.

(** [update(ros2_manager)]: the locked block, then
    [update_system_metrics()] with its own reading [system_time]. *)
Definition update (self : MetricsCollector) (current_time : Q)
    (ros2_manager : Facade) (system_time : Q) (host : Host) : MetricsCollector :=
  update_system_metrics (update_locked self current_time ros2_manager)
                        system_time host.

(** [get_metrics()]: the collector afterwards and the returned copy. *)
Definition get_metrics (self : MetricsCollector) (system_time : Q) (host : Host)
  : MetricsCollector * gmap string Q :=
  let self := update_system_metrics self system_time host in
  (self, metrics self).

(** [get_live_metrics(ros2_manager=None)]: [check_time] is the reading
    compared with the last topic check, [stamp_time] the one stored after a
    successful topic query. *)
Definition get_live_metrics (self : MetricsCollector) (system_time : Q)
    (host : Host) (ros2_manager : option Facade) (check_time stamp_time : Q)
  : MetricsCollector * gmap string Q :=
  let self := update_system_metrics self system_time host in
  let self :=
    match ros2_manager with
    | Some facade =>
        let last_check := default 0%Q (_last_topic_check self) in
        let time_since_check := (check_time - last_check)%Q in
        let '(m, last_check) :=
          if Qlt_bool 3 time_since_check then
            match get_topics_info facade with
            | Some n =>
                (<["topic_count" := inject_Z (Z.of_nat n)]> (metrics self), stamp_time)
            | None => (metrics self, last_check)
            end
          else (metrics self, last_check) in
        {| start_time := start_time self; last_update_time := last_update_time self;
           last_size := last_size self; last_disk_io := last_disk_io self;
           system_metrics_cache_timeout := system_metrics_cache_timeout self;
           _system_metrics_cache := _system_metrics_cache self;
           _system_metrics_cache_time := _system_metrics_cache_time self;
           _last_disk_check := _last_disk_check self;
           _last_topic_check := Some last_check;
           metrics := m |}
    | None => self
    end in
  (self, metrics self).

(** The states a collector can be in: built by [init], then driven by its
    operations with any clock readings and any answers of the facade and
    of the host. *)
Inductive reachable : MetricsCollector -> Prop :=
| reach_init : reachable init
| reach_reset self now :
    reachable self -> reachable (reset self now)
| reach_set_cache_timeout self timeout :
    reachable self -> reachable (set_cache_timeout self timeout)
| reach_update self current_time facade system_time host :
    reachable self ->
    reachable (update self current_time facade system_time host)
| reach_update_system_metrics self current_time host :
    reachable self -> reachable (update_system_metrics self current_time host)
| reach_get_metrics self system_time host :
    reachable self -> reachable (fst (get_metrics self system_time host))
| reach_get_live_metrics self system_time host facade check_time stamp_time :
    reachable self ->
    reachable (fst (get_live_metrics self system_time host facade
                                     check_time stamp_time)).

(** A capture directory of the given size in bytes, with every query
    answering. *)
Definition capture_of_size (bytes : Z) : Facade :=
  {| get_current_bag_path := Some "/data/bags/run1"; path_exists := true;
     walk_size := bytes; get_topics_info := Some 3%nat;
     get_bag_info_topic_count := Some 0%Q; get_disk_usage := Some 40%Q |}.

Definition quiet_host : Host :=
  {| cpu_percent := Some 5%Q; virtual_memory_percent := Some 30%Q;
     disk_io_counters := Some (Some {| write_bytes := 0 |}) |}.

(** The shape of a well-formed collector: the snapshot has the ten keys
    and a cached dictionary, if any, has the three system keys. *)
Definition well_shaped (self : MetricsCollector) : Prop :=
  dom (metrics self) = snapshot_keys /\
  (forall cache, _system_metrics_cache self = Some cache ->
                 dom cache = system_keys).

(** A collector that went through a reset, an update and two reads. *)
Definition sample_collector : MetricsCollector :=
  fst (get_live_metrics
         (fst (get_metrics
                 (update (reset init 100) 101 (capture_of_size 2048) 101 quiet_host)
                 102 quiet_host))
         106 quiet_host (Some (capture_of_size 4096)) 106 106).

(** The facade reports an existing capture directory of the given size. *)
Definition capture_has_size (facade : Facade) (bytes : Z) : Prop :=
  truthy (default "" (get_current_bag_path facade)) = true /\
  path_exists facade = true /\
  walk_size facade = bytes.

Definition ten_mb : Z := 10 * 1024 * 1024.

(** The scenario of the accounting property: reset at [reset_time], a first
    update at [first_time] over an empty capture, a second update five
    seconds later over a capture of 10 MB. *)
Definition two_updates (self : MetricsCollector) (reset_time first_time : Q)
    (first second : Facade) (system_time1 system_time2 : Q)
    (host1 host2 : Host) : MetricsCollector :=
  update
    (update (reset self reset_time) first_time first system_time1 host1)
    (first_time + 5) second system_time2 host2.

(** The scenario with the first update on the same clock reading as the
    reset. *)
Definition same_tick_run : MetricsCollector :=
  two_updates init 100 100 (capture_of_size 0) (capture_of_size ten_mb)
              100 105 quiet_host quiet_host.

(** The scenario with the first update one second after the reset. *)
Definition next_second_run : MetricsCollector :=
  two_updates init 100 101 (capture_of_size 0) (capture_of_size ten_mb)
              101 106 quiet_host quiet_host.

(** A snapshot entry holds the number [q]. *)
Definition holds (m : gmap string Q) (key : string) (q : Q) : Prop :=
  exists v, m !! key = Some v /\ (v == q)%Q.

End MetricsCollector.

(** ** [hashlib.md5]: the MD5 digest of RFC 1321 *)
Module MD5.

Definition word (x : Z) : Z := x mod 2 ^ 32.

(** Left rotation of a 32-bit word. *)
Definition rotl (x c : Z) : Z :=
  word (Z.lor (Z.shiftl x c) (Z.shiftr x (32 - c))).

Definition not32 (x : Z) : Z := Z.lxor x (2 ^ 32 - 1).

(** Per-round shift amounts. *)
Definition shifts : list Z :=
  [ 7; 12; 17; 22; 7; 12; 17; 22; 7; 12; 17; 22; 7; 12; 17; 22;
    5; 9; 14; 20; 5; 9; 14; 20; 5; 9; 14; 20; 5; 9; 14; 20;
    4; 11; 16; 23; 4; 11; 16; 23; 4; 11; 16; 23; 4; 11; 16; 23;
    6; 10; 15; 21; 6; 10; 15; 21; 6; 10; 15; 21; 6; 10; 15; 21 ].

(** [floor(2^32 * abs(sin(i + 1)))]. *)
Definition sines : list Z :=
  [ 0xd76aa478; 0xe8c7b756; 0x242070db; 0xc1bdceee;
    0xf57c0faf; 0x4787c62a; 0xa8304613; 0xfd469501;
    0x698098d8; 0x8b44f7af; 0xffff5bb1; 0x895cd7be;
    0x6b901122; 0xfd987193; 0xa679438e; 0x49b40821;
    0xf61e2562; 0xc040b340; 0x265e5a51; 0xe9b6c7aa;
    0xd62f105d; 0x02441453; 0xd8a1e681; 0xe7d3fbc8;
    0x21e1cde6; 0xc33707d6; 0xf4d50d87; 0x455a14ed;
    0xa9e3e905; 0xfcefa3f8; 0x676f02d9; 0x8d2a4c8a;
    0xfffa3942; 0x8771f681; 0x6d9d6122; 0xfde5380c;
    0xa4beea44; 0x4bdecfa9; 0xf6bb4b60; 0xbebfbc70;
    0x289b7ec6; 0xeaa127fa; 0xd4ef3085; 0x04881d05;
    0xd9d4d039; 0xe6db99e5; 0x1fa27cf8; 0xc4ac5665;
    0xf4292244; 0x432aff97; 0xab9423a7; 0xfc93a039;
    0x655b59c3; 0x8f0ccc92; 0xffeff47d; 0x85845dd1;
    0x6fa87e4f; 0xfe2ce6e0; 0xa3014314; 0x4e0811a1;
    0xf7537e82; 0xbd3af235; 0x2ad7d2bb; 0xeb86d391 ].

Definition nth_word (l : list Z) (i : Z) : Z := nth (Z.to_nat i) l 0.

(** The message with its padding: a one bit, zeros up to 56 modulo 64,
    then the bit length as eight little-endian bytes. *)
Definition little_endian (width : nat) (x : Z) : list Z :=
  map (fun k => Z.shiftr x (8 * Z.of_nat k) mod 256) (seq 0 width).

Definition pad (message : list Z) : list Z :=
  let len := Z.of_nat (length message) in
  let zeros := Z.to_nat ((55 - len) mod 64) in
  (message ++ [128] ++ repeat 0 zeros ++ little_endian 8 (8 * len))%list.

(** Little-endian 32-bit words of a run of bytes. *)
Fixpoint words (bytes : list Z) : list Z :=
  match bytes with
  | b0 :: b1 :: b2 :: b3 :: rest =>
      (b0 + 256 * b1 + 65536 * b2 + 16777216 * b3) :: words rest
  | _ => []
  end.

Definition quad : Type := Z * Z * Z * Z.

(** One of the 64 operations on a block. *)
Definition operation (m : list Z) (state : quad) (i : Z) : quad :=
  let '(a, b, c, d) := state in
  let '(f, g) :=
    if (i <? 16)%Z then (Z.lor (Z.land b c) (Z.land (not32 b) d), i)
    else if (i <? 32)%Z then (Z.lor (Z.land d b) (Z.land (not32 d) c), (5 * i + 1) mod 16)
    else if (i <? 48)%Z then (Z.lxor (Z.lxor b c) d, (3 * i + 5) mod 16)
    else (Z.lxor c (Z.lor b (not32 d)), (7 * i) mod 16) in
  let f := word (f + a + nth_word sines i + nth_word m g) in
  (d, word (b + rotl f (nth_word shifts i)), b, c).

(** One 16-word block folded into the running state. *)
Definition block (state : quad) (m : list Z) : quad :=
  let '(a0, b0, c0, d0) := state in
  let '(a, b, c, d) := fold_left (operation m) (seqZ 0 64) state in
  (word (a0 + a), word (b0 + b), word (c0 + c), word (d0 + d)).

(** The 16-word blocks of a word list whose length is a multiple of 16. *)
Fixpoint blocks (fuel : nat) (ws : list Z) : list (list Z) :=
  match fuel, ws with
  | S fuel', _ :: _ => firstn 16 ws :: blocks fuel' (skipn 16 ws)
  | _, _ => []
  end.

Definition initial : quad := (0x67452301, 0xefcdab89, 0x98badcfe, 0x10325476).

Definition digest (message : list Z) : list Z :=
  let ws := words (pad message) in
  let '(a, b, c, d) := fold_left block (blocks (length ws) ws) initial in
  (little_endian 4 a ++ little_endian 4 b
   ++ little_endian 4 c ++ little_endian 4 d)%list.

Definition hex_digit (x : Z) : ascii :=
  nth (Z.to_nat x) (list_ascii_of_string "0123456789abcdef") "0"%char.

Fixpoint hex (bytes : list Z) : string :=
  match bytes with
  | [] => EmptyString
  | b :: rest => String (hex_digit (b / 16)) (String (hex_digit (b mod 16)) (hex rest))
  end.

(** [hashlib.md5(data).hexdigest()]. *)
Definition hexdigest (data : list byte) : string :=
  hex (digest (map (fun b => Z.of_N (Byte.to_N b)) data)).

End MD5.

(** ** upload_server.py *)
Module UploadServer.
Import PyStr.

(** *** Paths ([posixpath]) *)

Definition is_slash (c : ascii) : bool := Ascii.eqb c "/"%char.

(** [s.endswith('/')]. *)
Fixpoint ends_with_slash (s : string) : bool :=
  match s with
  | EmptyString => false
  | String c EmptyString => is_slash c
  | String _ rest => ends_with_slash rest
  end.

(** ['/' in s]. *)
Fixpoint has_slash (s : string) : bool :=
  match s with
  | EmptyString => false
  | String c rest => is_slash c || has_slash rest
  end.

(** [os.path.join(a, b)]. *)
Definition path_join (a b : string) : string :=
  if starts_with "/" b then b
  else if negb (truthy a) || ends_with_slash a then a ++ b
  else a ++ "/" ++ b.

(** The text [os.path.join] puts in front of a relative second part. *)
Definition join_prefix (a : string) : string :=
  if negb (truthy a) || ends_with_slash a then a else a ++ "/".

(** [p[:p.rfind('/') + 1]]. *)
Fixpoint up_to_last_slash (p : string) : string :=
  match p with
  | EmptyString => EmptyString
  | String c rest =>
      match up_to_last_slash rest with
      | EmptyString => if is_slash c then "/" else EmptyString
      | head => String c head
      end
  end.

(** [s == '/' * len(s)]. *)
Fixpoint all_slashes (s : string) : bool :=
  match s with
  | EmptyString => true
  | String c rest => is_slash c && all_slashes rest
  end.

(** [s.rstrip('/')]. *)
Fixpoint rstrip_slashes (s : string) : string :=
  match s with
  | EmptyString => EmptyString
  | String c rest =>
      match rstrip_slashes rest with
      | EmptyString => if is_slash c then EmptyString else String c EmptyString
      | kept => String c kept
      end
  end.

(** [os.path.dirname(p)]. *)
Definition dirname (p : string) : string :=
  let head := up_to_last_slash p in
  if truthy head && negb (all_slashes head) then rstrip_slashes head else head.

(** *** The file system

    Regular files by path and the set of directories. Paths are compared
    as written: the model is meant for paths without [.], [..] or doubled
    separators, which is what the server builds from plain names. *)
Record FileSystem : Type := {
  files : gmap string (list byte);
  dirs : gset string
}.

(** The exceptions the handlers can meet. *)
Inductive exn : Type :=
| AttributeError
| TypeError
| ValueError
| ZeroDivisionError
| OverflowError
| FileNotFoundError
| IsADirectoryError
| FileExistsError
| NotADirectoryError
| DirectoryNotEmpty.

(** *** Sessions and server state *)

(** A value of the client's JSON, for the field the handlers compute
    with. [JNull] is [null] or a missing key, which [data.get] reads as
    [None]; [JOther] is an array or an object. *)
Inductive json : Type :=
| JNull
| JBool (b : bool)
| JInt (z : Z)
| JFloat (x : PyFloat.float)
| JString (s : string)
| JOther.

(** One entry of [upload_sessions]. The fields come from the client's JSON
    as they are. The declared count [chunks] is kept as the JSON value it
    is; [filename] is the text when the value is a string and [filesize]
    the number when it is an integer. *)
Record Session : Type := {
  filename : option string;
  filesize : option Z;
  chunks : json;
  metadata : string;
  checksum : option string;
  received_chunks : gset Z;
  created_at : string;
  temp_dir : string
}.

Record State : Type := {
  upload_sessions : gmap string Session;
  fs : FileSystem
}.

(** The object written to the [.metadata.json] side file. *)
Record Sidecar : Type := {
  sidecar_filename : option string;
  sidecar_filesize : option Z;
  sidecar_checksum : string;
  sidecar_metadata : string;
  uploaded_at : string
}.

(** What the server takes from outside its own code: the expanded upload
    directory, the MD5 digest of [hashlib] and the rendering of [json]. *)
Class Platform : Type := {
  UPLOAD_DIR : string;
  md5_hexdigest : list byte -> string;
  json_dump : Sidecar -> list byte
}.

(** *** Statements that may raise: state and exception passing *)

Inductive outcome (A : Type) : Type :=
| Returned (a : A)
| Raised (e : exn).
Arguments Returned {A} a.
Arguments Raised {A} e.

Definition M (A : Type) : Type := State -> outcome A * State.

Definition ret {A : Type} (a : A) : M A := fun st => (Returned a, st).

Definition raise {A : Type} (e : exn) : M A := fun st => (Raised e, st).

Definition bind {A B : Type} (m : M A) (k : A -> M B) : M B :=
  fun st =>
    match m st with
    | (Returned a, st') => k a st'
    | (Raised e, st') => (Raised e, st')
    end.

Notation "'do' x <- m ; k" := (bind m (fun x => k))
  (at level 10, x name, m at level 100, k at level 200).

Definition get_state : M State := fun st => (Returned st, st).

Definition set_fs (f : FileSystem) : M unit :=
  fun st => (Returned tt, {| upload_sessions := upload_sessions st; fs := f |}).

Definition set_sessions (s : gmap string Session) : M unit :=
  fun st => (Returned tt, {| upload_sessions := s; fs := fs st |}).

(** The state with another file system and the same sessions. *)
Definition put_fs (st : State) (f : gmap string (list byte)) (d : gset string) : State :=
  {| upload_sessions := upload_sessions st; fs := {| files := f; dirs := d |} |}.

(** [for x in xs: body x]. *)
Fixpoint for_each {A : Type} (xs : list A) (body : A -> M unit) : M unit :=
  match xs with
  | [] => ret tt
  | x :: rest => do _ <- body x; for_each rest body
  end.

(** *** File operations *)

Definition is_file (f : FileSystem) (path : string) : bool :=
  bool_decide (path ∈ dom (files f)).

Definition is_dir (f : FileSystem) (path : string) : bool :=
  bool_decide (path ∈ dirs f).

(** [os.path.exists(path)]. *)
Definition path_exists (f : FileSystem) (path : string) : bool :=
  is_file f path || is_dir f path.

(** [os.makedirs(path, exist_ok=True)]; the parent was made at start-up. *)
Definition makedirs (path : string) : M unit :=
  do st <- get_state;
  if is_file (fs st) path then raise FileExistsError
  else set_fs {| files := files (fs st); dirs := {[path]} ∪ dirs (fs st) |}.

(** Storing [data] at [path]: [open(path, 'wb')] followed by the write. *)
Definition write_file (path : string) (data : list byte) : M unit :=
  do st <- get_state;
  if is_dir (fs st) path then raise IsADirectoryError
  else if negb (is_dir (fs st) (dirname path)) then raise FileNotFoundError
  else set_fs {| files := <[path := data]> (files (fs st)); dirs := dirs (fs st) |}.

(** [output_file.write(data)] on a file opened for writing. *)
Definition append_file (path : string) (data : list byte) : M unit :=
  do st <- get_state;
  match files (fs st) !! path with
  | Some old =>
      set_fs {| files := <[path := (old ++ data)%list]> (files (fs st));
                dirs := dirs (fs st) |}
  | None => raise FileNotFoundError
  end.

(** [open(path, 'rb').read()]. *)
Definition read_file (path : string) : M (list byte) :=
  do st <- get_state;
  match files (fs st) !! path with
  | Some data => ret data
  | None => raise (if is_dir (fs st) path then IsADirectoryError
                   else FileNotFoundError)
  end.

(** [os.remove(path)]. *)
Definition remove (path : string) : M unit :=
  do st <- get_state;
  if is_file (fs st) path
  then set_fs {| files := delete path (files (fs st)); dirs := dirs (fs st) |}
  else raise (if is_dir (fs st) path then IsADirectoryError
              else FileNotFoundError).

(** No file and no directory lies below [path]. *)
Definition nothing_below (f : FileSystem) (path : string) : bool :=
  forallb (fun p => negb (starts_with (path ++ "/") p))
          (elements (dom (files f) ∪ dirs f)).

(** [os.rmdir(path)]. *)
Definition rmdir (path : string) : M unit :=
  do st <- get_state;
  if is_file (fs st) path then raise NotADirectoryError
  else if negb (is_dir (fs st) path) then raise FileNotFoundError
  else if negb (nothing_below (fs st) path) then raise DirectoryNotEmpty
  else set_fs {| files := files (fs st); dirs := dirs (fs st) ∖ {[path]} |}.

(** *** Checksum *)

(** [iter(lambda: f.read(8192), b'')]: the blocks read until the empty
    one. The fuel bounds the number of reads; the length of the content is
    always enough. *)
Definition block_size : nat := Z.to_nat 8192.

Fixpoint read_blocks (fuel : nat) (content : list byte) : list (list byte) :=
  match fuel with
  | O => []
  | S fuel' =>
      match content with
      | [] => []
      | _ :: _ =>
          take block_size content :: read_blocks fuel' (drop block_size content)
      end
  end.

(** [md5.update(chunk)] for every block, then [md5.hexdigest()]: the
    digest object accumulates the bytes it is fed. *)
Definition md5_of_blocks `{Platform} (blocks : list (list byte)) : string :=
  md5_hexdigest (fold_left (fun fed block => (fed ++ block)%list) blocks []).

(** [calculate_checksum(file_path)]. *)
Definition calculate_checksum `{Platform} (file_path : string) : M string :=
  do content <- read_file file_path;
  ret (md5_of_blocks (read_blocks (length content) content)).

(** *** Requests and responses *)

(** The JSON body of [/upload/init]. *)
Record InitRequest : Type := {
  init_filename : option string;
  init_filesize : option Z;
  init_chunks : json;
  init_metadata : option string;
  init_checksum : option string
}.

(** The [chunk] part of the multipart form. *)
Record FileStorage : Type := {
  part_filename : string;
  stream : list byte
}.

(** A field of the form as [int(request.form.get(...))] meets it: absent,
    a text that is no integer literal, or the literal of an integer. *)
Inductive form_field : Type :=
| Absent
| NotInteger
| Integer (z : Z).

(** The form of [/upload/chunk]. *)
Record ChunkRequest : Type := {
  chunk_upload_id : option string;
  chunk_index : form_field;
  chunk_total : form_field;
  chunk : option FileStorage
}.

(** The JSON body of [/upload/finalize]. *)
Record FinalizeRequest : Type := {
  finalize_upload_id : option string;
  finalize_checksum : option string
}.

(** The JSON answers. Error texts are kept as their cases. *)
Inductive body : Type :=
| InitOk (upload_id : string)
| ChunkOk (received : nat) (total_chunks : Z) (progress : PyFloat.float)
| FinalizeOk (file_path : string) (digest : string)
| InvalidUploadID
| NoChunkData
| MissingChunks (received : nat) (declared : json)
| ChecksumMismatch
| ServerError (e : exn).

Definition Response : Type := body * Z.

(** [try: ... except Exception as e: return ..., 500]. *)
Definition handle (attempt : M Response) : State -> Response * State :=
  fun st =>
    match attempt st with
    | (Returned r, st') => (r, st')
    | (Raised e, st') => ((ServerError e, 500), st')
    end.

(** [int(request.form.get(...))]: [int(None)] raises a [TypeError], a
    text that is no literal a [ValueError]. *)
Definition int_field (v : form_field) : M Z :=
  match v with
  | Integer z => ret z
  | Absent => raise TypeError
  | NotInteger => raise ValueError
  end.

(** [n != v] for an integer [n]: a number differs from [n] when its value
    does, with [True] as 1 and [False] as 0; what is no number differs. *)
Definition int_ne (n : Z) (v : json) : bool :=
  match v with
  | JInt z => negb (n =? z)%Z
  | JBool b => negb (n =? (if b then 1 else 0))%Z
  | JFloat x => negb (PyFloat.int_eqb n x)
  | JNull | JString _ | JOther => true
  end.

(** [a / b] for two integers. *)
Definition int_truediv (a b : Z) : M PyFloat.float :=
  if (b =? 0)%Z then raise ZeroDivisionError
  else match PyFloat.int_truediv a b with
       | Some quotient => ret quotient
       | None => raise OverflowError
       end.

(** [n / v] for an integer [n]: a division of integers when [v] is an
    integer or a boolean, of floats when it is a float, and a [TypeError]
    otherwise. *)
Definition truediv (n : Z) (v : json) : M PyFloat.float :=
  match v with
  | JInt z => int_truediv n z
  | JBool b => int_truediv n (if b then 1 else 0)
  | JFloat x =>
      match PyFloat.of_int n with
      | None => raise OverflowError
      | Some numerator =>
          if PyFloat.is_zero x then raise ZeroDivisionError
          else ret (PyFloat.div numerator x)
      end
  | JNull | JString _ | JOther => raise TypeError
  end.

(** [n / v * 100]. *)
Definition percent (n : Z) (v : json) : M PyFloat.float :=
  do quotient <- truediv n v;
  ret (PyFloat.mul quotient PyFloat.hundred).

(** Truthiness of an optional string. *)
Definition truthy_opt (s : option string) : bool :=
  match s with
  | Some s => truthy s
  | None => false
  end.

(** [session['received_chunks'].add(chunk_index)]. *)
Definition add_received (session : Session) (chunk_index : Z) : Session :=
  {| filename := filename session; filesize := filesize session;
     chunks := chunks session; metadata := metadata session;
     checksum := checksum session;
     received_chunks := {[chunk_index]} ∪ received_chunks session;
     created_at := created_at session;
     temp_dir := temp_dir session |}.

(** [upload_id in upload_sessions], with the session when it is. *)
Definition find_session (upload_id : option string)
    (sessions : gmap string Session) : option (string * Session) :=
  match upload_id with
  | Some id =>
      match sessions !! id with
      | Some session => Some (id, session)
      | None => None
      end
  | None => None
  end.

(** A plain name: not empty, without separator, and neither of the two
    directory links. Generated identifiers and ordinary file names are
    plain. *)
Definition plain_name (s : string) : Prop :=
  truthy s = true /\ has_slash s = false /\ s <> "." /\ s <> "..".

(** A directory path as the server builds them: not empty and not ending
    in a separator. *)
Definition proper_dir (d : string) : Prop :=
  truthy d = true /\ ends_with_slash d = false.

(** *** The server *)
Section Handlers.
Context {platform : Platform}.

Definition TEMP_DIR : string := path_join UPLOAD_DIR "temp".
Definition COMPLETED_DIR : string := path_join UPLOAD_DIR "completed".

(** The state after the module-level [os.makedirs] calls on a machine
    without earlier uploads. *)
Definition start_state : State :=
  {| upload_sessions := ∅;
     fs := {| files := ∅;
              dirs := {[ UPLOAD_DIR; TEMP_DIR; COMPLETED_DIR ]} |} |}.

(** [session['temp_dir']/chunk_<i>]. *)
Definition chunk_path (session : Session) (i : Z) : string :=
  path_join (temp_dir session) ("chunk_" ++ pretty i).

(** [os.path.join(COMPLETED_DIR, session['filename'])] and the path of the
    side file next to it. *)
Definition output_path (name : string) : string := path_join COMPLETED_DIR name.
Definition metadata_path (name : string) : string :=
  output_path name ++ ".metadata.json".

(** The dictionary stored in [upload_sessions] by [initialize_upload]. *)
Definition new_session (data : InitRequest) (upload_id now : string) : Session :=
  {| filename := init_filename data;
     filesize := init_filesize data;
     chunks := init_chunks data;
     metadata := default "{}" (init_metadata data);
     checksum := init_checksum data;
     received_chunks := ∅;
     created_at := now;
     temp_dir := path_join TEMP_DIR upload_id |}.

(** [initialize_upload()]; [upload_id] is the identifier drawn by
    [uuid.uuid4()] and [now] the clock text. *)
Definition initialize_upload (request : option InitRequest)
    (upload_id now : string) : State -> Response * State :=
  handle (
    match request with
    | None => raise AttributeError
    | Some data =>
        let session := new_session data upload_id now in
        do st <- get_state;
        do _ <- set_sessions (<[upload_id := session]> (upload_sessions st));
        do _ <- makedirs (temp_dir session);
        ret (InitOk upload_id, 200)
    end).

(** [upload_chunk()]. *)
Definition upload_chunk (request : ChunkRequest) : State -> Response * State :=
  handle (
    do chunk_index <- int_field (chunk_index request);
    do chunk_total <- int_field (chunk_total request);
    do st <- get_state;
    match find_session (chunk_upload_id request) (upload_sessions st) with
    | None => ret (InvalidUploadID, 400)
    | Some (upload_id, session) =>
        match chunk request with
        | None => ret (NoChunkData, 400)
        | Some chunk_file =>
            if negb (truthy (part_filename chunk_file)) then ret (NoChunkData, 400)
            else
              do _ <- write_file (chunk_path session chunk_index) (stream chunk_file);
              let session := add_received session chunk_index in
              do st <- get_state;
              do _ <- set_sessions (<[upload_id := session]> (upload_sessions st));
              let received := size (received_chunks session) in
              do progress <- percent (Z.of_nat received) (JInt chunk_total);
              ret (ChunkOk received chunk_total progress, 200)
        end
    end).

(** [range(n)] for an integer. *)
Definition chunk_range (n : Z) : list Z := seqZ 0 n.

(** [range(session['chunks'])]: only an integer or a boolean can be a
    bound. *)
Definition range_of (v : json) : M (list Z) :=
  match v with
  | JInt z => ret (chunk_range z)
  | JBool b => ret (chunk_range (if b then 1 else 0))
  | JNull | JFloat _ | JString _ | JOther => raise TypeError
  end.

(** [finalize_upload()]; [now] is the clock text of the side file. *)
Definition finalize_upload (request : option FinalizeRequest) (now : string)
  : State -> Response * State :=
  handle (
    match request with
    | None => raise AttributeError
    | Some data =>
        let checksum := finalize_checksum data in
        do st <- get_state;
        match find_session (finalize_upload_id data) (upload_sessions st) with
        | None => ret (InvalidUploadID, 400)
        | Some (upload_id, session) =>
            let received := size (received_chunks session) in
            if int_ne (Z.of_nat received) (chunks session)
            then ret (MissingChunks received (chunks session), 400)
            else
              match filename session with
              | None => raise TypeError
              | Some name =>
                  let output_path := output_path name in
                  do _ <- write_file output_path [];
                  do indices <- range_of (chunks session);
                  do _ <- for_each indices (fun i =>
                            do data <- read_file (chunk_path session i);
                            append_file output_path data);
                  do calculated_checksum <- calculate_checksum output_path;
                  if truthy_opt checksum
                     && negb (bool_decide (Some calculated_checksum = checksum))
                  then
                    do _ <- remove output_path;
                    ret (ChecksumMismatch, 400)
                  else
                    do indices <- range_of (chunks session);
                    do _ <- for_each indices (fun i =>
                              do st <- get_state;
                              if path_exists (fs st) (chunk_path session i)
                              then remove (chunk_path session i)
                              else ret tt);
                    do _ <- rmdir (temp_dir session);
                    let metadata_path := metadata_path name in
                    do _ <- write_file metadata_path
                              (json_dump
                                 {| sidecar_filename := filename session;
                                    sidecar_filesize := filesize session;
                                    sidecar_checksum := calculated_checksum;
                                    sidecar_metadata := metadata session;
                                    uploaded_at := now |});
                    do st <- get_state;
                    do _ <- set_sessions (delete upload_id (upload_sessions st));
                    ret (FinalizeOk output_path calculated_checksum, 200)
              end
        end
    end).

(** Posting a list of chunk requests one after the other. *)
Fixpoint post_chunks (requests : list ChunkRequest) (st : State)
  : list Response * State :=
  match requests with
  | [] => ([], st)
  | request :: rest =>
      let '(r, st) := upload_chunk request st in
      let '(rs, st) := post_chunks rest st in
      (r :: rs, st)
  end.

(** *** A client that follows the protocol *)

(** The body of [/upload/init] for a file sent as [n] chunks. *)
Definition init_request (name : string) (n : nat) (digest : string) : InitRequest :=
  {| init_filename := Some name; init_filesize := None;
     init_chunks := JInt (Z.of_nat n); init_metadata := None;
     init_checksum := Some digest |}.

(** The form that carries chunk [i] of the file. *)
Definition chunk_request (upload_id : string) (payloads : list (list byte))
    (total : Z) (i : nat) : ChunkRequest :=
  {| chunk_upload_id := Some upload_id;
     chunk_index := Integer (Z.of_nat i);
     chunk_total := Integer total;
     chunk := Some {| part_filename := "chunk";
                      stream := default [] (payloads !! i) |} |}.

(** The chunk files on disk after the chunks listed in [order] were
    stored, in that order. *)
Definition chunks_stored (session : Session) (payloads : list (list byte))
    (order : list nat) (before : gmap string (list byte))
  : gmap string (list byte) :=
  foldl (fun stored i =>
           <[chunk_path session (Z.of_nat i) := default [] (payloads !! i)]> stored)
        before order.

(** The files left after the chunk files listed in [indices] were removed. *)
Definition chunks_removed (session : Session) (indices : list Z)
    (before : gmap string (list byte)) : gmap string (list byte) :=
  foldl (fun left i => delete (chunk_path session i) left) before indices.

(** The payload of chunk [i]. *)
Definition payload (payloads : list (list byte)) (i : Z) : list byte :=
  default [] (payloads !! Z.to_nat i).

(** The content reassembled from the chunk files of a session, when chunk
    [i] holds [content i]. *)
Definition assembled_from (session : Session) (content : Z -> list byte)
  : list byte :=
  concat (content <$> chunk_range (Z.of_nat (size (received_chunks session)))).

(** The state once the output file is opened and the chunks are
    concatenated into it. *)
Definition reassembled_state (st : State) (session : Session) (name : string)
    (content : Z -> list byte) : State :=
  put_fs st (<[output_path name := assembled_from session content]> (files (fs st)))
         (dirs (fs st)).

(** The state once the chunk files are removed as well. *)
Definition cleaned_state (st : State) (session : Session) (name : string)
    (content : Z -> list byte) : State :=
  put_fs st
    (chunks_removed session
       (chunk_range (Z.of_nat (size (received_chunks session))))
       (<[output_path name := assembled_from session content]> (files (fs st))))
    (dirs (fs st)).

(** A whole upload: init, the chunks in the given order, finalize. *)
Definition upload (name upload_id now : string) (payloads : list (list byte))
    (order : list nat) (digest : option string) (st : State)
  : Response * list Response * Response * State :=
  let n := length payloads in
  let '(r_init, st) :=
    initialize_upload
      (Some (init_request name n (md5_hexdigest (concat payloads))))
      upload_id now st in
  let '(r_chunks, st) :=
    post_chunks (map (chunk_request upload_id payloads (Z.of_nat n)) order) st in
  let '(r_final, st) :=
    finalize_upload
      (Some {| finalize_upload_id := Some upload_id; finalize_checksum := digest |})
      now st in
  (r_init, r_chunks, r_final, st).

(** The server can take an upload of [name] under the identifier
    [upload_id]: the completed-uploads directory exists, the two paths to
    be written there are not directories, and the identifier is new, that
    is, its temporary directory is not a file and holds nothing. *)
Definition ready_for (st : State) (name upload_id : string) : Prop :=
  is_dir (fs st) COMPLETED_DIR = true /\
  is_dir (fs st) (output_path name) = false /\
  is_dir (fs st) (metadata_path name) = false /\
  is_file (fs st) (path_join TEMP_DIR upload_id) = false /\
  nothing_below (fs st) (path_join TEMP_DIR upload_id) = true.

End Handlers.

(** *** Status *)

(** The JSON answers of [/upload/status/<upload_id>]. *)
Inductive status_body : Type :=
| StatusOk (name : option string) (received : nat) (total_chunks : json)
           (progress : PyFloat.float)
| StatusInvalidUploadID.

(** [upload_status(upload_id)]. The handler has no [try]: an exception
    leaves it. *)
Definition upload_status (upload_id : string) : M (status_body * Z) :=
  do st <- get_state;
  match upload_sessions st !! upload_id with
  | None => ret (StatusInvalidUploadID, 404)
  | Some session =>
      let received := size (received_chunks session) in
      do progress <- percent (Z.of_nat received) (chunks session);
      ret (StatusOk (filename session) received (chunks session) progress, 200)
  end.

(** The form of [/upload/chunk] with the given fields and data. *)
Definition chunk_form (upload_id : string) (index total : Z) (data : list byte)
  : ChunkRequest :=
  {| chunk_upload_id := Some upload_id;
     chunk_index := Integer index;
     chunk_total := Integer total;
     chunk := Some {| part_filename := "chunk"; stream := data |} |}.

(** The state once [data] is stored as chunk [index] of a session. *)
Definition chunk_stored (st : State) (upload_id : string) (session : Session)
    (index : Z) (data : list byte) : State :=
  {| upload_sessions := <[upload_id := add_received session index]> (upload_sessions st);
     fs := {| files := <[chunk_path session index := data]> (files (fs st));
              dirs := dirs (fs st) |} |}.

(** *** A concrete installation *)

Definition quote : string := String (ascii_of_nat 34) EmptyString.

Definition json_string (s : option string) : string :=
  match s with
  | Some s => quote ++ s ++ quote
  | None => "null"
  end.

Definition json_int (z : option Z) : string :=
  match z with
  | Some z => pretty z
  | None => "null"
  end.

Definition line_break : string := String newline EmptyString.

(** [json.dump(..., indent=2)] of the side-file object, for texts that
    need no escaping; the metadata is the client's JSON as received. *)
Definition render_sidecar (s : Sidecar) : list byte :=
  String.list_byte_of_string
    ("{" ++ line_break
     ++ "  " ++ quote ++ "filename" ++ quote ++ ": "
     ++ json_string (sidecar_filename s) ++ "," ++ line_break
     ++ "  " ++ quote ++ "filesize" ++ quote ++ ": "
     ++ json_int (sidecar_filesize s) ++ "," ++ line_break
     ++ "  " ++ quote ++ "checksum" ++ quote ++ ": "
     ++ json_string (Some (sidecar_checksum s)) ++ "," ++ line_break
     ++ "  " ++ quote ++ "metadata" ++ quote ++ ": "
     ++ sidecar_metadata s ++ "," ++ line_break
     ++ "  " ++ quote ++ "uploaded_at" ++ quote ++ ": "
     ++ json_string (Some (uploaded_at s)) ++ line_break
     ++ "}").

(** A server installed in the home directory of a user [robot]. *)
Definition robot_platform : Platform :=
  {| UPLOAD_DIR := "/home/robot/ros2_uploads";
     md5_hexdigest := MD5.hexdigest;
     json_dump := render_sidecar |}.

(** A five-byte file sent as three chunks. *)
Definition sample_payloads : list (list byte) :=
  [ [x01; x02]; [x03]; [x04; x05] ]%byte.

Definition sample_id : string := "0b1f6c3e-7a52-4c1d-9e0a-5d2f8b7c4a11".

Definition sample_now : string := "2025-01-01T00:00:00".

(** The server after init and the three chunks of the sample upload. *)
Definition sample_pending : State :=
  snd (post_chunks
         (map (chunk_request sample_id sample_payloads 3) [2; 0; 1]%nat)
         (snd (initialize_upload (platform := robot_platform)
                 (Some (init_request "run1.bag" 3
                          (MD5.hexdigest (concat sample_payloads))))
                 sample_id sample_now (start_state (platform := robot_platform))))).

(** The session of the sample upload once its three chunks are in. *)
Definition sample_session : Session :=
  {| filename := Some "run1.bag"; filesize := None; chunks := JInt 3;
     metadata := "{}";
     checksum := Some "7cfdd07889b3295d6a550914ab35e068";
     received_chunks := {[ 0; 1; 2 ]};
     created_at := sample_now;
     temp_dir := "/home/robot/ros2_uploads/temp/0b1f6c3e-7a52-4c1d-9e0a-5d2f8b7c4a11" |}.

(** [/upload/finalize] of the sample upload with the given checksum. *)
Definition sample_finalize (digest : option string) : Response * State :=
  finalize_upload (platform := robot_platform)
    (Some {| finalize_upload_id := Some sample_id; finalize_checksum := digest |})
    sample_now sample_pending.

(** The server right after [/upload/init] of the sample upload, and the
    session it created. *)
Definition sample_started : State :=
  snd (initialize_upload (platform := robot_platform)
         (Some (init_request "run1.bag" 3 (MD5.hexdigest (concat sample_payloads))))
         sample_id sample_now (start_state (platform := robot_platform))).

Definition sample_new_session : Session :=
  new_session (platform := robot_platform)
    (init_request "run1.bag" 3 (MD5.hexdigest (concat sample_payloads)))
    sample_id sample_now.

(** No directory lies below [path]. *)
Definition no_dir_below (f : FileSystem) (path : string) : bool :=
  forallb (fun p => negb (starts_with (path ++ "/") p)) (elements (dirs f)).

(** The sample upload with its third chunk posted under index 7. *)
Definition sample_misnumbered : State :=
  snd (post_chunks
         (map (chunk_request sample_id sample_payloads 3) [0; 1; 7]%nat)
         sample_started).

(** An upload of the same chunks whose declared file name is an absolute
    path, with the three chunks in. *)
Definition sample_escaping : State :=
  snd (post_chunks
         (map (chunk_request sample_id sample_payloads 3) [0; 1; 2]%nat)
         (snd (initialize_upload (platform := robot_platform)
                 (Some (init_request "/home/robot/ros2_uploads/escaped.bag" 3
                          (MD5.hexdigest (concat sample_payloads))))
                 sample_id sample_now (start_state (platform := robot_platform))))).

(** The sample upload, whole, under a declared name that holds a
    separator. *)
Definition sample_nested : Response * list Response * Response * State :=
  upload (platform := robot_platform) "sub/run1.bag" sample_id sample_now
         sample_payloads [2; 0; 1]%nat
         (Some (MD5.hexdigest (concat sample_payloads)))
         (start_state (platform := robot_platform)).

(** The sample upload declared with the count 3.0, a float, with its
    three chunks in. *)
Definition sample_float_count : State :=
  snd (post_chunks
         (map (chunk_request sample_id sample_payloads 3) [0; 1; 2]%nat)
         (snd (initialize_upload (platform := robot_platform)
                 (Some {| init_filename := Some "run1.bag";
                          init_filesize := None;
                          init_chunks := JFloat (S754_finite false 6755399441055744 (-51));
                          init_metadata := None;
                          init_checksum := None |})
                 sample_id sample_now (start_state (platform := robot_platform))))).

(** Every file below the session's directory is one of its chunk files
    [chunk_0] .. [chunk_<n-1>]. *)
Definition only_chunks_below (f : FileSystem) (session : Session) (n : Z) : bool :=
  forallb (fun p =>
             negb (starts_with (temp_dir session ++ "/") p)
             || existsb (fun i => String.eqb p (chunk_path session i)) (chunk_range n))
          (elements (dom (files f))).

(** The session of [sample_misnumbered]. *)
Definition sample_misnumbered_session : Session :=
  foldl add_received sample_new_session [0; 1; 7].

(** The session of [sample_escaping]. *)
Definition sample_escaping_session : Session :=
  foldl add_received
    (new_session (platform := robot_platform)
       (init_request "/home/robot/ros2_uploads/escaped.bag" 3
          (MD5.hexdigest (concat sample_payloads)))
       sample_id sample_now)
    [0; 1; 2].

End UploadServer.


(** ** core/recording_triggers.py: the trigger classes and the manager *)
Module SmartRecording.

(** What a trigger puts into its signal. The sources render it as text;
    the values are kept instead of the rendering. *)
Inductive cause : Type :=
| TopicMatched (topic_name : string)
| Rate (r : RecordingTriggers.reason)
| DiskUsageReached (disk_usage threshold : Q)
| DurationReached (current_duration duration : Q)
| SizeReached (current_size size_limit : Q)
| TopicMissing (topic_name : string) (time_missing : Q)
| ScheduledTimeReached (start_time : Q)
| ScheduledDurationCompleted (duration : Q).

(** The two signals of [RecordingTrigger]. *)
Inductive emission : Type :=
| trigger_activated (c : cause)
| trigger_deactivated (c : cause).

(** The attributes of the base class [RecordingTrigger]. *)
Record RecordingTrigger : Type := {
  name : string;
  enabled : bool;
  activated : bool
}.

(** [RecordingTrigger.__init__(name)]. *)
Definition new_base (name : string) : RecordingTrigger :=
  {| name := name; enabled := true; activated := false |}.

Definition set_activated (self : RecordingTrigger) (b : bool) : RecordingTrigger :=
  {| name := name self; enabled := enabled self; activated := b |}.

(** The trigger classes, each with the attributes its [__init__] adds. A
    compiled pattern is kept as its [match] test; times are clock readings
    in seconds, intervals are seconds. *)
Inductive Trigger : Type :=
| TopicAppearsTrigger (base : RecordingTrigger)
    (compiled_patterns : list (string -> bool))
| MessageRateTrigger (self : RecordingTriggers.MessageRateTrigger)
| DiskSpaceTrigger (base : RecordingTrigger) (threshold : Q)
| DurationTrigger (base : RecordingTrigger) (duration : Q)
| SizeTrigger (base : RecordingTrigger) (size_limit : Q)
| TopicDisappearsTrigger (base : RecordingTrigger) (topic_name : string)
    (grace_period : Q) (last_seen : option Q)
| ScheduledTrigger (base : RecordingTrigger) (start_time : Q)
    (duration : option Q) (recording_started : option Q).

(** What one call of [check] observes outside the trigger: the names in
    [ros2_manager.get_topics_info()] and the readings of [datetime.now()]
    in the order they are taken. *)
Record Observation : Type := {
  topics : list string;
  now : nat -> Q
}.

Definition of_signal (s : RecordingTriggers.signal) : emission :=
  match s with
  | RecordingTriggers.trigger_activated r => trigger_activated (Rate r)
  | RecordingTriggers.trigger_deactivated r => trigger_deactivated (Rate r)
  end.

(** The common ending of the latching triggers:
    [if not self.activated: self.activated = True; emit(...)], then
    [return True]. *)
Definition latch (base : RecordingTrigger) (c : cause)
  : list emission * RecordingTrigger :=
  if negb (activated base)
  then ([trigger_activated c], set_activated base true)
  else ([], base).

(** Truthiness of an optional number: neither [None] nor zero. *)
Definition number_truthy (q : option Q) : bool :=
  match q with
  | Some q => negb (Qeq_bool q 0)
  | None => false
  end.

(** [trigger.check(ros2_manager, metrics)], by class: the result, the
    signals emitted during the call, and the trigger afterwards. *)
Definition check (self : Trigger) (metrics : gmap string Q) (seen : Observation)
  : bool * list emission * Trigger :=
  match self with
  | TopicAppearsTrigger base compiled_patterns =>
      if negb (enabled base) then (false, [], self)
      else
        match List.find (fun topic_name =>
                           existsb (fun pattern => pattern topic_name)
                                   compiled_patterns)
                        (topics seen) with
        | Some topic_name =>
            let '(signals, base) := latch base (TopicMatched topic_name) in
            (true, signals, TopicAppearsTrigger base compiled_patterns)
        | None => (false, [], self)
        end
  | MessageRateTrigger trigger =>
      let '(result, signals, trigger) := RecordingTriggers.check trigger metrics in
      (result, map of_signal signals, MessageRateTrigger trigger)
  | DiskSpaceTrigger base threshold =>
      if negb (enabled base) then (false, [], self)
      else
        let disk_usage := RecordingTriggers.metrics_get metrics "disk_usage_percent" 0 in
        if Qle_bool threshold disk_usage then
          let '(signals, base) := latch base (DiskUsageReached disk_usage threshold) in
          (true, signals, DiskSpaceTrigger base threshold)
        else (false, [], self)
  | DurationTrigger base duration =>
      if negb (enabled base) then (false, [], self)
      else
        let current_duration := RecordingTriggers.metrics_get metrics "duration" 0 in
        if Qle_bool duration current_duration then
          let '(signals, base) := latch base (DurationReached current_duration duration) in
          (true, signals, DurationTrigger base duration)
        else (false, [], self)
  | SizeTrigger base size_limit =>
      if negb (enabled base) then (false, [], self)
      else
        let current_size := RecordingTriggers.metrics_get metrics "size_mb" 0 in
        if Qle_bool size_limit current_size then
          let '(signals, base) := latch base (SizeReached current_size size_limit) in
          (true, signals, SizeTrigger base size_limit)
        else (false, [], self)
  | TopicDisappearsTrigger base topic_name grace_period last_seen =>
      if negb (enabled base) then (false, [], self)
      else if bool_decide (topic_name ∈ topics seen)
      then (false, [],
            TopicDisappearsTrigger base topic_name grace_period (Some (now seen 0)))
      else
        let '(last, time_missing) :=
          match last_seen with
          | None => (now seen 0, (now seen 1 - now seen 0)%Q)
          | Some last => (last, (now seen 0 - last)%Q)
          end in
        if Qle_bool grace_period time_missing then
          let '(signals, base) := latch base (TopicMissing topic_name time_missing) in
          (true, signals,
           TopicDisappearsTrigger base topic_name grace_period (Some last))
        else (false, [],
              TopicDisappearsTrigger base topic_name grace_period (Some last))
  | ScheduledTrigger base start_time duration recording_started =>
      if negb (enabled base) then (false, [], self)
      else
        let now := now seen 0 in
        match recording_started with
        | None =>
            if Qle_bool start_time now then
              let '(signals, base) := latch base (ScheduledTimeReached start_time) in
              (true, signals, ScheduledTrigger base start_time duration (Some now))
            else (false, [], self)
        | Some started =>
            if number_truthy duration
               && Qle_bool (default 0%Q duration) (now - started)
            then (false,
                  [trigger_deactivated
                     (ScheduledDurationCompleted (default 0%Q duration))],
                  self)
            else (true, [], self)
        end
  end.

(** The base attributes of a trigger, whatever its class. *)
Definition base_of (self : Trigger) : RecordingTrigger :=
  match self with
  | TopicAppearsTrigger base _ => base
  | MessageRateTrigger trigger =>
      {| name := RecordingTriggers.name trigger;
         enabled := RecordingTriggers.enabled trigger;
         activated := RecordingTriggers.activated trigger |}
  | DiskSpaceTrigger base _ => base
  | DurationTrigger base _ => base
  | SizeTrigger base _ => base
  | TopicDisappearsTrigger base _ _ _ => base
  | ScheduledTrigger base _ _ _ => base
  end.

(** [trigger.reset()]: the method of the base class, which no class
    overrides. *)
Definition reset (self : Trigger) : Trigger :=
  match self with
  | TopicAppearsTrigger base patterns =>
      TopicAppearsTrigger (set_activated base false) patterns
  | MessageRateTrigger trigger => MessageRateTrigger (RecordingTriggers.reset trigger)
  | DiskSpaceTrigger base threshold => DiskSpaceTrigger (set_activated base false) threshold
  | DurationTrigger base duration => DurationTrigger (set_activated base false) duration
  | SizeTrigger base size_limit => SizeTrigger (set_activated base false) size_limit
  | TopicDisappearsTrigger base topic_name grace_period last_seen =>
      TopicDisappearsTrigger (set_activated base false) topic_name grace_period last_seen
  | ScheduledTrigger base start_time duration recording_started =>
      ScheduledTrigger (set_activated base false) start_time duration recording_started
  end.

(** Successive [check] calls on one trigger: the result and the signals of
    each call, and the trigger at the end. *)
Fixpoint check_all (self : Trigger) (stream : list (gmap string Q * Observation))
  : list (bool * list emission) * Trigger :=
  match stream with
  | [] => ([], self)
  | (metrics, seen) :: rest =>
      let '(result, signals, self) := check self metrics seen in
      let '(run, self) := check_all self rest in
      ((result, signals) :: run, self)
  end.

Definition is_activation (e : emission) : bool :=
  match e with trigger_activated _ => true | trigger_deactivated _ => false end.

(** The number of [trigger_activated] signals in a run. *)
Definition activations (run : list (bool * list emission)) : nat :=
  length (List.filter is_activation (concat (map snd run))).

Definition is_message_rate (self : Trigger) : bool :=
  match self with MessageRateTrigger _ => true | _ => false end.

(** The metric a limit trigger watches and its limit. *)
Definition limit_of (self : Trigger) : option (string * Q) :=
  match self with
  | DiskSpaceTrigger _ threshold => Some ("disk_usage_percent", threshold)
  | DurationTrigger _ duration => Some ("duration", duration)
  | SizeTrigger _ size_limit => Some ("size_mb", size_limit)
  | _ => None
  end.

(** What a limit trigger is expected to do over successive values of its
    metric: the result is [value >= limit] at every call, and a signal is
    due only at the first call that says so. [fired] tells whether the
    trigger signalled before. *)
Fixpoint expected_limit_run (limit : Q) (fired : bool) (values : list Q)
  : list (bool * nat) :=
  match values with
  | [] => []
  | value :: rest =>
      let reached := Qle_bool limit value in
      (reached, if reached && negb fired then 1%nat else 0%nat)
        :: expected_limit_run limit (fired || reached) rest
  end.

(** The result and the number of signals of each call of a run. *)
Definition outline (run : list (bool * list emission)) : list (bool * nat) :=
  map (fun call => (fst call, length (snd call))) run.

(** *** The manager *)

(** The two slots the manager connects to [trigger_activated]. *)
Inductive slot : Type :=
| on_start_trigger_activated
| on_stop_trigger_activated.

(** The manager's own signals. *)
Inductive request : Type :=
| auto_start_requested (c : cause)
| auto_stop_requested (c : cause).

(** A trigger object: its attributes and the slots connected to its
    [trigger_activated] signal, in connection order. *)
Record TriggerObject : Type := {
  state : Trigger;
  connections : list slot
}.

(** One entry of the pre-buffer. *)
Record Snapshot : Type := {
  timestamp : Q;
  snapshot_topics : list string;
  snapshot_metrics : gmap string Q
}.

(** The manager together with the trigger objects it refers to. The two
    lists hold references: one trigger object can be in both lists, or
    several times in one. The monitor timer runs exactly while
    [monitoring_enabled] is set. *)
Record SmartRecordingManager : Type := {
  start_triggers : list nat;
  stop_triggers : list nat;
  pre_buffer_enabled : bool;
  pre_buffer_duration : Q;
  pre_buffer_data : list Snapshot;
  monitoring_enabled : bool;
  recording_active : bool;
  objects : gmap nat TriggerObject
}.

(** [deque(maxlen=100)]. *)
Definition maxlen : nat := 100.

(** [SmartRecordingManager(ros2_manager, metrics_collector)], in a program
    that holds the given trigger objects. *)
Definition new_manager (objects : gmap nat TriggerObject) : SmartRecordingManager :=
  {| start_triggers := []; stop_triggers := [];
     pre_buffer_enabled := false; pre_buffer_duration := 10;
     pre_buffer_data := [];
     monitoring_enabled := false; recording_active := false;
     objects := objects |}.

Definition with_objects (self : SmartRecordingManager)
    (objects : gmap nat TriggerObject) : SmartRecordingManager :=
  {| start_triggers := start_triggers self; stop_triggers := stop_triggers self;
     pre_buffer_enabled := pre_buffer_enabled self;
     pre_buffer_duration := pre_buffer_duration self;
     pre_buffer_data := pre_buffer_data self;
     monitoring_enabled := monitoring_enabled self;
     recording_active := recording_active self;
     objects := objects |}.

Definition with_recording (self : SmartRecordingManager) (b : bool)
  : SmartRecordingManager :=
  {| start_triggers := start_triggers self; stop_triggers := stop_triggers self;
     pre_buffer_enabled := pre_buffer_enabled self;
     pre_buffer_duration := pre_buffer_duration self;
     pre_buffer_data := pre_buffer_data self;
     monitoring_enabled := monitoring_enabled self;
     recording_active := b;
     objects := objects self |}.

Definition with_pre_buffer (self : SmartRecordingManager) (on : bool)
    (duration : Q) (data : list Snapshot) : SmartRecordingManager :=
  {| start_triggers := start_triggers self; stop_triggers := stop_triggers self;
     pre_buffer_enabled := on;
     pre_buffer_duration := duration;
     pre_buffer_data := data;
     monitoring_enabled := monitoring_enabled self;
     recording_active := recording_active self;
     objects := objects self |}.

Definition with_monitoring (self : SmartRecordingManager) (b : bool)
  : SmartRecordingManager :=
  {| start_triggers := start_triggers self; stop_triggers := stop_triggers self;
     pre_buffer_enabled := pre_buffer_enabled self;
     pre_buffer_duration := pre_buffer_duration self;
     pre_buffer_data := pre_buffer_data self;
     monitoring_enabled := b;
     recording_active := recording_active self;
     objects := objects self |}.

Definition with_triggers (self : SmartRecordingManager)
    (start stop : list nat) : SmartRecordingManager :=
  {| start_triggers := start; stop_triggers := stop;
     pre_buffer_enabled := pre_buffer_enabled self;
     pre_buffer_duration := pre_buffer_duration self;
     pre_buffer_data := pre_buffer_data self;
     monitoring_enabled := monitoring_enabled self;
     recording_active := recording_active self;
     objects := objects self |}.

(** [signal.connect(slot)] on the object behind a reference. *)
Definition connect (trigger : nat) (s : slot) (objects : gmap nat TriggerObject)
  : gmap nat TriggerObject :=
  match objects !! trigger with
  | Some object =>
      <[trigger := {| state := state object;
                      connections := (connections object ++ [s])%list |}]> objects
  | None => objects
  end.

(** [add_start_trigger(trigger)]. *)
Definition add_start_trigger (self : SmartRecordingManager) (trigger : nat)
  : SmartRecordingManager :=
  with_objects
    (with_triggers self (start_triggers self ++ [trigger])%list (stop_triggers self))
    (connect trigger on_start_trigger_activated (objects self)).

(** [add_stop_trigger(trigger)]. *)
Definition add_stop_trigger (self : SmartRecordingManager) (trigger : nat)
  : SmartRecordingManager :=
  with_objects
    (with_triggers self (start_triggers self) (stop_triggers self ++ [trigger])%list)
    (connect trigger on_stop_trigger_activated (objects self)).

(** [l.remove(x)] when [x in l]: the first occurrence goes. *)
Fixpoint remove_first (x : nat) (l : list nat) : list nat :=
  match l with
  | [] => []
  | y :: rest => if Nat.eqb x y then rest else y :: remove_first x rest
  end.

(** [remove_trigger(trigger)]; the connections stay. *)
Definition remove_trigger (self : SmartRecordingManager) (trigger : nat)
  : SmartRecordingManager :=
  with_triggers self (remove_first trigger (start_triggers self))
                     (remove_first trigger (stop_triggers self)).

(** [enable_pre_buffering(duration_seconds)]. *)
Definition enable_pre_buffering (self : SmartRecordingManager)
    (duration_seconds : Q) : SmartRecordingManager :=
  with_pre_buffer self true duration_seconds (pre_buffer_data self).

(** [disable_pre_buffering()]. *)
Definition disable_pre_buffering (self : SmartRecordingManager)
  : SmartRecordingManager :=
  with_pre_buffer self false (pre_buffer_duration self) [].

(** [start_monitoring()] and [stop_monitoring()]. *)
Definition start_monitoring (self : SmartRecordingManager) : SmartRecordingManager :=
  with_monitoring self true.

Definition stop_monitoring (self : SmartRecordingManager) : SmartRecordingManager :=
  with_monitoring self false.

(** [on_start_trigger_activated(reason)] and
    [on_stop_trigger_activated(reason)]. *)
Definition run_slot (s : slot) (reason : cause) (self : SmartRecordingManager)
  : SmartRecordingManager * list request :=
  match s with
  | on_start_trigger_activated =>
      if negb (recording_active self)
      then (with_recording self true, [auto_start_requested reason])
      else (self, [])
  | on_stop_trigger_activated =>
      if recording_active self
      then (with_recording self false, [auto_stop_requested reason])
      else (self, [])
  end.

(** [signal.emit(reason)]: the connected slots run one after the other, in
    connection order, before [emit] returns (emitter and receiver live in
    the same thread). *)
Fixpoint deliver (slots : list slot) (reason : cause) (self : SmartRecordingManager)
  : SmartRecordingManager * list request :=
  match slots with
  | [] => (self, [])
  | s :: rest =>
      let '(self, first) := run_slot s reason self in
      let '(self, others) := deliver rest reason self in
      (self, (first ++ others)%list)
  end.

(** The manager connects nothing to [trigger_deactivated]. *)
Definition emit (slots : list slot) (e : emission) (self : SmartRecordingManager)
  : SmartRecordingManager * list request :=
  match e with
  | trigger_activated reason => deliver slots reason self
  | trigger_deactivated _ => (self, [])
  end.

Fixpoint emit_all (slots : list slot) (signals : list emission)
    (self : SmartRecordingManager) : SmartRecordingManager * list request :=
  match signals with
  | [] => (self, [])
  | e :: rest =>
      let '(self, first) := emit slots e self in
      let '(self, others) := emit_all slots rest self in
      (self, (first ++ others)%list)
  end.

(** What one call of [check_triggers] observes: the dictionary returned by
    [metrics_collector.get_metrics()], the clock reading and the topic
    listing taken for the pre-buffer, and what the [k]-th trigger checked
    in this call observes. *)
Record Tick : Type := {
  tick_metrics : gmap string Q;
  stamp : Q;
  listed : list string;
  observe : nat -> Observation
}.

(** [for trigger in triggers: if trigger.check(...): break]; [k] counts the
    triggers checked so far. *)
Fixpoint check_loop (triggers : list nat) (k : nat) (seen : Tick)
    (self : SmartRecordingManager) : SmartRecordingManager * list request :=
  match triggers with
  | [] => (self, [])
  | trigger :: rest =>
      match objects self !! trigger with
      | None => check_loop rest k seen self
      | Some object =>
          let '(result, signals, after) :=
            check (state object) (tick_metrics seen) (observe seen k) in
          let self :=
            with_objects self
              (<[trigger := {| state := after;
                               connections := connections object |}]>
                 (objects self)) in
          let '(self, requests) := emit_all (connections object) signals self in
          if result then (self, requests)
          else
            let '(self, later) := check_loop rest (S k) seen self in
            (self, (requests ++ later)%list)
      end
  end.

(** [deque.append] with [maxlen]: the oldest entries fall out. *)
Definition deque_append (data : list Snapshot) (entry : Snapshot) : list Snapshot :=
  let data := (data ++ [entry])%list in
  drop (length data - maxlen) data.

(** [check_triggers()]: the manager afterwards and the requests it
    emitted, in order. *)
Definition check_triggers (self : SmartRecordingManager) (seen : Tick)
  : SmartRecordingManager * list request :=
  if negb (monitoring_enabled self) then (self, [])
  else
    let metrics := tick_metrics seen in
    let self :=
      if pre_buffer_enabled self
      then with_pre_buffer self true (pre_buffer_duration self)
             (deque_append (pre_buffer_data self)
                {| timestamp := stamp seen; snapshot_topics := listed seen;
                   snapshot_metrics := metrics |})
      else self in
    if negb (recording_active self)
    then check_loop (start_triggers self) 0 seen self
    else check_loop (stop_triggers self) 0 seen self.

(** [get_pre_buffer_data()]. *)
Definition get_pre_buffer_data (self : SmartRecordingManager) : list Snapshot :=
  pre_buffer_data self.

(** [reset_all_triggers()]. *)
Definition reset_all_triggers (self : SmartRecordingManager) : SmartRecordingManager :=
  with_objects self
    (fold_left
       (fun objects trigger =>
          match objects !! trigger with
          | Some object =>
              <[trigger := {| state := reset (state object);
                              connections := connections object |}]> objects
          | None => objects
          end)
       (start_triggers self ++ stop_triggers self)%list
       (objects self)).

(** The operations of the manager, to speak of its reachable states. *)
Inductive command : Type :=
| AddStartTrigger (trigger : nat)
| AddStopTrigger (trigger : nat)
| RemoveTrigger (trigger : nat)
| EnablePreBuffering (duration_seconds : Q)
| DisablePreBuffering
| StartMonitoring
| StopMonitoring
| CheckTriggers (seen : Tick)
| ResetAllTriggers.

Definition execute (self : SmartRecordingManager) (c : command)
  : SmartRecordingManager * list request :=
  match c with
  | AddStartTrigger trigger => (add_start_trigger self trigger, [])
  | AddStopTrigger trigger => (add_stop_trigger self trigger, [])
  | RemoveTrigger trigger => (remove_trigger self trigger, [])
  | EnablePreBuffering duration_seconds =>
      (enable_pre_buffering self duration_seconds, [])
  | DisablePreBuffering => (disable_pre_buffering self, [])
  | StartMonitoring => (start_monitoring self, [])
  | StopMonitoring => (stop_monitoring self, [])
  | CheckTriggers seen => check_triggers self seen
  | ResetAllTriggers => (reset_all_triggers self, [])
  end.

Fixpoint execute_all (self : SmartRecordingManager) (commands : list command)
  : SmartRecordingManager * list request :=
  match commands with
  | [] => (self, [])
  | c :: rest =>
      let '(self, first) := execute self c in
      let '(self, others) := execute_all self rest in
      (self, (first ++ others)%list)
  end.

(** The pre-buffer entry a call of [check_triggers] appends. *)
Definition snapshot_of (seen : Tick) : Snapshot :=
  {| timestamp := stamp seen; snapshot_topics := listed seen;
     snapshot_metrics := tick_metrics seen |}.

(** The last [maxlen] entries of a sequence of snapshots. *)
Definition newest (data : list Snapshot) : list Snapshot :=
  drop (length data - maxlen) data.

Definition slot_eqb (a b : slot) : bool :=
  match a, b with
  | on_start_trigger_activated, on_start_trigger_activated => true
  | on_stop_trigger_activated, on_stop_trigger_activated => true
  | _, _ => false
  end.

(** Every listed trigger is an object whose [trigger_activated] signal is
    connected, and connected to the slot [s] only: what [add_start_trigger]
    (for the start slot) or [add_stop_trigger] (for the stop slot) leave
    behind for a trigger that was not added on the other side as well. *)
Definition wired_to (s : slot) (objects : gmap nat TriggerObject)
    (triggers : list nat) : bool :=
  forallb (fun trigger =>
             match objects !! trigger with
             | Some object =>
                 match connections object with
                 | [] => false
                 | _ :: _ => forallb (slot_eqb s) (connections object)
                 end
             | None => false
             end)
          triggers.

(** Every listed trigger is an object of a class other than the
    message-rate trigger whose latch is closed. *)
Definition latched (objects : gmap nat TriggerObject) (triggers : list nat) : bool :=
  forallb (fun trigger =>
             match objects !! trigger with
             | Some object =>
                 negb (is_message_rate (state object))
                 && activated (base_of (state object))
             | None => false
             end)
          triggers.

(** The request a slot emits. *)
Definition request_of (s : slot) (reason : cause) : request :=
  match s with
  | on_start_trigger_activated => auto_start_requested reason
  | on_stop_trigger_activated => auto_stop_requested reason
  end.

(** The value of [recording_active] under which a slot acts. *)
Definition acts_when (s : slot) : bool :=
  match s with
  | on_start_trigger_activated => false
  | on_stop_trigger_activated => true
  end.

(** The list [check_triggers] walks when [recording_active] has the given
    value. *)
Definition triggers_for (self : SmartRecordingManager) (s : slot) : list nat :=
  match s with
  | on_start_trigger_activated => start_triggers self
  | on_stop_trigger_activated => stop_triggers self
  end.

(** A manager that starts on a message rate of 5 and stops after 60
    seconds, monitoring. *)
Definition sample_objects : gmap nat TriggerObject :=
  <[0%nat := {| state := MessageRateTrigger
                            (RecordingTriggers.new_trigger 5 "Message Rate");
                connections := [] |}]>
    {[ 1%nat := {| state := DurationTrigger (new_base "Duration Limit") 60;
                   connections := [] |} ]}.

Definition sample_manager : SmartRecordingManager :=
  start_monitoring
    (add_stop_trigger (add_start_trigger (new_manager sample_objects) 0) 1).

(** A tick that observes the given message rate and duration. *)
Definition sample_tick (rate duration : Q) : Tick :=
  {| tick_metrics := <["message_rate" := rate]> {[ "duration" := duration ]};
     stamp := 0; listed := [];
     observe := fun _ => {| topics := []; now := fun _ => 0%Q |} |}.

(** The sample manager after a first recording: started by the rate,
    stopped by the duration limit. *)
Definition sample_after_first_recording : SmartRecordingManager :=
  fst (execute_all sample_manager
         [CheckTriggers (sample_tick 6 0); CheckTriggers (sample_tick 6 61)]).

(** What a slot, a delivery and a loop over triggers leave alone. *)
Definition same_setup (a b : SmartRecordingManager) : Prop :=
  start_triggers a = start_triggers b /\
  stop_triggers a = stop_triggers b /\
  pre_buffer_enabled a = pre_buffer_enabled b /\
  pre_buffer_duration a = pre_buffer_duration b /\
  pre_buffer_data a = pre_buffer_data b /\
  monitoring_enabled a = monitoring_enabled b.

(** The sample manager in its second recording, started by the rate after
    it had dropped. *)
Definition sample_second_recording : SmartRecordingManager :=
  fst (execute_all sample_after_first_recording
         [CheckTriggers (sample_tick 0 61); CheckTriggers (sample_tick 6 0)]).

(** The object behind a reference is there and its latch is open. *)
Definition open_in (objects : gmap nat TriggerObject) (trigger : nat) : Prop :=
  exists object, objects !! trigger = Some object /\
                 activated (base_of (state object)) = false.

End SmartRecording.


(** * Theorems *)

Lemma Qlt_bool_iff (x y : Q) : Qlt_bool x y = true <-> (x < y)%Q.
Proof.
  unfold Qlt_bool. rewrite negb_true_iff.
  split.
  - intros H. apply Qnot_le_lt. intros Hle.
    apply Qle_bool_iff in Hle. congruence.
  - intros H. destruct (Qle_bool y x) eqn:E; [|reflexivity].
    apply Qle_bool_iff in E. exfalso. exact (Qlt_not_le _ _ H E).
Qed.

(** ** The helper models on known values *)

(** The test suite of RFC 1321. *)
Example md5_empty : MD5.hexdigest [] = "d41d8cd98f00b204e9800998ecf8427e".
Proof. vm_compute. reflexivity. Qed.

Example md5_abc :
  MD5.hexdigest (String.list_byte_of_string "abc")
  = "900150983cd24fb0d6963f7d28e17f72".
Proof. vm_compute. reflexivity. Qed.

Example md5_two_blocks :
  MD5.hexdigest
    (String.list_byte_of_string
       "12345678901234567890123456789012345678901234567890123456789012345678901234567890")
  = "57edf4a22be3c955ac49da2e2107b67a".
Proof. vm_compute. reflexivity. Qed.

Example split_lines :
  PyStr.split PyStr.newline
    (String "a" (String PyStr.newline (String "b" (String PyStr.newline ""))))
  = ["a"; "b"; ""].
Proof. reflexivity. Qed.

Example strip_blanks : PyStr.strip "  /talker  " = "/talker".
Proof. reflexivity. Qed.

Example two_nodes :
  NetworkDiscovery.node_count
    ("/talker" ++ String PyStr.newline ("/listener" ++ String PyStr.newline ""))
  = 2%nat.
Proof. reflexivity. Qed.

Example lower_mixed : PyStr.lower "/Front/Camera_1" = "/front/camera_1".
Proof. reflexivity. Qed.

Example join_relative :
  UploadServer.path_join "/home/robot/ros2_uploads" "temp"
  = "/home/robot/ros2_uploads/temp".
Proof. reflexivity. Qed.

Example join_absolute : UploadServer.path_join "/home/robot" "/etc/passwd" = "/etc/passwd".
Proof. reflexivity. Qed.

Example dirname_of_file :
  UploadServer.dirname "/home/robot/ros2_uploads/completed/run1.bag"
  = "/home/robot/ros2_uploads/completed".
Proof. reflexivity. Qed.

Example dirname_of_root_file : UploadServer.dirname "/run1.bag" = "/".
Proof. reflexivity. Qed.

Example truncation : MetricsCollector.int_of_float (7 # 2) = 3 /\
                     MetricsCollector.int_of_float (-7 # 2) = -3.
Proof. split; reflexivity. Qed.

Section PerformanceModesFacts.
Import PerformanceModes.

Lemma high_condition_iff (self : PerformanceModeManager) :
  Qle_bool 16 (memory_gb (system_info self)) && (8 <=? cpu_count (system_info self))%Z = true
  <-> (16 <= memory_gb (system_info self))%Q /\ (8 <= cpu_count (system_info self))%Z.
Proof. rewrite andb_true_iff, Qle_bool_iff, Z.leb_le. tauto. Qed.

Lemma low_condition_iff (self : PerformanceModeManager) :
  Qlt_bool (memory_gb (system_info self)) 8 || (cpu_count (system_info self) <? 4)%Z = true
  <-> (memory_gb (system_info self) < 8)%Q \/ (cpu_count (system_info self) < 4)%Z.
Proof. rewrite orb_true_iff, Qlt_bool_iff, Z.ltb_lt. tauto. Qed.

(** C4. The auto-detected mode is HIGH exactly when memory_gb >= 16 and
    cpu_count >= 8; otherwise it is LOW exactly when memory_gb < 8 or
    cpu_count < 4; otherwise it is BALANCED (and it is never CUSTOM).
    (16, 8) gives HIGH, (4, 2) gives LOW and (12, 6) gives BALANCED; the
    record used when a probe raises (8 GB, 4 cores) gives BALANCED. *)
Theorem auto_detect_mode_classification (self : PerformanceModeManager) :
  let mem := memory_gb (system_info self) in
  let cpu := cpu_count (system_info self) in
  let high := (16 <= mem)%Q /\ (8 <= cpu)%Z in
  let low := (mem < 8)%Q \/ (cpu < 4)%Z in
  (_auto_detect_mode self = HIGH <-> high) /\
  (_auto_detect_mode self = LOW <-> ~ high /\ low) /\
  (_auto_detect_mode self = BALANCED <-> ~ high /\ ~ low) /\
  _auto_detect_mode self <> CUSTOM /\
  _auto_detect_mode (specs 16 8) = HIGH /\
  _auto_detect_mode (specs 4 2) = LOW /\
  _auto_detect_mode (specs 12 6) = BALANCED /\
  _auto_detect_mode (detected fallback_system_info) = BALANCED.
Proof.
  cbv zeta.
  pose proof (high_condition_iff self) as Hh.
  pose proof (low_condition_iff self) as Hl.
  unfold _auto_detect_mode.
  destruct (Qle_bool 16 _ && _) eqn:Eh.
  - assert (Hhigh := proj1 Hh eq_refl).
    repeat split; try discriminate; try tauto.
  - assert (Hnh : ~ ((16 <= memory_gb (system_info self))%Q
                     /\ (8 <= cpu_count (system_info self))%Z)).
    { intros H. apply Hh in H. discriminate. }
    destruct (Qlt_bool _ _ || _) eqn:El.
    + assert (Hlow := proj1 Hl eq_refl).
      repeat split; try discriminate; try tauto.
    + assert (Hnl : ~ ((memory_gb (system_info self) < 8)%Q
                       \/ (cpu_count (system_info self) < 4)%Z)).
      { intros H. apply Hl in H. discriminate. }
      repeat split; try discriminate; try tauto.
Qed.

(** C5. For HIGH, BALANCED and LOW, [get_mode_settings] returns exactly the
    16 keys of the table of section 4.2, each with the literal of that
    table, whether the mode is passed or is the manager's current mode. *)
Theorem get_mode_settings_matches_spec_table (self : PerformanceModeManager) :
  Forall (fun mode =>
    get_mode_settings self (Some mode) = list_to_map (spec_column mode) /\
    (forall cs si,
       get_mode_settings
         {| _current_mode := Some mode; _custom_settings := cs; system_info := si |}
         None = list_to_map (spec_column mode)) /\
    dom (get_mode_settings self (Some mode))
      = list_to_set (map fst spec_table) /\
    size (get_mode_settings self (Some mode)) = 16%nat)
    [HIGH; BALANCED; LOW] /\
  NoDup (map fst spec_table) /\
  length spec_table = 16%nat /\
  get_mode_settings self (Some HIGH) !! "metrics_update_interval" = Some (PyInt 250) /\
  get_mode_settings self (Some HIGH) !! "chart_auto_pause" = Some (PyBool false) /\
  get_mode_settings self (Some LOW) !! "enable_profiler" = Some (PyBool false) /\
  get_mode_settings self (Some LOW) !! "process_priority" = Some (PyStr "below_normal").
Proof.
  split; [|split; [|split; [|repeat split]]].
  - repeat constructor; vm_compute; reflexivity.
  - apply (bool_decide_unpack _). vm_compute. exact I.
  - reflexivity.
Qed.

End PerformanceModesFacts.

Section RecordingTriggersFacts.
Import RecordingTriggers.

(** One call, for an enabled trigger whose latch reflects the previous
    observation. *)
Lemma check_enabled (self : MessageRateTrigger) (metrics : gmap string Q)
    (previous : option Q) :
  enabled self = true ->
  activated self = was_at_least (threshold self) previous ->
  let '(result, signals, self') := check self metrics in
  (result, map edge_of signals)
    = expected_call (threshold self) previous (rate_of metrics) /\
  enabled self' = true /\
  threshold self' = threshold self /\
  activated self' = Qle_bool (threshold self) (rate_of metrics).
Proof.
  intros Hen Hact. unfold check, expected_call, rate_of. rewrite Hen. simpl.
  rewrite <- Hact.
  destruct (Qle_bool (threshold self) _) eqn:Hle;
    destruct (activated self) eqn:Ha; simpl; rewrite ?Hen; auto.
Qed.

Lemma check_stream_expected (stream : list (gmap string Q)) :
  forall (self : MessageRateTrigger) (previous : option Q),
    enabled self = true ->
    activated self = was_at_least (threshold self) previous ->
    edges_of_run (check_stream self stream)
    = expected_stream (threshold self) previous (map rate_of stream).
Proof.
  induction stream as [|metrics rest IH]; intros self previous Hen Hact.
  - reflexivity.
  - simpl.
    pose proof (check_enabled self metrics previous Hen Hact) as Hcall.
    destruct (check self metrics) as [[result signals] self'].
    destruct Hcall as (Hcall & Hen' & Hthr & Hact').
    unfold edges_of_run in *. simpl. rewrite Hcall. f_equal.
    rewrite <- Hthr. apply IH; [exact Hen'|].
    rewrite Hthr. exact Hact'.
Qed.

Lemma was_at_least_iff (t : Q) (previous : option Q) :
  was_at_least t previous = true <-> previously_at_least t previous.
Proof.
  unfold was_at_least, previously_at_least. destruct previous as [p|].
  - rewrite Qle_bool_iff. split.
    + intros Hle. exists p. split; [reflexivity|exact Hle].
    + intros (q & Hq & Hle). injection Hq as <-. exact Hle.
  - split; [discriminate|]. intros (q & Hq & _). discriminate.
Qed.

(** What [expected_call] says, in words of the rate. *)
Lemma expected_call_reading (t : Q) (previous : option Q) (rate : Q) :
  (fst (expected_call t previous rate) = true <-> (t <= rate)%Q) /\
  (snd (expected_call t previous rate) = [Activation] <-> rises t previous rate) /\
  (snd (expected_call t previous rate) = [Deactivation] <-> falls t previous rate) /\
  (snd (expected_call t previous rate) = []
   <-> ~ rises t previous rate /\ ~ falls t previous rate).
Proof.
  unfold expected_call, rises, falls. cbn [fst snd].
  destruct (Qle_bool t rate) eqn:Hnow; destruct (was_at_least t previous) eqn:Hprev;
    cbn [andb negb].
  - assert (Hp : previously_at_least t previous) by (apply was_at_least_iff, Hprev).
    assert (Hr : (t <= rate)%Q) by (apply Qle_bool_iff, Hnow).
    assert (Hn : ~ (rate < t)%Q) by (apply Qle_not_lt, Hr).
    repeat split; try discriminate; try tauto.
  - assert (Hp : ~ previously_at_least t previous)
      by (intros Hp; apply was_at_least_iff in Hp; congruence).
    assert (Hr : (t <= rate)%Q) by (apply Qle_bool_iff, Hnow).
    repeat split; try discriminate; try tauto.
  - assert (Hp : previously_at_least t previous) by (apply was_at_least_iff, Hprev).
    assert (Hr : (rate < t)%Q).
    { apply Qnot_le_lt. intros Hx. apply Qle_bool_iff in Hx. congruence. }
    assert (Hn : ~ (t <= rate)%Q) by (apply Qlt_not_le, Hr).
    repeat split; try discriminate; try tauto.
  - assert (Hp : ~ previously_at_least t previous)
      by (intros Hp; apply was_at_least_iff in Hp; congruence).
    assert (Hr : (rate < t)%Q).
    { apply Qnot_le_lt. intros Hx. apply Qle_bool_iff in Hx. congruence. }
    assert (Hn : ~ (t <= rate)%Q) by (apply Qlt_not_le, Hr).
    repeat split; try discriminate; try tauto.
Qed.

(** C6. For a freshly built (hence enabled) MessageRateTrigger with
    threshold t and any sequence of check calls: each call returns true
    exactly when the observed rate is >= t, emits an activation exactly
    when the rate passes from below t to >= t, a deactivation exactly when
    it passes from >= t to below t, and nothing otherwise; before the first
    call the rate counts as below t. The stream [0; 6; 6; 2] with t = 5
    gives one activation and one deactivation. *)
Theorem message_rate_trigger_edge_detection (t : Q) (nm : string)
    (stream : list (gmap string Q)) :
  edges_of_run (check_stream (new_trigger t nm) stream)
    = expected_stream t None (map rate_of stream) /\
  (forall previous rate,
     (fst (expected_call t previous rate) = true <-> (t <= rate)%Q) /\
     (snd (expected_call t previous rate) = [Activation]
      <-> rises t previous rate) /\
     (snd (expected_call t previous rate) = [Deactivation]
      <-> falls t previous rate) /\
     (snd (expected_call t previous rate) = []
      <-> ~ rises t previous rate /\ ~ falls t previous rate)) /\
  (let run := edges_of_run
                (check_stream (new_trigger 5 "Message Rate")
                              (map rate_snapshot [0; 6; 6; 2]%Q)) in
   run = [(false, []); (true, [Activation]); (true, []); (false, [Deactivation])] /\
   count_edges is_activation run = 1%nat /\
   count_edges (fun e => negb (is_activation e)) run = 1%nat).
Proof.
  split; [|split].
  - apply (check_stream_expected stream (new_trigger t nm) None); reflexivity.
  - intros previous rate. apply expected_call_reading.
  - cbv zeta. repeat split; vm_compute; reflexivity.
Qed.

End RecordingTriggersFacts.

Section IsolationTestFacts.
Import IsolationTest.

(** C3, as stated, fails: the harness reports success on a run where the
    process id changed between the two readings and the health-check
    counter did not increase. *)
Lemma isolation_harness_ignores_pid_and_counter :
  exit_code other_process_run = 0 /\
  ~ pid_unchanged other_process_run /\
  ~ health_checks_increased other_process_run.
Proof.
  split; [vm_compute; reflexivity|]. split.
  - intros (before & after & pid & Hb & Ha & Hpb & Hpa).
    cbn in Hb, Ha. injection Hb as <-. injection Ha as <-.
    vm_compute in Hpb, Hpa. congruence.
  - intros (before & after & a & b & Hb & Ha & Hcb & Hca & Hlt).
    cbn in Hb, Ha. injection Hb as <-. injection Ha as <-.
    vm_compute in Hcb, Hca. injection Hcb as <-. injection Hca as <-. lia.
Qed.

Lemma item_retold (pid checks : option value) (d : reading) (key : string) :
  key <> "pid" -> key <> "health_checks" ->
  item (retold pid checks d) key = item d key.
Proof.
  intros Hp Hc. unfold item, retold.
  assert (Hp' : "pid" <> key) by congruence.
  assert (Hc' : "health_checks" <> key) by congruence.
  destruct pid, checks;
    rewrite ?(lookup_alter_ne _ _ _ _ Hc'), ?(lookup_alter_ne _ _ _ _ Hp');
    reflexivity.
Qed.

(** Another value under a key goes unnoticed where the value is only
    printed. *)
Lemma item_retold_bind {A : Type} (pid checks : option value) (d : reading)
    (key : string) (k : result A) :
  (do _ <- item (retold pid checks d) key; k) = (do _ <- item d key; k).
Proof.
  assert (Hnone : retold pid checks d !! key = None <-> d !! key = None).
  { unfold retold. destruct pid, checks; rewrite ?lookup_alter_None; reflexivity. }
  unfold item, bind.
  destruct (retold pid checks d !! key) eqn:E1, (d !! key) eqn:E2;
    try reflexivity; exfalso.
  - pose proof (proj2 Hnone eq_refl). discriminate.
  - pose proof (proj1 Hnone eq_refl). discriminate.
Qed.

Lemma retold_empty (pid checks : option value) (d : reading) :
  retold pid checks d = ∅ <-> d = ∅.
Proof.
  unfold retold. split.
  - intros He. apply map_eq. intros key. rewrite lookup_empty.
    assert (Hk : retold pid checks d !! key = None)
      by (unfold retold; rewrite He; apply lookup_empty).
    unfold retold in Hk.
    destruct pid, checks; rewrite ?lookup_alter_None in Hk; exact Hk.
  - intros ->. destruct pid, checks; rewrite ?alter_empty; reflexivity.
Qed.

Lemma present_retold (pid checks : option value) (health : option reading) :
  present (retold pid checks <$> health) = retold pid checks <$> present health.
Proof.
  destruct health as [d|]; [|reflexivity]. cbn.
  destruct (decide (d = ∅)) as [Hd|Hd].
  - rewrite !bool_decide_eq_true_2; [reflexivity|exact Hd|].
    apply retold_empty, Hd.
  - rewrite !bool_decide_eq_false_2; [reflexivity|exact Hd|].
    intros He. apply retold_empty in He. contradiction.
Qed.

Lemma print_before_retold (pid checks : option value) (d : reading) :
  print_before (retold pid checks d) = print_before d.
Proof.
  unfold print_before. rewrite item_retold_bind.
  rewrite !item_retold by discriminate. reflexivity.
Qed.

Lemma print_after_retold (checks : option value) (d : reading) :
  print_after (retold None checks d) = print_after d.
Proof.
  unfold print_after.
  rewrite (item_retold None checks d "elapsed_seconds") by discriminate.
  rewrite (item_retold None checks d "cpu_percent") by discriminate.
  rewrite (item_retold None checks d "memory_mb") by discriminate.
  rewrite (item_retold None checks d "status") by discriminate.
  rewrite (item_retold None checks d "warnings") by discriminate.
  assert (Hpid : item (retold None checks d) "pid" = item d "pid").
  { unfold item, retold. destruct checks;
      rewrite ?lookup_alter_ne by discriminate; reflexivity. }
  rewrite Hpid.
  destruct (item d "pid"); [|reflexivity]. cbn [bind].
  destruct (item d "elapsed_seconds"); [|reflexivity]. cbn [bind].
  destruct (item d "cpu_percent") as [cpu|]; [|reflexivity]. cbn [bind].
  destruct (format_1f cpu); [|reflexivity]. cbn [bind].
  destruct (item d "memory_mb") as [memory|]; [|reflexivity]. cbn [bind].
  destruct (format_1f memory); [|reflexivity]. cbn [bind].
  apply item_retold_bind.
Qed.

Lemma inspect_retold (o : Observations) (p c c' : value) (checks : option value)
    (d : reading) :
  inspect (with_other_values o p c c') (retold None checks d) = inspect o d.
Proof.
  unfold inspect.
  assert (Hpid : item (retold None checks d) "pid" = item d "pid").
  { unfold item, retold. destruct checks;
      rewrite ?lookup_alter_ne by discriminate; reflexivity. }
  rewrite Hpid. reflexivity.
Qed.

(** What a run that exits with 0 went through. *)
Lemma exit_zero (o : Observations) :
  exit_code o = 0 ->
  new_manager o = Ok tt /\
  start_recording o = Ok true /\
  (exists after pid process,
     health_after o = Ok (Some after) /\ after !! "pid" = Some pid /\
     Process o pid = Ok process /\ is_running process = Ok true /\
     (exists n, name process = Ok n) /\ (exists s, status process = Ok s)) /\
  stop_recording o = Ok tt.
Proof.
  unfold exit_code, test_recording_isolation.
  destruct (new_manager o) as [[]|]; [|discriminate]. cbn [bind].
  destruct (start_recording o) as [[|]|]; [|discriminate..]. cbn [bind negb].
  destruct (stabilize o); [|discriminate]. cbn [bind].
  destruct (health_before o) as [before|]; [|discriminate]. cbn [bind].
  destruct (match present before with Some d => print_before d | None => Ok tt end);
    [|discriminate]. cbn [bind].
  destruct (freeze o); [|discriminate]. cbn [bind].
  destruct (health_after o) as [[after|]|]; [| discriminate..]. cbn [bind present].
  destruct (bool_decide (after = ∅)); [discriminate|].
  destruct (print_after after); [|discriminate]. cbn [bind].
  unfold inspect, item.
  destruct (after !! "pid") as [pid|] eqn:Hpid; [|discriminate]. cbn [bind].
  destruct (Process o pid) as [process|[]] eqn:Hprocess; try discriminate.
  cbn [bind].
  destruct (is_running process) as [[|]|[]] eqn:Hrun; try discriminate.
  cbn [bind].
  destruct (name process) as [n|[]] eqn:Hname; try discriminate. cbn [bind].
  destruct (status process) as [s|[]] eqn:Hstatus; try discriminate.
  cbn [bind guarded].
  destruct (stop_recording o) as [[]|]; [|discriminate]. intros _.
  repeat split. exists after, pid, process. eauto 10.
Qed.

(** C3, amended. The harness reports success (exit 0) only when the
    recording started, the second health reading is present, and the
    process that reading names exists and is reported running. These
    conditions are necessary and not sufficient: a run that meets them,
    with the process id unchanged and the counter increased as well, still
    exits with 1 when a call raises. The harness compares neither the
    process id nor the health-check counter of the two readings: the exit
    code stays the same when the first reading holds another value under
    [pid] and either reading another value under [health_checks]. *)
Theorem isolation_harness_success_only_when (o : Observations) :
  (exit_code o = 0 -> start_recording o = Ok true /\ process_running o) /\
  (forall pid_before checks_before checks_after : value,
     exit_code (with_other_values o pid_before checks_before checks_after)
     = exit_code o) /\
  (exit_code failing_stop_run = 1 /\
   start_recording failing_stop_run = Ok true /\
   process_running failing_stop_run /\
   pid_unchanged failing_stop_run /\
   health_checks_increased failing_stop_run).
Proof.
  split; [|split].
  - intros Hexit. apply exit_zero in Hexit
      as (_ & Hstart & (after & pid & process & Ha & Hp & Hproc & Hrun & _) & _).
    split; [exact Hstart|]. exists after, pid, process. auto.
  - intros p c c'. unfold exit_code. f_equal.
    unfold test_recording_isolation.
    cbn [with_other_values new_manager start_recording stabilize health_before
         freeze health_after stop_recording].
    destruct (new_manager o); [|reflexivity]. cbn [bind].
    destruct (start_recording o) as [[|]|]; [|reflexivity..]. cbn [bind negb].
    destruct (stabilize o); [|reflexivity]. cbn [bind].
    destruct (health_before o) as [before|]; [|reflexivity]. cbn [bind].
    rewrite present_retold.
    assert (Hbefore :
      match retold (Some p) (Some c) <$> present before with
      | Some d => print_before d
      | None => Ok tt
      end
      = match present before with
        | Some d => print_before d
        | None => Ok tt
        end).
    { destruct (present before); [apply print_before_retold|reflexivity]. }
    rewrite Hbefore.
    destruct (match present before with Some d => print_before d | None => Ok tt end);
      [|reflexivity]. cbn [bind].
    destruct (freeze o); [|reflexivity]. cbn [bind].
    destruct (health_after o) as [after|]; [|reflexivity]. cbn [bind].
    rewrite present_retold.
    destruct (present after) as [d|]; [|reflexivity]. cbn [fmap option_fmap option_map].
    rewrite print_after_retold, inspect_retold. reflexivity.
  - split; [vm_compute; reflexivity|]. split; [reflexivity|].
    split; [|split].
    + eexists _, (VInt 4100), _. repeat split; vm_compute; reflexivity.
    + eexists _, _, (VInt 4100). repeat split; vm_compute; reflexivity.
    + eexists _, _, 5, 9. repeat split; try (vm_compute; reflexivity).
Qed.

End IsolationTestFacts.

Section NetworkDiscoveryFacts.
Import PyStr NetworkDiscovery.

(** The two rules differ only in the text the "/tf" test reads. *)
Lemma category_agrees_with_spec (topic : string) :
  contains "/tf" topic = contains "/tf" (lower topic) ->
  category topic = spec_category topic.
Proof. intros H. unfold category, spec_category. rewrite H. reflexivity. Qed.

(** C8. The classification follows the stated precedence on the
    specification's own example, but a topic whose "/tf" part is written in
    upper case goes to "other", although its lower-cased name contains
    "/tf": that one test reads the topic as given. *)
Theorem sensors_tf_test_reads_original_case :
  get_robot_sensors
    (one_robot "turtle" ["/front/camera/image_raw"; "/imu/data"; "/scan"; "/tf"])
    "turtle"
  = [ ("cameras", ["/front/camera/image_raw"]); ("lidars", ["/scan"]);
      ("imu", ["/imu/data"]); ("tf", ["/tf"]) ] /\
  get_robot_sensors (one_robot "turtle" ["/TF"]) "turtle" = [("other", ["/TF"])] /\
  spec_get_robot_sensors (one_robot "turtle" ["/TF"]) "turtle" = [("tf", ["/TF"])].
Proof. repeat split; vm_compute; reflexivity. Qed.

Lemma scan_loop_spec (ros2_node_list : gmap string string -> option string)
    (domain_ids : list Z) :
  forall (self : NetworkRobotDiscovery) (domain_results : gmap Z nat),
    let '(self', results) :=
      scan_loop ros2_node_list domain_ids self domain_results in
    discovered_robots self' = discovered_robots self /\
    (forall v, <["ROS_DOMAIN_ID" := v]> (environ self')
               = <["ROS_DOMAIN_ID" := v]> (environ self)) /\
    (forall d, results !! d =
               if bool_decide (d ∈ domain_ids)
               then Some (probe ros2_node_list (environ self) d)
               else domain_results !! d).
Proof.
  induction domain_ids as [|domain_id rest IH]; intros self domain_results.
  - simpl. repeat split; auto.
  - simpl.
    specialize (IH (set_domain self domain_id)
                   (<[domain_id :=
                        match ros2_node_list (environ (set_domain self domain_id)) with
                        | Some stdout => node_count stdout
                        | None => 0%nat
                        end]> domain_results)).
    destruct (scan_loop _ rest _ _) as [self' results].
    destruct IH as (Hrobots & Henv & Hres).
    split; [exact Hrobots|]. split.
    + intros v. rewrite Henv. simpl. apply insert_insert_eq.
    + intros d. rewrite Hres.
      assert (Hprobe : probe ros2_node_list (environ (set_domain self domain_id)) d
                       = probe ros2_node_list (environ self) d).
      { unfold probe. simpl. rewrite insert_insert_eq. reflexivity. }
      rewrite Hprobe.
      destruct (bool_decide (d ∈ rest)) eqn:Hin.
      * apply bool_decide_eq_true in Hin.
        rewrite bool_decide_eq_true_2 by (right; exact Hin). reflexivity.
      * apply bool_decide_eq_false in Hin.
        destruct (decide (d = domain_id)) as [->|Hne].
        -- rewrite bool_decide_eq_true_2 by left.
           rewrite lookup_insert_eq. reflexivity.
        -- rewrite bool_decide_eq_false_2.
           ++ rewrite lookup_insert_ne by congruence. reflexivity.
           ++ intros Hd. apply elem_of_cons in Hd. tauto.
Qed.

Lemma strip_visible (c : ascii) (line : string) :
  truthy (strip (String c line)) = negb (is_space c) || truthy (strip line).
Proof.
  unfold strip. cbn [lstrip]. destruct (is_space c) eqn:Hc; [reflexivity|].
  cbn [negb orb rstrip]. destruct (rstrip line); [rewrite Hc|]; reflexivity.
Qed.

Lemma split_not_empty (sep : ascii) (text : string) : split sep text <> [].
Proof.
  destruct text as [|c rest]; cbn [split]; [discriminate|].
  destruct (Ascii.eqb c sep); [discriminate|].
  destruct (split sep rest); discriminate.
Qed.

(** The count of the code, line by line, is the count character by
    character. *)
Lemma visible_lines_split (text : string) (seen : bool) :
  visible_lines seen text
  = match split newline text with
    | [] => 0%nat
    | line :: lines =>
        ((if seen || truthy (strip line) then 1 else 0)
         + length (List.filter (fun n => truthy (strip n)) lines))%nat
    end.
Proof.
  revert seen. induction text as [|c rest IH]; intros seen.
  - cbn. rewrite orb_false_r. destruct seen; reflexivity.
  - cbn [visible_lines split]. destruct (Ascii.eqb c newline).
    + rewrite (IH false). cbn [strip lstrip rstrip truthy].
      rewrite orb_false_r.
      destruct (split newline rest) as [|line lines]; [reflexivity|].
      cbn [List.filter orb]. destruct (truthy (strip line)); reflexivity.
    + rewrite IH. pose proof (split_not_empty newline rest) as Hsplit.
      destruct (split newline rest) as [|line lines]; [contradiction|].
      rewrite strip_visible, orb_assoc. reflexivity.
Qed.

Lemma node_count_visible (stdout : string) :
  node_count stdout = visible_lines false stdout.
Proof.
  rewrite visible_lines_split. unfold node_count.
  destruct (split newline stdout) as [|line lines]; [reflexivity|].
  cbn [List.filter orb]. destruct (truthy (strip line)); reflexivity.
Qed.

(** C9. [scan_domains(start, end)] records a node count for every domain
    id in [start, end] inclusive and for no other: the number of lines
    with something other than white space that [ros2 node list] prints
    when ROS_DOMAIN_ID is set to that id, and 0 when the command raises.
    On return [current_domain] (and the environment variable) again hold
    the domain that was current before the call, whatever the probes
    returned or raised. *)
Theorem scan_domains_restores_domain
    (ros2_node_list : gmap string string -> option string)
    (self : NetworkRobotDiscovery) (start_domain end_domain : Z) :
  let '(self', results) :=
    scan_domains ros2_node_list self start_domain end_domain in
  current_domain self' = current_domain self /\
  discovered_robots self' = discovered_robots self /\
  environ self'
    = <["ROS_DOMAIN_ID" := pretty (current_domain self)]> (environ self) /\
  (forall d : Z,
     results !! d =
     if bool_decide (start_domain <= d <= end_domain)%Z
     then Some match ros2_node_list
                       (<["ROS_DOMAIN_ID" := pretty d]> (environ self)) with
               | Some stdout => visible_lines false stdout
               | None => 0%nat
               end
     else None).
Proof.
  unfold scan_domains.
  pose proof (scan_loop_spec ros2_node_list
                (domain_range start_domain end_domain) self ∅) as H.
  destruct (scan_loop _ _ _ _) as [self' results].
  destruct H as (Hrobots & Henv & Hres).
  split; [reflexivity|]. split; [exact Hrobots|]. split.
  - simpl. apply Henv.
  - intros d. rewrite Hres. unfold domain_range, probe.
    destruct (bool_decide (start_domain <= d <= end_domain)%Z) eqn:Hr.
    + apply bool_decide_eq_true in Hr.
      rewrite bool_decide_eq_true_2 by (apply elem_of_seqZ; lia).
      destruct (ros2_node_list _); [|reflexivity].
      rewrite node_count_visible. reflexivity.
    + apply bool_decide_eq_false in Hr.
      rewrite bool_decide_eq_false_2; [apply lookup_empty|].
      rewrite elem_of_seqZ. lia.
Qed.

(** A scan of the domains 0 to 3 from domain 7: two nodes, a time-out, no
    node, one node; domain 7 is current again. *)
Lemma scan_domains_restores_domain_witness :
  let '(self', results) :=
    scan_domains sample_domains (new_discovery {[ "ROS_DOMAIN_ID" := "7" ]}) 0 3 in
  current_domain self' = 7 /\
  environ self' !! "ROS_DOMAIN_ID" = Some "7" /\
  map (fun d => results !! d) [-1; 0; 1; 2; 3; 4]
  = [None; Some 2%nat; Some 0%nat; Some 0%nat; Some 1%nat; None].
Proof.
  pose proof (scan_domains_restores_domain sample_domains
                (new_discovery {[ "ROS_DOMAIN_ID" := "7" ]}) 0 3) as Hscan.
  destruct (scan_domains sample_domains _ 0 3) as [self' results].
  destruct Hscan as (Hdomain & _ & Henv & Hresults).
  split; [rewrite Hdomain; vm_compute; reflexivity|].
  split; [rewrite Henv; vm_compute; reflexivity|].
  cbn [map]. rewrite !Hresults. vm_compute. reflexivity.
Defined.

End NetworkDiscoveryFacts.

Section MetricsCollectorFacts.
Import PyStr MetricsCollector.

Lemma zero_metrics_keys : dom zero_metrics = snapshot_keys.
Proof. apply (bool_decide_unpack _). vm_compute. exact I. Qed.

Lemma system_keys_subset : system_keys ⊆ snapshot_keys.
Proof. apply (bool_decide_unpack _). vm_compute. exact I. Qed.

Lemma assign_keeps_keys (m : gmap string Q) (key : string) (v : Q) :
  key ∈ snapshot_keys -> dom m = snapshot_keys ->
  dom (<[key := v]> m) = snapshot_keys.
Proof.
  intros Hk Hm. rewrite dom_insert_L, Hm. apply set_eq. intros x.
  rewrite elem_of_union, elem_of_singleton.
  split; [intros [->|]; assumption | auto].
Qed.

Lemma dict_update_keeps_keys (m cache : gmap string Q) :
  dom cache = system_keys -> dom m = snapshot_keys ->
  dom (cache ∪ m) = snapshot_keys.
Proof.
  intros Hc Hm. rewrite dom_union_L, Hc, Hm.
  apply subseteq_union_1_L, system_keys_subset.
Qed.

Ltac known_key := apply (bool_decide_unpack _); vm_compute; exact I.

Ltac keep_keys :=
  repeat (apply assign_keeps_keys; [known_key|]); try assumption.

Lemma init_well_shaped : well_shaped init.
Proof. split; [apply zero_metrics_keys|]. intros cache H. discriminate. Qed.

Lemma reset_well_shaped self now : well_shaped self -> well_shaped (reset self now).
Proof. intros [_ Hc]. split; [apply zero_metrics_keys|exact Hc]. Qed.

Lemma set_cache_timeout_well_shaped self timeout :
  well_shaped self -> well_shaped (set_cache_timeout self timeout).
Proof. intros H. exact H. Qed.

Lemma update_system_metrics_well_shaped self current_time host :
  well_shaped self -> well_shaped (update_system_metrics self current_time host).
Proof.
  intros [Hm Hc]. unfold update_system_metrics.
  destruct (_system_metrics_cache self) as [cache|] eqn:Hcache.
  - destruct (Qlt_bool _ _).
    + split; simpl.
      * apply dict_update_keeps_keys; auto.
      * exact Hc.
    + destruct (Qlt_bool _ _); [destruct (disk_io_counters host)|];
        (split; simpl; [keep_keys|]);
        intros c Hsome; injection Hsome as <-; known_key.
  - destruct (Qlt_bool _ _); [destruct (disk_io_counters host)|];
      (split; simpl; [keep_keys|]);
      intros c Hsome; injection Hsome as <-; known_key.
Qed.

Lemma duration_step_keys self current_time m :
  dom m = snapshot_keys -> dom (duration_step self current_time m) = snapshot_keys.
Proof. intros H. unfold duration_step. case_match; keep_keys. Qed.

Lemma write_speed_step_keys self current_time size_mb m :
  dom m = snapshot_keys ->
  dom (write_speed_step self current_time size_mb m) = snapshot_keys.
Proof. intros H. unfold write_speed_step. repeat case_match; keep_keys. Qed.

Lemma topic_count_step_keys facade m :
  dom m = snapshot_keys -> dom (topic_count_step facade m) = snapshot_keys.
Proof. intros H. unfold topic_count_step. repeat case_match; keep_keys. Qed.

Lemma message_step_keys size_mb m :
  dom m = snapshot_keys -> dom (message_step size_mb m) = snapshot_keys.
Proof. intros H. unfold message_step. cbv zeta. case_match; keep_keys. Qed.

Lemma disk_usage_step_keys facade m :
  dom m = snapshot_keys -> dom (disk_usage_step facade m) = snapshot_keys.
Proof. intros H. unfold disk_usage_step. case_match; keep_keys. Qed.

Lemma update_locked_well_shaped self current_time facade :
  well_shaped self -> well_shaped (update_locked self current_time facade).
Proof.
  intros [Hm Hc]. unfold update_locked.
  destruct (truthy _ && _); cbv beta iota zeta; (split; [|exact Hc]);
    cbn [metrics]; apply disk_usage_step_keys.
  - apply message_step_keys, topic_count_step_keys, write_speed_step_keys.
    apply assign_keeps_keys; [known_key|]. apply duration_step_keys, Hm.
  - apply duration_step_keys, Hm.
Qed.

Lemma update_well_shaped self current_time facade system_time host :
  well_shaped self ->
  well_shaped (update self current_time facade system_time host).
Proof.
  intros H. unfold update.
  apply update_system_metrics_well_shaped, update_locked_well_shaped, H.
Qed.

Lemma get_metrics_well_shaped self system_time host :
  well_shaped self -> well_shaped (fst (get_metrics self system_time host)).
Proof. intros H. simpl. apply update_system_metrics_well_shaped, H. Qed.

Lemma get_live_metrics_well_shaped self system_time host facade check_time stamp_time :
  well_shaped self ->
  well_shaped (fst (get_live_metrics self system_time host facade
                                     check_time stamp_time)).
Proof.
  intros H.
  pose proof (update_system_metrics_well_shaped self system_time host H) as [Hm Hc].
  unfold get_live_metrics. destruct facade as [facade|]; simpl; [|split; assumption].
  destruct (Qlt_bool _ _); [destruct (get_topics_info facade)|];
    (split; simpl; [keep_keys|exact Hc]).
Qed.

Lemma reachable_well_shaped self : reachable self -> well_shaped self.
Proof.
  induction 1.
  - apply init_well_shaped.
  - apply reset_well_shaped; assumption.
  - apply set_cache_timeout_well_shaped; assumption.
  - apply update_well_shaped; assumption.
  - apply update_system_metrics_well_shaped; assumption.
  - apply get_metrics_well_shaped; assumption.
  - apply get_live_metrics_well_shaped; assumption.
Qed.

(** C10. In every state the collector can reach through its operations
    (construction, reset, update, update_system_metrics, get_metrics,
    get_live_metrics) the snapshot has exactly the ten keys, and so has
    every copy returned by get_metrics and get_live_metrics. *)
Theorem snapshot_keys_invariant (self : MetricsCollector) :
  reachable self ->
  dom (metrics self) = snapshot_keys /\
  size snapshot_keys = 10%nat /\
  (forall system_time host,
     dom (snd (get_metrics self system_time host)) = snapshot_keys) /\
  (forall system_time host facade check_time stamp_time,
     dom (snd (get_live_metrics self system_time host facade
                                check_time stamp_time)) = snapshot_keys).
Proof.
  intros Hreach. pose proof (reachable_well_shaped self Hreach) as Hshape.
  split; [apply Hshape|]. split; [vm_compute; reflexivity|]. split.
  - intros system_time host.
    apply (get_metrics_well_shaped self system_time host Hshape).
  - intros system_time host facade check_time stamp_time.
    apply (get_live_metrics_well_shaped self system_time host facade
             check_time stamp_time Hshape).
Qed.

Lemma sample_collector_reachable : reachable sample_collector.
Proof.
  unfold sample_collector.
  apply reach_get_live_metrics, reach_get_metrics, reach_update,
    reach_reset, reach_init.
Qed.

(** A collector that went through a reset, an update and two reads. *)
Lemma snapshot_keys_invariant_witness :
  reachable sample_collector /\ dom (metrics sample_collector) = snapshot_keys.
Proof.
  split; [exact sample_collector_reachable|].
  exact (proj1 (snapshot_keys_invariant sample_collector
                  sample_collector_reachable)).
Defined.





Lemma update_system_metrics_times self current_time host :
  start_time (update_system_metrics self current_time host) = start_time self /\
  last_update_time (update_system_metrics self current_time host)
    = last_update_time self /\
  last_size (update_system_metrics self current_time host) = last_size self.
Proof.
  unfold update_system_metrics.
  destruct (_system_metrics_cache self) as [cache|];
    [destruct (Qlt_bool _ _)|]; simpl;
    try (repeat split; reflexivity);
    (destruct (Qlt_bool _ _); [destruct (disk_io_counters host)|];
     repeat split; reflexivity).
Qed.

(** The system metrics touch none of the recording entries. *)
Lemma update_system_metrics_other_key self current_time host (key : string) :
  well_shaped self -> key ∉ system_keys ->
  metrics (update_system_metrics self current_time host) !! key
  = metrics self !! key.
Proof.
  intros [_ Hc] Hkey.
  assert (Hne : key <> "cpu_percent" /\ key <> "memory_percent"
                /\ key <> "disk_write_speed").
  { unfold system_keys in Hkey.
    rewrite !not_elem_of_union, !not_elem_of_singleton in Hkey. tauto. }
  destruct Hne as (H1 & H2 & H3).
  unfold update_system_metrics.
  destruct (_system_metrics_cache self) as [cache|] eqn:Hcache.
  - destruct (Qlt_bool _ _).
    + simpl. apply lookup_union_r. apply not_elem_of_dom.
      rewrite (Hc cache eq_refl). exact Hkey.
    + destruct (Qlt_bool _ _); [destruct (disk_io_counters host)|]; simpl;
        rewrite !lookup_insert_ne by congruence; reflexivity.
  - destruct (Qlt_bool _ _); [destruct (disk_io_counters host)|]; simpl;
      rewrite !lookup_insert_ne by congruence; reflexivity.
Qed.

Lemma time_truthy_nonzero (t : Q) : ~ (t == 0)%Q -> time_truthy (Some t) = true.
Proof.
  intros H. simpl. destruct (Qeq_bool t 0) eqn:E; [|reflexivity].
  apply Qeq_bool_iff in E. contradiction.
Qed.

Lemma time_differs_distinct (a b : Q) :
  ~ (a == b)%Q -> time_differs (Some a) (Some b) = true.
Proof.
  intros H. simpl. destruct (Qeq_bool a b) eqn:E; [|reflexivity].
  apply Qeq_bool_iff in E. contradiction.
Qed.

Lemma Qlt_bool_true (x y : Q) : (x < y)%Q -> Qlt_bool x y = true.
Proof. apply Qlt_bool_iff. Qed.

(** The first update over an existing capture records its size and its
    clock reading. *)
Lemma update_locked_records self current_time facade bytes :
  capture_has_size facade bytes ->
  start_time (update_locked self current_time facade) = start_time self /\
  last_update_time (update_locked self current_time facade) = Some current_time /\
  last_size (update_locked self current_time facade)
    = (inject_Z bytes / bytes_per_mb)%Q.
Proof.
  intros (Hpath & Hexists & Hsize). unfold update_locked.
  rewrite Hpath, Hexists, Hsize. simpl. repeat split; reflexivity.
Qed.



Lemma update_locked_over_capture self current_time facade bytes :
  capture_has_size facade bytes ->
  metrics (update_locked self current_time facade)
  = disk_usage_step facade
      (message_step (inject_Z bytes / bytes_per_mb)
         (topic_count_step facade
            (write_speed_step self current_time (inject_Z bytes / bytes_per_mb)
               (<["size_mb" := (inject_Z bytes / bytes_per_mb)%Q]>
                  (duration_step self current_time (metrics self)))))).
Proof.
  intros (Hpath & Hexists & Hsize). unfold update_locked.
  rewrite Hpath, Hexists, Hsize. reflexivity.
Qed.

Lemma duration_step_other self current_time m (key : string) :
  key <> "duration" -> duration_step self current_time m !! key = m !! key.
Proof.
  intros H. unfold duration_step. case_match; [|reflexivity].
  apply lookup_insert_ne. congruence.
Qed.

Lemma write_speed_step_other self current_time size_mb m (key : string) :
  key <> "write_speed_mb_s" ->
  write_speed_step self current_time size_mb m !! key = m !! key.
Proof.
  intros H. unfold write_speed_step. repeat case_match; try reflexivity.
  apply lookup_insert_ne. congruence.
Qed.

Lemma topic_count_step_other facade m (key : string) :
  key <> "topic_count" -> topic_count_step facade m !! key = m !! key.
Proof.
  intros H. unfold topic_count_step. repeat case_match; try reflexivity;
    apply lookup_insert_ne; congruence.
Qed.

Lemma message_step_other size_mb m (key : string) :
  key <> "message_count" -> key <> "message_rate" ->
  message_step size_mb m !! key = m !! key.
Proof.
  intros H1 H2. unfold message_step. cbv zeta. case_match;
    rewrite !lookup_insert_ne by congruence; reflexivity.
Qed.

Lemma message_step_count size_mb m :
  message_step size_mb m !! "message_count"
  = Some (inject_Z (int_of_float (size_mb * 1024 / 1))).
Proof.
  unfold message_step. cbv zeta. case_match.
  - rewrite lookup_insert_ne by discriminate. apply lookup_insert_eq.
  - apply lookup_insert_eq.
Qed.

Lemma message_step_rate size_mb m (d : Q) :
  m !! "duration" = Some d -> (0 < d)%Q ->
  message_step size_mb m !! "message_rate"
  = Some (inject_Z (int_of_float (size_mb * 1024 / 1)) / d)%Q.
Proof.
  intros Hd Hpos. unfold message_step, metric. cbv zeta.
  rewrite !(lookup_insert_ne _ "message_count" "duration") by discriminate.
  rewrite Hd. cbn [from_option id]. rewrite (Qlt_bool_true 0 d Hpos).
  rewrite !lookup_insert_eq. reflexivity.
Qed.

Lemma disk_usage_step_other facade m (key : string) :
  key <> "disk_usage_percent" -> disk_usage_step facade m !! key = m !! key.
Proof.
  intros H. unfold disk_usage_step. case_match; [|reflexivity].
  apply lookup_insert_ne. congruence.
Qed.



End MetricsCollectorFacts.

(** ** Strings and paths *)
Section PathFacts.
Import PyStr UploadServer.

Lemma append_cons (c : ascii) (a b : string) : String c a ++ b = String c (a ++ b).
Proof. reflexivity. Qed.

Lemma append_assoc (a b c : string) : (a ++ b) ++ c = a ++ (b ++ c).
Proof.
  induction a as [|x a IH]; [reflexivity|].
  rewrite !append_cons, IH. reflexivity.
Qed.

Lemma starts_with_append (a x y : string) :
  starts_with (a ++ x) (a ++ y) = starts_with x y.
Proof.
  induction a as [|c a IH]; [reflexivity|].
  rewrite !append_cons. cbn [starts_with]. rewrite Ascii.eqb_refl. exact IH.
Qed.

Lemma starts_with_prefix (a y : string) : starts_with a (a ++ y) = true.
Proof.
  induction a as [|c a IH]; [reflexivity|].
  rewrite append_cons. cbn [starts_with]. rewrite Ascii.eqb_refl. exact IH.
Qed.

Lemma truthy_append (a b : string) : truthy b = true -> truthy (a ++ b) = true.
Proof. intros H. destruct a; [exact H|reflexivity]. Qed.

Lemma ends_with_slash_append (a b : string) :
  truthy b = true -> ends_with_slash (a ++ b) = ends_with_slash b.
Proof.
  intros Hb. induction a as [|c a IH]; [reflexivity|].
  rewrite append_cons. simpl. rewrite IH.
  destruct (a ++ b) eqn:E; [|reflexivity].
  pose proof (truthy_append a b Hb) as Ht. rewrite E in Ht. discriminate.
Qed.

Lemma has_slash_append (a b : string) :
  has_slash (a ++ b) = has_slash a || has_slash b.
Proof.
  induction a as [|c a IH]; [reflexivity|].
  rewrite append_cons. simpl. rewrite IH. apply orb_assoc.
Qed.

Lemma no_slash_no_leading (s : string) :
  has_slash s = false -> starts_with "/" s = false.
Proof.
  destruct s as [|c s]; [reflexivity|]. cbn [has_slash starts_with].
  intros H. apply orb_false_iff in H as [H _]. unfold is_slash in H.
  rewrite Ascii.eqb_sym, H. reflexivity.
Qed.

Lemma no_slash_no_trailing (s : string) :
  has_slash s = false -> ends_with_slash s = false.
Proof.
  induction s as [|c s IH]; [reflexivity|]. simpl.
  intros H. apply orb_false_iff in H as [Hc Hs].
  destruct s; [exact Hc|]. apply IH, Hs.
Qed.

Lemma plain_name_proper (s : string) : plain_name s -> proper_dir s.
Proof.
  intros (Ht & Hs & _). split; [exact Ht|]. apply no_slash_no_trailing, Hs.
Qed.

Lemma proper_dir_append (a b : string) : proper_dir b -> proper_dir (a ++ b).
Proof.
  intros [Ht He]. split.
  - apply truthy_append, Ht.
  - rewrite ends_with_slash_append by exact Ht. exact He.
Qed.

Lemma path_join_relative (a b : string) :
  has_slash b = false -> path_join a b = join_prefix a ++ b.
Proof.
  intros Hb. unfold path_join, join_prefix.
  rewrite (no_slash_no_leading b Hb).
  destruct (negb (truthy a) || ends_with_slash a); [reflexivity|].
  rewrite append_assoc. reflexivity.
Qed.

Lemma path_join_below (d name : string) :
  proper_dir d -> has_slash name = false -> path_join d name = d ++ "/" ++ name.
Proof.
  intros [Ht He] Hn. rewrite (path_join_relative d name Hn).
  unfold join_prefix. rewrite Ht, He. simpl. apply append_assoc.
Qed.

Lemma path_join_proper (a b : string) : plain_name b -> proper_dir (path_join a b).
Proof.
  intros Hb. rewrite path_join_relative by apply Hb.
  apply proper_dir_append, plain_name_proper, Hb.
Qed.

Lemma no_slash_no_head (s : string) :
  has_slash s = false -> up_to_last_slash s = "".
Proof.
  induction s as [|c s IH]; [reflexivity|]. simpl.
  intros H. apply orb_false_iff in H as [Hc Hs].
  rewrite (IH Hs), Hc. reflexivity.
Qed.

Lemma up_to_last_slash_below (d name : string) :
  has_slash name = false -> up_to_last_slash (d ++ "/" ++ name) = d ++ "/".
Proof.
  intros Hn. induction d as [|c d IH].
  - change ("" ++ "/" ++ name) with (String "/" name).
    simpl. rewrite (no_slash_no_head name Hn). reflexivity.
  - rewrite (append_cons c d). cbn [up_to_last_slash]. rewrite IH.
    destruct d; reflexivity.
Qed.

Lemma rstrip_slashes_separator (d : string) :
  rstrip_slashes (d ++ "/") = rstrip_slashes d.
Proof.
  induction d as [|c d IH]; [reflexivity|].
  rewrite append_cons. simpl. rewrite IH. reflexivity.
Qed.

Lemma rstrip_slashes_proper (d : string) :
  ends_with_slash d = false -> rstrip_slashes d = d.
Proof.
  induction d as [|c d IH]; [reflexivity|]. simpl.
  destruct d as [|c' d'].
  - intros H. simpl. rewrite H. reflexivity.
  - intros H. rewrite (IH H). reflexivity.
Qed.

Lemma all_slashes_append (a b : string) :
  all_slashes (a ++ b) = all_slashes a && all_slashes b.
Proof.
  induction a as [|c a IH]; [reflexivity|].
  rewrite append_cons. simpl. rewrite IH. apply andb_assoc.
Qed.

Lemma proper_dir_not_all_slashes (d : string) :
  proper_dir d -> all_slashes d = false.
Proof.
  intros [Ht He]. induction d as [|c d IH]; [discriminate|].
  simpl in *. destruct d as [|c' d'].
  - rewrite He. reflexivity.
  - rewrite (IH eq_refl He). apply andb_false_r.
Qed.

(** The directory part of a plain name placed below a proper directory. *)
Lemma dirname_below (d name : string) :
  proper_dir d -> has_slash name = false -> dirname (d ++ "/" ++ name) = d.
Proof.
  intros Hd Hn. unfold dirname. rewrite (up_to_last_slash_below d name Hn).
  rewrite truthy_append by reflexivity.
  rewrite all_slashes_append, (proper_dir_not_all_slashes d Hd). simpl.
  rewrite rstrip_slashes_separator. apply rstrip_slashes_proper, Hd.
Qed.

Lemma is_slash_digit (x : N) : is_slash (pretty_N_char x) = false.
Proof. unfold pretty_N_char. repeat case_match; reflexivity. Qed.

Lemma pretty_N_go_no_slash (x : N) (s : string) :
  has_slash s = false -> has_slash (pretty_N_go x s) = false.
Proof.
  revert s. induction (N.lt_wf_0 x) as [x _ IH]; intros s Hs.
  assert (x = 0 \/ 0 < x)%N as [->|Hpos] by lia.
  - rewrite pretty_N_go_0. exact Hs.
  - rewrite pretty_N_go_step by exact Hpos. apply IH.
    + apply N.div_lt; [exact Hpos|reflexivity].
    + simpl. rewrite is_slash_digit. exact Hs.
Qed.

Lemma pretty_N_no_slash (x : N) : has_slash (pretty x) = false.
Proof.
  unfold pretty, pretty_N. case_decide; [reflexivity|].
  apply pretty_N_go_no_slash. reflexivity.
Qed.

(** The decimal text of an integer has no separator. *)
Lemma pretty_Z_no_slash (z : Z) : has_slash (pretty z) = false.
Proof.
  destruct z as [|p|p]; unfold pretty, pretty_Z.
  - reflexivity.
  - apply (pretty_N_no_slash (N.pos p)).
  - rewrite has_slash_append. simpl. apply (pretty_N_no_slash (N.pos p)).
Qed.

End PathFacts.

Lemma string_length_append (a b : string) :
  String.length (a ++ b) = (String.length a + String.length b)%nat.
Proof.
  induction a as [|c a IH]; [reflexivity|].
  change (String c a ++ b) with (String c (a ++ b)). simpl. rewrite IH. reflexivity.
Qed.

(** ** The upload server: where its paths lie *)
Section UploadPaths.
Import PyStr UploadServer.
Context `{Platform}.

Lemma TEMP_DIR_eq : TEMP_DIR = join_prefix UPLOAD_DIR ++ "temp".
Proof. apply path_join_relative. reflexivity. Qed.

Lemma COMPLETED_DIR_eq : COMPLETED_DIR = join_prefix UPLOAD_DIR ++ "completed".
Proof. apply path_join_relative. reflexivity. Qed.

Lemma TEMP_DIR_proper : proper_dir TEMP_DIR.
Proof. apply path_join_proper. repeat split; discriminate. Qed.

Lemma COMPLETED_DIR_proper : proper_dir COMPLETED_DIR.
Proof. apply path_join_proper. repeat split; discriminate. Qed.

Lemma not_below_itself (d : string) : starts_with (d ++ "/") d = false.
Proof. induction d as [|c d IH]; [reflexivity|].
  rewrite append_cons. cbn [starts_with]. rewrite IH. apply andb_false_r.
Qed.

Section OneUpload.
Variables (upload_id : string) (session : Session).
Hypothesis plain_id : plain_name upload_id.
Hypothesis session_dir : temp_dir session = path_join TEMP_DIR upload_id.

Lemma temp_dir_eq : temp_dir session = TEMP_DIR ++ "/" ++ upload_id.
Proof.
  rewrite session_dir. apply path_join_below; [apply TEMP_DIR_proper|apply plain_id].
Qed.

Lemma temp_dir_proper : proper_dir (temp_dir session).
Proof. rewrite session_dir. apply path_join_proper, plain_id. Qed.

Lemma chunk_name_no_slash (i : Z) : has_slash ("chunk_" ++ pretty i) = false.
Proof. rewrite has_slash_append. simpl. apply pretty_Z_no_slash. Qed.

Lemma chunk_path_eq (i : Z) :
  chunk_path session i = temp_dir session ++ "/" ++ "chunk_" ++ pretty i.
Proof.
  unfold chunk_path.
  apply path_join_below; [apply temp_dir_proper|apply chunk_name_no_slash].
Qed.

Lemma chunk_path_inj (i j : Z) :
  chunk_path session i = chunk_path session j -> i = j.
Proof.
  rewrite !chunk_path_eq. intros Heq.
  do 3 apply String.app_inj in Heq.
  apply (inj pretty) in Heq. exact Heq.
Qed.

Lemma chunk_path_dirname (i : Z) :
  dirname (chunk_path session i) = temp_dir session.
Proof.
  rewrite chunk_path_eq.
  apply dirname_below; [apply temp_dir_proper|apply chunk_name_no_slash].
Qed.

Lemma chunk_path_below (i : Z) :
  starts_with (temp_dir session ++ "/") (chunk_path session i) = true.
Proof.
  rewrite chunk_path_eq, <- append_assoc. apply starts_with_prefix.
Qed.

(** Nothing written under the completed-uploads directory lies below the
    session's temporary directory. *)
Lemma completed_not_below (name : string) :
  starts_with (temp_dir session ++ "/") (COMPLETED_DIR ++ "/" ++ name) = false.
Proof.
  rewrite temp_dir_eq, TEMP_DIR_eq, COMPLETED_DIR_eq.
  rewrite !append_assoc, starts_with_append. reflexivity.
Qed.

Lemma completed_dir_not_below :
  starts_with (temp_dir session ++ "/") COMPLETED_DIR = false.
Proof.
  rewrite temp_dir_eq, TEMP_DIR_eq, COMPLETED_DIR_eq.
  rewrite !append_assoc, starts_with_append. reflexivity.
Qed.

End OneUpload.

Section OneFile.
Variable name : string.
Hypothesis plain_file : plain_name name.

Lemma output_path_eq : output_path name = COMPLETED_DIR ++ "/" ++ name.
Proof.
  unfold output_path.
  apply path_join_below; [apply COMPLETED_DIR_proper|apply plain_file].
Qed.

Lemma metadata_path_eq :
  metadata_path name = COMPLETED_DIR ++ "/" ++ name ++ ".metadata.json".
Proof. unfold metadata_path. rewrite output_path_eq, !append_assoc. reflexivity. Qed.

Lemma output_path_dirname : dirname (output_path name) = COMPLETED_DIR.
Proof.
  rewrite output_path_eq.
  apply dirname_below; [apply COMPLETED_DIR_proper|apply plain_file].
Qed.

Lemma metadata_path_dirname : dirname (metadata_path name) = COMPLETED_DIR.
Proof.
  rewrite metadata_path_eq.
  apply dirname_below; [apply COMPLETED_DIR_proper|].
  rewrite has_slash_append. destruct plain_file as (_ & -> & _). reflexivity.
Qed.

Lemma metadata_path_differs : metadata_path name <> output_path name.
Proof.
  unfold metadata_path. intros Heq. apply (f_equal String.length) in Heq.
  rewrite string_length_append in Heq. simpl in Heq. lia.
Qed.

End OneFile.
End UploadPaths.

(** ** The upload server: file operations that succeed *)
Section FileOperations.
Import PyStr UploadServer.

Lemma bind_returned {A B : Type} (m : M A) (k : A -> M B) (st st' : State) (a : A) :
  m st = (Returned a, st') -> bind m k st = k a st'.
Proof. intros Hm. unfold bind. rewrite Hm. reflexivity. Qed.

Lemma bind_raised {A B : Type} (m : M A) (k : A -> M B) (st st' : State) (e : exn) :
  m st = (Raised e, st') -> bind m k st = (Raised e, st').
Proof. intros Hm. unfold bind. rewrite Hm. reflexivity. Qed.

Lemma makedirs_ok (path : string) (st : State) :
  is_file (fs st) path = false ->
  makedirs path st
  = (Returned tt, put_fs st (files (fs st)) ({[path]} ∪ dirs (fs st))).
Proof.
  intros Hf. unfold makedirs, bind, get_state. rewrite Hf. reflexivity.
Qed.

Lemma write_file_ok (path : string) (data : list byte) (st : State) :
  is_dir (fs st) path = false ->
  is_dir (fs st) (dirname path) = true ->
  write_file path data st
  = (Returned tt, put_fs st (<[path := data]> (files (fs st))) (dirs (fs st))).
Proof.
  intros Hd Hp. unfold write_file, bind, get_state. rewrite Hd, Hp. reflexivity.
Qed.

Lemma read_file_ok (path : string) (data : list byte) (st : State) :
  files (fs st) !! path = Some data ->
  read_file path st = (Returned data, st).
Proof.
  intros Hf. unfold read_file, bind, get_state. rewrite Hf. reflexivity.
Qed.

Lemma append_file_ok (path : string) (old data : list byte) (st : State) :
  files (fs st) !! path = Some old ->
  append_file path data st
  = (Returned tt, put_fs st (<[path := (old ++ data)%list]> (files (fs st)))
                         (dirs (fs st))).
Proof.
  intros Hf. unfold append_file, bind, get_state. rewrite Hf. reflexivity.
Qed.

Lemma remove_ok (path : string) (st : State) :
  is_file (fs st) path = true ->
  remove path st
  = (Returned tt, put_fs st (delete path (files (fs st))) (dirs (fs st))).
Proof.
  intros Hf. unfold remove, bind, get_state. rewrite Hf. reflexivity.
Qed.

Lemma rmdir_ok (path : string) (st : State) :
  is_file (fs st) path = false ->
  is_dir (fs st) path = true ->
  nothing_below (fs st) path = true ->
  rmdir path st
  = (Returned tt, put_fs st (files (fs st)) (dirs (fs st) ∖ {[path]})).
Proof.
  intros Hf Hd Hn. unfold rmdir, bind, get_state. rewrite Hf, Hd, Hn. reflexivity.
Qed.

Lemma is_file_lookup (f : FileSystem) (path : string) :
  is_file f path = true <-> is_Some (files f !! path).
Proof.
  unfold is_file. rewrite bool_decide_eq_true. apply elem_of_dom.
Qed.

Lemma is_file_absent (f : FileSystem) (path : string) :
  is_file f path = false <-> files f !! path = None.
Proof.
  unfold is_file. rewrite bool_decide_eq_false. apply not_elem_of_dom.
Qed.

Lemma is_dir_true (f : FileSystem) (path : string) :
  is_dir f path = true <-> path ∈ dirs f.
Proof. unfold is_dir. apply bool_decide_eq_true. Qed.

Lemma is_dir_false (f : FileSystem) (path : string) :
  is_dir f path = false <-> path ∉ dirs f.
Proof. unfold is_dir. apply bool_decide_eq_false. Qed.

(** [nothing_below] speaks about every file and every directory. *)
Lemma nothing_below_spec (f : FileSystem) (path : string) :
  nothing_below f path = true <->
  (forall p, p ∈ dom (files f) ∪ dirs f -> starts_with (path ++ "/") p = false).
Proof.
  unfold nothing_below. rewrite forallb_forall. split.
  - intros Hall p Hp. apply negb_true_iff, Hall.
    apply list_elem_of_In, elem_of_elements, Hp.
  - intros Hall p Hp. apply negb_true_iff, Hall.
    apply elem_of_elements, list_elem_of_In, Hp.
Qed.

(** The digest of the blocks is the digest of the content. *)
Lemma read_blocks_concat (fuel : nat) (content : list byte) :
  (length content <= fuel)%nat -> concat (read_blocks fuel content) = content.
Proof.
  revert content. induction fuel as [|fuel IH]; intros content Hlen.
  - destruct content; [reflexivity|simpl in Hlen; lia].
  - destruct content as [|b content]; [reflexivity|].
    cbn [read_blocks concat]. rewrite IH.
    + apply take_drop.
    + rewrite length_drop. unfold block_size. simpl length in *. lia.
Qed.

Lemma fold_left_feed (blocks : list (list byte)) (fed : list byte) :
  fold_left (fun fed block => (fed ++ block)%list) blocks fed
  = (fed ++ concat blocks)%list.
Proof.
  revert fed. induction blocks as [|b blocks IH]; intros fed; simpl.
  - rewrite app_nil_r. reflexivity.
  - rewrite IH, app_assoc. reflexivity.
Qed.

Lemma calculate_checksum_ok `{Platform} (path : string) (content : list byte)
    (st : State) :
  files (fs st) !! path = Some content ->
  calculate_checksum path st = (Returned (md5_hexdigest content), st).
Proof.
  intros Hf. unfold calculate_checksum.
  rewrite (bind_returned _ _ _ _ _ (read_file_ok path content st Hf)).
  unfold ret, md5_of_blocks. rewrite fold_left_feed, read_blocks_concat by lia.
  reflexivity.
Qed.

End FileOperations.

(** ** Floats: quotients that fit *)
Section QuotientsFit.
Import PyFloat.

Lemma digits2_pos_size (p : positive) : digits2_pos p = Pos.size p.
Proof. induction p as [p IH|p IH|]; cbn; congruence. Qed.

(** A positive number below a power of two has no more digits than the
    exponent. *)
Lemma Zdigits2_le (m k : Z) : 0 <= k -> 0 <= m <= 2 ^ k -> Zdigits2 m <= k + 1.
Proof.
  intros Hk [Hm Hle]. destruct m as [|p|p]; [cbn; lia| |lia].
  cbn [Zdigits2]. rewrite digits2_pos_size.
  destruct (Z_le_gt_dec (Z.pos (Pos.size p)) (k + 1)) as [|Hgt]; [assumption|].
  exfalso.
  pose proof (Pos.size_le p) as Hsize.
  assert (H2 : 2 ^ (k + 2) <= 2 ^ Z.pos (Pos.size p))
    by (apply Z.pow_le_mono_r; lia).
  assert (H3 : 2 ^ Z.pos (Pos.size p) <= Z.pos p~0).
  { rewrite <- Pos2Z.inj_pow. apply Pos2Z.pos_le_pos. exact Hsize. }
  rewrite Pos2Z.inj_xO in H3.
  replace (k + 2) with (Z.succ (Z.succ k)) in H2 by lia.
  rewrite !Z.pow_succ_r in H2 by lia. lia.
Qed.

Lemma shr_1_half (mrs : shr_record) :
  0 <= shr_m mrs -> shr_m (shr_1 mrs) = shr_m mrs / 2.
Proof.
  destruct mrs as [m r s]. cbn [shr_m shr_1]. intros Hm.
  destruct m as [|[p|p|]|p]; cbn [shr_m]; try lia; try reflexivity.
  - rewrite Pos2Z.inj_xI. apply Z.div_unique with (r := 1); lia.
  - rewrite Pos2Z.inj_xO. apply Z.div_unique with (r := 0); lia.
Qed.

Lemma pow2_even (k : Z) : 0 <= k -> 2 ^ k * 2 ^ k = 2 ^ (2 * k).
Proof.
  intros Hk. replace (2 * k) with (k + k) by lia.
  rewrite Z.pow_add_r by lia. reflexivity.
Qed.

Lemma pow2_odd (k : Z) : 0 <= k -> 2 * (2 ^ k * 2 ^ k) = 2 ^ (2 * k + 1).
Proof.
  intros Hk. rewrite pow2_even by lia.
  replace (2 * k + 1) with (Z.succ (2 * k)) by lia.
  rewrite Z.pow_succ_r by lia. reflexivity.
Qed.

Lemma iter_shr_1 (p : positive) :
  forall mrs, 0 <= shr_m mrs ->
    shr_m (SpecFloat.iter_pos shr_1 p mrs) = shr_m mrs / 2 ^ Z.pos p.
Proof.
  induction p as [p IH|p IH|]; intros mrs Hm; cbn [SpecFloat.iter_pos].
  - assert (H1 : 0 <= shr_m (shr_1 mrs))
      by (rewrite shr_1_half by assumption; apply Z.div_pos; lia).
    assert (H2 : 0 <= shr_m (SpecFloat.iter_pos shr_1 p (shr_1 mrs)))
      by (rewrite IH by assumption; apply Z.div_pos; lia).
    rewrite IH, IH, shr_1_half by assumption.
    rewrite !Z.div_div by lia. f_equal.
    rewrite Pos2Z.inj_xI. apply pow2_odd. lia.
  - assert (H2 : 0 <= shr_m (SpecFloat.iter_pos shr_1 p mrs))
      by (rewrite IH by assumption; apply Z.div_pos; lia).
    rewrite IH, IH by assumption.
    rewrite !Z.div_div by lia. f_equal.
    rewrite Pos2Z.inj_xO. apply pow2_even. lia.
  - rewrite shr_1_half by assumption. reflexivity.
Qed.

(** What [shr_fexp] does to a mantissa that is not negative: the new
    exponent is the larger of the old one and the one the format gives,
    and the mantissa is divided accordingly. *)
Lemma shr_fexp_spec (m e : Z) (l : location) :
  0 <= m ->
  let e' := Z.max e (fexp prec emax (Zdigits2 m + e)) in
  snd (shr_fexp prec emax m e l) = e' /\
  shr_m (fst (shr_fexp prec emax m e l)) = m / 2 ^ (e' - e).
Proof.
  intros Hm. cbv zeta. unfold shr_fexp, shr.
  assert (Hrec : shr_m (shr_record_of_loc m l) = m)
    by (destruct l as [|[| |]]; reflexivity).
  destruct (fexp prec emax (Zdigits2 m + e) - e) as [|p|p] eqn:Hd; cbn [fst snd].
  - replace (Z.max e _) with e by lia. rewrite Z.sub_diag, Hrec.
    split; [reflexivity|]. symmetry. apply Z.div_1_r.
  - replace (Z.max e _) with (e + Z.pos p) by lia.
    split; [reflexivity|]. rewrite iter_shr_1 by lia. rewrite Hrec.
    f_equal. f_equal. lia.
  - replace (Z.max e _) with e by lia. rewrite Z.sub_diag, Hrec.
    split; [reflexivity|]. symmetry. apply Z.div_1_r.
Qed.

Lemma round_nearest_even_bounds (m : Z) (l : location) :
  0 <= m -> 0 <= round_nearest_even m l <= m + 1.
Proof.
  intros Hm. unfold round_nearest_even.
  destruct l as [|[| |]]; try lia. destruct (Z.even m); lia.
Qed.

(** Rounding a number that is at most one never overflows. *)
Lemma binary_round_aux_fits (sx : bool) (mx ex : Z) (lx : location) :
  0 <= mx <= 2 ^ (- ex) -> ex <= 0 ->
  is_infinite (binary_round_aux prec emax sx mx ex lx) = false.
Proof.
  intros [Hm Hle] Hex. unfold binary_round_aux.
  destruct (shr_fexp_spec mx ex lx Hm) as [He1 Hm1].
  destruct (shr_fexp prec emax mx ex lx) as [mrs1 e1]. cbn [fst snd] in He1, Hm1.
  rewrite <- He1 in Hm1.
  set (m2 := round_nearest_even (shr_m mrs1) (loc_of_shr_record mrs1)).
  assert (Hdig : Zdigits2 mx + ex <= 1)
    by (pose proof (Zdigits2_le mx (- ex) ltac:(lia) (conj Hm Hle)); lia).
  assert (He1' : ex <= e1 <= 0).
  { subst e1. unfold fexp, emin, prec, emax in *. lia. }
  assert (Hm1' : 0 <= shr_m mrs1 <= 2 ^ (- e1)).
  { rewrite Hm1. split; [apply Z.div_pos; lia|].
    apply Z.div_le_upper_bound; [lia|].
    rewrite <- Z.pow_add_r by lia.
    replace (e1 - ex + - e1) with (- ex) by lia. exact Hle. }
  pose proof (round_nearest_even_bounds (shr_m mrs1) (loc_of_shr_record mrs1)
                (proj1 Hm1')) as Hm2. fold m2 in Hm2.
  destruct (shr_fexp_spec m2 e1 loc_Exact (proj1 Hm2)) as [He2 _].
  destruct (shr_fexp prec emax m2 e1 loc_Exact) as [mrs2 e2]. cbn [fst snd] in He2.
  assert (Hdig2 : Zdigits2 m2 + e1 <= 2).
  { assert (Hb : 0 <= m2 <= 2 ^ (- e1 + 1)).
    { split; [lia|]. rewrite Z.pow_add_r by lia.
      assert (0 < 2 ^ (- e1)) by (apply Z.pow_pos_nonneg; lia). lia. }
    pose proof (Zdigits2_le m2 (- e1 + 1) ltac:(lia) Hb). lia. }
  assert (He2' : e2 <= emax - prec).
  { subst e2. unfold fexp, emin, prec, emax in *. lia. }
  destruct (shr_m mrs2); [reflexivity| |reflexivity].
  apply Z.leb_le in He2'. rewrite He2'. reflexivity.
Qed.

(** The quotient of two integers is a float whenever the first is not
    beyond the second. *)
Lemma int_truediv_fits (a b : Z) :
  0 <= a <= b -> 0 < b -> PyFloat.int_truediv a b <> None.
Proof.
  intros [Ha Hab] Hb. unfold PyFloat.int_truediv.
  assert (Hfin : is_infinite (SFdiv prec emax (exact a) (exact b)) = false).
  { destruct b as [|q|q]; try lia. destruct a as [|p|p]; try lia;
      [reflexivity|].
    cbn [exact SFdiv]. unfold SFdiv_core_binary.
    set (e' := Z.min _ _).
    assert (He' : e' <= 0) by (subst e'; lia).
    assert (Hm' : match 0 - 0 - e' with
                  | 0 => Z.pos p
                  | Z.pos _ => Z.shiftl (Z.pos p) (0 - 0 - e')
                  | Z.neg _ => 0
                  end = Z.pos p * 2 ^ (- e')).
    { destruct (0 - 0 - e') as [|s|s] eqn:Hs; try lia.
      - replace (- e') with 0 by lia. lia.
      - rewrite Z.shiftl_mul_pow2 by lia. f_equal. f_equal. lia. }
    rewrite Hm'.
    pose proof (Z.div_eucl_eq (Z.pos p * 2 ^ (- e')) (Z.pos q) ltac:(lia)) as Heq.
    pose proof (Z.mod_pos_bound (Z.pos p * 2 ^ (- e')) (Z.pos q) ltac:(lia)) as Hr.
    unfold Z.modulo in Hr.
    destruct (Z.div_eucl (Z.pos p * 2 ^ (- e')) (Z.pos q)) as [quo r].
    apply binary_round_aux_fits; [|exact He'].
    assert (Hp : 0 < 2 ^ (- e')) by (apply Z.pow_pos_nonneg; lia).
    split; nia. }
  rewrite Hfin. discriminate.
Qed.

End QuotientsFit.

(** ** The upload server: storing chunks *)
Section StoringChunks.
Import PyStr UploadServer.
Context `{Platform}.

Lemma find_session_known (id : string) (session : Session)
    (sessions : gmap string Session) :
  sessions !! id = Some session ->
  find_session (Some id) sessions = Some (id, session).
Proof. intros Hs. unfold find_session. rewrite Hs. reflexivity. Qed.

(** The progress computation returns or raises, and leaves the state
    alone. *)
Lemma percent_cases (n : Z) (v : json) (st : State) :
  (exists progress, percent n v st = (Returned progress, st)) \/
  (exists e, percent n v st = (Raised e, st)).
Proof.
  unfold percent, bind, truediv, int_truediv, ret, raise.
  destruct v as [|b|z|x|s|]; eauto.
  - destruct (_ =? 0)%Z; [eauto|]. destruct (PyFloat.int_truediv _ _); eauto.
  - destruct (_ =? 0)%Z; [eauto|]. destruct (PyFloat.int_truediv _ _); eauto.
  - destruct (PyFloat.of_int n); [|eauto]. destruct (PyFloat.is_zero x); eauto.
Qed.

(** Among integers the progress of a part of the whole is a float. *)
Lemma percent_of_part (n total : Z) (st : State) :
  0 <= n <= total -> 0 < total ->
  exists progress, percent n (JInt total) st = (Returned progress, st).
Proof.
  intros Hn Ht. unfold percent, bind, truediv, int_truediv, ret, raise.
  destruct (Z.eqb_spec total 0) as [->|_]; [lia|].
  pose proof (int_truediv_fits n total Hn Ht) as Hfit.
  destruct (PyFloat.int_truediv n total); [eauto|contradiction].
Qed.

(** One chunk: the payload is stored under [chunk_<i>] and the index is
    recorded, also when the progress computation then raises. *)
Lemma upload_chunk_stores (st : State) (id : string) (session : Session)
    (payloads : list (list byte)) (total : Z) (i : nat) :
  upload_sessions st !! id = Some session ->
  is_dir (fs st) (chunk_path session (Z.of_nat i)) = false ->
  is_dir (fs st) (dirname (chunk_path session (Z.of_nat i))) = true ->
  exists r,
    upload_chunk (chunk_request id payloads total i) st
    = (r, {| upload_sessions :=
               <[id := add_received session (Z.of_nat i)]> (upload_sessions st);
             fs := {| files := <[chunk_path session (Z.of_nat i)
                                  := default [] (payloads !! i)]> (files (fs st));
                      dirs := dirs (fs st) |} |}) /\
    (Z.of_nat (size (received_chunks (add_received session (Z.of_nat i)))) <= total ->
     snd r = 200).
Proof.
  intros Hs Hd Hp. unfold upload_chunk, handle, chunk_request.
  cbn [chunk_index chunk_total chunk_upload_id chunk int_field].
  unfold bind at 1. unfold ret at 1. cbn beta iota.
  unfold bind at 1. unfold ret at 1. cbn beta iota.
  unfold bind at 1. unfold get_state at 1. cbn beta iota.
  rewrite (find_session_known id session _ Hs). cbn [part_filename truthy negb stream].
  rewrite (bind_returned _ _ _ _ _ (write_file_ok _ _ st Hd Hp)).
  unfold bind at 1. unfold get_state at 1. cbn beta iota.
  unfold bind at 1. unfold set_sessions at 1. cbn beta iota.
  cbn [upload_sessions fs put_fs].
  match goal with
  | |- context [bind (percent ?n ?v) _ ?s] =>
      set (count := n); set (stored := s)
  end.
  destruct (Z_le_gt_dec count total) as [Hle|Hgt].
  - assert (Hpos : 0 < total).
    { subst count. cbn [add_received received_chunks] in Hle |- *.
      assert (0 < size ({[Z.of_nat i]} ∪ received_chunks session))%nat; [|lia].
      apply Nat.neq_0_lt_0. intros Hz. apply size_empty_inv in Hz.
      apply (not_elem_of_empty (C := gset Z) (Z.of_nat i)).
      rewrite <- (leibniz_equiv _ _ Hz). apply elem_of_union. left.
      apply elem_of_singleton. reflexivity. }
    destruct (percent_of_part count total stored) as [progress Hpr]; [lia|lia|].
    unfold bind. rewrite Hpr. eexists. split; [reflexivity|]. reflexivity.
  - destruct (percent_cases count (JInt total) stored) as [[pr Hpr]|[e Hpr]];
      unfold bind; rewrite Hpr; (eexists; split; [reflexivity|]);
      intros Hle; subst count; lia.
Qed.

(** A set of indices below a bound has no more elements than the bound. *)
Lemma size_of_indices (received : gset Z) (total : Z) :
  0 <= total ->
  (forall z, z ∈ received -> 0 <= z < total) ->
  Z.of_nat (size received) <= total.
Proof.
  intros Htotal Hin.
  assert (Hsub : received ⊆ list_to_set (seqZ 0 total)).
  { intros z Hz. apply elem_of_list_to_set, elem_of_seqZ.
    specialize (Hin z Hz). lia. }
  apply subseteq_size in Hsub.
  rewrite size_list_to_set in Hsub by apply NoDup_seqZ.
  rewrite length_seqZ in Hsub. lia.
Qed.


Lemma foldl_add_received_fields (indices : list Z) (session : Session) :
  filename (foldl add_received session indices) = filename session /\
  filesize (foldl add_received session indices) = filesize session /\
  chunks (foldl add_received session indices) = chunks session /\
  metadata (foldl add_received session indices) = metadata session /\
  temp_dir (foldl add_received session indices) = temp_dir session /\
  received_chunks (foldl add_received session indices)
    = list_to_set indices ∪ received_chunks session.
Proof.
  revert session. induction indices as [|i indices IH]; intros session.
  - simpl. repeat split; try reflexivity.
    symmetry. apply (left_id_L ∅ (∪)).
  - simpl. destruct (IH (add_received session i)) as (H1 & H2 & H3 & H4 & H5 & H6).
    rewrite H1, H2, H3, H4, H5, H6. simpl. repeat split; try reflexivity.
    rewrite (assoc_L (∪)), (comm_L (∪) (list_to_set indices)). reflexivity.
Qed.

Section OneSession.
Variables (id : string) (payloads : list (list byte)) (total : Z).
Hypothesis plain_id : plain_name id.

(** The chunks of [order], posted one after the other. *)
Lemma post_chunks_stores (order : list nat) :
  forall (st : State) (session : Session),
    upload_sessions st !! id = Some session ->
    temp_dir session = path_join TEMP_DIR id ->
    is_dir (fs st) (temp_dir session) = true ->
    (forall p, p ∈ dirs (fs st) ->
               starts_with (temp_dir session ++ "/") p = false) ->
    exists rs,
      post_chunks (map (chunk_request id payloads total) order) st
      = (rs, {| upload_sessions :=
                  <[id := foldl add_received session (Z.of_nat <$> order)]>
                    (upload_sessions st);
                fs := {| files := chunks_stored session payloads order
                                                (files (fs st));
                         dirs := dirs (fs st) |} |}) /\
      ((forall z, z ∈ received_chunks session -> 0 <= z < total) ->
       (forall i, i ∈ order -> Z.of_nat i < total) ->
       Forall (fun r => snd r = 200) rs).
Proof.
  induction order as [|i order IH]; intros st session Hs Htd Hdir Hbelow.
  - exists []. split; [|intros _ _; constructor].
    simpl. unfold chunks_stored. simpl.
    rewrite (insert_id _ _ _ Hs). destruct st as [ss [f d]]. reflexivity.
  - assert (Hnd : is_dir (fs st) (chunk_path session (Z.of_nat i)) = false).
    { apply is_dir_false. intros Hin. apply Hbelow in Hin.
      rewrite (chunk_path_below id session plain_id Htd) in Hin. discriminate. }
    assert (Hpd : is_dir (fs st) (dirname (chunk_path session (Z.of_nat i))) = true).
    { rewrite (chunk_path_dirname id session plain_id Htd). exact Hdir. }
    destruct (upload_chunk_stores st id session payloads total i Hs Hnd Hpd)
      as (r & Hr & Hok).
    cbn [map post_chunks]. rewrite Hr.
    match type of Hr with _ = (_, ?s) => set (st1 := s) end.
    destruct (IH st1 (add_received session (Z.of_nat i))) as (rs & Hrs & Hoks).
    + apply lookup_insert_eq.
    + exact Htd.
    + exact Hdir.
    + exact Hbelow.
    + rewrite Hrs. exists (r :: rs). split.
      * unfold st1. cbn [upload_sessions fs files dirs].
        rewrite insert_insert_eq. reflexivity.
      * intros Hold Hnew.
        assert (Hall : forall z, z ∈ received_chunks (add_received session (Z.of_nat i))
                                 -> 0 <= z < total).
        { intros z Hz. cbn [add_received received_chunks] in Hz.
          apply elem_of_union in Hz as [Hz|Hz]; [|apply Hold, Hz].
          apply elem_of_singleton in Hz. subst z.
          specialize (Hnew i (list_elem_of_here _ _)). lia. }
        constructor.
        -- apply Hok, size_of_indices; [|exact Hall].
           specialize (Hnew i (list_elem_of_here _ _)). lia.
        -- apply Hoks; [exact Hall|].
           intros j Hj. apply Hnew, list_elem_of_further, Hj.
Qed.

End OneSession.
End StoringChunks.

(** ** The upload server: what the chunk files hold *)
Section ChunkFiles.
Import PyStr UploadServer.
Context `{Platform}.
Variables (id : string) (session : Session) (payloads : list (list byte)).
Hypothesis plain_id : plain_name id.
Hypothesis session_dir : temp_dir session = path_join TEMP_DIR id.

Lemma chunks_stored_snoc (order : list nat) (i : nat)
    (before : gmap string (list byte)) :
  chunks_stored session payloads (order ++ [i]) before
  = <[chunk_path session (Z.of_nat i) := default [] (payloads !! i)]>
      (chunks_stored session payloads order before).
Proof. unfold chunks_stored. rewrite foldl_snoc. reflexivity. Qed.

Lemma chunks_stored_chunk (order : list nat) (before : gmap string (list byte))
    (i : nat) :
  i ∈ order ->
  chunks_stored session payloads order before !! chunk_path session (Z.of_nat i)
  = Some (default [] (payloads !! i)).
Proof.
  induction order as [|j order IH] using rev_ind; intros Hin.
  - inversion Hin.
  - rewrite chunks_stored_snoc.
    destruct (decide (i = j)) as [->|Hne]; [apply lookup_insert_eq|].
    rewrite lookup_insert_ne.
    + apply IH. apply elem_of_app in Hin as [Hin|Hin]; [exact Hin|].
      apply list_elem_of_singleton in Hin. contradiction.
    + intros Heq. apply (chunk_path_inj id session plain_id session_dir) in Heq.
      lia.
Qed.

Lemma chunks_stored_other (order : list nat) (before : gmap string (list byte))
    (p : string) :
  starts_with (temp_dir session ++ "/") p = false ->
  chunks_stored session payloads order before !! p = before !! p.
Proof.
  intros Hp. induction order as [|j order IH] using rev_ind; [reflexivity|].
  rewrite chunks_stored_snoc, lookup_insert_ne; [exact IH|].
  intros Heq. rewrite <- Heq in Hp.
  rewrite (chunk_path_below id session plain_id session_dir) in Hp. discriminate.
Qed.

Lemma chunks_stored_dom (order : list nat) (before : gmap string (list byte))
    (p : string) :
  is_Some (chunks_stored session payloads order before !! p) ->
  is_Some (before !! p) \/ exists i, i ∈ order /\ p = chunk_path session (Z.of_nat i).
Proof.
  induction order as [|j order IH] using rev_ind; [left; assumption|].
  rewrite chunks_stored_snoc. intros Hp.
  destruct (decide (chunk_path session (Z.of_nat j) = p)) as [<-|Hne].
  - right. exists j. split; [|reflexivity]. apply elem_of_app. right. left.
  - rewrite lookup_insert_ne in Hp by exact Hne.
    destruct (IH Hp) as [Hb|(i & Hi & ->)]; [left; exact Hb|].
    right. exists i. split; [|reflexivity]. apply elem_of_app. left. exact Hi.
Qed.

Lemma chunks_removed_snoc (indices : list Z) (i : Z)
    (before : gmap string (list byte)) :
  chunks_removed session (indices ++ [i]) before
  = delete (chunk_path session i) (chunks_removed session indices before).
Proof. unfold chunks_removed. rewrite foldl_snoc. reflexivity. Qed.

Lemma chunks_removed_chunk (indices : list Z) (before : gmap string (list byte))
    (i : Z) :
  i ∈ indices -> chunks_removed session indices before !! chunk_path session i = None.
Proof.
  induction indices as [|j indices IH] using rev_ind; intros Hin.
  - inversion Hin.
  - rewrite chunks_removed_snoc.
    destruct (decide (i = j)) as [->|Hne]; [apply lookup_delete_eq|].
    rewrite lookup_delete_ne.
    + apply IH. apply elem_of_app in Hin as [Hin|Hin]; [exact Hin|].
      apply list_elem_of_singleton in Hin. contradiction.
    + intros Heq. apply (chunk_path_inj id session plain_id session_dir) in Heq.
      congruence.
Qed.

Lemma chunks_removed_other (indices : list Z) (before : gmap string (list byte))
    (p : string) :
  starts_with (temp_dir session ++ "/") p = false ->
  chunks_removed session indices before !! p = before !! p.
Proof.
  intros Hp. induction indices as [|j indices IH] using rev_ind; [reflexivity|].
  rewrite chunks_removed_snoc, lookup_delete_ne; [exact IH|].
  intros Heq. rewrite <- Heq in Hp.
  rewrite (chunk_path_below id session plain_id session_dir) in Hp. discriminate.
Qed.

Lemma chunks_removed_dom (indices : list Z) (before : gmap string (list byte))
    (p : string) :
  is_Some (chunks_removed session indices before !! p) -> is_Some (before !! p).
Proof.
  induction indices as [|j indices IH] using rev_ind; [auto|].
  rewrite chunks_removed_snoc. intros Hp.
  destruct (decide (chunk_path session j = p)) as [<-|Hne].
  - rewrite lookup_delete_eq in Hp. destruct Hp as [? Hp]. discriminate.
  - rewrite lookup_delete_ne in Hp by exact Hne. apply IH, Hp.
Qed.

End ChunkFiles.

Lemma payloads_in_order (payloads : list (list byte)) :
  (fun i : nat => default [] (payloads !! i)) <$> seq 0 (length payloads) = payloads.
Proof.
  induction payloads as [|p payloads IH]; [reflexivity|].
  cbn [length seq fmap list_fmap]. rewrite <- fmap_S_seq, <- list_fmap_compose.
  simpl. f_equal. exact IH.
Qed.

Lemma payloads_over_range (payloads : list (list byte)) :
  UploadServer.payload payloads
    <$> UploadServer.chunk_range (Z.of_nat (length payloads)) = payloads.
Proof.
  unfold UploadServer.chunk_range, seqZ. rewrite Nat2Z.id, <- list_fmap_compose.
  rewrite <- (payloads_in_order payloads) at 3.
  apply list_fmap_ext. intros _ i _. unfold UploadServer.payload. simpl.
  rewrite Z.add_0_r, Nat2Z.id. reflexivity.
Qed.

(** [do x <- ret a; k x] is [k a]. *)
Ltac skip_ret :=
  repeat match goal with
         | |- context [UploadServer.bind (UploadServer.ret ?a) ?k] =>
             change (UploadServer.bind (UploadServer.ret a) k) with (k a);
             cbv beta
         end.

(** ** The upload server: finalizing *)
Section Finalizing.
Import PyStr UploadServer.
Context `{Platform}.
Variables (id : string) (session : Session) (name : string).
Hypothesis plain_id : plain_name id.
Hypothesis plain_file : plain_name name.
Hypothesis session_dir : temp_dir session = path_join TEMP_DIR id.

Lemma out_not_below : starts_with (temp_dir session ++ "/") (output_path name) = false.
Proof.
  rewrite (output_path_eq name plain_file).
  apply (completed_not_below id session plain_id session_dir).
Qed.

Lemma sidecar_not_below :
  starts_with (temp_dir session ++ "/") (metadata_path name) = false.
Proof.
  rewrite (metadata_path_eq name plain_file).
  apply (completed_not_below id session plain_id session_dir).
Qed.

Lemma put_fs_same (st : State) : put_fs st (files (fs st)) (dirs (fs st)) = st.
Proof. destruct st as [ss [f d]]. reflexivity. Qed.

(** The loop that concatenates the chunk files into the output file. *)
Lemma reassemble_loop (content : Z -> list byte) (indices : list Z) :
  forall (acc : list byte) (st : State),
    files (fs st) !! (output_path name) = Some acc ->
    (forall i, i ∈ indices ->
               files (fs st) !! chunk_path session i = Some (content i)) ->
    for_each indices
      (fun i => do data <- read_file (chunk_path session i);
                append_file (output_path name) data) st
    = (Returned tt,
       put_fs st (<[(output_path name) := (acc ++ concat (content <$> indices))%list]>
                    (files (fs st)))
              (dirs (fs st))).
Proof.
  induction indices as [|i indices IH]; intros acc st Hout Hchunks.
  - cbn [for_each fmap list_fmap concat]. rewrite app_nil_r.
    rewrite (insert_id _ _ _ Hout), put_fs_same. reflexivity.
  - cbn [for_each].
    assert (Hi : files (fs st) !! chunk_path session i = Some (content i))
      by (apply Hchunks; left).
    assert (Hne : chunk_path session i <> (output_path name)).
    { intros Heq. pose proof out_not_below as Hb. rewrite <- Heq in Hb.
      rewrite (chunk_path_below id session plain_id session_dir) in Hb.
      discriminate. }
    assert (Hstep :
      (do data <- read_file (chunk_path session i); append_file (output_path name) data) st
      = (Returned tt,
         put_fs st (<[(output_path name) := (acc ++ content i)%list]> (files (fs st)))
                (dirs (fs st)))).
    { rewrite (bind_returned _ _ _ _ _ (read_file_ok _ _ st Hi)).
      apply append_file_ok, Hout. }
    rewrite (bind_returned _ _ _ _ _ Hstep).
    rewrite (IH (acc ++ content i)%list).
    + unfold put_fs. cbn [upload_sessions fs files dirs fmap list_fmap concat].
      rewrite insert_insert_eq, app_assoc. reflexivity.
    + cbn. apply lookup_insert_eq.
    + intros j Hj. cbn. rewrite lookup_insert_ne.
      * apply Hchunks. right. exact Hj.
      * intros Heq. pose proof out_not_below as Hb. rewrite Heq in Hb.
        rewrite (chunk_path_below id session plain_id session_dir) in Hb.
        discriminate.
Qed.

(** The loop that removes the chunk files. *)
Lemma cleanup_loop (indices : list Z) :
  forall st : State,
    (forall p, p ∈ dirs (fs st) ->
               starts_with (temp_dir session ++ "/") p = false) ->
    for_each indices
      (fun i => do st <- get_state;
                if path_exists (fs st) (chunk_path session i)
                then remove (chunk_path session i)
                else ret tt) st
    = (Returned tt,
       put_fs st (chunks_removed session indices (files (fs st)))
              (dirs (fs st))).
Proof.
  induction indices as [|i indices IH]; intros st Hdirs.
  - cbn [for_each]. unfold chunks_removed. simpl. rewrite put_fs_same.
    reflexivity.
  - cbn [for_each].
    assert (Hnd : is_dir (fs st) (chunk_path session i) = false).
    { apply is_dir_false. intros Hin. apply Hdirs in Hin.
      rewrite (chunk_path_below id session plain_id session_dir) in Hin.
      discriminate. }
    assert (Hstep :
      (do st <- get_state;
       if path_exists (fs st) (chunk_path session i)
       then remove (chunk_path session i) else ret tt) st
      = (Returned tt,
         put_fs st (delete (chunk_path session i) (files (fs st)))
                (dirs (fs st)))).
    { unfold bind at 1. unfold get_state at 1. unfold path_exists.
      rewrite Hnd, orb_false_r.
      destruct (is_file (fs st) (chunk_path session i)) eqn:Hf.
      - apply remove_ok, Hf.
      - apply is_file_absent in Hf. rewrite (delete_id _ _ Hf), put_fs_same.
        reflexivity. }
    rewrite (bind_returned _ _ _ _ _ Hstep).
    rewrite IH by exact Hdirs. reflexivity.
Qed.


Lemma temp_dir_not_output : temp_dir session <> output_path name.
Proof.
  rewrite (temp_dir_eq id session plain_id session_dir).
  rewrite (output_path_eq name plain_file), TEMP_DIR_eq, COMPLETED_DIR_eq.
  rewrite !append_assoc. intros Heq. apply String.app_inj in Heq. discriminate.
Qed.

Lemma temp_dir_not_sidecar : temp_dir session <> metadata_path name.
Proof.
  rewrite (temp_dir_eq id session plain_id session_dir).
  rewrite (metadata_path_eq name plain_file), TEMP_DIR_eq, COMPLETED_DIR_eq.
  rewrite !append_assoc. intros Heq. apply String.app_inj in Heq. discriminate.
Qed.

Lemma temp_dir_not_completed : temp_dir session <> COMPLETED_DIR.
Proof.
  rewrite (temp_dir_eq id session plain_id session_dir).
  rewrite TEMP_DIR_eq, COMPLETED_DIR_eq.
  rewrite !append_assoc. intros Heq. apply String.app_inj in Heq. discriminate.
Qed.

Section OneFinalize.
Variables (st : State) (content : Z -> list byte) (now : string)
          (digest : option string).
Hypothesis known : upload_sessions st !! id = Some session.
Hypothesis named : filename session = Some name.
Hypothesis complete :
  chunks session = JInt (Z.of_nat (size (received_chunks session))).
Hypothesis chunk_files :
  forall i, i ∈ chunk_range (Z.of_nat (size (received_chunks session))) ->
            files (fs st) !! chunk_path session i = Some (content i).
Hypothesis completed_dir : is_dir (fs st) COMPLETED_DIR = true.
Hypothesis output_free : is_dir (fs st) (output_path name) = false.
Local Abbreviation assembled := (assembled_from session content).
Local Abbreviation reassembled := (reassembled_state st session name content).
Local Abbreviation cleaned := (cleaned_state st session name content).
Hypothesis no_dir_below :
  forall p, p ∈ dirs (fs st) -> starts_with (temp_dir session ++ "/") p = false.

Lemma output_parent : is_dir (fs st) (dirname (output_path name)) = true.
Proof. rewrite (output_path_dirname name plain_file). exact completed_dir. Qed.

Lemma reassembly_ok :
  (do _ <- write_file (output_path name) [];
   for_each (chunk_range (Z.of_nat (size (received_chunks session))))
     (fun i => do data <- read_file (chunk_path session i);
               append_file (output_path name) data)) st
  = (Returned tt, reassembled).
Proof.
  rewrite (bind_returned _ _ _ _ _
             (write_file_ok (output_path name) [] st output_free output_parent)).
  rewrite (reassemble_loop content _ []).
  - unfold reassembled_state, put_fs, assembled_from. cbn [upload_sessions fs files dirs].
    rewrite insert_insert_eq. reflexivity.
  - cbn. apply lookup_insert_eq.
  - intros i Hi. cbn. rewrite lookup_insert_ne; [apply chunk_files, Hi|].
    intros Heq. pose proof out_not_below as Hb. rewrite Heq in Hb.
    rewrite (chunk_path_below id session plain_id session_dir) in Hb.
    discriminate.
Qed.

Lemma bind_assoc {A B C : Type} (m : M A) (k : A -> M B) (k' : B -> M C) (s : State) :
  bind (bind m k) k' s = bind m (fun a => bind (k a) k') s.
Proof. unfold bind. destruct (m s) as [[a|e] s']; reflexivity. Qed.

Lemma finalize_mismatch :
  truthy_opt digest = true ->
  digest <> Some (md5_hexdigest assembled) ->
  finalize_upload
    (Some {| finalize_upload_id := Some id; finalize_checksum := digest |}) now st
  = ((ChecksumMismatch, 400),
     put_fs st (delete (output_path name) (files (fs st))) (dirs (fs st))).
Proof.
  intros Htruthy Hdiff. unfold finalize_upload, handle.
  cbn [finalize_upload_id finalize_checksum].
  rewrite (bind_returned get_state _ st st st eq_refl).
  rewrite (find_session_known id session _ known).
  rewrite complete. cbn [int_ne range_of]. rewrite Z.eqb_refl. cbn [negb].
  rewrite named. skip_ret.
  rewrite <- bind_assoc.
  rewrite (bind_returned _ _ _ _ _ reassembly_ok).
  assert (Hread : files (fs reassembled) !! output_path name = Some assembled)
    by apply lookup_insert_eq.
  rewrite (bind_returned _ _ _ _ _
             (calculate_checksum_ok (output_path name) assembled reassembled Hread)).
  rewrite Htruthy, bool_decide_eq_false_2 by congruence. cbn [andb negb].
  assert (Hfile : is_file (fs reassembled) (output_path name) = true).
  { apply is_file_lookup. rewrite Hread. eexists. reflexivity. }
  rewrite (bind_returned _ _ _ _ _ (remove_ok (output_path name) reassembled Hfile)).
  unfold ret, reassembled_state, put_fs. cbn [upload_sessions fs files dirs].
  rewrite delete_insert_eq. reflexivity.
Qed.

Section Passing.
Hypothesis pass : truthy_opt digest = false \/ digest = Some (md5_hexdigest assembled).
Hypothesis sidecar_free : is_dir (fs st) (metadata_path name) = false.
Hypothesis temp_is_dir : is_dir (fs st) (temp_dir session) = true.
Hypothesis temp_not_file : is_file (fs st) (temp_dir session) = false.
Hypothesis only_chunks_below :
  forall p, is_Some (files (fs st) !! p) ->
            starts_with (temp_dir session ++ "/") p = true ->
            exists i, i ∈ chunk_range (Z.of_nat (size (received_chunks session)))
                      /\ p = chunk_path session i.

Lemma cleaned_empty : nothing_below (fs cleaned) (temp_dir session) = true.
Proof.
  apply nothing_below_spec. intros p Hp.
  apply elem_of_union in Hp as [Hp|Hp]; [|apply no_dir_below, Hp].
  destruct (starts_with (temp_dir session ++ "/") p) eqn:Hb; [|reflexivity].
  exfalso. apply elem_of_dom in Hp. cbn in Hp.
  pose proof (chunks_removed_dom session _ _ p Hp) as Hbefore.
  rewrite lookup_insert_ne in Hbefore.
  - destruct (only_chunks_below p Hbefore Hb) as (i & Hi & ->).
    rewrite (chunks_removed_chunk id session plain_id session_dir _ _ i Hi) in Hp.
    destruct Hp as [? Hp]. discriminate.
  - intros Heq. rewrite <- Heq, out_not_below in Hb. discriminate.
Qed.

Lemma finalize_success :
  finalize_upload
    (Some {| finalize_upload_id := Some id; finalize_checksum := digest |}) now st
  = ((FinalizeOk (output_path name) (md5_hexdigest assembled), 200),
     {| upload_sessions := delete id (upload_sessions st);
        fs := {| files :=
                   <[metadata_path name :=
                       json_dump
                         {| sidecar_filename := Some name;
                            sidecar_filesize := filesize session;
                            sidecar_checksum := md5_hexdigest assembled;
                            sidecar_metadata := metadata session;
                            uploaded_at := now |}]>
                     (chunks_removed session
                        (chunk_range (Z.of_nat (size (received_chunks session))))
                        (<[output_path name := assembled]> (files (fs st))));
                 dirs := dirs (fs st) ∖ {[temp_dir session]} |} |}).
Proof.
  unfold finalize_upload, handle.
  cbn [finalize_upload_id finalize_checksum].
  rewrite (bind_returned get_state _ st st st eq_refl).
  rewrite (find_session_known id session _ known).
  rewrite complete. cbn [int_ne range_of]. rewrite Z.eqb_refl. cbn [negb].
  rewrite named. skip_ret.
  rewrite <- bind_assoc.
  rewrite (bind_returned _ _ _ _ _ reassembly_ok).
  assert (Hread : files (fs reassembled) !! output_path name = Some assembled)
    by apply lookup_insert_eq.
  rewrite (bind_returned _ _ _ _ _
             (calculate_checksum_ok (output_path name) assembled reassembled Hread)).
  assert (Hpass : truthy_opt digest
                  && negb (bool_decide (Some (md5_hexdigest assembled) = digest))
                  = false).
  { destruct pass as [->| ->]; [reflexivity|].
    rewrite bool_decide_eq_true_2 by reflexivity. apply andb_false_r. }
  rewrite Hpass. skip_ret.
  rewrite (bind_returned _ _ _ _ _
             (cleanup_loop _ reassembled no_dir_below)).
  assert (Hnf : is_file (fs cleaned) (temp_dir session) = false).
  { apply is_file_absent. cbn.
    rewrite (chunks_removed_other id session plain_id session_dir)
      by apply not_below_itself.
    rewrite lookup_insert_ne by (apply not_eq_sym, temp_dir_not_output).
    apply is_file_absent, temp_not_file. }
  rewrite (bind_returned _ _ _ _ _
             (rmdir_ok (temp_dir session) cleaned Hnf temp_is_dir cleaned_empty)).
  match goal with
  | |- context [bind (write_file _ _) _ ?s] => set (removed := s)
  end.
  assert (Hsf : is_dir (fs removed) (metadata_path name) = false).
  { apply is_dir_false. cbn. intros Hin. apply elem_of_difference in Hin as [Hin _].
    apply is_dir_false in sidecar_free. contradiction. }
  assert (Hsp : is_dir (fs removed) (dirname (metadata_path name)) = true).
  { rewrite (metadata_path_dirname name plain_file). apply is_dir_true. cbn.
    apply elem_of_difference. split; [apply is_dir_true, completed_dir|].
    intros Hin. apply elem_of_singleton in Hin.
    symmetry in Hin. apply temp_dir_not_completed in Hin. exact Hin. }
  rewrite (bind_returned _ _ _ _ _ (write_file_ok _ _ removed Hsf Hsp)).
  reflexivity.
Qed.

End Passing.
End OneFinalize.
End Finalizing.

(** ** The upload server: the round trip *)
Section RoundTrip.
Import PyStr UploadServer.
Context `{Platform}.
Variables (st : State) (name id now : string) (payloads : list (list byte))
          (order : list nat).
Hypothesis plain_file : plain_name name.
Hypothesis plain_id : plain_name id.
Hypothesis ready : ready_for st name id.
Hypothesis all_chunks : order ≡ₚ seq 0 (length payloads).

Local Abbreviation n := (length payloads).
Local Abbreviation td := (path_join TEMP_DIR id).
Local Abbreviation s0 :=
  (new_session (init_request name n (md5_hexdigest (concat payloads))) id now).
Local Abbreviation s2 := (foldl add_received s0 (Z.of_nat <$> order)).

Lemma initialize_upload_ok :
  initialize_upload
    (Some (init_request name n (md5_hexdigest (concat payloads)))) id now st
  = ((InitOk id, 200),
     {| upload_sessions := <[id := s0]> (upload_sessions st);
        fs := {| files := files (fs st); dirs := {[td]} ∪ dirs (fs st) |} |}).
Proof.
  destruct ready as (_ & _ & _ & Hnf & _).
  unfold initialize_upload, handle.
  rewrite (bind_returned get_state _ st st st eq_refl).
  unfold bind at 1. unfold set_sessions at 1.
  rewrite (bind_returned _ _ _ _ _
             (makedirs_ok td {| upload_sessions := <[id := s0]> (upload_sessions st);
                                fs := fs st |} Hnf)).
  reflexivity.
Qed.

Lemma no_dir_below_after_init (p : string) :
  p ∈ ({[td]} ∪ dirs (fs st) : gset string) ->
  starts_with (td ++ "/") p = false.
Proof.
  destruct ready as (_ & _ & _ & _ & Hempty).
  intros Hp. apply elem_of_union in Hp as [Hp|Hp].
  - apply elem_of_singleton in Hp as ->. apply not_below_itself.
  - apply (proj1 (nothing_below_spec _ _) Hempty). apply elem_of_union. right.
    exact Hp.
Qed.

Lemma order_indices (k : nat) : k ∈ order <-> (k < n)%nat.
Proof.
  rewrite all_chunks, elem_of_seq. lia.
Qed.

Lemma received_all : size (received_chunks s2) = n.
Proof.
  destruct (foldl_add_received_fields (Z.of_nat <$> order) s0)
    as (_ & _ & _ & _ & _ & ->).
  cbn [received_chunks new_session]. rewrite (right_id_L ∅ (∪)).
  rewrite size_list_to_set.
  - rewrite length_fmap, all_chunks. apply length_seq.
  - apply NoDup_fmap_2; [apply Nat2Z.inj'|]. rewrite all_chunks. apply NoDup_seq.
Qed.


Lemma s2_fields :
  filename s2 = Some name /\ chunks s2 = JInt (Z.of_nat n) /\ temp_dir s2 = td.
Proof.
  destruct (foldl_add_received_fields (Z.of_nat <$> order) s0)
    as (-> & _ & -> & _ & -> & _).
  repeat split; reflexivity.
Qed.

Lemma range_indices (i : Z) :
  i ∈ chunk_range (Z.of_nat n) -> exists k, i = Z.of_nat k /\ k ∈ order.
Proof.
  unfold chunk_range. rewrite elem_of_seqZ. intros Hi.
  exists (Z.to_nat i). split; [lia|]. apply order_indices. lia.
Qed.

(** The state after the chunks were posted. *)
Local Abbreviation st2 :=
  {| upload_sessions := <[id := s2]> (<[id := s0]> (upload_sessions st));
     fs := {| files := chunks_stored s0 payloads order (files (fs st));
              dirs := {[td]} ∪ dirs (fs st) |} |}.

Lemma chunk_files_present (i : Z) :
  i ∈ chunk_range (Z.of_nat (size (received_chunks s2))) ->
  files (fs st2) !! chunk_path s2 i = Some (payload payloads i).
Proof.
  rewrite received_all. intros Hi.
  destruct (range_indices i Hi) as (k & -> & Hk).
  destruct s2_fields as (_ & _ & Htd).
  change (chunk_path s2 (Z.of_nat k))
    with (path_join (temp_dir s2) ("chunk_" ++ pretty (Z.of_nat k))).
  rewrite Htd. change (path_join td ("chunk_" ++ pretty (Z.of_nat k)))
    with (chunk_path s0 (Z.of_nat k)).
  cbn [fs files].
  rewrite (chunks_stored_chunk id s0 payloads plain_id eq_refl order _ k Hk).
  unfold payload. rewrite Nat2Z.id. reflexivity.
Qed.

Lemma only_chunk_files_below (p : string) :
  is_Some (files (fs st2) !! p) ->
  starts_with (temp_dir s2 ++ "/") p = true ->
  exists i, i ∈ chunk_range (Z.of_nat (size (received_chunks s2)))
            /\ p = chunk_path s2 i.
Proof.
  destruct s2_fields as (_ & _ & Htd). rewrite Htd, received_all.
  cbn [fs files]. intros Hp Hb.
  destruct (chunks_stored_dom s0 payloads order _ p Hp) as [Hold|(k & Hk & ->)].
  - exfalso. destruct ready as (_ & _ & _ & _ & Hempty).
    rewrite (proj1 (nothing_below_spec _ _) Hempty) in Hb; [discriminate|].
    apply elem_of_union. left. apply elem_of_dom, Hold.
  - exists (Z.of_nat k). split.
    + unfold chunk_range. apply elem_of_seqZ. apply order_indices in Hk. lia.
    + unfold chunk_path. rewrite Htd. reflexivity.
Qed.


End RoundTrip.

(** ** The upload server: failures of finalize *)
Section FinalizeFailures.
Import PyStr UploadServer.
Context `{Platform}.

Lemma finalize_missing_chunks (st : State) (id now : string) (session : Session)
    (digest : option string) :
  upload_sessions st !! id = Some session ->
  int_ne (Z.of_nat (size (received_chunks session))) (chunks session) = true ->
  finalize_upload
    (Some {| finalize_upload_id := Some id; finalize_checksum := digest |}) now st
  = ((MissingChunks (size (received_chunks session)) (chunks session), 400), st).
Proof.
  intros Hs Hne. unfold finalize_upload, handle.
  cbn [finalize_upload_id finalize_checksum].
  rewrite (bind_returned get_state _ st st st eq_refl).
  rewrite (find_session_known id session _ Hs).
  rewrite Hne. reflexivity.
Qed.


End FinalizeFailures.

Section SampleUpload.
Import PyStr UploadServer.

Lemma sample_names : plain_name "run1.bag" /\ plain_name sample_id.
Proof. repeat split; try reflexivity; discriminate. Qed.

Lemma sample_digest :
  MD5.hexdigest (concat sample_payloads) = "7cfdd07889b3295d6a550914ab35e068".
Proof. vm_compute. reflexivity. Qed.

Lemma sample_pending_session :
  upload_sessions sample_pending !! sample_id = Some sample_session.
Proof. vm_compute. reflexivity. Qed.


(** A count declared as the float 3.0 is equal to the three indices
    received, so the count test passes; the output file is opened, and then
    the float cannot bound the loop: the answer is 500 and an empty file is
    left in the completed-uploads directory. *)
Lemma finalize_with_float_count :
  PyFloat.to_int (S754_finite false 6755399441055744 (-51)) = Some 3 /\
  finalize_upload (platform := robot_platform)
    (Some {| finalize_upload_id := Some sample_id; finalize_checksum := None |})
    sample_now sample_float_count
  = ((ServerError TypeError, 500),
     put_fs sample_float_count
       (<["/home/robot/ros2_uploads/completed/run1.bag" := []]>
          (files (fs sample_float_count)))
       (dirs (fs sample_float_count))).
Proof. split; vm_compute; reflexivity. Qed.




End SampleUpload.

(** * Further properties *)

(** ** Performance modes: switching and feature gates *)
Section PerformanceModeSwitching.
Import PerformanceModes.

Lemma get_or_true_insert (settings : gmap string pyval) (key feature : string)
    (v : pyval) :
  get_or_true (<[key := v]> settings) feature
  = if bool_decide (feature = key) then v else get_or_true settings feature.
Proof.
  unfold get_or_true. destruct (bool_decide (feature = key)) eqn:E.
  - apply bool_decide_eq_true in E. subst. rewrite lookup_insert_eq. reflexivity.
  - apply bool_decide_eq_false in E. rewrite lookup_insert_ne by congruence.
    reflexivity.
Qed.

Lemma should_use_feature_cases (self : PerformanceModeManager) (feature : string) :
  should_use_feature self feature
  = if bool_decide (feature = "performance_profiler")
    then get_or_true (get_mode_settings self None) "enable_profiler"
    else if bool_decide (feature = "recording_triggers")
    then get_or_true (get_mode_settings self None) "enable_advanced_features"
    else PyBool true.
Proof.
  unfold should_use_feature. cbv zeta.
  rewrite !get_or_true_insert.
  repeat case_bool_decide; subst; try discriminate; reflexivity.
Qed.

Lemma dict_truthy_nonempty (settings : gmap string pyval) :
  settings <> ∅ -> dict_truthy (Some settings) = true.
Proof.
  intros Hne. unfold dict_truthy. rewrite bool_decide_eq_false_2 by exact Hne.
  reflexivity.
Qed.

Lemma set_mode_fields (self : PerformanceModeManager) (mode : PerformanceMode) :
  _current_mode (fst (set_mode self mode)) = Some mode /\
  _custom_settings (fst (set_mode self mode)) = _custom_settings self /\
  system_info (fst (set_mode self mode)) = system_info self.
Proof.
  unfold set_mode. case_bool_decide as Hc; cbn [fst _current_mode _custom_settings system_info].
  - auto.
  - destruct (decide (Some mode = _current_mode self)) as [Hd|Hd];
      [auto|contradiction].
Qed.

Lemma custom_settings_returned (self : PerformanceModeManager)
    (settings : gmap string pyval) :
  settings <> ∅ ->
  _current_mode self = Some CUSTOM ->
  _custom_settings self = Some settings ->
  get_mode_settings self None = settings.
Proof.
  intros Hne Hm Hc. unfold get_mode_settings. rewrite Hm, Hc.
  rewrite (dict_truthy_nonempty settings Hne). reflexivity.
Qed.

(** X1. Custom settings round trip: after [set_custom_settings(settings)]
    with a non-empty dictionary the manager is in CUSTOM mode, has emitted
    'custom', and [get_mode_settings()] returns that very dictionary; the
    tables of the three fixed modes are still returned when asked for by
    name, and the dictionary survives switching to another mode and back. *)
Theorem custom_settings_round_trip (self : PerformanceModeManager)
    (settings : gmap string pyval) :
  settings <> ∅ ->
  let '(self', emitted) := set_custom_settings self settings in
  emitted = ["custom"] /\
  get_current_mode self' = Some CUSTOM /\
  get_mode_settings self' None = settings /\
  get_mode_settings self' (Some CUSTOM) = settings /\
  get_mode_settings self' (Some HIGH) = high_settings /\
  get_mode_settings self' (Some BALANCED) = balanced_settings /\
  get_mode_settings self' (Some LOW) = low_settings /\
  (forall mode,
     get_mode_settings (fst (set_mode (fst (set_mode self' mode)) CUSTOM)) None
     = settings).
Proof.
  intros Hne. cbn [set_custom_settings].
  pose proof (dict_truthy_nonempty settings Hne) as Ht.
  repeat split.
  - unfold get_mode_settings. cbn [_current_mode _custom_settings].
    rewrite Ht. reflexivity.
  - unfold get_mode_settings. cbn [_custom_settings].
    rewrite Ht. reflexivity.
  - intros mode. apply custom_settings_returned; [exact Hne| |].
    + apply set_mode_fields.
    + rewrite (proj1 (proj2 (set_mode_fields _ CUSTOM))).
      rewrite (proj1 (proj2 (set_mode_fields _ mode))). reflexivity.
Qed.

Lemma custom_settings_round_trip_witness :
  let settings : gmap string pyval := {[ "max_threads" := PyInt 8 ]} in
  settings <> ∅ /\
  get_mode_settings
    (fst (set_custom_settings (new_manager fallback_system_info) settings)) None
  = settings.
Proof.
  cbv zeta.
  assert (Hne : ({[ "max_threads" := PyInt 8 ]} : gmap string pyval) <> ∅).
  { apply insert_non_empty. }
  split; [exact Hne|].
  exact (proj1 (proj2 (proj2
           (custom_settings_round_trip (new_manager fallback_system_info) _ Hne)))).
Defined.

(** X2. CUSTOM mode without usable custom settings: when the custom
    dictionary is empty or was never given, [get_mode_settings()] in CUSTOM
    mode falls through to the table of LOW, and the profiler feature is
    off. *)
Theorem custom_mode_without_settings_is_low (self : PerformanceModeManager)
    (current : option PerformanceMode) (info : SystemInfo) :
  let unset := {| _current_mode := current; _custom_settings := None;
                  system_info := info |} in
  get_mode_settings (fst (set_custom_settings self ∅)) None = low_settings /\
  get_mode_settings (fst (set_mode unset CUSTOM)) None = low_settings /\
  get_mode_settings unset (Some CUSTOM) = low_settings /\
  should_use_feature (fst (set_custom_settings self ∅)) "performance_profiler"
  = PyBool false /\
  should_use_feature (fst (set_mode unset CUSTOM)) "performance_profiler"
  = PyBool false.
Proof.
  cbv zeta.
  assert (H1 : get_mode_settings (fst (set_custom_settings self ∅)) None
               = low_settings) by reflexivity.
  assert (H2 : get_mode_settings
                 (fst (set_mode {| _current_mode := current;
                                   _custom_settings := None;
                                   system_info := info |} CUSTOM)) None
               = low_settings).
  { unfold set_mode. cbn [_current_mode].
    case_bool_decide as Hc; cbn [fst]; [reflexivity|].
    assert (current = Some CUSTOM) as ->.
    { destruct (decide (Some CUSTOM = current)) as [<-|Hd]; [reflexivity|].
      contradiction. }
    reflexivity. }
  split; [exact H1|]. split; [exact H2|]. split; [reflexivity|].
  rewrite !should_use_feature_cases, H1, H2.
  split; vm_compute; reflexivity.
Qed.

(** X3. [set_mode(mode)] always leaves the manager in [mode] and keeps the
    custom dictionary and the detected specification; it emits
    [mode_changed] with the mode's value exactly when the mode differs from
    the current one, so that repeating the call emits nothing. *)
Theorem set_mode_emits_on_change (self : PerformanceModeManager)
    (mode : PerformanceMode) :
  let '(self', emitted) := set_mode self mode in
  get_current_mode self' = Some mode /\
  _custom_settings self' = _custom_settings self /\
  system_info self' = system_info self /\
  emitted = (if bool_decide (get_current_mode self = Some mode)
             then [] else [value mode]) /\
  set_mode self' mode = (self', []).
Proof.
  unfold set_mode, get_current_mode.
  destruct (bool_decide (Some mode <> _current_mode self)) eqn:E.
  - apply bool_decide_eq_true in E. cbn [_current_mode _custom_settings system_info].
    repeat split.
    + rewrite bool_decide_eq_false_2 by congruence. reflexivity.
    + rewrite bool_decide_eq_false_2; [reflexivity|]. intros Hx. apply Hx. reflexivity.
  - apply bool_decide_eq_false in E.
    assert (Heq : _current_mode self = Some mode).
    { destruct (decide (Some mode = _current_mode self)) as [Hd|Hd];
        [symmetry; exact Hd|contradiction]. }
    repeat split; try exact Heq.
    + rewrite bool_decide_eq_true_2 by exact Heq. reflexivity.
    + rewrite bool_decide_eq_false_2; [reflexivity|]. intros Hx. apply Hx.
      symmetry. exact Heq.
Qed.

Lemma auto_detect_cases (info : SystemInfo) :
  (_auto_detect_mode (detected info) = HIGH \/
   _auto_detect_mode (detected info) = BALANCED \/
   _auto_detect_mode (detected info) = LOW) /\
  (_auto_detect_mode (detected info) = LOW <->
   (memory_gb info < 8)%Q \/ (cpu_count info < 4)%Z).
Proof.
  pose proof (low_condition_iff (detected info)) as Hl.
  pose proof (high_condition_iff (detected info)) as Hh.
  cbn [detected system_info] in Hl, Hh.
  unfold _auto_detect_mode. cbn [system_info detected].
  destruct (Qle_bool 16 (memory_gb info) && (8 <=? cpu_count info)%Z) eqn:Eh.
  - destruct (proj1 Hh eq_refl) as [Hm Hc].
    split; [auto|]. split; [discriminate|].
    intros [Hx|Hx]; [|lia]. exfalso.
    apply (Qlt_not_le _ _ Hx). apply Qle_trans with (y := 16%Q); [|exact Hm].
    discriminate.
  - destruct (Qlt_bool (memory_gb info) 8 || (cpu_count info <? 4)%Z) eqn:El.
    + split; [auto|]. split; [intros _; apply Hl; reflexivity|reflexivity].
    + split; [auto|]. split; [discriminate|].
      intros Hx. apply Hl in Hx. discriminate.
Qed.

(** X4. On a freshly constructed manager the only feature ever switched
    off is the profiler, and it is off exactly on a low-end machine (less
    than 8 GB of memory or fewer than 4 cores); the mode of a fresh manager
    is never CUSTOM. *)
Theorem fresh_manager_feature_gates (info : SystemInfo) (feature : string) :
  let self := new_manager info in
  (should_use_feature self feature = PyBool false <->
   feature = "performance_profiler" /\
   ((memory_gb info < 8)%Q \/ (cpu_count info < 4)%Z)) /\
  (should_use_feature self feature = PyBool true \/
   should_use_feature self feature = PyBool false) /\
  get_current_mode self <> Some CUSTOM.
Proof.
  cbv zeta.
  destruct (auto_detect_cases info) as [Hcases Hlow].
  rewrite should_use_feature_cases.
  unfold new_manager, get_current_mode, get_mode_settings.
  cbn [_current_mode _custom_settings system_info].
  destruct Hcases as [Hm|[Hm|Hm]]; rewrite Hm in *.
  - assert (Hnl : ~ ((memory_gb info < 8)%Q \/ (cpu_count info < 4)%Z)).
    { intros Hx. apply Hlow in Hx. discriminate. }
    repeat case_bool_decide; subst;
      (split; [split; [vm_compute; discriminate|tauto]
              |split; [left; vm_compute; reflexivity|discriminate]]).
  - assert (Hnl : ~ ((memory_gb info < 8)%Q \/ (cpu_count info < 4)%Z)).
    { intros Hx. apply Hlow in Hx. discriminate. }
    repeat case_bool_decide; subst;
      (split; [split; [vm_compute; discriminate|tauto]
              |split; [left; vm_compute; reflexivity|discriminate]]).
  - assert (Hl : (memory_gb info < 8)%Q \/ (cpu_count info < 4)%Z).
    { apply Hlow. reflexivity. }
    case_bool_decide as Hf; [|case_bool_decide as Hg].
    + split; [split; [auto|intros _; vm_compute; reflexivity]
             |split; [right; vm_compute; reflexivity|discriminate]].
    + split; [split; [vm_compute; discriminate|tauto]
             |split; [left; vm_compute; reflexivity|discriminate]].
    + split; [split; [discriminate|tauto]
             |split; [left; reflexivity|discriminate]].
Qed.

(** X5. Whatever the mode and the custom dictionary, a feature other than
    the profiler and the recording triggers is reported as enabled: unknown
    feature names default to true. *)
Theorem ungated_features_enabled (self : PerformanceModeManager) (feature : string) :
  feature <> "performance_profiler" ->
  feature <> "recording_triggers" ->
  should_use_feature self feature = PyBool true.
Proof.
  intros H1 H2. rewrite should_use_feature_cases.
  rewrite !bool_decide_eq_false_2 by assumption. reflexivity.
Qed.

Lemma ungated_features_enabled_witness :
  should_use_feature
    (fst (set_custom_settings (new_manager fallback_system_info)
            {[ "enable_profiler" := PyBool false ]}))
    "live_charts"
  = PyBool true.
Proof.
  apply ungated_features_enabled; discriminate.
Defined.

End PerformanceModeSwitching.

(** ** The metrics collector: caching, updates without a capture, estimates *)
Section MetricsCollectorBehaviour.
Import PyStr MetricsCollector.

(** A refresh that polls psutil: there is no cached dictionary, or the
    cached one is at least [system_metrics_cache_timeout] old. *)
Lemma poll_cases (self : MetricsCollector) (t : Q) (host : Host) :
  (forall cache, _system_metrics_cache self = Some cache ->
     (system_metrics_cache_timeout self <= t - _system_metrics_cache_time self)%Q) ->
  exists speed io check,
    update_system_metrics self t host
    = {| start_time := start_time self; last_update_time := last_update_time self;
         last_size := last_size self; last_disk_io := io;
         system_metrics_cache_timeout := system_metrics_cache_timeout self;
         _system_metrics_cache :=
           Some (<["cpu_percent" := default 0%Q (cpu_percent host)]> (
                 <["memory_percent" := default 0%Q (virtual_memory_percent host)]> (
                 <["disk_write_speed" := speed]> ∅)));
         _system_metrics_cache_time := t;
         _last_disk_check := Some check;
         _last_topic_check := _last_topic_check self;
         metrics :=
           <["disk_write_speed" := speed]> (
           <["memory_percent" := default 0%Q (virtual_memory_percent host)]> (
           <["cpu_percent" := default 0%Q (cpu_percent host)]> (metrics self))) |}.
Proof.
  intros Hold. unfold update_system_metrics.
  assert (Hmiss :
    match _system_metrics_cache self with
    | Some cache =>
        if Qlt_bool (t - _system_metrics_cache_time self)
                    (system_metrics_cache_timeout self)
        then Some cache else None
    | None => None
    end = None).
  { destruct (_system_metrics_cache self) as [cache|] eqn:Hc; [|reflexivity].
    destruct (Qlt_bool _ _) eqn:Hlt; [|reflexivity].
    apply Qlt_bool_iff in Hlt. specialize (Hold cache eq_refl).
    exfalso. exact (Qlt_not_le _ _ Hlt Hold). }
  cbv zeta. rewrite Hmiss. clear Hmiss.
  destruct (Qlt_bool (system_metrics_cache_timeout self * 2) _);
    [destruct (disk_io_counters host)|];
    eexists _, _, _; reflexivity.
Qed.

Lemma cached_entries_present (m : gmap string Q) (c v d : Q) :
  <["cpu_percent" := c]> (<["memory_percent" := v]> (<["disk_write_speed" := d]> ∅))
  ∪ <["disk_write_speed" := d]> (<["memory_percent" := v]> (<["cpu_percent" := c]> m))
  = <["disk_write_speed" := d]> (<["memory_percent" := v]> (<["cpu_percent" := c]> m)).
Proof.
  apply map_subseteq_union. apply map_subseteq_spec. intros key x Hx.
  destruct (decide (key = "cpu_percent")) as [->|H1].
  { rewrite lookup_insert_eq in Hx. rewrite !lookup_insert_ne by discriminate.
    rewrite lookup_insert_eq. exact Hx. }
  rewrite lookup_insert_ne in Hx by congruence.
  destruct (decide (key = "memory_percent")) as [->|H2].
  { rewrite lookup_insert_eq in Hx. rewrite lookup_insert_ne by discriminate.
    rewrite lookup_insert_eq. exact Hx. }
  rewrite lookup_insert_ne in Hx by congruence.
  destruct (decide (key = "disk_write_speed")) as [->|H3].
  { rewrite lookup_insert_eq in Hx. rewrite lookup_insert_eq. exact Hx. }
  rewrite lookup_insert_ne in Hx by congruence.
  rewrite lookup_empty in Hx. discriminate.
Qed.

(** X6. The system metrics are polled at most once per cache timeout: when
    a refresh at time [t] polls psutil (failed probes count as 0.0), every
    refresh less than [system_metrics_cache_timeout] later leaves the whole
    collector as it is, whatever psutil would answer by then, and
    [get_metrics()] returns the same snapshot. *)
Theorem system_metrics_cached_within_timeout (self : MetricsCollector)
    (t t' : Q) (host host' : Host) :
  (forall cache, _system_metrics_cache self = Some cache ->
     (system_metrics_cache_timeout self <= t - _system_metrics_cache_time self)%Q) ->
  (t' - t < system_metrics_cache_timeout self)%Q ->
  let polled := update_system_metrics self t host in
  metrics polled !! "cpu_percent" = Some (default 0%Q (cpu_percent host)) /\
  metrics polled !! "memory_percent"
    = Some (default 0%Q (virtual_memory_percent host)) /\
  update_system_metrics polled t' host' = polled /\
  get_metrics polled t' host' = (polled, metrics polled).
Proof.
  intros Hold Hnear. cbv zeta.
  destruct (poll_cases self t host Hold) as (speed & io & check & ->).
  match goal with
  | |- context [update_system_metrics ?p t' host'] =>
      assert (Hhit : update_system_metrics p t' host' = p)
  end.
  { unfold update_system_metrics at 1.
    cbn [_system_metrics_cache _system_metrics_cache_time
         system_metrics_cache_timeout].
    rewrite (Qlt_bool_true _ _ Hnear).
    cbn [start_time last_update_time last_size last_disk_io
         system_metrics_cache_timeout _system_metrics_cache
         _system_metrics_cache_time _last_disk_check _last_topic_check metrics].
    rewrite cached_entries_present. reflexivity. }
  split; [|split; [|split]].
  - cbn [metrics]. rewrite !lookup_insert_ne by discriminate.
    apply lookup_insert_eq.
  - cbn [metrics]. rewrite lookup_insert_ne by discriminate.
    apply lookup_insert_eq.
  - exact Hhit.
  - unfold get_metrics. rewrite Hhit. reflexivity.
Qed.

Lemma system_metrics_cached_within_timeout_witness :
  let busy : Host := {| cpu_percent := Some 90%Q; virtual_memory_percent := None;
                        disk_io_counters := None |} in
  get_metrics (update_system_metrics init 100 quiet_host) (1001 # 10) busy
  = (update_system_metrics init 100 quiet_host,
     metrics (update_system_metrics init 100 quiet_host)).
Proof.
  cbv zeta.
  refine (proj2 (proj2 (proj2
            (system_metrics_cached_within_timeout init 100 (1001 # 10)
               quiet_host _ _ _)))).
  - intros cache Hc. discriminate Hc.
  - reflexivity.
Defined.

Ltac not_system_key := apply (bool_decide_unpack _); vm_compute; exact I.

(** What [update] leaves in an entry that is not a system metric. *)
Lemma update_recording_entry self current_time facade system_time host (key : string) :
  reachable self -> key ∉ system_keys ->
  metrics (update self current_time facade system_time host) !! key
  = metrics (update_locked self current_time facade) !! key.
Proof.
  intros Hreach Hkey. unfold update.
  apply update_system_metrics_other_key; [|exact Hkey].
  apply update_locked_well_shaped, reachable_well_shaped, Hreach.
Qed.

Lemma update_times self current_time facade system_time host :
  start_time (update self current_time facade system_time host)
    = start_time (update_locked self current_time facade) /\
  last_update_time (update self current_time facade system_time host)
    = last_update_time (update_locked self current_time facade) /\
  last_size (update self current_time facade system_time host)
    = last_size (update_locked self current_time facade).
Proof. unfold update. apply update_system_metrics_times. Qed.

Lemma update_locked_without_capture self current_time facade :
  truthy (default "" (get_current_bag_path facade)) && path_exists facade = false ->
  start_time (update_locked self current_time facade) = start_time self /\
  last_update_time (update_locked self current_time facade) = last_update_time self /\
  last_size (update_locked self current_time facade) = last_size self /\
  metrics (update_locked self current_time facade)
  = disk_usage_step facade (duration_step self current_time (metrics self)).
Proof.
  intros Hno. unfold update_locked. rewrite Hno. cbv zeta.
  repeat split; reflexivity.
Qed.

(** X7. An update while there is no capture on disk (no bag path, an empty
    one, or a path that does not exist) leaves the size, the write speed,
    the message count and rate and the topic count as they were, and does
    not move [last_size] or [last_update_time]; it still refreshes the
    disk usage (when the query answers) and, once a recording was started
    at a non-zero clock reading, the duration. *)
Theorem update_without_capture (self : MetricsCollector) (current_time : Q)
    (facade : Facade) (system_time : Q) (host : Host) :
  reachable self ->
  truthy (default "" (get_current_bag_path facade)) && path_exists facade = false ->
  let after := update self current_time facade system_time host in
  metrics after !! "size_mb" = metrics self !! "size_mb" /\
  metrics after !! "write_speed_mb_s" = metrics self !! "write_speed_mb_s" /\
  metrics after !! "message_count" = metrics self !! "message_count" /\
  metrics after !! "message_rate" = metrics self !! "message_rate" /\
  metrics after !! "topic_count" = metrics self !! "topic_count" /\
  last_size after = last_size self /\
  last_update_time after = last_update_time self /\
  metrics after !! "disk_usage_percent"
    = match get_disk_usage facade with
      | Some usage => Some usage
      | None => metrics self !! "disk_usage_percent"
      end /\
  metrics after !! "duration"
    = if time_truthy (start_time self)
      then Some (current_time - default 0 (start_time self))%Q
      else metrics self !! "duration".
Proof.
  intros Hreach Hno. cbv zeta.
  destruct (update_locked_without_capture self current_time facade Hno)
    as (_ & Hl & Hz & Hm).
  destruct (update_times self current_time facade system_time host)
    as (_ & Hl' & Hz').
  rewrite !(update_recording_entry self current_time facade system_time host)
    by (exact Hreach || not_system_key).
  rewrite Hm, Hl', Hz', Hl, Hz.
  rewrite !disk_usage_step_other, !duration_step_other by discriminate.
  repeat split.
  - unfold disk_usage_step. destruct (get_disk_usage facade).
    + apply lookup_insert_eq.
    + apply duration_step_other. discriminate.
  - rewrite disk_usage_step_other by discriminate.
    unfold duration_step. destruct (time_truthy (start_time self)).
    + apply lookup_insert_eq.
    + reflexivity.
Qed.

Lemma update_without_capture_witness :
  let idle : Facade :=
    {| get_current_bag_path := None; path_exists := true; walk_size := 4096;
       get_topics_info := Some 3%nat; get_bag_info_topic_count := None;
       get_disk_usage := Some 41%Q |} in
  metrics (update next_second_run 120 idle 120 quiet_host) !! "size_mb"
  = metrics next_second_run !! "size_mb".
Proof.
  cbv zeta.
  refine (proj1 (update_without_capture next_second_run 120 _ 120 quiet_host _ _)).
  - unfold next_second_run, two_updates. repeat constructor.
  - reflexivity.
Defined.

Lemma estimate_of_size (bytes : Z) :
  int_of_float (inject_Z bytes / bytes_per_mb * 1024 / 1) = (bytes ÷ 1024)%Z.
Proof.
  unfold int_of_float, bytes_per_mb.
  change (inject_Z (1024 * 1024)) with (1048576 # 1)%Q.
  cbn [Qdiv Qmult Qinv Qnum Qden inject_Z Pos.mul].
  replace (bytes * 1 * 1024 * 1)%Z with (bytes * 1024)%Z by lia.
  change (Z.pos (1 * 1048576 * 1 * 1)) with (1024 * 1024)%Z.
  apply Z.quot_mul_cancel_r; discriminate.
Qed.

(** X8. After an update over a capture of [bytes] bytes the snapshot holds
    the size in MB and the estimated message count, which is the number of
    whole kilobytes of the capture; the collector remembers the size and
    the clock reading for the next write-speed computation. *)
Theorem message_count_is_whole_kilobytes (self : MetricsCollector)
    (current_time : Q) (facade : Facade) (system_time : Q) (host : Host)
    (bytes : Z) :
  reachable self ->
  capture_has_size facade bytes ->
  (0 <= bytes)%Z ->
  let after := update self current_time facade system_time host in
  metrics after !! "size_mb" = Some (inject_Z bytes / bytes_per_mb)%Q /\
  metrics after !! "message_count" = Some (inject_Z (bytes / 1024)) /\
  last_size after = (inject_Z bytes / bytes_per_mb)%Q /\
  last_update_time after = Some current_time.
Proof.
  intros Hreach Hcap Hpos. cbv zeta.
  destruct (update_locked_records self current_time facade bytes Hcap)
    as (_ & Hl & Hz).
  destruct (update_times self current_time facade system_time host)
    as (_ & Hl' & Hz').
  rewrite !(update_recording_entry self current_time facade system_time host)
    by (exact Hreach || not_system_key).
  rewrite (update_locked_over_capture self current_time facade bytes Hcap).
  rewrite Hl', Hz', Hl, Hz.
  repeat split.
  - rewrite disk_usage_step_other, message_step_other, topic_count_step_other,
      write_speed_step_other by discriminate.
    apply lookup_insert_eq.
  - rewrite disk_usage_step_other by discriminate.
    rewrite message_step_count, estimate_of_size.
    rewrite Z.quot_div_nonneg by lia. reflexivity.
Qed.

Lemma message_count_is_whole_kilobytes_witness :
  metrics (update init 50 (capture_of_size 5000) 50 quiet_host) !! "message_count"
  = Some (inject_Z (5000 / 1024)).
Proof.
  refine (proj1 (proj2
            (message_count_is_whole_kilobytes init 50 (capture_of_size 5000) 50
               quiet_host 5000 reach_init _ _))).
  - repeat split; reflexivity.
  - discriminate.
Defined.



Lemma update_system_metrics_topic_check self current_time host :
  _last_topic_check (update_system_metrics self current_time host)
  = _last_topic_check self.
Proof.
  unfold update_system_metrics.
  destruct (_system_metrics_cache self) as [cache|];
    [destruct (Qlt_bool _ _)|]; simpl;
    try reflexivity;
    (destruct (Qlt_bool _ _); [destruct (disk_io_counters host)|]; reflexivity).
Qed.

Lemma Qlt_bool_false (x y : Q) : (y <= x)%Q -> Qlt_bool x y = false.
Proof.
  intros Hle. destruct (Qlt_bool x y) eqn:E; [|reflexivity].
  apply Qlt_bool_iff in E. exfalso. exact (Qlt_not_le _ _ E Hle).
Qed.

(** X10. The live topic count is refreshed at most every three seconds:
    once [get_live_metrics(ros2_manager)] has queried the topics (more than
    3 s after the last check, counted from 0 on a collector that never
    checked), a further call within 3 s of that refresh reports the same
    topic count, whether it is given a manager or not and whatever the
    manager would answer. *)
Theorem live_topic_count_throttled (self : MetricsCollector)
    (system_time1 system_time2 : Q) (host1 host2 : Host)
    (facade1 : Facade) (facade2 : option Facade)
    (check_time1 stamp_time1 check_time2 stamp_time2 : Q) (n : nat) :
  reachable self ->
  (3 < check_time1 - default 0 (_last_topic_check self))%Q ->
  get_topics_info facade1 = Some n ->
  (check_time2 - stamp_time1 <= 3)%Q ->
  let first := get_live_metrics self system_time1 host1 (Some facade1)
                                check_time1 stamp_time1 in
  let second := get_live_metrics (fst first) system_time2 host2 facade2
                                 check_time2 stamp_time2 in
  snd first !! "topic_count" = Some (inject_Z (Z.of_nat n)) /\
  snd second !! "topic_count" = Some (inject_Z (Z.of_nat n)) /\
  (forall f, facade2 = Some f -> _last_topic_check (fst second) = Some stamp_time1).
Proof.
  intros Hreach Hdue Hn Hnear. cbv zeta.
  assert (Hshape : well_shaped
            (fst (get_live_metrics self system_time1 host1 (Some facade1)
                                   check_time1 stamp_time1))).
  { apply get_live_metrics_well_shaped, reachable_well_shaped, Hreach. }
  assert (Hfirst : metrics (fst (get_live_metrics self system_time1 host1
                                   (Some facade1) check_time1 stamp_time1))
                     !! "topic_count" = Some (inject_Z (Z.of_nat n)) /\
                   _last_topic_check
                     (fst (get_live_metrics self system_time1 host1
                             (Some facade1) check_time1 stamp_time1))
                   = Some stamp_time1).
  { unfold get_live_metrics. cbv zeta.
    rewrite update_system_metrics_topic_check.
    rewrite (Qlt_bool_true _ _ Hdue), Hn. cbn [fst metrics _last_topic_check].
    split; [apply lookup_insert_eq|reflexivity]. }
  destruct Hfirst as [Hcount Hcheck].
  set (c1 := fst (get_live_metrics self system_time1 host1 (Some facade1)
                                   check_time1 stamp_time1)) in *.
  split; [exact Hcount|].
  assert (Hkept : metrics (update_system_metrics c1 system_time2 host2)
                    !! "topic_count" = Some (inject_Z (Z.of_nat n))).
  { rewrite update_system_metrics_other_key by (exact Hshape || not_system_key).
    exact Hcount. }
  unfold get_live_metrics. cbv zeta.
  destruct facade2 as [f|].
  - rewrite update_system_metrics_topic_check, Hcheck.
    cbn [from_option id]. rewrite (Qlt_bool_false _ _ Hnear).
    cbn [snd fst metrics _last_topic_check].
    split; [exact Hkept|]. intros _ _. reflexivity.
  - cbn [snd fst]. split; [exact Hkept|]. intros f Hf. discriminate Hf.
Qed.

Lemma live_topic_count_throttled_witness :
  snd (get_live_metrics
         (fst (get_live_metrics init 10 quiet_host (Some (capture_of_size 0)) 10 10))
         12 quiet_host (Some (capture_of_size 0)) 12 12) !! "topic_count"
  = Some (inject_Z (Z.of_nat 3)).
Proof.
  refine (proj1 (proj2
            (live_topic_count_throttled init 10 12 quiet_host quiet_host
               (capture_of_size 0) (Some (capture_of_size 0)) 10 10 12 12 3
               reach_init _ _ _))).
  - reflexivity.
  - reflexivity.
  - discriminate.
Defined.

End MetricsCollectorBehaviour.

(** ** Network discovery: the sensor categories partition the topics *)
Section SensorCategories.
Import PyStr NetworkDiscovery.

Lemma append_to_fresh (key topic : string) (sensors : list (string * list string)) :
  key ∉ map fst sensors -> append_to key topic sensors = sensors.
Proof.
  induction sensors as [|[k v] rest IH]; intros Hnot; [reflexivity|].
  cbn [append_to]. cbn [map fst] in Hnot.
  apply not_elem_of_cons in Hnot as [Hne Hrest].
  destruct (String.eqb k key) eqn:E.
  - apply String.eqb_eq in E. congruence.
  - rewrite (IH Hrest). reflexivity.
Qed.

(** One [append] on a dictionary given by its keys and a content function. *)
Lemma append_to_keys (key topic : string) (keys : list string)
    (content : string -> list string) :
  NoDup keys ->
  append_to key topic (map (fun k => (k, content k)) keys)
  = map (fun k => (k, if String.eqb k key then (content k ++ [topic])%list
                      else content k)) keys.
Proof.
  induction keys as [|k ks IH]; intros Hnd; [reflexivity|].
  apply NoDup_cons in Hnd as [Hk Hks].
  cbn [map append_to]. destruct (String.eqb k key) eqn:E.
  - apply String.eqb_eq in E. subst k. f_equal.
    apply map_ext_in. intros k' Hin.
    destruct (String.eqb k' key) eqn:E'; [|reflexivity].
    apply String.eqb_eq in E'. subst k'. apply list_elem_of_In in Hin. contradiction.
  - f_equal. apply IH, Hks.
Qed.

Lemma classification_loop (rule : string -> string) (keys : list string)
    (robot_topics : list string) :
  NoDup keys ->
  forall content : string -> list string,
    fold_left (fun sensors topic => append_to (rule topic) topic sensors)
              robot_topics (map (fun k => (k, content k)) keys)
    = map (fun k => (k, (content k
                         ++ List.filter (fun topic => String.eqb (rule topic) k)
                                        robot_topics)%list)) keys.
Proof.
  intros Hnd. induction robot_topics as [|topic rest IH]; intros content.
  - cbn [fold_left List.filter]. apply map_ext. intros k.
    rewrite app_nil_r. reflexivity.
  - cbn [fold_left]. rewrite (append_to_keys _ _ _ _ Hnd), IH.
    apply map_ext. intros k. cbn [List.filter].
    rewrite (String.eqb_sym (rule topic) k).
    destruct (String.eqb k (rule topic)); [|reflexivity].
    rewrite <- app_assoc. reflexivity.
Qed.

Lemma sensor_categories_distinct : NoDup sensor_categories.
Proof. apply (bool_decide_unpack _). vm_compute. exact I. Qed.

Lemma category_is_a_key (topic : string) : category topic ∈ sensor_categories.
Proof.
  unfold category. cbv zeta.
  repeat match goal with
         | |- context [if ?c then _ else _] => destruct c
         end;
    apply (bool_decide_unpack _); vm_compute; exact I.
Qed.

Lemma classify_with_category (robot_topics : list string) :
  classify_with category robot_topics
  = List.filter non_empty
      (map (fun key => (key, topics_of_category robot_topics key))
           sensor_categories).
Proof.
  unfold classify_with. f_equal.
  change empty_sensors
    with (map (fun k : string => (k, @nil string)) sensor_categories).
  rewrite (classification_loop category sensor_categories robot_topics
             sensor_categories_distinct).
  reflexivity.
Qed.

Lemma concat_non_empty (sensors : list (string * list string)) :
  concat (map snd (List.filter non_empty sensors)) = concat (map snd sensors).
Proof.
  induction sensors as [|[k v] rest IH]; [reflexivity|].
  cbn [List.filter]. unfold non_empty at 1. cbn [snd].
  destruct v as [|t v]; cbn [map concat snd]; rewrite IH; reflexivity.
Qed.

(** Grouping a list by a key function over distinct keys that cover the
    list rearranges the list. *)
Lemma groups_rearrange (rule : string -> string) (keys : list string)
    (l : list string) :
  NoDup keys ->
  (forall t, t ∈ l -> rule t ∈ keys) ->
  concat (map (fun k => List.filter (fun t => String.eqb (rule t) k) l) keys) ≡ₚ l.
Proof.
  intros Hnd. induction l as [|t rest IH]; intros Hcover.
  - cbn [List.filter]. clear Hnd Hcover.
    induction keys as [|k ks IHk]; [reflexivity|exact IHk].
  - assert (Hrest : forall x, x ∈ rest -> rule x ∈ keys).
    { intros x Hx. apply Hcover. right. exact Hx. }
    specialize (IH Hrest).
    assert (Ht : rule t ∈ keys) by (apply Hcover; left).
    transitivity
      (t :: concat (map (fun k => List.filter (fun t0 => String.eqb (rule t0) k) rest)
                        keys)); [|constructor; exact IH].
    clear IH Hcover Hrest. revert Ht.
    induction keys as [|k ks IHk]; intros Ht.
    + apply elem_of_nil in Ht. contradiction.
    + apply NoDup_cons in Hnd as [Hk Hks].
      cbn [map concat List.filter].
      destruct (String.eqb (rule t) k) eqn:E.
      * apply String.eqb_eq in E. cbn [app]. constructor.
        apply Permutation_app_head.
        assert (Hsame : map (fun k0 => if String.eqb (rule t) k0
                                       then t :: List.filter
                                              (fun t0 => String.eqb (rule t0) k0) rest
                                       else List.filter
                                              (fun t0 => String.eqb (rule t0) k0) rest) ks
                        = map (fun k0 => List.filter
                                           (fun t0 => String.eqb (rule t0) k0) rest) ks).
        { apply map_ext_in. intros k0 Hin.
          destruct (String.eqb (rule t) k0) eqn:E0; [|reflexivity].
          apply String.eqb_eq in E0. apply list_elem_of_In in Hin. congruence. }
        rewrite Hsame. reflexivity.
      * assert (Hin : rule t ∈ ks).
        { apply elem_of_cons in Ht as [Heq|Hin]; [|exact Hin].
          rewrite Heq, String.eqb_refl in E. discriminate. }
        rewrite (IHk Hks Hin).
        symmetry. apply Permutation_middle.
Qed.

(** X11. The sensor dictionary partitions the robot's topics: for a known
    robot it lists, in the fixed order of the eight categories, each
    category together with the topics the [if]/[elif] chain sends there, in
    the order of the robot's topic list; empty categories are left out, and
    every topic of the robot appears exactly once in it. For an unknown
    host name the dictionary is empty. *)
Theorem sensor_categories_partition_topics (self : NetworkRobotDiscovery)
    (host : string) :
  match discovered_robots self !! host with
  | None => get_robot_sensors self host = []
  | Some robot =>
      get_robot_sensors self host
      = List.filter non_empty
          (map (fun key => (key, topics_of_category (topics robot) key))
               sensor_categories) /\
      concat (map snd (get_robot_sensors self host)) ≡ₚ topics robot /\
      Forall (fun entry => snd entry <> []) (get_robot_sensors self host)
  end.
Proof.
  unfold get_robot_sensors.
  destruct (discovered_robots self !! host) as [robot|]; [|reflexivity].
  rewrite classify_with_category. split; [reflexivity|]. split.
  - rewrite concat_non_empty, map_map. cbn [snd].
    apply groups_rearrange; [exact sensor_categories_distinct|].
    intros t _. apply category_is_a_key.
  - apply Forall_forall. intros entry Hin.
    apply list_elem_of_In, filter_In in Hin as [_ Hne].
    unfold non_empty in Hne. destruct (snd entry); [discriminate Hne|discriminate].
Qed.

End SensorCategories.

(** ** Network discovery: the domain id and the process environment *)
Section DomainRoundTrip.
Import PyStr NetworkDiscovery.

Lemma digit_char (r : N) :
  (r < 10)%N ->
  digit_value (pretty_N_char r) = Some (Z.of_N r) /\
  is_blank (pretty_N_char r) = false /\
  Ascii.eqb (pretty_N_char r) "_" = false /\
  pretty_N_char r <> "-"%char /\ pretty_N_char r <> "+"%char.
Proof.
  intros Hr.
  assert (r = 0 \/ r = 1 \/ r = 2 \/ r = 3 \/ r = 4 \/ r = 5 \/ r = 6 \/ r = 7
          \/ r = 8 \/ r = 9)%N as Hcases by lia.
  repeat (destruct Hcases as [->|Hcases]); try subst r;
    (repeat split; [reflexivity..|discriminate|discriminate]).
Qed.

Lemma blank_free_unchanged (s : string) :
  blank_free s = true -> drop_trailing_blanks (skip_blanks s) = s.
Proof.
  intros Hs.
  assert (Hskip : skip_blanks s = s).
  { destruct s as [|c rest]; [reflexivity|].
    cbn [blank_free] in Hs. apply andb_true_iff in Hs as [Hc _].
    cbn [skip_blanks]. apply negb_true_iff in Hc. rewrite Hc. reflexivity. }
  rewrite Hskip. induction s as [|c rest IH]; [reflexivity|].
  cbn [blank_free] in Hs. apply andb_true_iff in Hs as [Hc Hrest].
  apply negb_true_iff in Hc.
  assert (Hrest' : skip_blanks rest = rest).
  { destruct rest as [|c' rest']; [reflexivity|].
    cbn [blank_free] in Hrest. apply andb_true_iff in Hrest as [Hc' _].
    cbn [skip_blanks]. apply negb_true_iff in Hc'. rewrite Hc'. reflexivity. }
  cbn [drop_trailing_blanks]. rewrite (IH Hrest Hrest').
  destruct rest; [rewrite Hc|]; reflexivity.
Qed.

(** The decimal text of a positive number, read back digit by digit. *)
Lemma digits_of_pretty (x : N) :
  (0 < x)%N ->
  forall (s : string) (acc : Z) (count : nat) (after_digit : bool),
  exists k : nat,
    (1 <= k)%nat /\
    (10 ^ Z.of_nat (k - 1) <= Z.of_N x)%Z /\
    digits_value acc count after_digit (pretty_N_go x s)
    = digits_value (acc * 10 ^ Z.of_nat k + Z.of_N x) (count + k) true s /\
    (blank_free s = true -> blank_free (pretty_N_go x s) = true) /\
    (exists c rest, pretty_N_go x s = String c rest /\
                    c <> "-"%char /\ c <> "+"%char).
Proof.
  induction (N.lt_wf_0 x) as [x _ IH]; intros Hpos s acc count after_digit.
  rewrite pretty_N_go_step by exact Hpos.
  assert (Hr : (x `mod` 10 < 10)%N) by (apply N.mod_lt; discriminate).
  destruct (digit_char _ Hr) as (Hd & Hb & Hu & Hm & Hp).
  pose proof (N.div_mod x 10 ltac:(discriminate)) as Hdm.
  assert (x `div` 10 = 0 \/ 0 < x `div` 10)%N as [Hz|Hq] by lia.
  - rewrite Hz, pretty_N_go_0. exists 1%nat.
    assert (Hx : x = (x `mod` 10)%N) by lia.
    split; [lia|]. split; [cbn; lia|]. split; [|split].
    + cbn [digits_value]. rewrite Hu, Hd. rewrite <- Hx.
      rewrite Nat.add_1_r. change (10 ^ Z.of_nat 1)%Z with 10%Z. reflexivity.
    + intros Hs. cbn [blank_free]. rewrite Hb, Hs. reflexivity.
    + eexists _, _. split; [reflexivity|]. split; assumption.
  - assert (Hlt : (x `div` 10 < x)%N) by (apply N.div_lt; [exact Hpos|reflexivity]).
    destruct (IH _ Hlt Hq (String (pretty_N_char (x `mod` 10)) s) acc count
                 after_digit) as (k & Hk & Hlow & Hval & Hfree & Hhead).
    exists (S k). split; [lia|]. split; [|split; [|split]].
    + replace (S k - 1)%nat with (S (k - 1)) by lia.
      rewrite Nat2Z.inj_succ, Z.pow_succ_r by lia.
      apply (f_equal Z.of_N) in Hdm. rewrite N2Z.inj_add, N2Z.inj_mul in Hdm.
      change (Z.of_N 10) with 10%Z in Hdm.
      set (P := (10 ^ Z.of_nat (k - 1))%Z) in *.
      set (q := Z.of_N (x `div` 10)) in *. set (r := Z.of_N (x `mod` 10)) in *.
      assert (0 <= r)%Z by (apply N2Z.is_nonneg). lia.
    + rewrite Hval. cbn [digits_value]. rewrite Hu, Hd.
      rewrite Nat2Z.inj_succ, Z.pow_succ_r by lia.
      replace (count + S k)%nat with (S (count + k)) by lia.
      f_equal.
      apply (f_equal Z.of_N) in Hdm. rewrite N2Z.inj_add, N2Z.inj_mul in Hdm.
      change (Z.of_N 10) with 10%Z in Hdm.
      set (P := (10 ^ Z.of_nat k)%Z) in *.
      set (q := Z.of_N (x `div` 10)) in *. set (r := Z.of_N (x `mod` 10)) in *.
      rewrite Hdm. ring.
    + intros Hs. apply Hfree. cbn [blank_free]. rewrite Hb, Hs. reflexivity.
    + exact Hhead.
Qed.

Lemma int_of_pretty_positive (p : positive) :
  (Z.pos p < 10 ^ Z.of_nat max_str_digits)%Z ->
  int_of_string (pretty (N.pos p)) = Some (Z.pos p) /\
  int_of_string ("-" +:+ pretty (N.pos p)) = Some (Z.neg p).
Proof.
  intros Hbound.
  unfold pretty, pretty_N. rewrite decide_False by discriminate.
  destruct (digits_of_pretty (N.pos p) ltac:(reflexivity) "" 0%Z 0%nat false)
    as (k & Hk & Hlow & Hval & Hfree & (c & rest & Hhead & Hm & Hp)).
  specialize (Hfree eq_refl).
  cbn [digits_value] in Hval. rewrite Z.mul_0_l, Z.add_0_l, Nat.add_0_l in Hval.
  change (Z.of_N (N.pos p)) with (Z.pos p) in *.
  assert (Hcount : (k <=? max_str_digits)%nat = true).
  { apply Nat.leb_le.
    assert (Hlt : (10 ^ Z.of_nat (k - 1) < 10 ^ Z.of_nat max_str_digits)%Z) by lia.
    apply Z.pow_lt_mono_r_iff in Hlt; lia. }
  split.
  - unfold int_of_string. rewrite (blank_free_unchanged _ Hfree).
    assert (Hsign : match pretty_N_go (N.pos p) "" with
                    | String "-" rest0 => ((-1)%Z, rest0)
                    | String "+" rest0 => (1%Z, rest0)
                    | _ => (1%Z, pretty_N_go (N.pos p) "")
                    end = (1%Z, pretty_N_go (N.pos p) "")).
    { rewrite Hhead.
      destruct c as [[] [] [] [] [] [] [] []]; try reflexivity; congruence. }
    rewrite Hsign, Hval, Hcount. reflexivity.
  - change ("-" +:+ pretty_N_go (N.pos p) "")
      with (String "-" (pretty_N_go (N.pos p) "")).
    unfold int_of_string.
    rewrite (blank_free_unchanged (String "-" (pretty_N_go (N.pos p) ""))).
    + rewrite Hval, Hcount. reflexivity.
    + cbn [blank_free]. rewrite Hfree. reflexivity.
Qed.

Lemma int_of_pretty (z : Z) :
  (- 10 ^ Z.of_nat max_str_digits < z < 10 ^ Z.of_nat max_str_digits)%Z ->
  int_of_string (pretty z) = Some z.
Proof.
  intros Hbound. destruct z as [|p|p]; unfold pretty, pretty_Z.
  - reflexivity.
  - apply (int_of_pretty_positive p). lia.
  - apply (int_of_pretty_positive p). lia.
Qed.

(** X12. The domain id survives the trip through the process environment:
    after [set_domain(d)], for any integer [d] of at most 4300 digits,
    reading ROS_DOMAIN_ID back gives [d], so that a discovery object
    constructed afterwards starts on domain [d]; the same holds after
    [scan_domains], which leaves the variable at the domain that was
    current before the scan. When the variable is unset the domain is 0. *)
Theorem domain_id_round_trip (self : NetworkRobotDiscovery) (d : Z) :
  (- 10 ^ Z.of_nat max_str_digits < d < 10 ^ Z.of_nat max_str_digits)%Z ->
  _get_current_domain (environ (set_domain self d)) = d /\
  current_domain (new_discovery (environ (set_domain self d))) = d /\
  (forall ros2_node_list start_domain end_domain,
     _get_current_domain
       (environ (fst (scan_domains ros2_node_list (set_domain self d)
                                   start_domain end_domain))) = d) /\
  (forall env, env !! "ROS_DOMAIN_ID" = None -> _get_current_domain env = 0%Z).
Proof.
  intros Hbound.
  assert (Hread : forall env,
            _get_current_domain (<["ROS_DOMAIN_ID" := pretty d]> env) = d).
  { intros env. unfold _get_current_domain. rewrite lookup_insert_eq.
    cbn [from_option id]. rewrite (int_of_pretty d Hbound). reflexivity. }
  split; [apply Hread|]. split; [apply Hread|]. split.
  - intros run a b. unfold scan_domains.
    destruct (scan_loop run (domain_range a b) (set_domain self d) ∅)
      as [self' results].
    cbn [fst set_domain environ current_domain]. apply Hread.
  - intros env Hnone. unfold _get_current_domain. rewrite Hnone. reflexivity.
Qed.

Lemma domain_id_round_trip_witness :
  _get_current_domain (environ (set_domain (one_robot "turtle" []) 42)) = 42%Z.
Proof.
  refine (proj1 (domain_id_round_trip (one_robot "turtle" []) 42 _)).
  split; vm_compute; reflexivity.
Defined.

End DomainRoundTrip.

(** ** The upload server: what one chunk request can do *)
Section ChunkRequests.
Import PyStr UploadServer.

(** X13. A chunk request either leaves the server state untouched and is
    answered with an error, or stores exactly the posted data as the chunk
    file of the named session and records the index in that session,
    touching no other file and no other session. In the second case the
    answer is 200, with the progress as the float Python computes, unless
    the progress computation raises after the chunk was stored and
    recorded: when the form's chunk_total is 0, or when the quotient is too
    large for a float. Then the answer is 500. *)
Theorem upload_chunk_effect (request : ChunkRequest) (st : State) :
  let '(r, st') := upload_chunk request st in
  (st' = st /\ snd r <> 200) \/
  (exists id session index total file,
     chunk_upload_id request = Some id /\
     upload_sessions st !! id = Some session /\
     chunk_index request = Integer index /\
     chunk_total request = Integer total /\
     chunk request = Some file /\
     st' = chunk_stored st id session index (stream file) /\
     r = if (total =? 0)%Z
         then (ServerError ZeroDivisionError, 500)
         else
           let received := size ({[index]} ∪ received_chunks session) in
           match PyFloat.int_truediv (Z.of_nat received) total with
           | Some quotient =>
               (ChunkOk received total (PyFloat.mul quotient PyFloat.hundred), 200)
           | None => (ServerError OverflowError, 500)
           end).
Proof.
  unfold upload_chunk, handle, bind, int_field, get_state, ret, raise.
  destruct (chunk_index request) as [| |index] eqn:Hi;
    [left; split; [reflexivity|discriminate]..|].
  destruct (chunk_total request) as [| |total] eqn:Ht;
    [left; split; [reflexivity|discriminate]..|].
  unfold find_session.
  destruct (chunk_upload_id request) as [id|] eqn:Hid;
    [|left; split; [reflexivity|discriminate]].
  destruct (upload_sessions st !! id) as [session|] eqn:Hs;
    [|left; split; [reflexivity|discriminate]].
  destruct (chunk request) as [file|] eqn:Hf;
    [|left; split; [reflexivity|discriminate]].
  destruct (truthy (part_filename file)); cbn [negb];
    [|left; split; [reflexivity|discriminate]].
  unfold write_file, bind, get_state, raise, set_fs, set_sessions.
  destruct (is_dir (fs st) (chunk_path session index));
    [left; split; [reflexivity|discriminate]|].
  destruct (is_dir (fs st) (dirname (chunk_path session index))); cbn [negb];
    [|left; split; [reflexivity|discriminate]].
  unfold percent, truediv, int_truediv, bind, ret, raise.
  cbn [add_received received_chunks upload_sessions fs].
  destruct (total =? 0)%Z eqn:Hz;
    [|destruct (PyFloat.int_truediv _ total) eqn:Hq];
    right; exists id, session, index, total, file;
    rewrite ?Hz; cbv zeta; rewrite ?Hq;
    repeat split; try reflexivity; assumption.
Qed.

(** A well-formed chunk form for a known session whose directory is
    there. *)
Lemma chunk_form_stored (st : State) (id : string) (session : Session)
    (index total : Z) (data : list byte) :
  upload_sessions st !! id = Some session ->
  is_dir (fs st) (chunk_path session index) = false ->
  is_dir (fs st) (dirname (chunk_path session index)) = true ->
  snd (upload_chunk (chunk_form id index total data) st)
  = chunk_stored st id session index data.
Proof.
  intros Hs Hnd Hpd.
  unfold upload_chunk, handle, bind, int_field, get_state, ret, raise, chunk_form.
  cbn [chunk_index chunk_total chunk_upload_id chunk part_filename stream].
  unfold find_session. rewrite Hs. cbn [truthy negb].
  unfold write_file, bind, get_state, raise, set_fs, set_sessions.
  rewrite Hnd, Hpd. cbn [negb upload_sessions fs].
  match goal with
  | |- context [percent ?n ?v ?stored] =>
      destruct (percent_cases n v stored) as [[progress Hpr]|[e Hpr]];
        rewrite Hpr; reflexivity
  end.
Qed.

Lemma add_received_twice (session : Session) (index : Z) :
  add_received (add_received session index) index = add_received session index.
Proof.
  unfold add_received. cbn [filename filesize chunks metadata checksum
                            received_chunks created_at temp_dir].
  f_equal. rewrite (assoc_L (∪)), (idemp_L (∪)). reflexivity.
Qed.

(** X14. Sending a chunk again replaces it: after the same index was
    posted twice for a session, the server is in the state it would be in
    had only the second request been made. The chunk file holds the second
    data and the index is counted once. *)
Theorem chunk_resend_overwrites (st : State) (id : string) (session : Session)
    (index total1 total2 : Z) (data1 data2 : list byte) :
  upload_sessions st !! id = Some session ->
  is_dir (fs st) (chunk_path session index) = false ->
  is_dir (fs st) (dirname (chunk_path session index)) = true ->
  let once := snd (upload_chunk (chunk_form id index total1 data1) st) in
  let twice := snd (upload_chunk (chunk_form id index total2 data2) once) in
  twice = snd (upload_chunk (chunk_form id index total2 data2) st) /\
  files (fs twice) !! chunk_path session index = Some data2 /\
  (exists resent,
     upload_sessions twice !! id = Some resent /\
     size (received_chunks resent) = size ({[index]} ∪ received_chunks session)).
Proof.
  intros Hs Hnd Hpd. cbv zeta.
  rewrite (chunk_form_stored st id session index total1 data1 Hs Hnd Hpd).
  rewrite (chunk_form_stored st id session index total2 data2 Hs Hnd Hpd).
  rewrite (chunk_form_stored (chunk_stored st id session index data1) id
             (add_received session index) index total2 data2).
  - unfold chunk_stored. cbn [upload_sessions fs files dirs].
    rewrite add_received_twice, !insert_insert_eq.
    change (chunk_path (add_received session index) index)
      with (chunk_path session index).
    rewrite ?insert_insert_eq.
    split; [reflexivity|]. split; [apply lookup_insert_eq|].
    exists (add_received session index). split; [apply lookup_insert_eq|reflexivity].
  - apply lookup_insert_eq.
  - exact Hnd.
  - exact Hpd.
Qed.

Lemma sample_started_session :
  upload_sessions sample_started !! sample_id = Some sample_new_session.
Proof. vm_compute. reflexivity. Qed.

Lemma chunk_resend_overwrites_witness :
  files (fs (snd (upload_chunk (chunk_form sample_id 1 3 [x09]%byte)
                    (snd (upload_chunk (chunk_form sample_id 1 3 [x03]%byte)
                            sample_started)))))
    !! chunk_path sample_new_session 1
  = Some [x09]%byte.
Proof.
  refine (proj1 (proj2
            (chunk_resend_overwrites sample_started sample_id sample_new_session
               1 3 3 [x03]%byte [x09]%byte sample_started_session _ _))).
  - vm_compute. reflexivity.
  - vm_compute. reflexivity.
Defined.



(** X16. The checksum is the digest of the whole file: reading in blocks
    of 8192 bytes until the empty block feeds every byte of the file to
    the digest, in order, whatever the length; the file system is left as
    it was, and a path that is not a regular file raises. *)
Theorem checksum_is_digest_of_whole_file `{Platform} (path : string) (st : State) :
  match files (fs st) !! path with
  | Some content =>
      calculate_checksum path st = (Returned (md5_hexdigest content), st) /\
      concat (read_blocks (length content) content) = content /\
      Forall (fun block => (0 < length block <= block_size)%nat)
             (read_blocks (length content) content)
  | None =>
      calculate_checksum path st
      = (Raised (if is_dir (fs st) path then IsADirectoryError
                 else FileNotFoundError), st)
  end.
Proof.
  destruct (files (fs st) !! path) as [content|] eqn:Hfile.
  - split; [apply calculate_checksum_ok, Hfile|].
    split; [apply read_blocks_concat; lia|].
    generalize (length content) at 1. intros fuel. clear Hfile. revert content.
    induction fuel as [|fuel IH]; intros content; [constructor|].
    cbn [read_blocks]. destruct content as [|b rest]; [constructor|].
    constructor.
    + rewrite length_take. cbn [length]. unfold block_size.
      split; [|apply Nat.le_min_l].
      apply Nat.min_glb_lt; [|lia]. apply (Z2Nat.inj_lt 0); lia.
    + apply IH.
  - unfold calculate_checksum, bind, read_file, bind, get_state, raise.
    cbv beta iota. rewrite Hfile. reflexivity.
Qed.

End ChunkRequests.

(** ** The upload server: status, and finalize beyond the plain case *)
Section StatusAfterChunks.
Import PyStr UploadServer.
Context `{Platform}.

Lemma no_dir_below_spec (f : FileSystem) (path : string) :
  no_dir_below f path = true <->
  (forall p, p ∈ dirs f -> starts_with (path ++ "/") p = false).
Proof.
  unfold no_dir_below. rewrite forallb_forall. split.
  - intros Hall p Hp. apply negb_true_iff, Hall.
    apply list_elem_of_In, elem_of_elements, Hp.
  - intros Hall p Hp. apply negb_true_iff, Hall.
    apply elem_of_elements, list_elem_of_In, Hp.
Qed.

Lemma distinct_indices (order : list nat) :
  size (list_to_set (Z.of_nat <$> order) : gset Z) = length (remove_dups order).
Proof.
  assert (Hsame : (list_to_set (Z.of_nat <$> order) : gset Z)
                  = list_to_set (Z.of_nat <$> remove_dups order)).
  { apply set_eq. intros z. rewrite !elem_of_list_to_set, !list_elem_of_fmap.
    split; intros (n & -> & Hn); exists n; (split; [reflexivity|]);
      apply elem_of_remove_dups; exact Hn. }
  rewrite Hsame, size_list_to_set.
  - apply length_fmap.
  - apply NoDup_fmap_2; [apply Nat2Z.inj'|apply NoDup_remove_dups].
Qed.

(** X17. The status of an upload counts distinct chunk indices: after any
    sequence of chunk requests for a fresh session (indices repeated or
    not), [/upload/status] reports as received the number of different
    indices posted, and computes the progress from that number: for a
    declared count that is an integer other than 0, the float nearest to
    the quotient, times 100 and rounded again. The query changes
    nothing. *)
Theorem status_counts_distinct_chunks (st : State) (id : string) (session : Session)
    (payloads : list (list byte)) (total : Z) (order : list nat) :
  plain_name id ->
  upload_sessions st !! id = Some session ->
  temp_dir session = path_join TEMP_DIR id ->
  is_dir (fs st) (temp_dir session) = true ->
  no_dir_below (fs st) (temp_dir session) = true ->
  received_chunks session = ∅ ->
  let posted := snd (post_chunks (map (chunk_request id payloads total) order) st) in
  let received := length (remove_dups order) in
  upload_status id posted
  = (match fst (percent (Z.of_nat received) (chunks session) posted) with
     | Returned progress =>
         Returned (StatusOk (filename session) received (chunks session) progress,
                   200)
     | Raised e => Raised e
     end, posted) /\
  (forall declared quotient,
     chunks session = JInt declared -> declared <> 0 ->
     PyFloat.int_truediv (Z.of_nat received) declared = Some quotient ->
     upload_status id posted
     = (Returned (StatusOk (filename session) received (JInt declared)
                           (PyFloat.mul quotient PyFloat.hundred), 200),
        posted)).
Proof.
  intros Hid Hs Htd Hdir Hbelow Hfresh. cbv zeta.
  destruct (post_chunks_stores id payloads total Hid order st session Hs Htd Hdir
              (proj1 (no_dir_below_spec _ _) Hbelow)) as (rs & -> & _).
  cbn [snd].
  match goal with |- context [upload_status id ?s] => set (posted := s) end.
  assert (Hstatus :
    upload_status id posted
    = (match fst (percent (Z.of_nat (length (remove_dups order))) (chunks session)
                          posted) with
       | Returned progress =>
           Returned (StatusOk (filename session) (length (remove_dups order))
                              (chunks session) progress, 200)
       | Raised e => Raised e
       end, posted)).
  { unfold upload_status. unfold bind at 1. unfold get_state at 1.
    cbv beta iota. unfold posted at 1. cbn [upload_sessions].
    rewrite lookup_insert_eq.
    destruct (foldl_add_received_fields (Z.of_nat <$> order) session)
      as (Hn & _ & Hc & _ & _ & Hr).
    rewrite Hn, Hc, Hr, Hfresh, (right_id_L ∅ (∪)), distinct_indices.
    destruct (percent_cases (Z.of_nat (length (remove_dups order)))
                (chunks session) posted) as [[progress Hpr]|[e Hpr]];
      unfold bind; rewrite Hpr; reflexivity. }
  split; [exact Hstatus|].
  intros declared quotient Hdecl Hnz Hq. rewrite Hstatus, Hdecl.
  unfold percent, truediv, int_truediv, bind, ret.
  destruct (Z.eqb_spec declared 0) as [Hz|_]; [contradiction|].
  rewrite Hq. reflexivity.
Qed.

End StatusAfterChunks.

Lemma sample_id_plain : UploadServer.plain_name UploadServer.sample_id.
Proof. repeat split; try reflexivity; discriminate. Qed.

Section StatusSample.
Import PyStr UploadServer.

(** Two of three chunks: the progress is the float 66.66666666666666,
    that is 4691249611844266 * 2^-46, where the quotient of the integers
    times 100 would be 200/3. *)
Lemma status_counts_distinct_chunks_witness :
  let posted :=
    snd (post_chunks (map (chunk_request sample_id sample_payloads 3) [2; 0; 2]%nat)
                     sample_started) in
  upload_status sample_id posted
  = (Returned (StatusOk (Some "run1.bag") 2 (JInt 3)
                        (S754_finite false 4691249611844266 (-46)), 200),
     posted).
Proof.
  cbv zeta.
  refine (proj2 (status_counts_distinct_chunks (H := robot_platform) sample_started
                   sample_id sample_new_session sample_payloads 3 [2; 0; 2]%nat
                   sample_id_plain sample_started_session _ _ _ _)
                3 (S754_finite false 6004799503160661 (-53)) _ _ _).
  - reflexivity.
  - vm_compute. reflexivity.
  - vm_compute. reflexivity.
  - reflexivity.
  - reflexivity.
  - discriminate.
  - vm_compute. reflexivity.
Defined.

End StatusSample.

(** ** The upload server: finalize, wherever the output path lies *)
Section FinalizingAt.
Import PyStr UploadServer.
Context `{Platform}.
Variables (id : string) (session : Session) (name out : string).
Hypothesis plain_id : plain_name id.
Hypothesis session_dir : temp_dir session = path_join TEMP_DIR id.
Hypothesis placed : output_path name = out.
Hypothesis outside : starts_with (temp_dir session ++ "/") out = false.

Lemma chunk_is_not_output (i : Z) : chunk_path session i <> out.
Proof.
  intros Heq. pose proof outside as Hb. rewrite <- Heq in Hb.
  rewrite (chunk_path_below id session plain_id session_dir) in Hb.
  discriminate.
Qed.

Lemma for_each_app {A : Type} (xs ys : list A) (body : A -> M unit) (st : State) :
  for_each (xs ++ ys) body st = (do _ <- for_each xs body; for_each ys body) st.
Proof.
  revert st. induction xs as [|x xs IH]; intros st; [reflexivity|].
  cbn [app for_each]. unfold bind.
  destruct (body x st) as [[[]|e] st']; [|reflexivity].
  specialize (IH st'). unfold bind in IH. exact IH.
Qed.

(** The concatenation loop over chunk files that are all there. *)
Lemma reassemble_loop_at (content : Z -> list byte) (indices : list Z) :
  forall (acc : list byte) (st : State),
    files (fs st) !! out = Some acc ->
    (forall i, i ∈ indices ->
               files (fs st) !! chunk_path session i = Some (content i)) ->
    for_each indices
      (fun i => do data <- read_file (chunk_path session i);
                append_file (output_path name) data) st
    = (Returned tt,
       put_fs st (<[out := (acc ++ concat (content <$> indices))%list]>
                    (files (fs st)))
              (dirs (fs st))).
Proof.
  rewrite placed.
  induction indices as [|i indices IH]; intros acc st Hout Hchunks.
  - cbn [for_each fmap list_fmap concat]. rewrite app_nil_r.
    rewrite (insert_id _ _ _ Hout), put_fs_same. reflexivity.
  - cbn [for_each].
    assert (Hi : files (fs st) !! chunk_path session i = Some (content i))
      by (apply Hchunks; left).
    assert (Hstep :
      (do data <- read_file (chunk_path session i); append_file out data) st
      = (Returned tt,
         put_fs st (<[out := (acc ++ content i)%list]> (files (fs st)))
                (dirs (fs st)))).
    { rewrite (bind_returned _ _ _ _ _ (read_file_ok _ _ st Hi)).
      apply append_file_ok, Hout. }
    rewrite (bind_returned _ _ _ _ _ Hstep).
    rewrite (IH (acc ++ content i)%list).
    + unfold put_fs. cbn [upload_sessions fs files dirs fmap list_fmap concat].
      rewrite insert_insert_eq, app_assoc. reflexivity.
    + cbn. apply lookup_insert_eq.
    + intros k Hk. cbn. rewrite lookup_insert_ne by (apply not_eq_sym, chunk_is_not_output).
      apply Hchunks. right. exact Hk.
Qed.

(** The loop stops at the first chunk file that is not there. *)
Lemma reassemble_loop_stops (content : Z -> list byte) (before after : list Z)
    (j : Z) (acc : list byte) (st : State) :
  files (fs st) !! out = Some acc ->
  (forall i, i ∈ before ->
             files (fs st) !! chunk_path session i = Some (content i)) ->
  files (fs st) !! chunk_path session j = None ->
  is_dir (fs st) (chunk_path session j) = false ->
  for_each (before ++ j :: after)
    (fun i => do data <- read_file (chunk_path session i);
              append_file (output_path name) data) st
  = (Raised FileNotFoundError,
     put_fs st (<[out := (acc ++ concat (content <$> before))%list]>
                  (files (fs st)))
            (dirs (fs st))).
Proof.
  intros Hout Hbefore Hj Hjd.
  rewrite for_each_app.
  rewrite (bind_returned _ _ _ _ _
             (reassemble_loop_at content before acc st Hout Hbefore)).
  cbn [for_each]. unfold bind at 1 2. unfold read_file, bind, get_state, raise.
  cbn [fs put_fs files dirs].
  rewrite lookup_insert_ne by (apply not_eq_sym, chunk_is_not_output).
  rewrite Hj. unfold is_dir in *. cbn [dirs]. rewrite Hjd. reflexivity.
Qed.

Section OneFinalizeAt.
Variables (st : State) (content : Z -> list byte) (now : string)
          (digest : option string).
Hypothesis known : upload_sessions st !! id = Some session.
Hypothesis named : filename session = Some name.
Hypothesis complete :
  chunks session = JInt (Z.of_nat (size (received_chunks session))).
Hypothesis output_free : is_dir (fs st) out = false.
Hypothesis output_parent : is_dir (fs st) (dirname out) = true.
Hypothesis no_dir_below :
  forall p, p ∈ dirs (fs st) -> starts_with (temp_dir session ++ "/") p = false.

(** Finalize up to the reassembly loop. *)
Lemma finalize_unfolded :
  finalize_upload
    (Some {| finalize_upload_id := Some id; finalize_checksum := digest |}) now st
  = handle
      (do _ <- (do _ <- write_file out [];
                for_each (chunk_range (Z.of_nat (size (received_chunks session))))
                  (fun i => do data <- read_file (chunk_path session i);
                            append_file (output_path name) data));
       do calculated_checksum <- calculate_checksum out;
       if truthy_opt digest
          && negb (bool_decide (Some calculated_checksum = digest))
       then do _ <- remove out; ret (ChecksumMismatch, 400)
       else
         do _ <- for_each (chunk_range (Z.of_nat (size (received_chunks session))))
                   (fun i =>
                      do st <- get_state;
                      if path_exists (fs st) (chunk_path session i)
                      then remove (chunk_path session i)
                      else ret tt);
         do _ <- rmdir (temp_dir session);
         do _ <- write_file (metadata_path name)
                   (json_dump
                      {| sidecar_filename := filename session;
                         sidecar_filesize := filesize session;
                         sidecar_checksum := calculated_checksum;
                         sidecar_metadata := metadata session;
                         uploaded_at := now |});
         do st <- get_state;
         do _ <- set_sessions (delete id (upload_sessions st));
         ret (FinalizeOk out calculated_checksum, 200)) st.
Proof.
  unfold finalize_upload, handle.
  cbn [finalize_upload_id finalize_checksum].
  rewrite (bind_returned get_state _ st st st eq_refl).
  rewrite (find_session_known id session _ known).
  rewrite complete. cbn [int_ne range_of]. rewrite Z.eqb_refl. cbn [negb].
  rewrite named. rewrite <- placed. skip_ret.
  rewrite <- (bind_assoc (write_file (output_path name) [])). reflexivity.
Qed.

Lemma written_empty :
  write_file out [] st
  = (Returned tt, put_fs st (<[out := []]> (files (fs st))) (dirs (fs st))).
Proof. apply write_file_ok; assumption. Qed.

(** Finalize when chunk file [j] is the first that is missing. *)
Lemma finalize_stops_at (j : Z) :
  (0 <= j < Z.of_nat (size (received_chunks session)))%Z ->
  (forall i, (0 <= i < j)%Z ->
             files (fs st) !! chunk_path session i = Some (content i)) ->
  files (fs st) !! chunk_path session j = None ->
  finalize_upload
    (Some {| finalize_upload_id := Some id; finalize_checksum := digest |}) now st
  = ((ServerError FileNotFoundError, 500),
     put_fs st (<[out := concat (content <$> chunk_range j)]> (files (fs st)))
            (dirs (fs st))).
Proof.
  intros Hj Hbefore Hmissing.
  rewrite finalize_unfolded. unfold handle.
  assert (Hsplit : chunk_range (Z.of_nat (size (received_chunks session)))
                   = (chunk_range j
                      ++ j :: seqZ (j + 1)
                                (Z.of_nat (size (received_chunks session)) - j - 1))%list).
  { unfold chunk_range.
    replace (Z.of_nat (size (received_chunks session)))
      with (j + (Z.of_nat (size (received_chunks session)) - j))%Z at 1 by lia.
    rewrite seqZ_app by lia. f_equal. rewrite Z.add_0_l.
    rewrite (seqZ_cons j) by lia. f_equal; f_equal; lia. }
  rewrite Hsplit.
  assert (Hloop :
    (do _ <- write_file out [];
     for_each (chunk_range j
               ++ j :: seqZ (j + 1)
                         (Z.of_nat (size (received_chunks session)) - j - 1))
       (fun i => do data <- read_file (chunk_path session i);
                 append_file (output_path name) data)) st
    = (Raised FileNotFoundError,
       put_fs st (<[out := concat (content <$> chunk_range j)]> (files (fs st)))
              (dirs (fs st)))).
  { rewrite (bind_returned _ _ _ _ _ written_empty).
    rewrite (reassemble_loop_stops content (chunk_range j) _ j []).
    - unfold put_fs. cbn [upload_sessions fs files dirs app].
      rewrite insert_insert_eq. reflexivity.
    - cbn. apply lookup_insert_eq.
    - intros i Hi. cbn.
      rewrite lookup_insert_ne by (apply not_eq_sym, chunk_is_not_output).
      apply Hbefore. unfold chunk_range in Hi. apply elem_of_seqZ in Hi. lia.
    - cbn. rewrite lookup_insert_ne by (apply not_eq_sym, chunk_is_not_output).
      exact Hmissing.
    - apply is_dir_false. cbn. intros Hin. apply no_dir_below in Hin.
      rewrite (chunk_path_below id session plain_id session_dir) in Hin.
      discriminate. }
  rewrite (bind_raised _ _ _ _ _ Hloop). reflexivity.
Qed.

Section PassingAt.
Hypothesis chunk_files :
  forall i, i ∈ chunk_range (Z.of_nat (size (received_chunks session))) ->
            files (fs st) !! chunk_path session i = Some (content i).
Hypothesis pass :
  truthy_opt digest = false \/
  digest = Some (md5_hexdigest (assembled_from session content)).
Hypothesis sidecar_free : is_dir (fs st) (metadata_path name) = false.
Hypothesis sidecar_parent : is_dir (fs st) (dirname (metadata_path name)) = true.
Hypothesis sidecar_apart : dirname (metadata_path name) <> temp_dir session.
Hypothesis temp_is_dir : is_dir (fs st) (temp_dir session) = true.
Hypothesis temp_not_file : is_file (fs st) (temp_dir session) = false.
Hypothesis only_chunks_below :
  forall p, is_Some (files (fs st) !! p) ->
            starts_with (temp_dir session ++ "/") p = true ->
            exists i, i ∈ chunk_range (Z.of_nat (size (received_chunks session)))
                      /\ p = chunk_path session i.

Local Abbreviation assembled := (assembled_from session content).
Local Abbreviation reassembled :=
  (put_fs st (<[out := assembled]> (files (fs st))) (dirs (fs st))).
Local Abbreviation cleaned :=
  (put_fs st
     (chunks_removed session
        (chunk_range (Z.of_nat (size (received_chunks session))))
        (<[out := assembled]> (files (fs st))))
     (dirs (fs st))).

Lemma reassembly_at :
  (do _ <- write_file out [];
   for_each (chunk_range (Z.of_nat (size (received_chunks session))))
     (fun i => do data <- read_file (chunk_path session i);
               append_file (output_path name) data)) st
  = (Returned tt, reassembled).
Proof.
  rewrite (bind_returned _ _ _ _ _ written_empty).
  rewrite (reassemble_loop_at content _ []).
  - unfold put_fs, assembled_from. cbn [upload_sessions fs files dirs app].
    rewrite insert_insert_eq. reflexivity.
  - cbn. apply lookup_insert_eq.
  - intros i Hi. cbn.
    rewrite lookup_insert_ne by (apply not_eq_sym, chunk_is_not_output).
    apply chunk_files, Hi.
Qed.

Lemma cleaned_empty_at : nothing_below (fs cleaned) (temp_dir session) = true.
Proof.
  apply nothing_below_spec. intros p Hp.
  apply elem_of_union in Hp as [Hp|Hp]; [|apply no_dir_below, Hp].
  destruct (starts_with (temp_dir session ++ "/") p) eqn:Hb; [|reflexivity].
  exfalso. apply elem_of_dom in Hp. cbn in Hp.
  pose proof (chunks_removed_dom session _ _ p Hp) as Hbefore.
  rewrite lookup_insert_ne in Hbefore.
  - destruct (only_chunks_below p Hbefore Hb) as (i & Hi & ->).
    rewrite (chunks_removed_chunk id session plain_id session_dir _ _ i Hi) in Hp.
    destruct Hp as [? Hp]. discriminate.
  - intros Heq. rewrite <- Heq, outside in Hb. discriminate.
Qed.

Lemma finalize_success_at :
  finalize_upload
    (Some {| finalize_upload_id := Some id; finalize_checksum := digest |}) now st
  = ((FinalizeOk out (md5_hexdigest assembled), 200),
     {| upload_sessions := delete id (upload_sessions st);
        fs := {| files :=
                   <[metadata_path name :=
                       json_dump
                         {| sidecar_filename := Some name;
                            sidecar_filesize := filesize session;
                            sidecar_checksum := md5_hexdigest assembled;
                            sidecar_metadata := metadata session;
                            uploaded_at := now |}]>
                     (chunks_removed session
                        (chunk_range (Z.of_nat (size (received_chunks session))))
                        (<[out := assembled]> (files (fs st))));
                 dirs := dirs (fs st) ∖ {[temp_dir session]} |} |}).
Proof.
  rewrite finalize_unfolded. unfold handle.
  rewrite (bind_returned _ _ _ _ _ reassembly_at).
  assert (Hread : files (fs reassembled) !! out = Some assembled)
    by apply lookup_insert_eq.
  rewrite (bind_returned _ _ _ _ _
             (calculate_checksum_ok out assembled reassembled Hread)).
  assert (Hpass : truthy_opt digest
                  && negb (bool_decide (Some (md5_hexdigest assembled) = digest))
                  = false).
  { destruct pass as [->| ->]; [reflexivity|].
    rewrite bool_decide_eq_true_2 by reflexivity. apply andb_false_r. }
  rewrite Hpass.
  rewrite (bind_returned _ _ _ _ _
             (cleanup_loop id session plain_id session_dir _ reassembled
                           no_dir_below)).
  assert (Hne : temp_dir session <> out).
  { intros Heq. rewrite <- Heq in output_free. congruence. }
  assert (Hnf : is_file (fs cleaned) (temp_dir session) = false).
  { apply is_file_absent. cbn.
    rewrite (chunks_removed_other id session plain_id session_dir)
      by apply not_below_itself.
    rewrite lookup_insert_ne by (apply not_eq_sym, Hne).
    apply is_file_absent, temp_not_file. }
  rewrite (bind_returned _ _ _ _ _
             (rmdir_ok (temp_dir session) cleaned Hnf temp_is_dir cleaned_empty_at)).
  match goal with
  | |- context [bind (write_file _ _) _ ?s] => set (removed := s)
  end.
  assert (Hsf : is_dir (fs removed) (metadata_path name) = false).
  { apply is_dir_false. cbn. intros Hin. apply elem_of_difference in Hin as [Hin _].
    apply is_dir_false in sidecar_free. contradiction. }
  assert (Hsp : is_dir (fs removed) (dirname (metadata_path name)) = true).
  { apply is_dir_true. cbn.
    apply elem_of_difference. split; [apply is_dir_true, sidecar_parent|].
    intros Hin. apply elem_of_singleton in Hin. contradiction. }
  rewrite (bind_returned _ _ _ _ _ (write_file_ok _ _ removed Hsf Hsp)).
  rewrite named. reflexivity.
Qed.

End PassingAt.
End OneFinalizeAt.
End FinalizingAt.

Section FinalizeEdges.
Import PyStr UploadServer.
Context `{Platform}.


Lemma starts_with_extended (p a b : string) :
  starts_with p a = true -> starts_with p (a ++ b) = true.
Proof.
  revert a. induction p as [|c p IH]; intros a Ha; [reflexivity|].
  destruct a as [|c' a]; [discriminate|].
  rewrite append_cons. cbn [starts_with] in *.
  apply andb_true_iff in Ha as [Hc Ha]. rewrite Hc, (IH a Ha). reflexivity.
Qed.

Lemma slash_is_no_prefix (q b : string) :
  has_slash q = true -> has_slash b = false -> starts_with q b = false.
Proof.
  revert b. induction q as [|c q IH]; intros b Hq Hb; [discriminate|].
  destruct b as [|c' b]; [reflexivity|].
  cbn [starts_with has_slash] in *.
  apply orb_false_iff in Hb as [Hc' Hb].
  destruct (Ascii.eqb c c') eqn:E; [|reflexivity]. cbn [andb].
  apply Ascii.eqb_eq in E. subst c'. rewrite Hc' in Hq. cbn [orb] in Hq.
  apply IH; assumption.
Qed.

Lemma ends_with_slash_has_slash (q : string) :
  ends_with_slash q = true -> has_slash q = true.
Proof.
  induction q as [|c q IH]; [discriminate|].
  cbn [ends_with_slash has_slash]. destruct q as [|c' q].
  - intros ->. reflexivity.
  - intros Hq. rewrite (IH Hq). apply orb_true_r.
Qed.

(** Whether a prefix that ends in a separator applies is decided before
    the last component. *)
Lemma prefix_decided_by_directory (q x b : string) :
  ends_with_slash q = true -> has_slash b = false ->
  starts_with q (x ++ b) = starts_with q x.
Proof.
  revert x. induction q as [|c q IH]; intros x Hq Hb; [discriminate|].
  destruct x as [|c' x].
  - change ("" ++ b) with b.
    rewrite (slash_is_no_prefix _ b (ends_with_slash_has_slash _ Hq) Hb).
    reflexivity.
  - rewrite append_cons. cbn [starts_with].
    destruct q as [|c'' q]; [reflexivity|].
    rewrite (IH x Hq Hb). reflexivity.
Qed.

Lemma append_empty (a : string) : a ++ "" = a.
Proof.
  induction a as [|c a IH]; [reflexivity|]. rewrite append_cons, IH. reflexivity.
Qed.

Lemma longer_is_different (a b : string) : truthy b = true -> a ++ b <> a.
Proof.
  intros Hb Heq. apply (f_equal String.length) in Heq.
  rewrite string_length_append in Heq. destruct b; [discriminate|]. cbn in Heq. lia.
Qed.

Lemma only_chunks_below_spec (f : FileSystem) (session : Session) (n : Z) :
  only_chunks_below f session n = true ->
  forall p, is_Some (files f !! p) ->
            starts_with (temp_dir session ++ "/") p = true ->
            exists i, i ∈ chunk_range n /\ p = chunk_path session i.
Proof.
  unfold only_chunks_below. rewrite forallb_forall. intros Hall p Hp Hb.
  assert (Hin : In p (elements (dom (files f)))).
  { apply list_elem_of_In, elem_of_elements, elem_of_dom, Hp. }
  specialize (Hall p Hin). rewrite Hb in Hall. cbn [negb orb] in Hall.
  apply existsb_exists in Hall as (i & Hi & Heq).
  exists i. split; [apply list_elem_of_In, Hi|apply String.eqb_eq, Heq].
Qed.


End FinalizeEdges.

Section FinalizeSamples.
Import PyStr UploadServer.



End FinalizeSamples.

(** ** Recording triggers: latching *)
Section TriggerLatching.
Import SmartRecording.

Lemma latch_cases (base : RecordingTrigger) (c : cause) :
  (activated base = true /\ latch base c = ([], base)) \/
  (activated base = false /\
   latch base c = ([trigger_activated c], set_activated base true)).
Proof.
  unfold latch. destruct (activated base); [left|right]; split; reflexivity.
Qed.

(** One call on a trigger that is not a message-rate trigger: the class
    stays, the latch is never released, and an activation is signalled
    exactly when the latch closes. *)
Lemma check_one_shot (self : Trigger) (metrics : gmap string Q) (seen : Observation) :
  is_message_rate self = false ->
  let '(result, signals, after) := check self metrics seen in
  is_message_rate after = false /\
  ((activated (base_of after) = activated (base_of self) /\
    List.filter is_activation signals = []) \/
   (activated (base_of self) = false /\ activated (base_of after) = true /\
    result = true /\
    exists c, signals = [trigger_activated c])).
Proof.
  intros Hclass.
  destruct self as [base patterns|rate|base threshold|base duration|base size_limit
                   |base topic grace last|base start duration started];
    try discriminate Hclass; clear Hclass; cbn [check].
  - destruct (enabled base); cbn [negb]; [|split; [reflexivity|left; split; reflexivity]].
    destruct (List.find _ _) as [topic|];
      [|split; [reflexivity|left; split; reflexivity]].
    destruct (latch_cases base (TopicMatched topic)) as [[Ha ->]|[Ha ->]].
    + split; [reflexivity|left; split; reflexivity].
    + split; [reflexivity|right]. cbn [base_of set_activated activated].
      repeat split; try assumption. eexists. reflexivity.
  - destruct (enabled base); cbn [negb]; [|split; [reflexivity|left; split; reflexivity]].
    cbv zeta. destruct (Qle_bool _ _);
      [|split; [reflexivity|left; split; reflexivity]].
    match goal with |- context [latch base ?c] =>
      destruct (latch_cases base c) as [[Ha ->]|[Ha ->]] end.
    + split; [reflexivity|left; split; reflexivity].
    + split; [reflexivity|right]. cbn [base_of set_activated activated].
      repeat split; try assumption. eexists. reflexivity.
  - destruct (enabled base); cbn [negb]; [|split; [reflexivity|left; split; reflexivity]].
    cbv zeta. destruct (Qle_bool _ _);
      [|split; [reflexivity|left; split; reflexivity]].
    match goal with |- context [latch base ?c] =>
      destruct (latch_cases base c) as [[Ha ->]|[Ha ->]] end.
    + split; [reflexivity|left; split; reflexivity].
    + split; [reflexivity|right]. cbn [base_of set_activated activated].
      repeat split; try assumption. eexists. reflexivity.
  - destruct (enabled base); cbn [negb]; [|split; [reflexivity|left; split; reflexivity]].
    cbv zeta. destruct (Qle_bool _ _);
      [|split; [reflexivity|left; split; reflexivity]].
    match goal with |- context [latch base ?c] =>
      destruct (latch_cases base c) as [[Ha ->]|[Ha ->]] end.
    + split; [reflexivity|left; split; reflexivity].
    + split; [reflexivity|right]. cbn [base_of set_activated activated].
      repeat split; try assumption. eexists. reflexivity.
  - destruct (enabled base); cbn [negb]; [|split; [reflexivity|left; split; reflexivity]].
    destruct (bool_decide _); [split; [reflexivity|left; split; reflexivity]|].
    destruct last as [last|]; cbv zeta; cbn [fst snd].
    + destruct (Qle_bool _ _);
        [|split; [reflexivity|left; split; reflexivity]].
      match goal with |- context [latch base ?c] =>
        destruct (latch_cases base c) as [[Ha ->]|[Ha ->]] end.
      * split; [reflexivity|left; split; reflexivity].
      * split; [reflexivity|right]. cbn [base_of set_activated activated].
        repeat split; try assumption. eexists. reflexivity.
    + destruct (Qle_bool _ _);
        [|split; [reflexivity|left; split; reflexivity]].
      match goal with |- context [latch base ?c] =>
        destruct (latch_cases base c) as [[Ha ->]|[Ha ->]] end.
      * split; [reflexivity|left; split; reflexivity].
      * split; [reflexivity|right]. cbn [base_of set_activated activated].
        repeat split; try assumption. eexists. reflexivity.
  - destruct (enabled base); cbn [negb]; [|split; [reflexivity|left; split; reflexivity]].
    cbv zeta. destruct started as [started|].
    + destruct (number_truthy duration && _);
        split; try reflexivity; left; split; reflexivity.
    + destruct (Qle_bool _ _);
        [|split; [reflexivity|left; split; reflexivity]].
      match goal with |- context [latch base ?c] =>
        destruct (latch_cases base c) as [[Ha ->]|[Ha ->]] end.
      * split; [reflexivity|left; split; reflexivity].
      * split; [reflexivity|right]. cbn [base_of set_activated activated].
        repeat split; try assumption. eexists. reflexivity.
Qed.

Lemma activations_cons (result : bool) (signals : list emission)
    (run : list (bool * list emission)) :
  activations ((result, signals) :: run)
  = (length (List.filter is_activation signals) + activations run)%nat.
Proof.
  unfold activations. cbn [map snd concat].
  rewrite List.filter_app, List.length_app. reflexivity.
Qed.

Lemma one_shot_run (stream : list (gmap string Q * Observation)) :
  forall self : Trigger,
    is_message_rate self = false ->
    let '(run, after) := check_all self stream in
    is_message_rate after = false /\
    ((activations run = 0%nat /\
      activated (base_of after) = activated (base_of self)) \/
     (activations run = 1%nat /\ activated (base_of self) = false /\
      activated (base_of after) = true)).
Proof.
  induction stream as [|[metrics seen] rest IH]; intros self Hclass.
  - cbn [check_all]. split; [exact Hclass|left; split; reflexivity].
  - cbn [check_all].
    pose proof (check_one_shot self metrics seen Hclass) as Hone.
    destruct (check self metrics seen) as [[result signals] mid].
    destruct Hone as [Hmid Hone].
    specialize (IH mid Hmid). destruct (check_all mid rest) as [run after].
    destruct IH as [Hafter IH]. split; [exact Hafter|].
    rewrite activations_cons.
    destruct Hone as [[Hsame Hnone]|(Hoff & Hon & _ & c & ->)].
    + rewrite Hnone. cbn [length Nat.add]. rewrite <- Hsame. exact IH.
    + cbn [List.filter is_activation length].
      destruct IH as [[Hzero Hkeep]|(_ & Hcontra & _)]; [|congruence].
      right. rewrite Hzero. repeat split; [exact Hoff|congruence].
Qed.

(** X20. Every trigger class except the message-rate trigger fires once:
    over any sequence of [check] calls, whatever is observed, such a
    trigger emits [trigger_activated] at most once, and not at all when
    its latch is already closed; an emission closes the latch, and only
    [reset()] opens it again. A message-rate trigger, in contrast, fires
    again each time the rate comes back up. *)
Theorem triggers_fire_once_until_reset (self : Trigger)
    (stream : list (gmap string Q * Observation)) :
  is_message_rate self = false ->
  let '(run, after) := check_all self stream in
  (activations run <= 1)%nat /\
  (activated (base_of self) = true -> activations run = 0%nat) /\
  (activations run = 1%nat -> activated (base_of after) = true) /\
  activated (base_of (reset after)) = false /\
  (let rate := MessageRateTrigger (RecordingTriggers.new_trigger 5 "Message Rate") in
   let seen := {| topics := []; now := fun _ => 0%Q |} in
   activations
     (fst (check_all rate
             (map (fun r => (RecordingTriggers.rate_snapshot r, seen)) [6; 0; 6]%Q)))
   = 2%nat).
Proof.
  intros Hclass. pose proof (one_shot_run stream self Hclass) as Hrun.
  destruct (check_all self stream) as [run after].
  destruct Hrun as [Hafter Hrun].
  split; [|split; [|split; [|split]]].
  - destruct Hrun as [[-> _]|[-> _]]; lia.
  - intros Hon. destruct Hrun as [[Hzero _]|(_ & Hoff & _)]; [exact Hzero|congruence].
  - intros Hone. destruct Hrun as [[Hzero _]|(_ & _ & Hon)]; [lia|exact Hon].
  - destruct after; reflexivity.
  - vm_compute. reflexivity.
Qed.

Lemma triggers_fire_once_until_reset_witness :
  let limit := SizeTrigger (new_base "Size Limit") 100 in
  let seen := {| topics := []; now := fun _ => 0%Q |} in
  (activations
     (fst (check_all limit
             (map (fun v => ({[ "size_mb" := v ]}, seen)) [120; 80; 150]%Q)))
   <= 1)%nat.
Proof.
  cbv zeta.
  pose proof (triggers_fire_once_until_reset
                (SizeTrigger (new_base "Size Limit") 100)
                (map (fun v => ({[ "size_mb" := v ]},
                                {| topics := []; now := fun _ => 0%Q |}))
                     [120; 80; 150]%Q) eq_refl) as Hrun.
  destruct (check_all _ _) as [run after]. exact (proj1 Hrun).
Defined.

End TriggerLatching.

(** ** Recording triggers: limits, dropouts, schedules *)
Section TriggerClasses.
Import SmartRecording.

(** One call on an enabled limit trigger. *)
Lemma limit_check (self : Trigger) (key : string) (limit : Q)
    (metrics : gmap string Q) (seen : Observation) :
  limit_of self = Some (key, limit) ->
  enabled (base_of self) = true ->
  let reached := Qle_bool limit (RecordingTriggers.metrics_get metrics key 0) in
  let '(result, signals, after) := check self metrics seen in
  result = reached /\
  length signals = (if reached && negb (activated (base_of self))
                    then 1%nat else 0%nat) /\
  Forall (fun e => is_activation e = true) signals /\
  limit_of after = Some (key, limit) /\
  enabled (base_of after) = true /\
  activated (base_of after) = activated (base_of self) || reached.
Proof.
  intros Hlimit Hen.
  destruct self as [base patterns|rate|base threshold|base duration|base size_limit
                   |base topic grace last|base start duration started];
    try discriminate Hlimit; cbn [limit_of] in Hlimit;
    injection Hlimit as <- <-; cbn [base_of] in *; cbn [check];
    rewrite Hen; cbn [negb]; cbv zeta;
    (destruct (Qle_bool _ _);
     [match goal with |- context [latch base ?c] =>
        destruct (latch_cases base c) as [[Ha ->]|[Ha ->]] end;
      cbn [base_of set_activated activated enabled limit_of]; rewrite Ha;
      repeat split; try reflexivity; try assumption; repeat constructor
     |cbn [base_of limit_of]; rewrite orb_false_r;
      repeat split; try reflexivity; try assumption; constructor]).
Qed.

(** X21. The disk-space, duration and size triggers latch: over any
    sequence of [check] calls on an enabled trigger, each call returns
    whether the watched metric (0 when missing) is at or above the limit,
    [trigger_activated] is emitted only by the first call that returns
    true since the latch was open, and [trigger_deactivated] is never
    emitted: unlike the message-rate trigger, a value that falls below the
    limit again goes unnoticed. *)
Theorem limit_triggers_latch (self : Trigger) (key : string) (limit : Q)
    (stream : list (gmap string Q * Observation)) :
  limit_of self = Some (key, limit) ->
  enabled (base_of self) = true ->
  outline (fst (check_all self stream))
  = expected_limit_run limit (activated (base_of self))
      (map (fun call => RecordingTriggers.metrics_get (fst call) key 0) stream) /\
  Forall (fun call => Forall (fun e => is_activation e = true) (snd call))
         (fst (check_all self stream)).
Proof.
  revert self. induction stream as [|[metrics seen] rest IH]; intros self Hlimit Hen.
  - split; [reflexivity|constructor].
  - cbn [check_all map fst].
    pose proof (limit_check self key limit metrics seen Hlimit Hen) as Hone.
    cbv zeta in Hone.
    destruct (check self metrics seen) as [[result signals] after].
    destruct Hone as (Hr & Hn & Hall & Hlimit' & Hen' & Hact).
    specialize (IH after Hlimit' Hen').
    destruct (check_all after rest) as [run final]. cbn [fst] in *.
    destruct IH as [IHrun IHall]. split.
    + unfold outline in *. cbn [map fst snd expected_limit_run].
      rewrite Hr, Hn, IHrun, Hact. reflexivity.
    + constructor; [exact Hall|exact IHall].
Qed.

Lemma limit_triggers_latch_witness :
  let seen := {| topics := []; now := fun _ => 0%Q |} in
  outline (fst (check_all (DurationTrigger (new_base "Duration Limit") 60)
                  (map (fun v => ({[ "duration" := v ]}, seen)) [30; 61; 90; 10]%Q)))
  = [(false, 0%nat); (true, 1%nat); (true, 0%nat); (false, 0%nat)].
Proof.
  cbv zeta.
  refine (eq_trans
            (proj1 (limit_triggers_latch
                      (DurationTrigger (new_base "Duration Limit") 60) "duration" 60
                      _ eq_refl eq_refl)) _).
  reflexivity.
Defined.

(** One call on an enabled dropout trigger that saw its topic at [last]. *)
Lemma dropout_check (base : RecordingTrigger) (topic : string) (grace last : Q)
    (metrics : gmap string Q) (seen : Observation) :
  enabled base = true ->
  topic ∉ topics seen ->
  exists signals base',
    check (TopicDisappearsTrigger base topic grace (Some last)) metrics seen
    = (Qle_bool grace (now seen 0 - last), signals,
       TopicDisappearsTrigger base' topic grace (Some last)) /\
    enabled base' = true.
Proof.
  intros Hen Habsent. cbn [check]. rewrite Hen. cbn [negb].
  rewrite bool_decide_eq_false_2 by exact Habsent. cbv zeta.
  destruct (Qle_bool grace (now seen 0 - last)).
  - destruct (latch_cases base (TopicMissing topic (now seen 0 - last)))
      as [[Ha ->]|[Ha ->]]; eexists _, _; split; try reflexivity; exact Hen.
  - eexists _, _. split; [reflexivity|exact Hen].
Qed.

Lemma dropout_run (topic : string) (grace last : Q)
    (stream : list (gmap string Q * Observation)) :
  forall base : RecordingTrigger,
    enabled base = true ->
    Forall (fun call => topic ∉ topics (snd call)) stream ->
    map fst (fst (check_all (TopicDisappearsTrigger base topic grace (Some last))
                            stream))
    = map (fun call => Qle_bool grace (now (snd call) 0 - last)) stream.
Proof.
  induction stream as [|[metrics seen] rest IH]; intros base Hen Habsent.
  - reflexivity.
  - apply Forall_cons in Habsent as [Hfirst Hrest]. cbn [snd] in Hfirst.
    destruct (dropout_check base topic grace last metrics seen Hen Hfirst)
      as (signals & base' & Hcheck & Hen').
    cbn [check_all]. rewrite Hcheck.
    specialize (IH base' Hen' Hrest).
    destruct (check_all _ rest) as [run final]. cbn [fst map snd] in *.
    rewrite IH. reflexivity.
Qed.

(** X22. The dropout trigger measures from the last sighting: a check
    that finds the topic listed returns false, signals nothing and
    records the clock reading; from then on, while the topic stays
    missing, each check returns whether its own clock reading is at least
    the grace period after that recorded reading, however many checks lie
    in between. *)
Theorem topic_dropout_counts_from_last_sighting (base : RecordingTrigger)
    (topic : string) (grace : Q) (last : option Q) (metrics : gmap string Q)
    (sighting : Observation) (stream : list (gmap string Q * Observation)) :
  enabled base = true ->
  topic ∈ topics sighting ->
  Forall (fun call => topic ∉ topics (snd call)) stream ->
  let '(result, signals, sighted) :=
    check (TopicDisappearsTrigger base topic grace last) metrics sighting in
  result = false /\ signals = [] /\
  map fst (fst (check_all sighted stream))
  = map (fun call => Qle_bool grace (now (snd call) 0 - now sighting 0)) stream.
Proof.
  intros Hen Hseen Habsent. cbn [check]. rewrite Hen. cbn [negb].
  rewrite bool_decide_eq_true_2 by exact Hseen.
  split; [reflexivity|]. split; [reflexivity|].
  apply dropout_run; assumption.
Qed.

Lemma topic_dropout_counts_from_last_sighting_witness :
  let at_time (t : Q) (names : list string) : gmap string Q * Observation :=
    (∅, {| topics := names; now := fun _ => t |}) in
  map fst
    (fst (check_all
            (snd (check (TopicDisappearsTrigger (new_base "Topic Dropout")
                           "/scan" 5 None)
                        ∅ (snd (at_time 100%Q ["/scan"; "/tf"]))))
            [at_time 102%Q ["/tf"]; at_time 104%Q []; at_time 106%Q ["/tf"]]))
  = [false; false; true].
Proof.
  cbv zeta.
  pose proof (topic_dropout_counts_from_last_sighting (new_base "Topic Dropout")
                "/scan" 5 None ∅
                {| topics := ["/scan"; "/tf"]; now := fun _ => 100%Q |}
                [(∅, {| topics := ["/tf"]; now := fun _ => 102%Q |});
                 (∅, {| topics := []; now := fun _ => 104%Q |});
                 (∅, {| topics := ["/tf"]; now := fun _ => 106%Q |})]) as Hrun.
  cbn [snd] in *.
  destruct (check _ ∅ {| topics := ["/scan"; "/tf"]; now := fun _ => 100%Q |})
    as [[result signals] sighted].
  cbn [snd].
  refine (eq_trans (proj2 (proj2 (Hrun eq_refl _ _))) _).
  - apply (bool_decide_unpack _). vm_compute. exact I.
  - repeat constructor; cbn [snd topics];
      (apply (bool_decide_unpack _); vm_compute; exact I).
  - reflexivity.
Defined.

(** One call on a scheduled trigger that has started. *)
Lemma scheduled_started_check (base : RecordingTrigger) (start : Q)
    (duration : option Q) (started : Q) (metrics : gmap string Q)
    (seen : Observation) :
  exists result signals,
    check (ScheduledTrigger base start duration (Some started)) metrics seen
    = (result, signals, ScheduledTrigger base start duration (Some started)) /\
    List.filter is_activation signals = [] /\
    (enabled base = true ->
     number_truthy duration = true ->
     Qle_bool (default 0%Q duration) (now seen 0 - started) = true ->
     result = false /\
     signals = [trigger_deactivated
                  (ScheduledDurationCompleted (default 0%Q duration))]).
Proof.
  cbn [check]. destruct (enabled base); cbn [negb].
  - cbv zeta. destruct (number_truthy duration); cbn [andb].
    + destruct (Qle_bool _ _); eexists _, _; split; try reflexivity;
        split; try reflexivity; intros _ _ Hx; try discriminate Hx.
      split; reflexivity.
    + eexists _, _. split; [reflexivity|]. split; [reflexivity|].
      intros _ Hx. discriminate Hx.
  - eexists _, _. split; [reflexivity|]. split; [reflexivity|].
    intros Hx. discriminate Hx.
Qed.

(** X23. A scheduled trigger starts once: when it has started, no later
    [check] emits [trigger_activated] again, not even after [reset()],
    which leaves [recording_started] in place; and once the scheduled
    duration has elapsed, every [check] returns false and emits
    [trigger_deactivated] anew. *)
Theorem scheduled_trigger_starts_once (base : RecordingTrigger)
    (start duration started : Q) (stream : list (gmap string Q * Observation)) :
  enabled base = true ->
  ~ (duration == 0)%Q ->
  Forall (fun call => (duration <= now (snd call) 0 - started)%Q) stream ->
  let fired := ScheduledTrigger base start (Some duration) (Some started) in
  fst (check_all fired stream)
  = map (fun _ => (false, [trigger_deactivated (ScheduledDurationCompleted duration)]))
        stream /\
  (forall later, activations (fst (check_all fired later)) = 0%nat) /\
  (forall later, activations (fst (check_all (reset fired) later)) = 0%nat).
Proof.
  intros Hen Hnz Hover. cbv zeta. split; [|split].
  - induction stream as [|[metrics seen] rest IH]; [reflexivity|].
    apply Forall_cons in Hover as [Hfirst Hrest]. cbn [snd] in Hfirst.
    destruct (scheduled_started_check base start (Some duration) started metrics seen)
      as (result & signals & Hcheck & _ & Hdone).
    destruct Hdone as [-> ->].
    + exact Hen.
    + cbn [number_truthy]. destruct (Qeq_bool duration 0) eqn:E; [|reflexivity].
      apply Qeq_bool_iff in E. contradiction.
    + apply Qle_bool_iff. exact Hfirst.
    + cbn [check_all]. rewrite Hcheck.
      specialize (IH Hrest). destruct (check_all _ rest) as [run final].
      cbn [fst map] in *. rewrite IH. reflexivity.
  - intros later. induction later as [|[metrics seen] rest IH]; [reflexivity|].
    destruct (scheduled_started_check base start (Some duration) started metrics seen)
      as (result & signals & Hcheck & Hnone & _).
    cbn [check_all]. rewrite Hcheck.
    destruct (check_all _ rest) as [run final]. cbn [fst] in *.
    rewrite activations_cons, Hnone, IH. reflexivity.
  - intros later. cbn [reset].
    induction later as [|[metrics seen] rest IH]; [reflexivity|].
    destruct (scheduled_started_check (set_activated base false) start
                (Some duration) started metrics seen)
      as (result & signals & Hcheck & Hnone & _).
    cbn [check_all]. rewrite Hcheck.
    destruct (check_all _ rest) as [run final]. cbn [fst] in *.
    rewrite activations_cons, Hnone, IH. reflexivity.
Qed.

Lemma scheduled_trigger_starts_once_witness :
  let at_time (t : Q) : gmap string Q * Observation :=
    (∅, {| topics := []; now := fun _ => t |}) in
  fst (check_all (ScheduledTrigger (new_base "Scheduled") 1000%Q
                                   (Some 60%Q) (Some 1000%Q))
                 [at_time 1060%Q; at_time 1061%Q])
  = [(false, [trigger_deactivated (ScheduledDurationCompleted 60%Q)]);
     (false, [trigger_deactivated (ScheduledDurationCompleted 60%Q)])].
Proof.
  cbv zeta.
  refine (proj1 (scheduled_trigger_starts_once (new_base "Scheduled") 1000 60 1000
                   [(∅, {| topics := []; now := fun _ => 1060%Q |});
                    (∅, {| topics := []; now := fun _ => 1061%Q |})] eq_refl _ _)).
  - discriminate.
  - repeat constructor; cbn [snd now]; discriminate.
Defined.

End TriggerClasses.

(** ** The smart recording manager *)
Section ManagerFacts.
Import SmartRecording.

Lemma same_setup_refl (self : SmartRecordingManager) : same_setup self self.
Proof. repeat split. Qed.

Lemma same_setup_trans (a b c : SmartRecordingManager) :
  same_setup a b -> same_setup b c -> same_setup a c.
Proof.
  intros (H1 & H2 & H3 & H4 & H5 & H6) (K1 & K2 & K3 & K4 & K5 & K6).
  repeat split; congruence.
Qed.

Lemma run_slot_keeps (s : slot) (reason : cause) (self : SmartRecordingManager) :
  same_setup (fst (run_slot s reason self)) self /\
  objects (fst (run_slot s reason self)) = objects self.
Proof.
  unfold run_slot.
  destruct s; destruct (recording_active self); cbn [negb fst];
    repeat split; reflexivity.
Qed.

Lemma deliver_keeps (slots : list slot) (reason : cause) :
  forall self : SmartRecordingManager,
    same_setup (fst (deliver slots reason self)) self /\
    objects (fst (deliver slots reason self)) = objects self.
Proof.
  induction slots as [|s rest IH]; intros self.
  - split; [apply same_setup_refl|reflexivity].
  - cbn [deliver].
    pose proof (run_slot_keeps s reason self) as [Hs Ho].
    destruct (run_slot s reason self) as [self1 first]. cbn [fst] in *.
    specialize (IH self1). destruct (deliver rest reason self1) as [self2 others].
    cbn [fst] in *. destruct IH as [Hs' Ho'].
    split; [exact (same_setup_trans _ _ _ Hs' Hs)|congruence].
Qed.

Lemma emit_all_keeps (slots : list slot) (signals : list emission) :
  forall self : SmartRecordingManager,
    same_setup (fst (emit_all slots signals self)) self /\
    objects (fst (emit_all slots signals self)) = objects self.
Proof.
  induction signals as [|e rest IH]; intros self.
  - split; [apply same_setup_refl|reflexivity].
  - cbn [emit_all].
    assert (He : same_setup (fst (emit slots e self)) self /\
                 objects (fst (emit slots e self)) = objects self).
    { destruct e; cbn [emit]; [apply deliver_keeps|].
      split; [apply same_setup_refl|reflexivity]. }
    destruct (emit slots e self) as [self1 first]. cbn [fst] in *.
    destruct He as [Hs Ho].
    specialize (IH self1). destruct (emit_all slots rest self1) as [self2 others].
    cbn [fst] in *. destruct IH as [Hs' Ho'].
    split; [exact (same_setup_trans _ _ _ Hs' Hs)|congruence].
Qed.

(** The loop over triggers changes only [recording_active] and the
    objects behind the listed references, and never their connections. *)
Lemma check_loop_keeps (triggers : list nat) (seen : Tick) :
  forall (k : nat) (self : SmartRecordingManager),
    same_setup (fst (check_loop triggers k seen self)) self /\
    (forall r, r ∉ triggers ->
               objects (fst (check_loop triggers k seen self)) !! r
               = objects self !! r).
Proof.
  induction triggers as [|trigger rest IH]; intros k self.
  - split; [apply same_setup_refl|reflexivity].
  - cbn [check_loop].
    destruct (objects self !! trigger) as [object|] eqn:Hobj.
    + destruct (check (state object) (tick_metrics seen) (observe seen k))
        as [[result signals] after].
      set (self1 := with_objects self _).
      pose proof (emit_all_keeps (connections object) signals self1) as [Hs Ho].
      destruct (emit_all (connections object) signals self1) as [self2 requests].
      cbn [fst] in *.
      assert (Hs1 : same_setup self2 self).
      { apply (same_setup_trans _ self1); [exact Hs|repeat split]. }
      assert (Ho1 : forall r, r ∉ trigger :: rest ->
                              objects self2 !! r = objects self !! r).
      { intros r Hr. rewrite Ho. unfold self1. cbn [with_objects objects].
        apply lookup_insert_ne. intros ->. apply Hr. left. }
      destruct result; [split; assumption|].
      specialize (IH (S k) self2).
      destruct (check_loop rest (S k) seen self2) as [self3 later].
      cbn [fst] in *. destruct IH as [Hs' Ho'].
      split; [exact (same_setup_trans _ _ _ Hs' Hs1)|].
      intros r Hr. rewrite Ho'; [apply Ho1, Hr|].
      intros Hin. apply Hr. right. exact Hin.
    + specialize (IH k self). destruct IH as [Hs Ho].
      split; [exact Hs|]. intros r Hr. apply Ho.
      intros Hin. apply Hr. right. exact Hin.
Qed.

Lemma length_newest (data : list Snapshot) : (length (newest data) <= maxlen)%nat.
Proof. unfold newest. rewrite length_drop. lia. Qed.

Lemma newest_extended (data later : list Snapshot) :
  newest (newest data ++ later) = newest (data ++ later).
Proof.
  unfold newest.
  destruct (decide (length data <= maxlen)%nat) as [Hle|Hgt].
  - replace (length data - maxlen)%nat with 0%nat by lia. reflexivity.
  - rewrite !length_app, length_drop.
    replace (length data - (length data - maxlen) + length later - maxlen)%nat
      with (length later) by lia.
    rewrite <- (drop_app_le data later (length data - maxlen)) by lia.
    rewrite drop_drop. f_equal. lia.
Qed.

(** One monitored call with pre-buffering on. *)
Lemma check_triggers_buffers (self : SmartRecordingManager) (seen : Tick) :
  monitoring_enabled self = true ->
  pre_buffer_enabled self = true ->
  monitoring_enabled (fst (check_triggers self seen)) = true /\
  pre_buffer_enabled (fst (check_triggers self seen)) = true /\
  pre_buffer_data (fst (check_triggers self seen))
  = newest (pre_buffer_data self ++ [snapshot_of seen]).
Proof.
  intros Hmon Hpre. unfold check_triggers. rewrite Hmon, Hpre. cbn [negb].
  cbv zeta. cbn [recording_active with_pre_buffer start_triggers stop_triggers].
  destruct (recording_active self); cbn [negb];
    match goal with
    | |- context [check_loop ?l 0 seen ?m] =>
        destruct (check_loop_keeps l seen 0 m) as [(_ & _ & H3 & _ & H5 & H6) _]
    end;
    rewrite H3, H5, H6; repeat split; assumption.
Qed.

Lemma execute_bounds_buffer (self : SmartRecordingManager) (c : command) :
  (length (pre_buffer_data self) <= maxlen)%nat ->
  (length (pre_buffer_data (fst (execute self c))) <= maxlen)%nat.
Proof.
  intros Hlen. destruct c; cbn [execute fst]; try exact Hlen.
  - cbn. lia.
  - unfold check_triggers. destruct (monitoring_enabled self); cbn [negb fst];
      [|exact Hlen].
    cbv zeta.
    match goal with
    | |- context [if negb (recording_active ?m) then _ else _] => set (self1 := m)
    end.
    assert (H1 : (length (pre_buffer_data self1) <= maxlen)%nat).
    { unfold self1. destruct (pre_buffer_enabled self); [|exact Hlen].
      cbn [with_pre_buffer pre_buffer_data]. apply length_newest. }
    destruct (recording_active self1); cbn [negb];
      match goal with
      | |- context [check_loop ?l 0 seen ?m] =>
          destruct (check_loop_keeps l seen 0 m) as [(_ & _ & _ & _ & H5 & _) _]
      end; rewrite H5; exact H1.
Qed.

(** X24. The pre-buffer is a sliding window of at most 100 snapshots:
    whatever operations are called on a manager, its pre-buffer never
    holds more than 100 entries; and while monitoring and pre-buffering
    are on, every call of [check_triggers] appends one snapshot (clock
    reading, topic listing, metrics), so that after any number of calls
    [get_pre_buffer_data()] returns the newest 100 of the earlier entries
    followed by those snapshots, oldest first. *)
Theorem pre_buffer_is_sliding_window (objects : gmap nat TriggerObject)
    (commands : list command) (self : SmartRecordingManager) (ticks : list Tick) :
  monitoring_enabled self = true ->
  pre_buffer_enabled self = true ->
  (length (pre_buffer_data self) <= 100)%nat ->
  (length (get_pre_buffer_data (fst (execute_all (new_manager objects) commands)))
   <= 100)%nat /\
  get_pre_buffer_data (fst (execute_all self (map CheckTriggers ticks)))
  = newest (pre_buffer_data self ++ map snapshot_of ticks).
Proof.
  intros Hmon Hpre Hlen. split.
  - assert (Hall : forall m : SmartRecordingManager,
              (length (pre_buffer_data m) <= maxlen)%nat ->
              (length (pre_buffer_data (fst (execute_all m commands))) <= maxlen)%nat).
    { induction commands as [|c rest IH]; intros m Hm; [exact Hm|].
      cbn [execute_all].
      pose proof (execute_bounds_buffer m c Hm) as Hone.
      destruct (execute m c) as [m1 first]. cbn [fst] in Hone.
      specialize (IH m1 Hone). destruct (execute_all m1 rest) as [m2 others].
      exact IH. }
    apply (Hall (new_manager objects)). cbn. lia.
  - unfold get_pre_buffer_data. revert self Hmon Hpre Hlen.
    induction ticks as [|seen rest IH]; intros self Hmon Hpre Hlen.
    + cbn [map execute_all fst]. rewrite app_nil_r. unfold newest.
      replace (length (pre_buffer_data self) - maxlen)%nat with 0%nat
        by (unfold maxlen; lia).
      reflexivity.
    + cbn [map execute_all execute].
      destruct (check_triggers_buffers self seen Hmon Hpre) as (Hmon' & Hpre' & Hdata).
      destruct (check_triggers self seen) as [self1 first]. cbn [fst] in *.
      specialize (IH self1 Hmon' Hpre').
      destruct (execute_all self1 (map CheckTriggers rest)) as [self2 others].
      cbn [fst] in *. rewrite IH.
      * rewrite Hdata, newest_extended, <- app_assoc. reflexivity.
      * rewrite Hdata. apply length_newest.
Qed.

Lemma pre_buffer_is_sliding_window_witness :
  let buffering := enable_pre_buffering sample_manager 10 in
  get_pre_buffer_data
    (fst (execute_all buffering
            (map CheckTriggers [sample_tick 1 0; sample_tick 2 1])))
  = newest (pre_buffer_data buffering
            ++ map snapshot_of [sample_tick 1 0; sample_tick 2 1]).
Proof.
  cbv zeta.
  refine (proj2 (pre_buffer_is_sliding_window ∅ []
                   (enable_pre_buffering sample_manager 10)
                   [sample_tick 1 0; sample_tick 2 1] eq_refl eq_refl _)).
  cbn. lia.
Defined.

(** The signals of one call: none, one activation (and then the call
    returns true), or one deactivation. *)
Lemma check_signals (self : Trigger) (metrics : gmap string Q) (seen : Observation) :
  let '(result, signals, after) := check self metrics seen in
  signals = [] \/
  (exists c, signals = [trigger_activated c] /\ result = true) \/
  (exists c, signals = [trigger_deactivated c]).
Proof.
  destruct self as [base patterns|rate|base threshold|base duration|base size_limit
                   |base topic grace last|base start duration started];
    cbn [check].
  - destruct (enabled base); cbn [negb]; [|left; reflexivity].
    destruct (List.find _ _) as [topic|]; [|left; reflexivity].
    destruct (latch_cases base (TopicMatched topic)) as [[Ha ->]|[Ha ->]];
      [left; reflexivity|right; left; eexists; split; reflexivity].
  - unfold RecordingTriggers.check.
    destruct (RecordingTriggers.enabled rate); cbn [negb]; [|left; reflexivity].
    cbv zeta. destruct (Qle_bool _ _); destruct (RecordingTriggers.activated rate);
      cbn [negb map of_signal];
      [left; reflexivity|right; left; eexists; split; reflexivity
      |right; right; eexists; reflexivity|left; reflexivity].
  - destruct (enabled base); cbn [negb]; [|left; reflexivity].
    cbv zeta. destruct (Qle_bool _ _); [|left; reflexivity].
    match goal with |- context [latch base ?c] =>
      destruct (latch_cases base c) as [[Ha ->]|[Ha ->]] end;
      [left; reflexivity|right; left; eexists; split; reflexivity].
  - destruct (enabled base); cbn [negb]; [|left; reflexivity].
    cbv zeta. destruct (Qle_bool _ _); [|left; reflexivity].
    match goal with |- context [latch base ?c] =>
      destruct (latch_cases base c) as [[Ha ->]|[Ha ->]] end;
      [left; reflexivity|right; left; eexists; split; reflexivity].
  - destruct (enabled base); cbn [negb]; [|left; reflexivity].
    cbv zeta. destruct (Qle_bool _ _); [|left; reflexivity].
    match goal with |- context [latch base ?c] =>
      destruct (latch_cases base c) as [[Ha ->]|[Ha ->]] end;
      [left; reflexivity|right; left; eexists; split; reflexivity].
  - destruct (enabled base); cbn [negb]; [|left; reflexivity].
    destruct (bool_decide _); [left; reflexivity|].
    destruct last as [last|]; cbv zeta;
      (destruct (Qle_bool _ _); [|left; reflexivity]);
      match goal with |- context [latch base ?c] =>
        destruct (latch_cases base c) as [[Ha ->]|[Ha ->]] end;
      [left; reflexivity|right; left; eexists; split; reflexivity
      |left; reflexivity|right; left; eexists; split; reflexivity].
  - destruct (enabled base); cbn [negb]; [|left; reflexivity].
    cbv zeta. destruct started as [started|].
    + destruct (number_truthy duration && _);
        [right; right; eexists; reflexivity|left; reflexivity].
    + destruct (Qle_bool _ _); [|left; reflexivity].
      match goal with |- context [latch base ?c] =>
        destruct (latch_cases base c) as [[Ha ->]|[Ha ->]] end;
        [left; reflexivity|right; left; eexists; split; reflexivity].
Qed.

(** Slots of one kind, delivered to while the manager is in the other
    state, do nothing. *)
Lemma deliver_idle (s : slot) (slots : list slot) (reason : cause) :
  forall self : SmartRecordingManager,
    forallb (slot_eqb s) slots = true ->
    recording_active self = negb (acts_when s) ->
    deliver slots reason self = (self, []).
Proof.
  induction slots as [|s' rest IH]; intros self Hall Hrec; [reflexivity|].
  cbn [forallb] in Hall. apply andb_true_iff in Hall as [Hs Hrest].
  cbn [deliver].
  assert (Hone : run_slot s' reason self = (self, [])).
  { destruct s, s'; try discriminate Hs; cbn [acts_when negb] in Hrec;
      unfold run_slot; rewrite Hrec; reflexivity. }
  rewrite Hone, (IH self Hrest Hrec). reflexivity.
Qed.

(** Slots of one kind, delivered to while the manager is in the state
    they act on: the first one flips the state and emits the request. *)
Lemma deliver_wired (s : slot) (slots : list slot) (reason : cause)
    (self : SmartRecordingManager) :
  slots <> [] ->
  forallb (slot_eqb s) slots = true ->
  recording_active self = acts_when s ->
  deliver slots reason self
  = (with_recording self (negb (acts_when s)), [request_of s reason]).
Proof.
  intros Hne Hall Hrec. destruct slots as [|s' rest]; [contradiction|].
  cbn [forallb] in Hall. apply andb_true_iff in Hall as [Hs Hrest].
  cbn [deliver].
  assert (Hone : run_slot s' reason self
                 = (with_recording self (negb (acts_when s)), [request_of s reason])).
  { destruct s, s'; try discriminate Hs; cbn [acts_when negb] in *;
      unfold run_slot; rewrite Hrec; reflexivity. }
  rewrite Hone.
  rewrite (deliver_idle s rest reason _ Hrest); reflexivity.
Qed.

Lemma wired_to_kept (s : slot) (objects : gmap nat TriggerObject) (r : nat)
    (object : TriggerObject) (after : Trigger) (triggers : list nat) :
  objects !! r = Some object ->
  wired_to s objects triggers = true ->
  wired_to s (<[r := {| state := after; connections := connections object |}]> objects)
           triggers = true.
Proof.
  intros Hobj. unfold wired_to. rewrite !forallb_forall. intros Hall x Hx.
  specialize (Hall x Hx). destruct (decide (x = r)) as [->|Hne].
  - rewrite lookup_insert_eq. rewrite Hobj in Hall. exact Hall.
  - rewrite lookup_insert_ne by congruence. exact Hall.
Qed.

Lemma check_loop_wired (s : slot) (seen : Tick) (triggers : list nat) :
  forall (k : nat) (self : SmartRecordingManager),
    recording_active self = acts_when s ->
    wired_to s (objects self) triggers = true ->
    let '(self', requests) := check_loop triggers k seen self in
    (requests = [] /\ recording_active self' = acts_when s) \/
    (exists c, requests = [request_of s c] /\
               recording_active self' = negb (acts_when s)).
Proof.
  induction triggers as [|trigger rest IH]; intros k self Hrec Hwired.
  - left. split; [reflexivity|exact Hrec].
  - cbn [check_loop]. cbn [wired_to forallb] in Hwired.
    apply andb_true_iff in Hwired as [Hthis Hrest].
    destruct (objects self !! trigger) as [object|] eqn:Hobj; [|discriminate].
    pose proof (check_signals (state object) (tick_metrics seen) (observe seen k))
      as Hsig.
    destruct (check (state object) (tick_metrics seen) (observe seen k))
      as [[result signals] after].
    set (self1 := with_objects self _).
    assert (Hrec1 : recording_active self1 = acts_when s) by exact Hrec.
    assert (Hwired1 : wired_to s (objects self1) rest = true).
    { unfold self1. cbn [with_objects objects].
      apply wired_to_kept; assumption. }
    destruct (connections object) as [|s0 slots] eqn:Hconn; [discriminate|].
    destruct Hsig as [->|[(c & -> & ->)|(c & ->)]].
    + cbn [emit_all]. destruct result; [left; split; [reflexivity|exact Hrec1]|].
      specialize (IH (S k) self1 Hrec1 Hwired1).
      destruct (check_loop rest (S k) seen self1) as [self2 later].
      cbn [app]. exact IH.
    + cbn [emit_all emit].
      rewrite (deliver_wired s (s0 :: slots) c self1) by (assumption || discriminate).
      cbn [app]. right. exists c. split; reflexivity.
    + cbn [emit_all emit]. destruct result; [left; split; [reflexivity|exact Hrec1]|].
      specialize (IH (S k) self1 Hrec1 Hwired1).
      destruct (check_loop rest (S k) seen self1) as [self2 later].
      cbn [app]. exact IH.
Qed.

(** X25. A tick acts on one side only and asks for at most one
    transition. While no recording is active, [check_triggers] walks the
    start triggers: it emits nothing or exactly one [auto_start_requested]
    (and then [recording_active] is set), never a stop request, and leaves
    every trigger object outside the start list as it was. While a
    recording is active the same holds for the stop triggers and
    [auto_stop_requested]. This is for triggers that were added on one
    side only, so that their signal is connected to that side's slot. The
    two lists themselves are never changed by a tick. *)
Theorem tick_requests_at_most_one_transition (self : SmartRecordingManager)
    (seen : Tick) (s : slot) :
  monitoring_enabled self = true ->
  recording_active self = acts_when s ->
  wired_to s (objects self) (triggers_for self s) = true ->
  let '(self', requests) := check_triggers self seen in
  ((requests = [] /\ recording_active self' = acts_when s) \/
   (exists c, requests = [request_of s c] /\
              recording_active self' = negb (acts_when s))) /\
  (forall r, r ∉ triggers_for self s -> objects self' !! r = objects self !! r) /\
  start_triggers self' = start_triggers self /\
  stop_triggers self' = stop_triggers self.
Proof.
  intros Hmon Hrec Hwired. unfold check_triggers. rewrite Hmon. cbn [negb]. cbv zeta.
  set (self1 := if pre_buffer_enabled self then _ else self).
  assert (H1 : recording_active self1 = recording_active self /\
               objects self1 = objects self /\
               start_triggers self1 = start_triggers self /\
               stop_triggers self1 = stop_triggers self).
  { unfold self1. destruct (pre_buffer_enabled self); repeat split; reflexivity. }
  destruct H1 as (Hr1 & Ho1 & Hs1 & Hp1).
  rewrite Hr1, Hrec.
  assert (Hlist : (if negb (acts_when s)
                   then check_loop (start_triggers self1) 0 seen self1
                   else check_loop (stop_triggers self1) 0 seen self1)
                  = check_loop (triggers_for self s) 0 seen self1).
  { destruct s; cbn [acts_when negb triggers_for]; congruence. }
  rewrite Hlist.
  pose proof (check_loop_wired s seen (triggers_for self s) 0 self1
                ltac:(congruence) ltac:(rewrite Ho1; exact Hwired)) as Hloop.
  pose proof (check_loop_keeps (triggers_for self s) seen 0 self1)
    as [(Ha & Hb & _) Hframe].
  destruct (check_loop (triggers_for self s) 0 seen self1) as [self' requests].
  cbn [fst] in *.
  split; [exact Hloop|]. split; [|split; congruence].
  intros r Hr. rewrite (Hframe r Hr), Ho1. reflexivity.
Qed.

Lemma tick_requests_at_most_one_transition_witness :
  let s := on_start_trigger_activated in
  let '(self', requests) := check_triggers sample_manager (sample_tick 6 0) in
  ((requests = [] /\ recording_active self' = acts_when s) \/
   (exists c, requests = [request_of s c] /\
              recording_active self' = negb (acts_when s))) /\
  (forall r, r ∉ triggers_for sample_manager s ->
             objects self' !! r = objects sample_manager !! r) /\
  start_triggers self' = start_triggers sample_manager /\
  stop_triggers self' = stop_triggers sample_manager.
Proof.
  cbv zeta.
  apply (tick_requests_at_most_one_transition sample_manager (sample_tick 6 0)
           on_start_trigger_activated).
  - reflexivity.
  - reflexivity.
  - vm_compute. reflexivity.
Defined.

Lemma emit_all_silent (slots : list slot) (signals : list emission)
    (self : SmartRecordingManager) :
  List.filter is_activation signals = [] ->
  emit_all slots signals self = (self, []).
Proof.
  revert self. induction signals as [|e rest IH]; intros self Hnone; [reflexivity|].
  cbn [List.filter] in Hnone. destruct e as [c|c]; cbn [is_activation] in Hnone;
    [discriminate|].
  cbn [emit_all emit]. rewrite (IH self Hnone). reflexivity.
Qed.

Lemma latched_kept (objects : gmap nat TriggerObject) (r : nat)
    (object : TriggerObject) (triggers : list nat) :
  is_message_rate (state object) = false ->
  activated (base_of (state object)) = true ->
  latched objects triggers = true ->
  latched (<[r := object]> objects) triggers = true.
Proof.
  intros Hclass Hon. unfold latched. rewrite !forallb_forall. intros Hall x Hx.
  specialize (Hall x Hx). destruct (decide (x = r)) as [->|Hne].
  - rewrite lookup_insert_eq, Hclass, Hon. reflexivity.
  - rewrite lookup_insert_ne by congruence. exact Hall.
Qed.

(** A loop over latched triggers asks for nothing. *)
Lemma check_loop_latched (seen : Tick) (others : list nat) (triggers : list nat) :
  forall (k : nat) (self : SmartRecordingManager),
    latched (objects self) triggers = true ->
    latched (objects self) others = true ->
    let '(self', requests) := check_loop triggers k seen self in
    requests = [] /\
    recording_active self' = recording_active self /\
    latched (objects self') others = true.
Proof.
  induction triggers as [|trigger rest IH]; intros k self Hlatched Hothers.
  - repeat split. exact Hothers.
  - cbn [check_loop]. cbn [latched forallb] in Hlatched.
    apply andb_true_iff in Hlatched as [Hthis Hrest].
    destruct (objects self !! trigger) as [object|] eqn:Hobj; [|discriminate].
    apply andb_true_iff in Hthis as [Hclass Hon]. apply negb_true_iff in Hclass.
    pose proof (check_one_shot (state object) (tick_metrics seen) (observe seen k)
                  Hclass) as Hone.
    destruct (check (state object) (tick_metrics seen) (observe seen k))
      as [[result signals] after].
    destruct Hone as [Hclass' [[Hsame Hnone]|(Hoff & _)]]; [|congruence].
    rewrite (emit_all_silent _ _ _ Hnone).
    set (self1 := with_objects self _).
    assert (Hkept : forall l, latched (objects self) l = true ->
                              latched (objects self1) l = true).
    { intros l Hl. unfold self1. cbn [with_objects objects].
      apply latched_kept; cbn [state]; [exact Hclass'|congruence|exact Hl]. }
    destruct result.
    + repeat split. apply Hkept, Hothers.
    + specialize (IH (S k) self1 (Hkept _ Hrest) (Hkept _ Hothers)).
      destruct (check_loop rest (S k) seen self1) as [self2 later].
      cbn [app]. exact IH.
Qed.

Lemma tick_latched (self : SmartRecordingManager) (seen : Tick) :
  recording_active self = true ->
  latched (objects self) (stop_triggers self) = true ->
  let '(self', requests) := check_triggers self seen in
  requests = [] /\
  recording_active self' = true /\
  monitoring_enabled self' = monitoring_enabled self /\
  stop_triggers self' = stop_triggers self /\
  latched (objects self') (stop_triggers self') = true.
Proof.
  intros Hrec Hlatched. unfold check_triggers.
  destruct (monitoring_enabled self) eqn:Hmon; cbn [negb];
    [|repeat split; assumption].
  cbv zeta. set (self1 := if pre_buffer_enabled self then _ else self).
  assert (H1 : recording_active self1 = true /\
               objects self1 = objects self /\
               stop_triggers self1 = stop_triggers self /\
               monitoring_enabled self1 = true).
  { unfold self1. destruct (pre_buffer_enabled self); repeat split; assumption. }
  destruct H1 as (Hr1 & Ho1 & Hp1 & Hm1). rewrite Hr1. cbn [negb].
  pose proof (check_loop_latched seen (stop_triggers self1) (stop_triggers self1) 0
                self1 ltac:(rewrite Ho1, Hp1; exact Hlatched)
                ltac:(rewrite Ho1, Hp1; exact Hlatched)) as Hloop.
  pose proof (check_loop_keeps (stop_triggers self1) seen 0 self1)
    as [(_ & Hb & _ & _ & _ & Hf) _].
  destruct (check_loop (stop_triggers self1) 0 seen self1) as [self' requests].
  cbn [fst] in *. destruct Hloop as (Hq & Hr & Hl).
  repeat split; try congruence.
Qed.

Lemma reset_opens (self : Trigger) : activated (base_of (reset self)) = false.
Proof. destruct self; reflexivity. Qed.

Lemma reset_loop (triggers : list nat) :
  forall (objects : gmap nat TriggerObject) (r : nat),
    is_Some (objects !! r) ->
    r ∈ triggers \/ open_in objects r ->
    open_in
      (fold_left
         (fun objects trigger =>
            match objects !! trigger with
            | Some object =>
                <[trigger := {| state := reset (state object);
                                connections := connections object |}]> objects
            | None => objects
            end)
         triggers objects) r.
Proof.
  induction triggers as [|x rest IH]; intros objects r Hthere Hcase.
  - destruct Hcase as [Hin|Hopen]; [|exact Hopen].
    apply elem_of_nil in Hin. contradiction.
  - cbn [fold_left]. apply IH.
    + destruct (objects !! x) as [object|] eqn:Hx; [|exact Hthere].
      destruct (decide (r = x)) as [->|Hne].
      * rewrite lookup_insert_eq. eexists. reflexivity.
      * rewrite lookup_insert_ne by congruence. exact Hthere.
    + destruct (decide (r = x)) as [->|Hne].
      * right. destruct Hthere as [object Hobj]. rewrite Hobj.
        exists {| state := reset (state object); connections := connections object |}.
        split; [apply lookup_insert_eq|apply reset_opens].
      * destruct Hcase as [Hin|(object & Hobj & Hopen)].
        -- left. apply elem_of_cons in Hin as [Heq|Hin]; [contradiction|exact Hin].
        -- right. exists object. split; [|exact Hopen].
           destruct (objects !! x); [|exact Hobj].
           rewrite lookup_insert_ne by congruence. exact Hobj.
Qed.

(** X26. Stop triggers that have fired stay silent in later recordings:
    while a recording is active and every stop trigger is a latching
    trigger whose latch is closed (as it is after the trigger stopped an
    earlier recording), no number of ticks makes the manager request a
    stop, whatever the metrics; [recording_active] stays set. Only
    [reset_all_triggers()] opens the latches of the listed triggers
    again. *)
Theorem fired_stop_triggers_stay_silent (self : SmartRecordingManager)
    (ticks : list Tick) :
  recording_active self = true ->
  latched (objects self) (stop_triggers self) = true ->
  let '(self', requests) := execute_all self (map CheckTriggers ticks) in
  requests = [] /\
  recording_active self' = true /\
  latched (objects self') (stop_triggers self') = true /\
  Forall (open_in (objects (reset_all_triggers self'))) (stop_triggers self').
Proof.
  revert self. induction ticks as [|seen rest IH]; intros self Hrec Hlatched.
  - cbn [map execute_all]. split; [reflexivity|]. split; [exact Hrec|].
    split; [exact Hlatched|].
    apply Forall_forall. intros r Hr. unfold reset_all_triggers.
    cbn [with_objects objects]. apply reset_loop.
    + unfold latched in Hlatched. rewrite forallb_forall in Hlatched.
      specialize (Hlatched r ltac:(apply list_elem_of_In, Hr)).
      destruct (objects self !! r); [eexists; reflexivity|discriminate].
    + left. apply elem_of_app. right. exact Hr.
  - cbn [map execute_all execute].
    pose proof (tick_latched self seen Hrec Hlatched) as Hone.
    destruct (check_triggers self seen) as [self1 first].
    destruct Hone as (-> & Hrec1 & _ & _ & Hlatched1).
    specialize (IH self1 Hrec1 Hlatched1).
    destruct (execute_all self1 (map CheckTriggers rest)) as [self2 others].
    cbn [app]. exact IH.
Qed.

Lemma fired_stop_triggers_stay_silent_witness :
  let '(self', requests) :=
    execute_all sample_second_recording
      (map CheckTriggers [sample_tick 6 70; sample_tick 6 3600]) in
  requests = [] /\
  recording_active self' = true /\
  latched (objects self') (stop_triggers self') = true /\
  Forall (open_in (objects (reset_all_triggers self'))) (stop_triggers self').
Proof.
  apply (fired_stop_triggers_stay_silent sample_second_recording
           [sample_tick 6 70; sample_tick 6 3600]).
  - vm_compute. reflexivity.
  - vm_compute. reflexivity.
Defined.

End ManagerFacts.

(** ** Network discovery: the names parsed from node descriptions *)
Section ParsedNames.
Import PyStr NetworkDiscovery.

Lemma ascii_compare_le_trans (a b c : ascii) :
  Ascii.compare a b <> Gt -> Ascii.compare b c <> Gt -> Ascii.compare a c <> Gt.
Proof.
  unfold Ascii.compare. rewrite !N.compare_gt_iff. lia.
Qed.

Lemma compare_le_trans (a b c : string) :
  String.compare a b <> Gt -> String.compare b c <> Gt -> String.compare a c <> Gt.
Proof.
  revert b c. induction a as [|x a IH]; intros [|y b] [|z c]; cbn;
    try congruence.
  destruct (Ascii.compare x y) eqn:Exy; [|clear IH|congruence].
  - apply Ascii.compare_eq_iff in Exy. subst y.
    destruct (Ascii.compare x z) eqn:Exz; [apply IH|congruence|congruence].
  - intros _. destruct (Ascii.compare y z) eqn:Eyz; [| |congruence]; intros _.
    + apply Ascii.compare_eq_iff in Eyz. subst z. rewrite Exy. congruence.
    + assert (Ascii.compare x z <> Gt) as Hxz
        by (apply (ascii_compare_le_trans x y z); congruence).
      destruct (Ascii.compare x z) eqn:Exz; [|congruence|congruence].
      apply Ascii.compare_eq_iff in Exz. subst z.
      rewrite Ascii.compare_antisym, Exy in Eyz. discriminate.
Qed.

Lemma str_le_compare (a b : string) : str_le a b <-> String.compare a b <> Gt.
Proof.
  unfold str_le, String.leb. destruct (String.compare a b); split; congruence.
Qed.

Lemma str_le_trans : Transitive str_le.
Proof.
  intros a b c. rewrite !str_le_compare. apply compare_le_trans.
Qed.

Lemma str_le_total : Total str_le.
Proof. intros a b. apply String.leb_total. Qed.

Lemma str_le_strict (a b : string) : str_le a b -> a <> b -> str_lt a b.
Proof.
  unfold str_le, str_lt, String.leb, String.ltb.
  destruct (String.compare a b) eqn:E; try congruence.
  apply String.compare_eq_iff in E. congruence.
Qed.

(** Sorting a list without duplicates gives a strictly ascending list
    with the same elements. *)
Lemma sorted_strict (l : list string) :
  NoDup l -> StronglySorted str_lt (sorted l).
Proof.
  intros Hnd.
  assert (Hs : StronglySorted str_le (sorted l))
    by apply (@StronglySorted_merge_sort _ str_le _ str_le_trans str_le_total).
  assert (Hnd' : NoDup (sorted l)).
  { unfold sorted. rewrite merge_sort_Permutation. exact Hnd. }
  induction Hs as [|a rest Hs IH Hall]; [constructor|].
  apply NoDup_cons in Hnd' as [Ha Hrest].
  constructor; [apply IH, Hrest|].
  apply Forall_forall. intros b Hb. apply str_le_strict.
  - rewrite Forall_forall in Hall. apply Hall, Hb.
  - intros ->. contradiction.
Qed.

Lemma elem_of_sorted (l : list string) (x : string) : x ∈ sorted l <-> x ∈ l.
Proof. unfold sorted. rewrite merge_sort_Permutation. reflexivity. Qed.

Lemma lstrip_indent (s : string) :
  exists indent, s = indent ++ lstrip s /\ all_space indent = true /\
    ((String.length (lstrip s) < String.length s)%nat -> truthy indent = true).
Proof.
  induction s as [|c rest IH].
  - exists "". cbn. repeat split; lia.
  - cbn [lstrip]. destruct (is_space c) eqn:Ec.
    + destruct IH as (indent & Heq & Hall & _).
      exists (String c indent). repeat split.
      * change (String c rest = String c (indent ++ lstrip rest)).
        f_equal. exact Heq.
      * cbn. rewrite Ec. exact Hall.
    + exists "". cbn. repeat split; lia.
Qed.

Lemma span_text_spec (s : string) :
  s = fst (span_text s) ++ snd (span_text s) /\
  spaceless (fst (span_text s)) = true.
Proof.
  induction s as [|c rest [IH1 IH2]]; [split; reflexivity|].
  cbn [span_text]. destruct (is_space c) eqn:Ec; [split; reflexivity|].
  destruct (span_text rest) as [word after]. cbn [fst snd] in *.
  rewrite append_cons, <- IH1. cbn [spaceless]. rewrite Ec, IH2.
  split; reflexivity.
Qed.

Lemma before_last_colon_spec (r kept : string) :
  before_last_colon r = Some kept ->
  (exists tail, r = kept ++ ":" ++ tail) /\
  (spaceless r = true -> spaceless kept = true).
Proof.
  revert kept. induction r as [|c rest IH]; intros kept; [discriminate|].
  cbn [before_last_colon]. destruct (before_last_colon rest) as [k|].
  - intros [= <-]. destruct (IH k eq_refl) as [[tail Htail] Hsp]. split.
    + exists tail. rewrite append_cons, <- Htail. reflexivity.
    + cbn [spaceless]. intros H. apply andb_true_iff in H as [-> H].
      rewrite (Hsp H). reflexivity.
  - destruct (Ascii.eqb c ":") eqn:Ec; [|discriminate].
    intros [= <-]. apply Ascii.eqb_eq in Ec. subst c. split.
    + exists rest. reflexivity.
    + reflexivity.
Qed.

(** What a line that matches the pattern of an entry looks like. *)
Lemma match_entry_shows (line name : string) :
  match_entry line = Some name ->
  entry_name name = true /\ shows line name.
Proof.
  unfold match_entry. intros H.
  destruct (lstrip_indent line) as (indent & Heq & Hall & Hne).
  destruct (String.length (lstrip line) <? String.length line)%nat eqn:Hlen;
    [|discriminate].
  apply Nat.ltb_lt in Hlen. specialize (Hne Hlen).
  destruct (lstrip line) as [|c word]; [discriminate|].
  destruct (Ascii.eqb c "/") eqn:Ec.
  2:{ exfalso. destruct c as [[] [] [] [] [] [] [] []]; try discriminate. }
  apply Ascii.eqb_eq in Ec. subst c.
  destruct (span_text_spec word) as [Hword Hsp].
  destruct (before_last_colon (fst (span_text word))) as [kept|] eqn:Hk;
    [|discriminate].
  apply before_last_colon_spec in Hk as [[tail Htail] Hkept].
  specialize (Hkept Hsp).
  destruct kept as [|k kept]; [discriminate|].
  injection H as <-. split.
  - cbn [entry_name]. exact Hkept.
  - exists indent, (tail ++ snd (span_text word)). repeat split; try assumption.
    rewrite Heq at 1. f_equal. rewrite !append_cons. f_equal.
    rewrite Hword at 1. rewrite Htail. rewrite !append_assoc.
    rewrite !append_cons. reflexivity.
Qed.

End ParsedNames.

Section ScannedNames.
Import PyStr NetworkDiscovery.
Variable machine : Machine.
Variables opens closes : string -> bool.

Lemma in_section_later (line : string) (lines : list string) (k : nat) :
  in_section opens closes lines k ->
  in_section opens closes (line :: lines) (S k).
Proof.
  intros (j & header & Hj & Hh & Ho & Hb).
  exists (S j), header. repeat split; [lia|exact Hh|exact Ho|].
  intros [|m] between Hm; [lia|]. cbn. apply Hb. lia.
Qed.

Lemma scan_lines_found (lines : list string) (in_sec : bool)
    (found : gset string) (name : string) :
  name ∈ scan_lines opens closes lines in_sec found ->
  name ∈ found \/
  exists k line,
    lines !! k = Some line /\ match_entry line = Some name /\
    ((in_sec = true /\
      forall m between, (m < k)%nat -> lines !! m = Some between ->
        opens between = true \/ closes between = false)
     \/ in_section opens closes lines k).
Proof.
  revert in_sec found.
  induction lines as [|line rest IH]; intros in_sec found; cbn [scan_lines];
    [auto|].
  destruct (opens line) eqn:Ho; [|destruct (closes line) eqn:Hc].
  - intros H. apply IH in H as [H|(k & l & Hk & Hm & Hs)]; [auto|].
    right. exists (S k), l. repeat split; [exact Hk|exact Hm|]. right.
    destruct Hs as [[_ Hq]|Hs]; [|apply in_section_later, Hs].
    exists 0%nat, line. repeat split; [lia|exact Ho|].
    intros [|m] between Hlt; [lia|]. cbn. apply Hq. lia.
  - intros H. apply IH in H as [H|(k & l & Hk & Hm & Hs)]; [auto|].
    right. exists (S k), l. repeat split; [exact Hk|exact Hm|]. right.
    destruct Hs as [[Hf _]|Hs]; [discriminate|apply in_section_later, Hs].
  - assert (Hrest : forall found',
      name ∈ scan_lines opens closes rest in_sec found' ->
      name ∈ found' \/
      exists k l, (line :: rest) !! k = Some l /\ match_entry l = Some name /\
        ((in_sec = true /\
          forall m between, (m < k)%nat -> (line :: rest) !! m = Some between ->
            opens between = true \/ closes between = false)
         \/ in_section opens closes (line :: rest) k)).
    { intros found' H. apply IH in H as [H|(k & l & Hk & Hm & Hs)]; [auto|].
      right. exists (S k), l. repeat split; [exact Hk|exact Hm|].
      destruct Hs as [[Ht Hq]|Hs]; [left|right; apply in_section_later, Hs].
      split; [exact Ht|]. intros [|m] between Hlt; cbn.
      - intros [= <-]. auto.
      - apply Hq. lia. }
    destruct (in_sec && truthy (strip line)) eqn:Hin; [|apply Hrest].
    destruct (match_entry line) as [entry|] eqn:Hentry; [|apply Hrest].
    intros H. apply Hrest in H as [H|H]; [|auto].
    apply elem_of_union in H as [H|H]; [|auto].
    apply elem_of_singleton in H. subst entry.
    apply andb_true_iff in Hin as [-> _].
    right. exists 0%nat, line. repeat split; [exact Hentry|]. left.
    split; [reflexivity|]. intros m between Hlt. lia.
Qed.

Lemma scan_nodes_calls (self : NetworkRobotDiscovery) (nodes : list string)
    (found : gset string) (calls : nat) :
  snd (scan_nodes machine opens closes self nodes found calls)
  = (calls + length nodes)%nat.
Proof.
  revert found calls. induction nodes as [|node rest IH]; intros found calls;
    cbn [scan_nodes length]; [cbn; lia|].
  destruct (run machine calls (environ self) _); rewrite IH; lia.
Qed.

Lemma scan_nodes_found (self : NetworkRobotDiscovery) (nodes : list string)
    (found : gset string) (calls : nat) (name : string) :
  name ∈ fst (scan_nodes machine opens closes self nodes found calls) ->
  name ∈ found \/
  (entry_name name = true /\
   printed machine opens closes self nodes calls name).
Proof.
  unfold printed.
  revert found calls. induction nodes as [|node rest IH]; intros found calls;
    cbn [scan_nodes]; [auto|].
  assert (Hrest : forall found',
    name ∈ fst (scan_nodes machine opens closes self rest found' (S calls)) ->
    name ∈ found' \/
    (entry_name name = true /\
     exists i n result k line,
       (node :: rest) !! i = Some n /\
       run machine (calls + i) (environ self) ["ros2"; "node"; "info"; n]
         = Some result /\
       split newline (stdout result) !! k = Some line /\
       shows line name /\
       in_section opens closes (split newline (stdout result)) k)).
  { intros found' H.
    apply IH in H as [H|(He & i & n & result & k & line & Hi & Hrun & Hrest)];
      [auto|].
    right. split; [exact He|].
    exists (S i), n, result, k, line. split; [exact Hi|]. split; [|exact Hrest].
    rewrite <- Hrun. f_equal. lia. }
  destruct (run machine calls (environ self) ["ros2"; "node"; "info"; node])
    as [result|] eqn:Hrun; [|apply Hrest].
  intros H. apply Hrest in H as [H|H]; [|auto].
  apply scan_lines_found in H as [H|(k & line & Hk & Hm & Hs)]; [auto|].
  right. apply match_entry_shows in Hm as [He Hshow]. split; [exact He|].
  exists 0%nat, node, result, k, line.
  repeat split; [rewrite Nat.add_0_r; exact Hrun|exact Hk|exact Hshow|].
  destruct Hs as [[Hf _]|Hs]; [discriminate|exact Hs].
Qed.

End ScannedNames.

Section ReportedNames.
Import PyStr NetworkDiscovery.
Variable machine : Machine.

(** X27. The topics and the services that the discovery reports for a
    group of nodes are strictly ascending lists, so they hold no name
    twice, and every name in them is a slash followed by at least one
    character without white space that one of the node descriptions shows
    as an indented entry below a header of the section: [Subscribers:] or
    [Publishers:] for a topic, [Service Servers:] for a service. *)
Theorem reported_names_are_printed_entries
    (self : NetworkRobotDiscovery) (listed : list string) (calls : nat) :
  let found_topics := fst (_get_topics_for_nodes machine self listed calls) in
  let found_services := fst (_get_services_for_nodes machine self listed calls) in
  StronglySorted str_lt found_topics /\
  StronglySorted str_lt found_services /\
  (forall name, name ∈ found_topics ->
     entry_name name = true /\
     printed machine topics_open topics_close self listed calls name) /\
  (forall name, name ∈ found_services ->
     entry_name name = true /\
     printed machine services_open services_close self listed calls name).
Proof.
  unfold _get_topics_for_nodes, _get_services_for_nodes.
  pose proof (scan_nodes_found machine topics_open topics_close self listed ∅ calls)
    as Ht.
  pose proof (scan_nodes_found machine services_open services_close self listed ∅
                calls) as Hs.
  destruct (scan_nodes machine topics_open topics_close self listed ∅ calls)
    as [found_t calls_t].
  destruct (scan_nodes machine services_open services_close self listed ∅ calls)
    as [found_s calls_s].
  cbn [fst] in *. repeat split.
  - apply sorted_strict, NoDup_elements.
  - apply sorted_strict, NoDup_elements.
  - apply elem_of_sorted, elem_of_elements, Ht in H as [H|[H _]];
      [set_solver|exact H].
  - apply elem_of_sorted, elem_of_elements, Ht in H as [H|[_ H]];
      [set_solver|exact H].
  - apply elem_of_sorted, elem_of_elements, Hs in H as [H|[H _]];
      [set_solver|exact H].
  - apply elem_of_sorted, elem_of_elements, Hs in H as [H|[_ H]];
      [set_solver|exact H].
Qed.

End ReportedNames.

(** ** Network discovery: nodes grouped by host, robots recorded *)
Section GroupedNodes.
Import PyStr NetworkDiscovery.
Variable machine : Machine.

Lemma append_node_hosts (h node : string) (groups : list (string * list string)) :
  map fst (append_node h node groups)
  = if bool_decide (h ∈ map fst groups) then map fst groups
    else (map fst groups ++ [h])%list.
Proof.
  induction groups as [|[h' listed] rest IH]; [reflexivity|].
  cbn [append_node map fst]. destruct (String.eqb h' h) eqn:E.
  - apply String.eqb_eq in E. subst h'.
    rewrite bool_decide_eq_true_2 by apply list_elem_of_here. reflexivity.
  - apply String.eqb_neq in E. cbn [map fst]. rewrite IH.
    destruct (bool_decide (h ∈ map fst rest)) eqn:Hin.
    + apply bool_decide_eq_true_1 in Hin.
      rewrite bool_decide_eq_true_2 by (apply list_elem_of_further, Hin).
      reflexivity.
    + apply bool_decide_eq_false_1 in Hin.
      rewrite bool_decide_eq_false_2; [reflexivity|].
      intros H. apply elem_of_cons in H as [H|H]; [congruence|contradiction].
Qed.

Lemma append_node_NoDup (h node : string) (groups : list (string * list string)) :
  NoDup (map fst groups) -> NoDup (map fst (append_node h node groups)).
Proof.
  intros Hnd. rewrite append_node_hosts. case_bool_decide as Hin; [exact Hnd|].
  apply NoDup_app. repeat split; [exact Hnd| |apply NoDup_singleton].
  intros x Hx Hx'. apply list_elem_of_singleton in Hx'. subst x. contradiction.
Qed.

Lemma append_node_nodes (h node : string) (groups : list (string * list string)) :
  concat (map snd (append_node h node groups))
  ≡ₚ (concat (map snd groups) ++ [node])%list.
Proof.
  induction groups as [|[h' listed] rest IH]; [reflexivity|].
  cbn [append_node]. destruct (String.eqb h' h).
  - cbn [map snd concat]. rewrite <- !app_assoc.
    apply Permutation_app_head, Permutation_app_comm.
  - cbn [map snd concat]. rewrite IH, app_assoc. reflexivity.
Qed.

Lemma append_node_filled (h node : string) (groups : list (string * list string)) :
  Forall (fun group => snd group <> []) groups ->
  Forall (fun group => snd group <> []) (append_node h node groups).
Proof.
  induction 1 as [|[h' listed] rest Hne Hrest IH]; cbn [append_node].
  - repeat constructor. discriminate.
  - destruct (String.eqb h' h); constructor; try assumption.
    cbn. destruct listed; discriminate.
Qed.

Lemma append_node_member (h node : string) (groups : list (string * list string))
    (h' : string) (listed : list string) (n : string) :
  (h', listed) ∈ append_node h node groups -> n ∈ listed ->
  (exists before, (h', before) ∈ groups /\ n ∈ before) \/ (h' = h /\ n = node).
Proof.
  induction groups as [|[g l] rest IH]; cbn [append_node]; intros Hin Hn.
  - apply list_elem_of_singleton in Hin. injection Hin as -> ->.
    apply list_elem_of_singleton in Hn. auto.
  - destruct (String.eqb g h) eqn:E.
    + apply String.eqb_eq in E. subst g.
      apply elem_of_cons in Hin as [Hin|Hin].
      * injection Hin as -> ->. apply elem_of_app in Hn as [Hn|Hn].
        -- left. exists l. split; [apply list_elem_of_here|exact Hn].
        -- apply list_elem_of_singleton in Hn. auto.
      * left. exists listed. split; [apply list_elem_of_further, Hin|exact Hn].
    + apply elem_of_cons in Hin as [Hin|Hin].
      * injection Hin as -> ->. left. exists l.
        split; [apply list_elem_of_here|exact Hn].
      * destruct (IH Hin Hn) as [(before & Hb & Hnb)|H]; [|auto].
        left. exists before. split; [apply list_elem_of_further, Hb|exact Hnb].
Qed.

Lemma _get_local_hostname_calls (self : NetworkRobotDiscovery) (calls : nat) :
  snd (_get_local_hostname machine self calls) = S calls.
Proof.
  unfold _get_local_hostname. destruct (run machine calls _ _); reflexivity.
Qed.

(** Naming the host of a node takes one command or two. *)
Lemma _get_node_hostname_calls (self : NetworkRobotDiscovery) (node : string)
    (calls : nat) :
  (calls < snd (_get_node_hostname machine self node calls))%nat.
Proof.
  unfold _get_node_hostname.
  destruct (run machine calls _ _) as [result|];
    [destruct (search_hostname _); [cbn; lia|]; destruct (_ =? _)%Z|];
    rewrite _get_local_hostname_calls; lia.
Qed.

Lemma group_nodes_spec (self : NetworkRobotDiscovery) (nodes : list string)
    (groups : list (string * list string)) (calls : nat) :
  let grouped := fst (group_nodes machine self nodes groups calls) in
  (NoDup (map fst groups) -> NoDup (map fst grouped)) /\
  (Forall (fun group => snd group <> []) groups ->
   Forall (fun group => snd group <> []) grouped) /\
  concat (map snd grouped) ≡ₚ (concat (map snd groups) ++ nodes)%list /\
  (forall h listed node, (h, listed) ∈ grouped -> node ∈ listed ->
     (exists before, (h, before) ∈ groups /\ node ∈ before) \/
     (node ∈ nodes /\
      exists k, (calls <= k)%nat /\
                fst (_get_node_hostname machine self node k) = h)).
Proof.
  revert groups calls.
  induction nodes as [|node rest IH]; intros groups calls; cbn [group_nodes].
  - cbn [fst]. repeat split; try tauto.
    + rewrite app_nil_r. reflexivity.
    + intros h listed node Hin Hn. left. exists listed. auto.
  - pose proof (_get_node_hostname_calls self node calls) as Hcalls.
    destruct (_get_node_hostname machine self node calls) as [h0 calls0] eqn:E.
    cbn [snd] in Hcalls.
    destruct (IH (append_node h0 node groups) calls0) as (Hnd & Hne & Hp & Hm).
    repeat split.
    + intros H. apply Hnd, append_node_NoDup, H.
    + intros H. apply Hne, append_node_filled, H.
    + rewrite Hp, append_node_nodes, <- app_assoc. reflexivity.
    + intros h listed n Hin Hn.
      destruct (Hm h listed n Hin Hn) as [(before & Hb & Hnb)|[Hr (k & Hk & Hh)]].
      * destruct (append_node_member _ _ _ _ _ _ Hb Hnb)
          as [(before' & Hb' & Hnb')|[-> ->]].
        -- left. exists before'. auto.
        -- right. split; [apply list_elem_of_here|].
           exists calls. split; [lia|]. rewrite E. reflexivity.
      * right. split; [apply list_elem_of_further, Hr|].
        exists k. split; [lia|exact Hh].
Qed.

Lemma group_nodes_calls (self : NetworkRobotDiscovery) (nodes : list string)
    (groups : list (string * list string)) (calls : nat) :
  (calls <= snd (group_nodes machine self nodes groups calls))%nat.
Proof.
  revert groups calls.
  induction nodes as [|node rest IH]; intros groups calls; cbn [group_nodes];
    [cbn; lia|].
  pose proof (_get_node_hostname_calls self node calls) as Hcalls.
  destruct (_get_node_hostname machine self node calls) as [h0 calls0].
  cbn [snd] in Hcalls.
  specialize (IH (append_node h0 node groups) calls0). lia.
Qed.

Lemma nodes_by_hostname_facts (self : NetworkRobotDiscovery) (calls : nat) :
  NoDup (map fst (fst (_get_nodes_by_hostname machine self calls))) /\
  (calls < snd (_get_nodes_by_hostname machine self calls))%nat.
Proof.
  unfold _get_nodes_by_hostname.
  destruct (run machine calls (environ self) ["ros2"; "node"; "list"])
    as [result|]; [|cbn; split; [constructor|lia]].
  destruct (returncode result =? 0)%Z; cbn [negb];
    [|cbn; split; [constructor|lia]].
  split.
  - apply group_nodes_spec. constructor.
  - pose proof (group_nodes_calls self (listed_nodes (stdout result)) [] (S calls)).
    lia.
Qed.

Lemma no_groups_on_failure (self : NetworkRobotDiscovery) (calls : nat) :
  match run machine calls (environ self) ["ros2"; "node"; "list"] with
  | Some result => returncode result <> 0
  | None => True
  end ->
  fst (_get_nodes_by_hostname machine self calls) = [].
Proof.
  unfold _get_nodes_by_hostname.
  destruct (run machine calls (environ self) ["ros2"; "node"; "list"])
    as [result|]; [|reflexivity].
  intros Hfail. apply Z.eqb_neq in Hfail. rewrite Hfail. reflexivity.
Qed.

(** X28. The nodes that [ros2 node list] prints are grouped by host: no
    host has two groups, no group is empty, the groups together hold each
    printed node as often as it is printed, and a node stands in the group of
    the host that the heuristic names for it. When the command raises or
    reports a failure there is no group at all. *)
Theorem nodes_are_grouped_by_host (self : NetworkRobotDiscovery) (calls : nat) :
  let groups := fst (_get_nodes_by_hostname machine self calls) in
  NoDup (map fst groups) /\
  Forall (fun group => snd group <> []) groups /\
  (forall h listed node, (h, listed) ∈ groups -> node ∈ listed ->
     exists k, (calls < k)%nat /\
               fst (_get_node_hostname machine self node k) = h) /\
  match run machine calls (environ self) ["ros2"; "node"; "list"] with
  | Some result =>
      if (returncode result =? 0)%Z
      then concat (map snd groups) ≡ₚ listed_nodes (stdout result)
      else groups = []
  | None => groups = []
  end.
Proof.
  unfold _get_nodes_by_hostname.
  destruct (run machine calls (environ self) ["ros2"; "node"; "list"])
    as [result|].
  2:{ cbn. repeat split; try constructor. intros h listed node Hin.
      apply elem_of_nil in Hin. contradiction. }
  destruct (returncode result =? 0)%Z; cbn [negb].
  2:{ cbn. repeat split; try constructor. intros h listed node Hin.
      apply elem_of_nil in Hin. contradiction. }
  destruct (group_nodes_spec self (listed_nodes (stdout result)) [] (S calls))
    as (Hnd & Hne & Hp & Hm).
  repeat split.
  - apply Hnd. constructor.
  - apply Hne. constructor.
  - intros h listed node Hin Hn.
    destruct (Hm h listed node Hin Hn) as [(before & Hb & _)|[_ (k & Hk & Hh)]].
    + apply elem_of_nil in Hb. contradiction.
    + exists k. split; [lia|exact Hh].
  - exact Hp.
Qed.

End GroupedNodes.

Section RecordedRobots.
Import PyStr NetworkDiscovery.
Variable machine : Machine.

Lemma scan_nodes_environ (opens closes : string -> bool)
    (self other : NetworkRobotDiscovery) (nodes : list string)
    (found : gset string) (calls : nat) :
  environ other = environ self ->
  scan_nodes machine opens closes other nodes found calls
  = scan_nodes machine opens closes self nodes found calls.
Proof.
  intros Henv. revert found calls.
  induction nodes as [|node rest IH]; intros found calls; cbn [scan_nodes];
    [reflexivity|].
  rewrite Henv. destruct (run machine calls (environ self) _); apply IH.
Qed.

Lemma _get_topics_for_nodes_environ (self other : NetworkRobotDiscovery)
    (nodes : list string) (calls : nat) :
  environ other = environ self ->
  _get_topics_for_nodes machine other nodes calls
  = _get_topics_for_nodes machine self nodes calls.
Proof.
  intros Henv. unfold _get_topics_for_nodes.
  rewrite (scan_nodes_environ _ _ self other) by exact Henv. reflexivity.
Qed.

Lemma _get_services_for_nodes_environ (self other : NetworkRobotDiscovery)
    (nodes : list string) (calls : nat) :
  environ other = environ self ->
  _get_services_for_nodes machine other nodes calls
  = _get_services_for_nodes machine self nodes calls.
Proof.
  intros Henv. unfold _get_services_for_nodes.
  rewrite (scan_nodes_environ _ _ self other) by exact Henv. reflexivity.
Qed.

(** Each of the two scans runs one command for each node. *)
Lemma _get_topics_for_nodes_calls (self : NetworkRobotDiscovery)
    (nodes : list string) (calls : nat) :
  snd (_get_topics_for_nodes machine self nodes calls) = (calls + length nodes)%nat.
Proof.
  unfold _get_topics_for_nodes.
  rewrite <- (scan_nodes_calls machine topics_open topics_close self nodes ∅ calls).
  destruct (scan_nodes _ _ _ _ _ _ _). reflexivity.
Qed.

Lemma _get_services_for_nodes_calls (self : NetworkRobotDiscovery)
    (nodes : list string) (calls : nat) :
  snd (_get_services_for_nodes machine self nodes calls)
  = (calls + length nodes)%nat.
Proof.
  unfold _get_services_for_nodes.
  rewrite <- (scan_nodes_calls machine services_open services_close self nodes ∅
                calls).
  destruct (scan_nodes _ _ _ _ _ _ _). reflexivity.
Qed.

Lemma build_robot_calls (self : NetworkRobotDiscovery) (h : string)
    (listed : list string) (calls : nat) :
  snd (build_robot machine self h listed calls)
  = (calls + length listed + length listed)%nat.
Proof.
  unfold build_robot.
  pose proof (_get_topics_for_nodes_calls self listed calls) as Ht.
  destruct (_get_topics_for_nodes machine self listed calls) as [found calls1].
  cbn [snd] in Ht.
  pose proof (_get_services_for_nodes_calls self listed calls1) as Hs.
  destruct (_get_services_for_nodes machine self listed calls1) as [found' calls2].
  cbn [snd] in *. lia.
Qed.

Lemma build_robot_environ (self other : NetworkRobotDiscovery) (h : string)
    (listed : list string) (calls : nat) :
  environ other = environ self -> current_domain other = current_domain self ->
  build_robot machine other h listed calls = build_robot machine self h listed calls.
Proof.
  intros Henv Hdom. unfold build_robot.
  rewrite (_get_topics_for_nodes_environ self other) by exact Henv.
  destruct (_get_topics_for_nodes machine self listed calls) as [found calls1].
  rewrite (_get_services_for_nodes_environ self other) by exact Henv.
  destruct (_get_services_for_nodes machine self listed calls1) as [found' calls2].
  rewrite Hdom. reflexivity.
Qed.

(** What the loop of [discover_network_robots] does to the dictionary. *)
Lemma record_robots_spec (groups : list (string * list string))
    (self : NetworkRobotDiscovery) (calls : nat) :
  let after := fst (record_robots machine groups self calls) in
  current_domain after = current_domain self /\
  environ after = environ self /\
  (forall h, h ∉ map fst groups ->
     discovered_robots after !! h = discovered_robots self !! h) /\
  (NoDup (map fst groups) ->
   forall h listed, (h, listed) ∈ groups ->
     exists k, (calls <= k)%nat /\
       discovered_robots after !! h
       = Some (fst (build_robot machine self h listed k))).
Proof.
  revert self calls.
  induction groups as [|[h0 l0] rest IH]; intros self calls;
    cbn [record_robots].
  - cbn [fst]. repeat split.
    intros _ h listed Hin. apply elem_of_nil in Hin. contradiction.
  - pose proof (build_robot_calls self h0 l0 calls) as Hb.
    destruct (build_robot machine self h0 l0 calls) as [robot calls1] eqn:Eb.
    cbn [snd] in Hb.
    match goal with
    | |- context [record_robots machine rest ?s calls1] =>
        destruct (IH s calls1) as (Hd & He & Hkeep & Hnew)
    end.
    cbn [current_domain environ discovered_robots] in Hd, He, Hkeep, Hnew.
    repeat split; [exact Hd|exact He| |].
    + intros h Hh. cbn [map fst] in Hh.
      apply not_elem_of_cons in Hh as [Hne Hh].
      rewrite (Hkeep h Hh). apply lookup_insert_ne. congruence.
    + intros Hnd h listed Hin. cbn [map fst] in Hnd.
      apply NoDup_cons in Hnd as [Hfresh Hnd].
      apply elem_of_cons in Hin as [Hin|Hin].
      * injection Hin as -> ->. exists calls. split; [lia|].
        rewrite (Hkeep h0 Hfresh), lookup_insert_eq, Eb. reflexivity.
      * destruct (Hnew Hnd h listed Hin) as (k & Hk & Hlook).
        exists k. split; [lia|]. rewrite Hlook. f_equal. f_equal.
        apply build_robot_environ; reflexivity.
Qed.

(** X29. A discovery only adds and refreshes robots. The dictionary it
    returns is the one the service keeps, the domain and the environment
    stay as they are, a robot whose host has no node in this round is kept
    as it was, however old, and every host with a group of nodes gets a
    robot built from that group: its nodes, the two scans of their
    descriptions, the current domain and the time after the scans. No robot
    is ever forgotten. Without a group the service does not change: so
    it is when [ros2 node list] raises or reports a failure. *)
Theorem discovery_adds_or_refreshes (self : NetworkRobotDiscovery) (calls : nat) :
  let groups := fst (_get_nodes_by_hostname machine self calls) in
  let result := fst (fst (discover_network_robots machine self calls)) in
  let after := snd (fst (discover_network_robots machine self calls)) in
  result = discovered_robots after /\
  current_domain after = current_domain self /\
  environ after = environ self /\
  (forall h, h ∉ map fst groups -> result !! h = discovered_robots self !! h) /\
  (forall h listed, (h, listed) ∈ groups ->
     exists k, (calls < k)%nat /\
               result !! h = Some (fst (build_robot machine self h listed k))) /\
  (forall h, is_Some (discovered_robots self !! h) -> is_Some (result !! h)) /\
  (groups = [] -> after = self) /\
  (match run machine calls (environ self) ["ros2"; "node"; "list"] with
   | Some result => returncode result <> 0
   | None => True
   end -> after = self).
Proof.
  pose proof (no_groups_on_failure machine self calls) as Hfail.
  unfold discover_network_robots.
  pose proof (nodes_by_hostname_facts machine self calls) as [Hnd Hcalls].
  destruct (_get_nodes_by_hostname machine self calls) as [groups calls0].
  cbn [fst snd] in *.
  destruct (record_robots_spec groups self calls0) as (Hd & He & Hkeep & Hnew).
  assert (Hsame : groups = [] ->
            fst (record_robots machine groups self calls0) = self)
    by (intros ->; reflexivity).
  destruct (record_robots machine groups self calls0) as [after calls1].
  cbn [fst snd] in *.
  assert (Hfound : forall h listed, (h, listed) ∈ groups ->
            exists k, (calls < k)%nat /\
              discovered_robots after !! h
              = Some (fst (build_robot machine self h listed k))).
  { intros h listed Hin. destruct (Hnew Hnd h listed Hin) as (k & Hk & Hlook).
    exists k. split; [lia|exact Hlook]. }
  repeat split; try assumption.
  - intros h Hsome. destruct (decide (h ∈ map fst groups)) as [Hin|Hout].
    + apply list_elem_of_fmap in Hin as ([h' listed] & -> & Hin).
      destruct (Hfound h' listed Hin) as (k & _ & Hlook).
      cbn [fst]. rewrite Hlook. eauto.
    + rewrite (Hkeep h Hout). exact Hsome.
  - intros H. apply Hsame, Hfail, H.
Qed.

End RecordedRobots.

(** The sample network: the node that names its host becomes a robot of
    its own, under the lower-cased name; the two others, one of them
    unreachable, are filed under the local host name. *)
Section SampleNetwork.
Import PyStr NetworkDiscovery.

Example sample_discovery :
  let result :=
    fst (fst (discover_network_robots sample_machine (new_discovery ∅) 0)) in
  fst (_get_nodes_by_hostname sample_machine (new_discovery ∅) 0)
  = [("robot1", ["/talker"]); ("desk", ["/listener"; "/lost"])] /\
  result !! "robot1"
  = Some {| hostname := "robot1"; domain_id := 0; nodes := ["/talker"];
            topics := ["/camera/image_raw"; "/chatter"; "/parameter_events"];
            services := ["/talker/get_parameters"]; last_seen := 1008 |} /\
  result !! "desk"
  = Some {| hostname := "desk"; domain_id := 0; nodes := ["/listener"; "/lost"];
            topics := ["/chatter"];
            services := ["/listener/set_parameters"]; last_seen := 1012 |}.
Proof. vm_compute. repeat split. Qed.

End SampleNetwork.
